(* ===== verification/_CoqProject ===== *)
-Q . S2P
Prelude.v
Word.v
Mem.v
Proc.v
Signal.v
SignalTypes.v
Spinlock.v
Sched.v
Kalloc.v
Pipe.v
Block.v
Log.v
Bio.v
Ide.v
Fs.v
FsBlocks.v
FsInode.v
FsData.v
FsCrash.v
Dir.v
Mkfs.v
Mp.v
Vm.v
Kvm.v
Balance.v
File.v
Sysfile.v
FileBalance.v
Exec.v
Boot.v
Trap.v
Devices.v
Main.v
Console.v
Kbd.v
Printf.v
Umalloc.v
Text.v
Sh.v
User.v
Filters.v
Shell.v
Cpu.v
Asm.v
Entry.v
