(* ===== verification/Prelude.v ===== *)
(** * xv6 with signals and CAS-based process states: a verification library

    xv6 is a small Unix for i386 multiprocessors.  This version adds signals
    (kill with a signal number, masks, handlers that run on the user stack and
    return through an injected sigret) and replaces the lock of the process
    table by compare-and-swap on the process states, with negative values for
    states that are being left or entered.  The library models the kernel, its
    assembly, the boot code, the user library and programs and the builder of
    the disk image, as functions that can be evaluated, and proves what each
    part promises to the others.

    ** How the parts fit together

    The boot sector loads the kernel, whose entry point turns on paging and
    calls main; main initialises the memory, the tables of the processor and
    the devices, starts the other processors and makes the first process.  A
    trap builds a trap frame, trap dispatches it to a driver, to the clock or
    to a system call, and on the way back to user mode handle_signals may
    change the frame.  System calls work on files (descriptor table, file
    table, directories, inodes, log, buffer cache, disk driver, each using
    only the next), on pipes, on address spaces (exec, page tables, page
    allocator) and on processes (fork, wait, exit, sleep, wakeup, kill, the
    scheduler).  The user library and the programs see the kernel through the
    system calls.

    ** Conventions

    A C function that changes state is a computation of the monad [M] below:
    [Ret] with the new state, [Panic] with the message of the code, or [Wait]
    when the calling process sleeps or a processor spins.  Functions without
    effects are plain functions; code that runs on several processors at once
    is a step relation; user programs are interaction trees over the system
    calls.  Integers are of type Z with the wrap-around of their C type written
    where the code can reach it ([u8], [u16], [u32], [s32] of Word.v); memory
    is a function from addresses to bytes.  Code that is not in the repository
    (the linker's addresses, the firmware's tables, the answers of devices, C
    functions seen from assembly) is an argument, and what is assumed of it is
    a hypothesis of the theorem, met by a concrete instance in its witness.
    The main theorems with hypotheses have a lemma [.._witness] that applies
    them to concrete data.

    ** Files

    Foundations
    - Prelude.v: the monad, tactics and lists of steps.
    - Word.v: types.h, param.h, memlayout.h and the address macros of mmu.h.
    - Mem.v: memory and string.c, ulib.c.
    - Proc.v: struct proc, trapframe and context (proc.h, x86.h) and cas.

    Processes and signals
    - Signal.v, SignalTypes.v: proc.c from kill to handle_signals, the signal
      calls of sysproc.c, syscall.c, sigretasm.S.  A delivered handler runs
      with its argument and mask and sigret restores the interrupted frame and
      mask ([signal_roundtrip]); blocked signals stay pending; every field
      stays inside its C type.  Three theorems show defects: the mask and
      frame of an interrupted handler are lost by a nested signal, sigaction
      checks the size of the wrong type, and the eax of a restored frame is
      overwritten by the result of sigret.
    - Spinlock.v: spinlock.c, sleeplock.c.  One access per step on any number
      of processors: mutual exclusion; nesting of pushcli and popcli.  The
      class [HasLock] is what the other components use of a lock.
    - Sched.v: allocproc, fork, exit, wait, scheduler, sched, yield, sleep,
      wakeup1 and kill of proc.c, one atomic access per step on any number of
      processors.  When the compare-and-swaps after swtch in scheduler are one
      step, no process runs on two processors and no compare-and-swap that the
      code insists on fails; three executions show what happens as written
      ([finish_race], [lost_wakeup], [exit_wait_deadlock]).
    - Trap.v: trap.c and the clock calls of sysproc.c: gates, dispatch, a
      killed process never returns to user mode, sleep.
    - Cpu.v: segments, task state and table registers (mmu.h, seginit,
      switchuvm, x86.h), mycpu, myproc, forkret, procdump, the output of
      panic.
    - Asm.v: swtch.S, trapasm.S, vectors.pl, usys.S, initcode.S and the stack
      that allocproc prepares, executed on registers and memory.  A trap and
      its return are inverse up to what the C code changes in the frame, swtch
      behaves as a call that returns when its context is resumed, a new
      process starts from its frame, the stubs pass number, arguments and
      result.

    Memory
    - Kalloc.v: kalloc.c.  The free list in the pages; no page is given out
      twice.
    - Vm.v: vm.c.  [pte_at] reads the entry of an address; mappages,
      allocuvm and the others change exactly the entries they should and
      preserve [pt_ok], the separation of directory, tables and free pages.
    - Kvm.v: kvmalloc and switchkvm.  From kinit1 to the kernel's page table
      with its exact map, in 65 pages.
    - Exec.v: exec.c, loaduvm, switchuvm, growproc, userinit, sbrk.  The stack
      of the new program; a failing exec leaves the old one.

    Files
    - Block.v: what the buffer cache promises (class of block operations).
    - Bio.v: bio.c over memide.c implements it.
    - Ide.v: ide.c with the controller refines the synchronous memide.c.
    - Log.v: log.c.  A crash at any disk write of a commit, and in any number
      of recoveries, leaves all or nothing; the log cannot overflow within
      the reservation of begin_op.
    - Fs.v, FsBlocks.v, FsInode.v, FsData.v: fs.c below directories.  balloc
      and bfree on the bitmap; the inode cache; readi and writei on the file
      as a function from offsets to bytes.
    - FsCrash.v: writei, commit and recovery together are atomic.
    - Dir.v: directories and path names of fs.c.
    - Pipe.v: pipe.c refines a queue, also when its counters wrap around.
    - File.v, Sysfile.v: file.c, sysfile.c.
    - Balance.v, FileBalance.v: every file system call, on every path that
      returns, releases what it acquired (transactions, inode locks, inode and
      file references).
    - Mkfs.v: mkfs.c.  The kernel's own readi and dirlookup find in the image
      the files that were put in.

    Devices and start
    - Console.v, Kbd.v: console.c refines a line discipline; kbd.c.
    - Devices.v: ioapic.c, lapic.c, picirq.c, uart.c.
    - Mp.v: mp.c; its loop does not end on an entry of unknown type.
    - Boot.v: bootmain.c loads every segment of an ELF kernel.
    - Entry.v: bootasm.S, entry.S, entryother.S, asm.h.
    - Main.v: startothers and entrypgdir of main.c, interleaved with the
      processors that it starts.

    User side
    - Printf.v, Umalloc.v: printf.c agrees with cprintf; malloc and free keep
      the blocks in use apart.
    - Text.v, Filters.v: grep.c and wc.c, first on texts and then as programs.
    - User.v: the other programs.
    - Sh.v, Shell.v: the parser of sh.c; runcmd and main refine a semantics of
      command lines without file descriptors.

    ** Bounds and fuel

    Loops with a counter recurse on it.  Other loops take fuel that is a
    measure of the data: the length of a string, the pages of a range, the
    bytes left to read, the length of a list in memory; the definitions compute
    it themselves or the theorems state that it is enough and that the result
    is returned.  The running of user programs, of Mp.mpinit and of waiting for
    a device takes fuel as an argument, and the theorems say that from some
    fuel on the result is the same.  Where a loop of the code may not end (a
    device that stays busy, a configuration table with an unknown entry) this
    is a result of the model.

    ** Not modelled

    - The test programs (usertests.c, forktest.c, stressfs.c, test.c): calls
      with checks that no other part uses.
    - main of main.c beyond kinit1, kvmalloc and startothers: it is a list of
      calls, and each initialisation function is modelled with its component,
      except consoleinit, which fills in devsw.  The stops at the end of
      bootasm.S and entryother.S.
    - The translation of addresses in every access: kernel memory is indexed
      by kernel virtual addresses, user memory is the view that the page
      directory gives ([user_view] of Exec.v), and the hardware walk is only
      used for the first directory (Main.v).
    - Weak memory: accesses of processors interleave in some order, which the
      locked instructions and the volatile accesses of the code rely on.
    - The heap nodes of the shell's commands: they are an inductive type.
    - Times: microdelay does nothing, as in the code. *)

From Stdlib Require Export ZArith Lia ZifyBool.
From stdpp Require Export base list gmap strings numbers.

#[export] Set Default Goal Selector "!".

(** ** Tactics and hint databases *)

Create HintDb xv6.
Create Rewrite HintDb xv6_rw.

(** Turn boolean comparisons of the code into propositions. *)
Ltac to_prop :=
  repeat match goal with
  | H : context [negb _ = true] |- _ => rewrite negb_true_iff in H
  | H : context [negb _ = false] |- _ => rewrite negb_false_iff in H
  | H : (_ && _)%bool = true |- _ => apply andb_true_iff in H; destruct H
  | H : (_ || _)%bool = false |- _ => apply orb_false_iff in H; destruct H
  | H : (_ || _)%bool = true |- _ => apply orb_true_iff in H
  | H : (_ && _)%bool = false |- _ => apply andb_false_iff in H
  | H : (_ =? _)%Z = true |- _ => apply Z.eqb_eq in H
  | H : (_ =? _)%Z = false |- _ => apply Z.eqb_neq in H
  | H : (_ <? _)%Z = true |- _ => apply Z.ltb_lt in H
  | H : (_ <? _)%Z = false |- _ => apply Z.ltb_ge in H
  | H : (_ <=? _)%Z = true |- _ => apply Z.leb_le in H
  | H : (_ <=? _)%Z = false |- _ => apply Z.leb_gt in H
  | H : (_ =? _)%nat = true |- _ => apply Nat.eqb_eq in H
  | H : (_ =? _)%nat = false |- _ => apply Nat.eqb_neq in H
  | H : (_ <? _)%nat = true |- _ => apply Nat.ltb_lt in H
  | H : (_ <? _)%nat = false |- _ => apply Nat.ltb_ge in H
  | H : bool_decide _ = true |- _ => apply bool_decide_eq_true in H
  | H : bool_decide _ = false |- _ => apply bool_decide_eq_false in H
  end.

(** Case analysis on the conditions of the code, in the goal or in a
    hypothesis. *)
Ltac case_if :=
  match goal with
  | |- context [if ?b then _ else _] =>
      lazymatch b with context [if _ then _ else _] => fail | _ => destruct b eqn:? end
  end.

Ltac case_if_in H :=
  match type of H with
  | context [if ?b then _ else _] =>
      lazymatch b with context [if _ then _ else _] => fail | _ => destruct b eqn:? end
  end.

Ltac case_ifs := repeat case_if; to_prop.

(** One hypothesis for each element of the lists. *)
Ltac split_Forall :=
  repeat match goal with H : Forall _ (_ :: _) |- _ => apply Forall_cons_1 in H as [? H] end.

(** ** Outcomes of kernel code

    A call of the kernel returns ([Ret]), stops the machine ([Panic], the
    call of [panic] in console.c), or cannot go on before another thread
    acts ([Wait]): it spins on a lock, or it sleeps on a channel.  The state
    carried by [Wait] is the one the thread leaves behind. *)

Inductive wchan :=
| Spin
| On (chan : Z).

Inductive outcome (S A : Type) :=
| Ret (s : S) (a : A)
| Panic (msg : string)
| Wait (c : wchan) (s : S).
Arguments Ret {S A} s a.
Arguments Panic {S A} msg.
Arguments Wait {S A} c s.

Definition M (S A : Type) : Type := S -> outcome S A.

#[export] Instance M_ret {S} : MRet (M S) := fun A a s => Ret s a.

#[export] Instance M_bind {S} : MBind (M S) := fun A B f m s =>
  match m s with
  | Ret s' a => f a s'
  | Panic e => Panic e
  | Wait c s' => Wait c s'
  end.

Definition get {S} : M S S := fun s => Ret s s.
Definition put {S} (s : S) : M S unit := fun _ => Ret s tt.
Definition modify {S} (f : S -> S) : M S unit := fun s => Ret (f s) tt.
Definition panic {S A} (msg : string) : M S A := fun _ => Panic msg.
Definition waiton {S A} (c : wchan) : M S A := fun s => Wait c s.

Section monad.
Context {S A B : Type}.

Lemma bind_ret (m : M S A) (k : A -> M S B) s s' a :
  m s = Ret s' a -> (m ≫= k) s = k a s'.
Proof. intros H. unfold mbind, M_bind. by rewrite H. Qed.

Lemma bind_inv (m : M S A) (k : A -> M S B) s s'' b :
  (m ≫= k) s = Ret s'' b -> exists s' a, m s = Ret s' a /\ k a s' = Ret s'' b.
Proof. unfold mbind, M_bind. destruct (m s); naive_solver. Qed.

Lemma bind_assoc {C} (m : M S A) (k : A -> M S B) (l : B -> M S C) s :
  ((m ≫= k) ≫= l) s = (m ≫= (fun a => k a ≫= l)) s.
Proof. unfold mbind, M_bind. by destruct (m s). Qed.

End monad.

Ltac inv_bind H :=
  let s := fresh "s" in let a := fresh "a" in let E := fresh "E" in
  apply bind_inv in H as (s & a & E & H).

(** ** Executions of step relations *)

Section steps.
Context {S : Type} (step : S -> S -> Prop).

Inductive steps : S -> S -> Prop :=
| steps_refl s : steps s s
| steps_cons s1 s2 s3 : step s1 s2 -> steps s2 s3 -> steps s1 s3.

Lemma steps_one s1 s2 : step s1 s2 -> steps s1 s2.
Proof. intros H. econstructor; [exact H | constructor]. Qed.

Lemma steps_trans s1 s2 s3 : steps s1 s2 -> steps s2 s3 -> steps s1 s3.
Proof. induction 1; [done | intros; econstructor; eauto]. Qed.

(** Rule induction: a property that holds initially and that every step
    preserves holds in every reachable state. *)
Lemma steps_invariant (P : S -> Prop) :
  (forall s s', step s s' -> P s -> P s') -> forall s s', steps s s' -> P s -> P s'.
Proof. intros Hstep s s'. induction 1; eauto. Qed.

End steps.

#[export] Hint Constructors steps : xv6.
