(* ===== verification/Word.v ===== *)
(** Machine words of the i386 target: unsigned and signed views of 8-, 16-
    and 32-bit integers (types.h), single-bit masks as proc.c uses them, and
    the address macros of mmu.h and memlayout.h. *)

From S2P Require Import Prelude.

Local Open Scope Z_scope.

(** ** Integer types *)

Definition W32 : Z := 2 ^ 32.

(** [uint], [ushort], [uchar]: conversion to an unsigned type is reduction
    modulo the width. *)
Definition u32 (z : Z) : Z := z mod 2 ^ 32.
Definition u16 (z : Z) : Z := z mod 2 ^ 16.
Definition u8 (z : Z) : Z := z mod 2 ^ 8.

(** [int], [short]: the two's complement value with the same bits. *)
Definition s32 (z : Z) : Z := (z + 2 ^ 31) mod 2 ^ 32 - 2 ^ 31.
Definition s16 (z : Z) : Z := (z + 2 ^ 15) mod 2 ^ 16 - 2 ^ 15.

Definition is_u32 (z : Z) : Prop := 0 <= z < 2 ^ 32.
Definition is_s32 (z : Z) : Prop := - 2 ^ 31 <= z < 2 ^ 31.

Lemma u32_range z : is_u32 (u32 z).
Proof. apply Z.mod_pos_bound. lia. Qed.

Lemma u32_small z : is_u32 z -> u32 z = z.
Proof. intros H. by apply Z.mod_small. Qed.

Lemma u32_idemp z : u32 (u32 z) = u32 z.
Proof. apply u32_small, u32_range. Qed.

Lemma s32_range z : is_s32 (s32 z).
Proof.
  unfold s32, is_s32. pose proof (Z.mod_pos_bound (z + 2 ^ 31) (2 ^ 32)). lia.
Qed.

Lemma s32_small z : is_s32 z -> s32 z = z.
Proof. unfold is_s32, s32. intros H. rewrite Z.mod_small; lia. Qed.

Lemma u32_s32 z : u32 (s32 z) = u32 z.
Proof.
  unfold u32, s32. rewrite Zminus_mod, Zmod_mod, <- Zminus_mod. f_equal. lia.
Qed.

Lemma u32_add_l a b : u32 (u32 a + b) = u32 (a + b).
Proof. unfold u32. apply Zplus_mod_idemp_l. Qed.

Lemma u32_add_r a b : u32 (a + u32 b) = u32 (a + b).
Proof. unfold u32. apply Zplus_mod_idemp_r. Qed.

Lemma u32_sub_l a b : u32 (u32 a - b) = u32 (a - b).
Proof. unfold u32. apply Zminus_mod_idemp_l. Qed.

Lemma u8_range z : 0 <= u8 z < 256.
Proof. apply Z.mod_pos_bound. lia. Qed.

Lemma u8_small z : 0 <= z < 256 -> u8 z = z.
Proof. intros H. by apply Z.mod_small. Qed.

#[export] Hint Rewrite u32_idemp u32_s32 u32_add_l u32_add_r u32_sub_l : xv6_rw.
#[export] Hint Resolve u32_range s32_range : xv6.

(** ** Single-bit masks: [x & (1 << i)], [x | (1 << i)], [x & ~(1 << i)],
    [x ^ (1 << i)] on a [uint] *)

Definition mask (i : Z) : Z := u32 (Z.shiftl 1 i).

Definition bit_test (x i : Z) : bool := negb (Z.land x (mask i) =? 0).
Definition bit_set (x i : Z) : Z := Z.lor x (mask i).
Definition bit_clear (x i : Z) : Z := Z.land x (u32 (Z.lnot (Z.shiftl 1 i))).
Definition bit_flip (x i : Z) : Z := Z.lxor x (mask i).

Lemma mask_pow i : 0 <= i < 32 -> mask i = 2 ^ i.
Proof.
  intros H. unfold mask, u32. rewrite Z.shiftl_1_l. apply Z.mod_small. split.
  - apply Z.pow_nonneg. lia.
  - apply Z.pow_lt_mono_r; lia.
Qed.

Lemma testbit_mask i j : 0 <= i < 32 -> 0 <= j -> Z.testbit (mask i) j = (i =? j).
Proof. intros Hi Hj. rewrite mask_pow by done. apply Z.pow2_bits_eqb. lia. Qed.

Lemma bit_test_testbit x i : 0 <= i < 32 -> bit_test x i = Z.testbit x i.
Proof.
  intros Hi. unfold bit_test. rewrite mask_pow by done.
  destruct (Z.testbit x i) eqn:E.
  - apply negb_true_iff, Z.eqb_neq. intros H.
    apply (f_equal (fun z => Z.testbit z i)) in H.
    rewrite Z.land_spec, E, Z.pow2_bits_true, Z.bits_0 in H by lia. done.
  - apply negb_false_iff, Z.eqb_eq, Z.bits_inj'. intros j Hj.
    rewrite Z.land_spec, Z.bits_0, Z.pow2_bits_eqb by lia.
    destruct (Z.eqb_spec i j) as [->|]; [by rewrite E | by rewrite andb_false_r].
Qed.

Lemma testbit_set x i j :
  0 <= i < 32 -> 0 <= j -> Z.testbit (bit_set x i) j = Z.testbit x j || (i =? j).
Proof. intros. unfold bit_set. by rewrite Z.lor_spec, testbit_mask. Qed.

Lemma testbit_flip x i j :
  0 <= i < 32 -> 0 <= j -> Z.testbit (bit_flip x i) j = xorb (Z.testbit x j) (i =? j).
Proof. intros. unfold bit_flip. by rewrite Z.lxor_spec, testbit_mask. Qed.

Lemma testbit_u32 x j : 0 <= j -> Z.testbit (u32 x) j = (j <? 32) && Z.testbit x j.
Proof. intros. unfold u32. by rewrite Z.testbit_mod_pow2 by lia. Qed.

Lemma testbit_clear x i j :
  0 <= i < 32 -> 0 <= j -> j < 32 ->
  Z.testbit (bit_clear x i) j = Z.testbit x j && negb (i =? j).
Proof.
  intros. unfold bit_clear. rewrite Z.land_spec, testbit_u32, Z.lnot_spec by lia.
  rewrite Z.shiftl_1_l, Z.pow2_bits_eqb by lia.
  by destruct (Z.ltb_spec j 32); [|lia].
Qed.

Lemma testbit_above x j : is_u32 x -> 32 <= j -> Z.testbit x j = false.
Proof.
  intros Hx Hj. rewrite <- (u32_small x) by done. rewrite testbit_u32 by lia.
  by destruct (Z.ltb_spec j 32); [lia|].
Qed.

Lemma u32_ext x y :
  is_u32 x -> is_u32 y -> (forall j, 0 <= j < 32 -> Z.testbit x j = Z.testbit y j) -> x = y.
Proof.
  intros Hx Hy H. apply Z.bits_inj'. intros j Hj.
  destruct (decide (j < 32)); [by apply H; lia|].
  rewrite !testbit_above by (done || lia). done.
Qed.

Lemma is_u32_bits x : 0 <= x -> (forall j, 32 <= j -> Z.testbit x j = false) -> is_u32 x.
Proof.
  intros Hx H. split; [done|]. destruct (Z.eq_dec x 0) as [->|Hne]; [lia|].
  apply Z.log2_lt_pow2; [lia|].
  destruct (Z.lt_ge_cases (Z.log2 x) 32); [done|].
  pose proof (H (Z.log2 x) ltac:(lia)) as Hb. by rewrite Z.bit_log2 in Hb by lia.
Qed.

Lemma bit_set_u32 x i : 0 <= i < 32 -> is_u32 x -> is_u32 (bit_set x i).
Proof.
  intros Hi Hx. apply is_u32_bits.
  - unfold bit_set. rewrite mask_pow by done. apply Z.lor_nonneg.
    split; [apply Hx | apply Z.pow_nonneg; lia].
  - intros j Hj. rewrite testbit_set by lia. rewrite testbit_above by done.
    apply Z.eqb_neq. lia.
Qed.

Lemma bit_clear_u32 x i : is_u32 x -> is_u32 (bit_clear x i).
Proof.
  intros Hx. apply is_u32_bits.
  - apply Z.land_nonneg. left. apply Hx.
  - intros j Hj. unfold bit_clear. by rewrite Z.land_spec, testbit_above.
Qed.

Lemma bit_flip_u32 x i : 0 <= i < 32 -> is_u32 x -> is_u32 (bit_flip x i).
Proof.
  intros Hi Hx. apply is_u32_bits.
  - unfold bit_flip. rewrite mask_pow by done. apply Z.lxor_nonneg.
    split; intros; [apply Z.pow_nonneg; lia | apply Hx].
  - intros j Hj. rewrite testbit_flip by lia. rewrite testbit_above by done.
    apply Z.eqb_neq. lia.
Qed.

#[export] Hint Resolve bit_set_u32 bit_clear_u32 bit_flip_u32 : xv6.

(** ** Constants (param.h, types.h, memlayout.h, mmu.h) *)

Definition NPROC : Z := 64.
Definition KSTACKSIZE : Z := 4096.
Definition NCPU : Z := 8.
Definition NOFILE : Z := 16.
Definition NFILE : Z := 100.
Definition NINODE : Z := 50.
Definition NDEV : Z := 10.
Definition ROOTDEV : Z := 1.
Definition MAXARG : Z := 32.
Definition MAXOPBLOCKS : Z := 10.
Definition LOGSIZE : Z := MAXOPBLOCKS * 3.
Definition NBUF : Z := MAXOPBLOCKS * 3.
Definition FSSIZE : Z := 1000.

(** fcntl.h *)
Definition O_RDONLY : Z := 0x000.
Definition O_WRONLY : Z := 0x001.
Definition O_RDWR : Z := 0x002.
Definition O_CREATE : Z := 0x200.

Definition EXTMEM : Z := 0x100000.
Definition PHYSTOP : Z := 0xE000000.
Definition DEVSPACE : Z := 0xFE000000.
Definition KERNBASE : Z := 0x80000000.
Definition KERNLINK : Z := KERNBASE + EXTMEM.

Definition V2P (a : Z) : Z := u32 (a - KERNBASE).
Definition P2V (a : Z) : Z := u32 (a + KERNBASE).

Definition PGSIZE : Z := 4096.
Definition PTXSHIFT : Z := 12.
Definition PDXSHIFT : Z := 22.

Definition PDX (va : Z) : Z := Z.land (Z.shiftr (u32 va) PDXSHIFT) 0x3FF.
Definition PTX (va : Z) : Z := Z.land (Z.shiftr (u32 va) PTXSHIFT) 0x3FF.
Definition PGADDR (d t o : Z) : Z :=
  u32 (Z.lor (Z.lor (Z.shiftl d PDXSHIFT) (Z.shiftl t PTXSHIFT)) o).

Definition PGROUNDUP (sz : Z) : Z := Z.land (u32 (sz + PGSIZE - 1)) (u32 (Z.lnot (PGSIZE - 1))).
Definition PGROUNDDOWN (a : Z) : Z := Z.land (u32 a) (u32 (Z.lnot (PGSIZE - 1))).

Definition PTE_P : Z := 0x001.
Definition PTE_W : Z := 0x002.
Definition PTE_U : Z := 0x004.
Definition PTE_PS : Z := 0x080.

Definition PTE_ADDR (pte : Z) : Z := Z.land (u32 pte) (u32 (Z.lnot 0xFFF)).
Definition PTE_FLAGS (pte : Z) : Z := Z.land (u32 pte) 0xFFF.

(** A mask [~(2^k-1)] clears the low bits. *)
Lemma land_lowmask k z :
  0 <= k <= 32 -> Z.land (u32 z) (Z.shiftl (Z.ones (32 - k)) k) = 2 ^ k * (u32 z / 2 ^ k).
Proof.
  intros Hk. assert (Hp : 0 < 2 ^ k) by (apply Z.pow_pos_nonneg; lia). apply u32_ext.
  - apply is_u32_bits; [apply Z.land_nonneg; left; apply u32_range|].
    intros j Hj. by rewrite Z.land_spec, (testbit_above (u32 z)) by eauto with xv6.
  - pose proof (u32_range z) as [H1 H2]. pose proof (Z.mul_div_le (u32 z) (2 ^ k) Hp).
    pose proof (Z.div_pos (u32 z) (2 ^ k) H1 Hp). unfold is_u32 in *. nia.
  - intros j Hj. rewrite Z.mul_comm, Z.land_spec, Z.shiftl_spec, Z.mul_pow2_bits by lia.
    destruct (decide (j < k)).
    + rewrite !(Z.testbit_neg_r _ (j - k)) by lia. apply andb_false_r.
    + rewrite Z.ones_spec_low, andb_true_r by lia. rewrite Z.div_pow2_bits by lia. f_equal. lia.
Qed.

(** [~(PGSIZE-1)] clears the page offset, [~3] aligns to words. *)
Lemma land_pgmask z : Z.land (u32 z) (u32 (Z.lnot (PGSIZE - 1))) = PGSIZE * (u32 z / PGSIZE).
Proof. exact (land_lowmask 12 z ltac:(lia)). Qed.

Lemma land_wordmask z : Z.land (u32 z) (u32 (Z.lnot 3)) = 4 * (u32 z / 4).
Proof. exact (land_lowmask 2 z ltac:(lia)). Qed.

Lemma PGROUNDDOWN_spec a : is_u32 a -> PGROUNDDOWN a = PGSIZE * (a / PGSIZE).
Proof. intros H. unfold PGROUNDDOWN. by rewrite land_pgmask, (u32_small a). Qed.

Lemma PGROUNDUP_spec a :
  0 <= a <= 2 ^ 32 - PGSIZE -> PGROUNDUP a = PGSIZE * ((a + PGSIZE - 1) / PGSIZE).
Proof.
  intros H. unfold PGROUNDUP. rewrite land_pgmask, u32_small; [done|].
  unfold is_u32, PGSIZE in *. lia.
Qed.

(** A virtual address is its directory index, table index and offset. *)
Lemma testbit_PDX va j : 0 <= j -> Z.testbit (PDX va) j = (j <? 10) && Z.testbit (u32 va) (j + 22).
Proof.
  intros Hj. unfold PDX. change 0x3FF with (Z.ones 10).
  rewrite Z.land_ones, Z.testbit_mod_pow2, Z.shiftr_spec by lia. done.
Qed.

Lemma testbit_PTX va j : 0 <= j -> Z.testbit (PTX va) j = (j <? 10) && Z.testbit (u32 va) (j + 12).
Proof.
  intros Hj. unfold PTX. change 0x3FF with (Z.ones 10).
  rewrite Z.land_ones, Z.testbit_mod_pow2, Z.shiftr_spec by lia. done.
Qed.

(** Splitting a 32-bit virtual address with PDX and PTX and
    putting it together again with PGADDR gives the address back. *)
Theorem PGADDR_roundtrip (va : Z) :
  PGADDR (PDX va) (PTX va) (Z.land (u32 va) 0xFFF) = u32 va.
Proof.
  unfold PGADDR. apply u32_ext; [apply u32_range..|]. intros j Hj.
  rewrite testbit_u32, !Z.lor_spec, !Z.shiftl_spec by lia.
  change 0xFFF with (Z.ones 12). rewrite Z.land_ones, Z.testbit_mod_pow2 by lia.
  destruct (Z.ltb_spec j 32); [|lia]. unfold PDXSHIFT, PTXSHIFT. simpl.
  destruct (decide (j < 12)) as [Hlo|Hlo].
  { rewrite !(Z.testbit_neg_r _ (_ - _)) by lia. by destruct (Z.ltb_spec j 12); [|lia]. }
  rewrite testbit_PTX by lia. destruct (Z.ltb_spec j 12); [lia|].
  replace (j - 12 + 12) with j by lia. rewrite orb_false_r.
  destruct (decide (j < 22)) as [Hmid|Hmid].
  { rewrite (Z.testbit_neg_r _ (j - 22)) by lia. by destruct (Z.ltb_spec (j - 12) 10); [|lia]. }
  rewrite testbit_PDX by lia. replace (j - 22 + 22) with j by lia.
  destruct (Z.ltb_spec (j - 22) 10); [|lia]. destruct (Z.ltb_spec (j - 12) 10); [lia|].
  by rewrite orb_false_r.
Qed.
