(* ===== verification/Mem.v ===== *)
(** Byte-addressed memory and the C string routines: the kernel's string.c
    and the user library's ulib.c.  Memory is a total map from addresses to
    bytes.  Loops bounded by a count recurse on the count; loops that only
    stop at a NUL take fuel, and the theorems give the fuel that suffices. *)

From S2P Require Import Prelude Word.

Local Open Scope Z_scope.

Definition mem : Type := Z -> Z.

Definition upd (m : mem) (a v : Z) : mem := fun x => if x =? a then v else m x.

Definition store8 (m : mem) (a v : Z) : mem := upd m a (u8 v).

Definition load32 (m : mem) (a : Z) : Z :=
  m a + 2 ^ 8 * m (a + 1) + 2 ^ 16 * m (a + 2) + 2 ^ 24 * m (a + 3).

Definition store32 (m : mem) (a v : Z) : mem :=
  let m1 := store8 m a v in
  let m2 := store8 m1 (a + 1) (Z.shiftr v 8) in
  let m3 := store8 m2 (a + 2) (Z.shiftr v 16) in
  store8 m3 (a + 3) (Z.shiftr v 24).

Definition bytes_at (m : mem) (a : Z) (n : nat) : list Z :=
  map (fun i => m (a + Z.of_nat i)) (seq 0 n).

(** ** string.c *)

(** rep stosb / rep stosl (x86.h) *)
Fixpoint stosb (cnt : nat) (m : mem) (addr data : Z) : mem :=
  match cnt with
  | O => m
  | S cnt' => stosb cnt' (store8 m addr data) (addr + 1) data
  end.

Fixpoint stosl (cnt : nat) (m : mem) (addr data : Z) : mem :=
  match cnt with
  | O => m
  | S cnt' => stosl cnt' (store32 m addr data) (addr + 4) data
  end.

Definition memset (m : mem) (dst c n : Z) : mem :=
  if (Z.rem (s32 dst) 4 =? 0) && (n mod 4 =? 0) then
    let c := Z.land c 0xFF in
    stosl (Z.to_nat (n / 4)) m dst
      (Z.lor (Z.lor (Z.lor (Z.shiftl c 24) (Z.shiftl c 16)) (Z.shiftl c 8)) c)
  else stosb (Z.to_nat n) m dst c.

Fixpoint memcmp_loop (n : nat) (m : mem) (s1 s2 : Z) : Z :=
  match n with
  | O => 0
  | S n' => if negb (m s1 =? m s2) then m s1 - m s2 else memcmp_loop n' m (s1 + 1) (s2 + 1)
  end.

Definition memcmp (m : mem) (v1 v2 n : Z) : Z := memcmp_loop (Z.to_nat n) m v1 v2.

Fixpoint copy_down (n : nat) (m : mem) (d s : Z) : mem :=
  match n with
  | O => m
  | S n' => copy_down n' (upd m (d - 1) (m (s - 1))) (d - 1) (s - 1)
  end.

Fixpoint copy_up (n : nat) (m : mem) (d s : Z) : mem :=
  match n with
  | O => m
  | S n' => copy_up n' (upd m d (m s)) (d + 1) (s + 1)
  end.

Definition memmove (m : mem) (dst src n : Z) : mem :=
  if (src <? dst) && (dst <? src + n) then copy_down (Z.to_nat n) m (dst + n) (src + n)
  else copy_up (Z.to_nat n) m dst src.

Definition memcpy (m : mem) (dst src n : Z) : mem := memmove m dst src n.

Fixpoint strncmp_loop (n : nat) (m : mem) (p q : Z) : Z :=
  match n with
  | O => 0
  | S n' =>
      if negb (m p =? 0) && (m p =? m q) then strncmp_loop n' m (p + 1) (q + 1)
      else u8 (m p) - u8 (m q)
  end.

Definition strncmp (m : mem) (p q n : Z) : Z := strncmp_loop (Z.to_nat n) m p q.

(** [while(n-- > 0) *s++ = 0] *)
Fixpoint zero_fill (n : nat) (m : mem) (s : Z) : mem :=
  match n with
  | O => m
  | S n' => zero_fill n' (upd m s 0) (s + 1)
  end.

Fixpoint strncpy_loop (n : nat) (m : mem) (s t : Z) : mem :=
  match n with
  | O => m
  | S n' =>
      let c := m t in
      let m := upd m s c in
      if c =? 0 then zero_fill n' m (s + 1) else strncpy_loop n' m (s + 1) (t + 1)
  end.

Definition strncpy (m : mem) (s t n : Z) : mem := strncpy_loop (Z.to_nat n) m s t.

(** [n] counts the values of [n] for which [--n > 0] still holds. *)
Fixpoint safestrcpy_loop (n : nat) (m : mem) (s t : Z) : mem :=
  match n with
  | O => upd m s 0
  | S n' =>
      let c := m t in
      let m := upd m s c in
      if c =? 0 then upd m (s + 1) 0 else safestrcpy_loop n' m (s + 1) (t + 1)
  end.

Definition safestrcpy (m : mem) (s t n : Z) : mem :=
  if n <=? 0 then m else safestrcpy_loop (Z.to_nat (n - 1)) m s t.

Fixpoint strlen_loop (fuel : nat) (m : mem) (s n : Z) : option Z :=
  match fuel with
  | O => None
  | S fuel => if m (s + n) =? 0 then Some n else strlen_loop fuel m s (n + 1)
  end.

Definition strlen (fuel : nat) (m : mem) (s : Z) : option Z := strlen_loop fuel m s 0.

(** ** ulib.c *)

Fixpoint strcpy (fuel : nat) (m : mem) (s t : Z) : option mem :=
  match fuel with
  | O => None
  | S fuel =>
      let c := m t in
      let m := upd m s c in
      if c =? 0 then Some m else strcpy fuel m (s + 1) (t + 1)
  end.

Fixpoint strcmp (fuel : nat) (m : mem) (p q : Z) : option Z :=
  match fuel with
  | O => None
  | S fuel =>
      if negb (m p =? 0) && (m p =? m q) then strcmp fuel m (p + 1) (q + 1)
      else Some (u8 (m p) - u8 (m q))
  end.

Definition umemset (m : mem) (dst c n : Z) : mem := stosb (Z.to_nat n) m dst c.

(** [strchr] returns the address of the character, 0 when it is absent. *)
Fixpoint strchr (fuel : nat) (m : mem) (s c : Z) : option Z :=
  match fuel with
  | O => None
  | S fuel => if m s =? 0 then Some 0 else if m s =? c then Some s else strchr fuel m (s + 1) c
  end.

(** [gets] reads the bytes [input] one [read(0, &c, 1)] at a time; an empty
    input is the [cc < 1] of end of file.  It returns the memory and the
    input left. *)
Fixpoint gets_loop (n : nat) (m : mem) (buf : Z) (input : list Z) : mem * list Z :=
  match n, input with
  | O, _ | _, [] => (upd m buf 0, input)
  | S n', c :: rest =>
      let m := upd m buf c in
      if (c =? 10) || (c =? 13) then (upd m (buf + 1) 0, rest)
      else gets_loop n' m (buf + 1) rest
  end.

Definition gets (m : mem) (buf max : Z) (input : list Z) : mem * list Z :=
  gets_loop (Z.to_nat (max - 1)) m buf input.

Fixpoint atoi_loop (fuel : nat) (m : mem) (s n : Z) : option Z :=
  match fuel with
  | O => None
  | S fuel =>
      if (48 <=? m s) && (m s <=? 57) then atoi_loop fuel m (s + 1) (s32 (n * 10 + m s - 48))
      else Some n
  end.

Definition atoi (fuel : nat) (m : mem) (s : Z) : option Z := atoi_loop fuel m s 0.

Definition umemmove (m : mem) (vdst vsrc n : Z) : mem := copy_up (Z.to_nat n) m vdst vsrc.

(** ** Properties *)

Definition in_range (lo n a : Z) : bool := (lo <=? a) && (a <? lo + n).

Ltac unfold_range := unfold in_range in *; case_ifs; try lia.

Lemma upd_eq m a v : upd m a v a = v.
Proof. unfold upd. by rewrite Z.eqb_refl. Qed.

Lemma upd_ne m a v x : x <> a -> upd m a v x = m x.
Proof. intros H. unfold upd. by destruct (Z.eqb_spec x a). Qed.

Ltac upd_simpl :=
  unfold store8, upd in *; repeat case_if; to_prop; try lia; try congruence.

Lemma copy_up_spec n m d s a :
  d <= s \/ s + Z.of_nat n <= d ->
  copy_up n m d s a = if in_range d (Z.of_nat n) a then m (s + (a - d)) else m a.
Proof.
  revert m d s. induction n as [|n IH]; intros m d s H; cbn [copy_up].
  - by unfold_range.
  - rewrite IH by lia. unfold upd, in_range. case_ifs; try lia; f_equal; lia.
Qed.

Lemma copy_down_spec n m d s a :
  s <= d ->
  copy_down n m d s a =
    if in_range (d - Z.of_nat n) (Z.of_nat n) a then m (s + (a - d)) else m a.
Proof.
  revert m d s. induction n as [|n IH]; intros m d s H; cbn [copy_down].
  - by unfold_range.
  - rewrite IH by lia. unfold upd, in_range. case_ifs; try lia; f_equal; lia.
Qed.

(** Memmove copies the n bytes at src as they were before
    the call to dst, for every overlap of the two ranges, and changes nothing
    else. *)
Theorem memmove_spec (m : mem) (dst src n a : Z) :
  memmove m dst src n a = if in_range dst n a then m (src + (a - dst)) else m a.
Proof.
  unfold memmove. destruct (Z.leb_spec n 0) as [Hn|Hn].
  { rewrite Z2Nat.nonpos by done. unfold in_range. case_ifs; simpl; done || lia. }
  case_if; to_prop.
  - rewrite copy_down_spec by lia. rewrite Z2Nat.id by lia.
    replace (dst + n - n) with dst by lia. case_if; [f_equal; lia | done].
  - rewrite copy_up_spec, Z2Nat.id by lia. done.
Qed.

Lemma stosb_spec n m d c a :
  stosb n m d c a = if in_range d (Z.of_nat n) a then u8 c else m a.
Proof.
  revert m d. induction n as [|n IH]; intros m d; cbn [stosb].
  - by unfold_range.
  - rewrite IH. unfold store8, upd, in_range. case_ifs; done || lia.
Qed.

Lemma store32_spec m d v a :
  store32 m d v a =
    if in_range d 4 a then u8 (Z.shiftr v (8 * (a - d))) else m a.
Proof.
  unfold store32, store8, upd, in_range.
  repeat case_if; to_prop; try lia; subst; repeat f_equal; try lia.
  - replace (8 * (d - d)) with 0 by lia. done.
Qed.

Lemma store32_out m d v a : a < d \/ d + 4 <= a -> store32 m d v a = m a.
Proof. intros H. rewrite store32_spec. by unfold_range. Qed.

Lemma load32_ext m m' a : (forall x, a <= x < a + 4 -> m' x = m x) -> load32 m' a = load32 m a.
Proof. intros H. unfold load32. by rewrite !H by lia. Qed.

Lemma load32_zero m a : (forall x, a <= x < a + 4 -> m x = 0) -> load32 m a = 0.
Proof. intros H. unfold load32. by rewrite !H by lia. Qed.

Lemma load32_store32_ne m a b v : b + 4 <= a \/ a + 4 <= b -> load32 (store32 m b v) a = load32 m a.
Proof.
  intros H. apply load32_ext. intros x Hx. rewrite store32_spec. by unfold_range.
Qed.

Lemma load32_store32_eq m a v : is_u32 v -> load32 (store32 m a v) a = v.
Proof.
  intros Hv. unfold load32. rewrite !store32_spec. unfold in_range.
  repeat case_if; to_prop; try lia.
  replace (8 * (a - a)) with 0 by lia. replace (8 * (a + 1 - a)) with 8 by lia.
  replace (8 * (a + 2 - a)) with 16 by lia. replace (8 * (a + 3 - a)) with 24 by lia.
  rewrite !Z.shiftr_div_pow2 by lia. unfold u8, is_u32 in *.
  pose proof (Z_div_mod_eq_full v (2 ^ 8)).
  pose proof (Z_div_mod_eq_full (v / 2 ^ 8) (2 ^ 8)).
  pose proof (Z_div_mod_eq_full (v / 2 ^ 16) (2 ^ 8)).
  assert (E1 : v / 2 ^ 16 = v / 2 ^ 8 / 2 ^ 8) by (rewrite Z.div_div by lia; done).
  assert (E2 : v / 2 ^ 24 = v / 2 ^ 16 / 2 ^ 8) by (rewrite Z.div_div by lia; done).
  assert (E3 : (v / 2 ^ 24) mod 2 ^ 8 = v / 2 ^ 24).
  { apply Z.mod_small. split; [apply Z.div_pos; lia | apply Z.div_lt_upper_bound; lia]. }
  change (v / 2 ^ 0) with (v / 1). rewrite Z.div_1_r. lia.
Qed.

Lemma stosl_spec n m d v a :
  stosl n m d v a =
    if in_range d (4 * Z.of_nat n) a then u8 (Z.shiftr v (8 * ((a - d) mod 4))) else m a.
Proof.
  revert m d. induction n as [|n IH]; intros m d; cbn [stosl].
  - by unfold_range.
  - assert (Hm : (a - d) mod 4 = (a - (d + 4)) mod 4).
    { replace (a - d) with (a - (d + 4) + 1 * 4) by lia. apply Z_mod_plus_full. }
    rewrite IH, store32_spec. unfold in_range. case_ifs; try lia; try done.
    + by rewrite Hm.
    + by rewrite (Z.mod_small (a - d)) by lia.
Qed.

Lemma u8_splat c k :
  0 <= k < 4 ->
  u8 (Z.shiftr (Z.lor (Z.lor (Z.lor (Z.shiftl (u8 c) 24) (Z.shiftl (u8 c) 16))
                             (Z.shiftl (u8 c) 8)) (u8 c)) (8 * k)) = u8 c.
Proof.
  intros Hk. apply Z.bits_inj'. intros j Hj. unfold u8 at 1.
  rewrite Z.testbit_mod_pow2, Z.shiftr_spec, !Z.lor_spec, !Z.shiftl_spec by lia.
  assert (Hz : forall i, i < 0 \/ 8 <= i -> Z.testbit (u8 c) i = false).
  { intros i [Hi|Hi]; [by apply Z.testbit_neg_r|].
    unfold u8. by rewrite Z.mod_pow2_bits_high by lia. }
  destruct (Z.ltb_spec j 8); [|by rewrite (Hz j) by lia]. rewrite andb_true_l.
  assert (k = 0 \/ k = 1 \/ k = 2 \/ k = 3) as [->|[->|[->| ->]]] by lia;
    repeat match goal with
    | |- context [Z.testbit (u8 c) ?e] => rewrite (Hz e) by lia
    end;
    rewrite ?orb_false_r, ?orb_false_l; f_equal; lia.
Qed.

Lemma memset_byte (m : mem) (dst c n a : Z) :
  memset m dst c n a = if in_range dst n a then u8 c else m a.
Proof.
  unfold memset. destruct (Z.leb_spec n 0) as [Hn|Hn].
  { assert (n / 4 <= 0) by (apply Z.div_le_upper_bound; lia).
    rewrite !Z2Nat.nonpos by lia. unfold in_range. case_ifs; simpl; done || lia. }
  case_if; to_prop.
  - rewrite stosl_spec. assert (Hd : 0 <= n / 4) by (apply Z.div_pos; lia).
    rewrite Z2Nat.id by done. replace (4 * (n / 4)) with n by (pose proof (Z_div_mod_eq_full n 4); lia).
    change 0xFF with (Z.ones 8). rewrite Z.land_ones by lia. fold (u8 c).
    case_if; [|done]. apply u8_splat. apply Z.mod_pos_bound. lia.
  - rewrite stosb_spec, Z2Nat.id by lia. done.
Qed.

(** The kernel's memset, which stores words when the
    pointer and the length are multiples of 4, fills the range byte for byte
    like the plain stosb loop of the user library. *)
Theorem memset_spec (m : mem) (dst c n a : Z) :
  memset m dst c n a = umemset m dst c n a /\
  memset m dst c n a = if in_range dst n a then u8 c else m a.
Proof.
  split; [|apply memset_byte]. rewrite memset_byte. unfold umemset. rewrite stosb_spec.
  destruct (Z.leb_spec n 0); [rewrite Z2Nat.nonpos by lia | by rewrite Z2Nat.id by lia].
  unfold in_range. case_ifs; simpl; done || lia.
Qed.

(** The NUL-terminated string [l] stands at address [s]. *)
Fixpoint cstr (m : mem) (s : Z) (l : list Z) : Prop :=
  match l with
  | [] => m s = 0
  | c :: l' => 0 < c < 256 /\ m s = c /\ cstr m (s + 1) l'
  end.

Lemma cstr_ext m m' s l :
  (forall a, s <= a <= s + Z.of_nat (length l) -> m' a = m a) -> cstr m s l -> cstr m' s l.
Proof.
  revert s. induction l as [|c l IH]; intros s Hext; cbn [cstr length] in *.
  - by rewrite Hext by lia.
  - intros (Hc & Hm & Hl). split_and!; [lia..| by rewrite Hext by lia |].
    apply IH; [|done]. intros a Ha. apply Hext. lia.
Qed.

Lemma cstr_upd m s l a v :
  a < s \/ s + Z.of_nat (length l) < a -> cstr m s l -> cstr (upd m a v) s l.
Proof. intros Ha. apply cstr_ext. intros x Hx. apply upd_ne. lia. Qed.

Lemma strlen_loop_spec l fuel m s n :
  cstr m (s + n) l -> (length l < fuel)%nat ->
  strlen_loop fuel m s n = Some (n + Z.of_nat (length l)).
Proof.
  revert fuel n. induction l as [|c l IH]; intros fuel n Hc Hf;
    (destruct fuel as [|fuel]; [cbn in Hf; lia|]); cbn [cstr strlen_loop length] in *.
  - rewrite Hc. f_equal. lia.
  - destruct Hc as (Hc & -> & Hl). destruct (Z.eqb_spec c 0); [lia|].
    rewrite IH; [f_equal; lia | by rewrite Z.add_assoc | lia].
Qed.

Lemma strlen_spec fuel m s l :
  cstr m s l -> (length l < fuel)%nat -> strlen fuel m s = Some (Z.of_nat (length l)).
Proof.
  intros Hc Hf. unfold strlen. rewrite (strlen_loop_spec l); [done| |done].
  by rewrite Z.add_0_r.
Qed.

Lemma strncmp_loop_spec n m p q l1 l2 :
  cstr m p l1 -> cstr m q l2 ->
  strncmp_loop n m p q = 0 <-> take n l1 = take n l2.
Proof.
  revert p q l1 l2. induction n as [|n IH]; intros p q l1 l2 H1 H2; [done|].
  destruct l1 as [|c1 l1], l2 as [|c2 l2]; cbn [cstr strncmp_loop take] in *.
  - by rewrite H1, H2.
  - destruct H2 as (Hc & -> & _). rewrite H1. cbn. rewrite !u8_small by lia.
    split; [lia | done].
  - destruct H1 as (Hc & -> & _). rewrite H2. destruct (Z.eqb_spec c1 0); [lia|]. cbn.
    rewrite !u8_small by lia. split; [lia | done].
  - destruct H1 as (Hc1 & -> & H1), H2 as (Hc2 & -> & H2).
    destruct (Z.eqb_spec c1 0); [lia|]. cbn. destruct (Z.eqb_spec c1 c2) as [->|Hne].
    + rewrite (IH _ _ l1 l2) by done. split; [by intros -> | by intros [= ->]].
    + rewrite !u8_small by lia. split; [lia | congruence].
Qed.

(** Strncmp returns 0 exactly when the two NUL-terminated
    strings agree on their first n characters. *)
Theorem strncmp_spec (m : mem) (p q n : Z) (l1 l2 : list Z) :
  cstr m p l1 -> cstr m q l2 ->
  strncmp m p q n = 0 <-> take (Z.to_nat n) l1 = take (Z.to_nat n) l2.
Proof. apply strncmp_loop_spec. Qed.

Lemma zero_fill_spec n m s a :
  zero_fill n m s a = if in_range s (Z.of_nat n) a then 0 else m a.
Proof.
  revert m s. induction n as [|n IH]; intros m s; cbn [zero_fill].
  - by unfold_range.
  - rewrite IH. unfold upd, in_range. case_ifs; done || lia.
Qed.

(** The character at offset [a - s] of [l], 0 past its end. *)
Definition char_at (l : list Z) (i : Z) : Z := nth (Z.to_nat i) l 0.

Lemma char_at_cons c l i : 0 < i -> char_at (c :: l) i = char_at l (i - 1).
Proof.
  intros Hi. unfold char_at. replace (Z.to_nat i) with (S (Z.to_nat (i - 1))) by lia. done.
Qed.

Lemma strncpy_loop_spec n m s t l a :
  cstr m t l -> s + Z.of_nat n <= t \/ t + Z.of_nat (length l) < s ->
  strncpy_loop n m s t a = if in_range s (Z.of_nat n) a then char_at l (a - s) else m a.
Proof.
  revert m s t l. induction n as [|n IH]; intros m s t l Hl Hd; cbn [strncpy_loop].
  { by unfold_range. }
  destruct l as [|c l]; cbn [cstr length] in *.
  - rewrite Hl. cbn. rewrite zero_fill_spec. unfold upd, in_range, char_at.
    case_ifs; try lia; try done; by destruct (Z.to_nat _).
  - destruct Hl as (Hc & -> & Hl). destruct (Z.eqb_spec c 0); [lia|].
    rewrite (IH _ _ _ l); [|apply cstr_upd; [lia|done] | lia].
    unfold upd, in_range. case_ifs; try lia; try done.
    + rewrite char_at_cons by lia. f_equal. lia.
    + replace (a - s) with 0 by lia. done.
Qed.

Lemma strncpy_spec m s t n l a :
  cstr m t l -> s + n <= t \/ t + Z.of_nat (length l) < s -> 0 <= n ->
  strncpy m s t n a = if in_range s n a then char_at l (a - s) else m a.
Proof.
  intros Hl Hd Hn. unfold strncpy. rewrite (strncpy_loop_spec _ _ _ _ l) by (done || lia).
  by rewrite Z2Nat.id.
Qed.

Lemma safestrcpy_loop_spec n m s t l :
  cstr m t l -> s + Z.of_nat n < t \/ t + Z.of_nat (length l) < s ->
  cstr (safestrcpy_loop n m s t) s (take n l) /\
  forall a, in_range s (Z.of_nat n + 1) a = false -> safestrcpy_loop n m s t a = m a.
Proof.
  revert m s t l. induction n as [|n IH]; intros m s t l Hl Hd; cbn [safestrcpy_loop].
  { split; [cbn; apply upd_eq|]. intros a Ha. apply upd_ne. unfold in_range in Ha. lia. }
  destruct l as [|c l]; cbn [cstr length take] in *.
  - rewrite Hl. cbn. split.
    + rewrite upd_ne, upd_eq by lia. done.
    + intros a Ha. unfold in_range in Ha. rewrite !upd_ne by lia. done.
  - destruct Hl as (Hc & -> & Hl). destruct (Z.eqb_spec c 0); [lia|].
    destruct (IH (upd m s c) (s + 1) (t + 1) l) as [IH1 IH2];
      [apply cstr_upd; [lia|done] | lia|].
    split; [split_and!; [lia..| |done]|].
    + rewrite IH2 by (unfold in_range; lia). apply upd_eq.
    + intros a Ha. unfold in_range in Ha. rewrite IH2 by (unfold in_range; lia).
      apply upd_ne. lia.
Qed.

(** Safestrcpy writes only inside the n bytes of its
    destination and leaves there the first n-1 characters of the source, NUL
    terminated. *)
Theorem safestrcpy_spec (m : mem) (s t n : Z) (l : list Z) :
  0 < n -> cstr m t l -> s + n <= t \/ t + Z.of_nat (length l) < s ->
  cstr (safestrcpy m s t n) s (take (Z.to_nat (n - 1)) l) /\
  forall a, in_range s n a = false -> safestrcpy m s t n a = m a.
Proof.
  intros Hn Hl Hd. unfold safestrcpy. destruct (Z.leb_spec n 0); [lia|].
  destruct (safestrcpy_loop_spec (Z.to_nat (n - 1)) m s t l Hl) as [H1 H2]; [lia|].
  split; [done|]. intros a Ha. apply H2. unfold in_range in *. lia.
Qed.

(** Decimal value of a list of digit characters. *)
Definition dec_value (n : Z) (ds : list Z) : Z := fold_left (fun n c => n * 10 + c - 48) ds n.

Lemma dec_value_mono ds n :
  Forall (fun c => 48 <= c <= 57) ds -> 0 <= n -> n <= dec_value n ds.
Proof.
  unfold dec_value. revert n. induction ds as [|c ds IH]; intros n Hd Hn; cbn; [lia|].
  apply Forall_cons_1 in Hd as [Hc Hd]. specialize (IH (n * 10 + c - 48) Hd ltac:(lia)). lia.
Qed.

Lemma atoi_loop_spec ds fuel m s n :
  Forall (fun c => 48 <= c <= 57) ds -> bytes_at m s (length ds) = ds ->
  ~ 48 <= m (s + Z.of_nat (length ds)) <= 57 -> (length ds < fuel)%nat ->
  0 <= n -> dec_value n ds < 2 ^ 31 ->
  atoi_loop fuel m s n = Some (dec_value n ds).
Proof.
  revert fuel s n. induction ds as [|c ds IH]; intros fuel s n Hd Hb He Hf Hn Hv;
    (destruct fuel as [|fuel]; [cbn in Hf; lia|]); cbn [atoi_loop length] in *.
  - rewrite Z.add_0_r in He. by destruct (Z.leb_spec 48 (m s)), (Z.leb_spec (m s) 57); cbn; try lia.
  - apply Forall_cons_1 in Hd as [Hc Hd]. unfold bytes_at in Hb. cbn in Hb.
    rewrite Z.add_0_r in Hb. injection Hb as Hb0 Hb. rewrite Hb0.
    destruct (Z.leb_spec 48 c), (Z.leb_spec c 57); try lia. cbn.
    pose proof (dec_value_mono ds (n * 10 + c - 48) Hd ltac:(lia)) as Hm.
    cbn in Hv. fold (dec_value (n * 10 + c - 48) ds) in Hv.
    rewrite s32_small by (unfold is_s32; lia). apply IH; try done; try lia.
    + unfold bytes_at. rewrite <- seq_shift, map_map in Hb. etransitivity; [|exact Hb].
      apply map_ext. intros i. f_equal. lia.
    + replace (s + 1 + Z.of_nat (length ds)) with (s + Z.of_nat (S (length ds))) by lia. done.
Qed.

(** Atoi returns the decimal value of the digits at s up to
    the first other byte, for every value an int can hold. *)
Theorem atoi_spec (fuel : nat) (m : mem) (s : Z) (ds : list Z) :
  Forall (fun c => 48 <= c <= 57) ds -> bytes_at m s (length ds) = ds ->
  ~ 48 <= m (s + Z.of_nat (length ds)) <= 57 -> (length ds < fuel)%nat ->
  dec_value 0 ds < 2 ^ 31 ->
  atoi fuel m s = Some (dec_value 0 ds).
Proof. intros. by apply atoi_loop_spec. Qed.

Lemma umemmove_spec m dst src n a :
  dst <= src \/ src + n <= dst -> umemmove m dst src n a = memmove m dst src n a.
Proof.
  intros H. rewrite memmove_spec. unfold umemmove.
  destruct (Z.leb_spec n 0).
  { rewrite Z2Nat.nonpos by lia. cbn. by unfold_range. }
  rewrite copy_up_spec by lia. by rewrite Z2Nat.id by lia.
Qed.

(** ** Witnesses *)

(** The strings "ab" at 0 and "abc" at 16. *)
Definition sample_strings : mem :=
  fun a => if a =? 0 then 97 else if a =? 1 then 98
           else if a =? 16 then 97 else if a =? 17 then 98 else if a =? 18 then 99 else 0.

Lemma strncmp_spec_witness : strncmp sample_strings 0 16 2 = 0.
Proof. by apply (strncmp_spec sample_strings 0 16 2 [97; 98] [97; 98; 99]). Defined.

Lemma safestrcpy_spec_witness : cstr (safestrcpy sample_strings 0 16 3) 0 [97; 98].
Proof.
  apply (safestrcpy_spec sample_strings 0 16 3 [97; 98; 99]); [done| done | by left].
Defined.

Lemma atoi_spec_witness :
  atoi 4 (fun a => if a =? 0 then 52 else if a =? 1 then 50 else 0) 0 = Some 42.
Proof.
  apply (atoi_spec 4 _ 0 [52; 50]); [by repeat constructor | done | | simpl; lia | done].
  simpl. lia.
Defined.
