(* ===== verification/Proc.v ===== *)
(** The data of the process subsystem: trap frames (x86.h), contexts, CPUs
    and process descriptors (proc.h), with one setter per field that the code
    assigns, the atomic compare-and-swap of x86.h, and the copy of a trap
    frame to and from memory. *)

From S2P Require Import Prelude Word Mem.

Local Open Scope Z_scope.

(** ** Signals (types.h) *)

Definition SIGNAL_HANDLERS_SIZE : Z := 32.
Definition SIG_DFL : Z := 0.
Definition SIG_IGN : Z := 1.
Definition SIGKILL : Z := 9.
Definition SIGSTOP : Z := 17.
Definition SIGCONT : Z := 19.

(** ** Process states (enum procstate of proc.h)

    The code also stores the negation of a state while a transition is under
    way. *)

Definition UNUSED : Z := 0.
Definition EMBRYO : Z := 1.
Definition SLEEPING : Z := 2.
Definition RUNNABLE : Z := 3.
Definition RUNNING : Z := 4.
Definition ZOMBIE : Z := 5.
Definition PRE_UNUSED : Z := 6.

(** cas (x86.h): lock cmpxchg; the returned flag is ZF. *)
Definition cas (cur expected newval : Z) : bool * Z :=
  if cur =? expected then (true, newval) else (false, cur).

(** Addresses that processes sleep on: a process descriptor ([wait] sleeps on
    curproc), or the address of another kernel object. *)
Inductive channel :=
| NoChan
| ChProc (i : nat)
| ChAddr (a : Z).

#[export] Instance channel_eq_dec : EqDecision channel.
Proof. solve_decision. Defined.

(** Registers saved by swtch.S. *)
Record context := mk_context {
  c_edi : Z;
  c_esi : Z;
  c_ebx : Z;
  c_ebp : Z;
  c_eip : Z;
}.

Definition context0 : context := mk_context 0 0 0 0 0.

Record trapframe := mk_trapframe {
  edi : Z;
  esi : Z;
  ebp : Z;
  oesp : Z;  (* useless & ignored *)
  ebx : Z;
  edx : Z;
  ecx : Z;
  eax : Z;
  gs : Z;
  padding1 : Z;
  fs : Z;
  padding2 : Z;
  es : Z;
  padding3 : Z;
  ds : Z;
  padding4 : Z;
  trapno : Z;
  err : Z;
  eip : Z;
  cs : Z;
  padding5 : Z;
  eflags : Z;
  esp : Z;
  ss : Z;
  padding6 : Z;
}.

Definition set_eax (v : Z) (x : trapframe) : trapframe :=
  mk_trapframe (edi x) (esi x) (ebp x) (oesp x) (ebx x) (edx x) (ecx x) v (gs x) (padding1 x)
     (fs x) (padding2 x) (es x) (padding3 x) (ds x) (padding4 x) (trapno x) (err x) (eip x)
     (cs x) (padding5 x) (eflags x) (esp x) (ss x) (padding6 x).

Definition set_eip (v : Z) (x : trapframe) : trapframe :=
  mk_trapframe (edi x) (esi x) (ebp x) (oesp x) (ebx x) (edx x) (ecx x) (eax x) (gs x)
     (padding1 x) (fs x) (padding2 x) (es x) (padding3 x) (ds x) (padding4 x) (trapno x) (err x)
     v (cs x) (padding5 x) (eflags x) (esp x) (ss x) (padding6 x).

Definition set_esp (v : Z) (x : trapframe) : trapframe :=
  mk_trapframe (edi x) (esi x) (ebp x) (oesp x) (ebx x) (edx x) (ecx x) (eax x) (gs x)
     (padding1 x) (fs x) (padding2 x) (es x) (padding3 x) (ds x) (padding4 x) (trapno x) (err x)
     (eip x) (cs x) (padding5 x) (eflags x) v (ss x) (padding6 x).

Record proc := mk_proc {
  sz : Z;  (* size of process memory *)
  pgdir : Z;  (* page table, 0 when there is none *)
  kstack : Z;  (* bottom of the kernel stack, 0 when there is none *)
  state : Z;  (* see the enum above *)
  pid : Z;
  parent : option nat;  (* index in ptable, None for the null pointer *)
  tf : trapframe;  (* the trap frame p->tf points to *)
  kcontext : context;  (* the saved context p->context points to *)
  chan : channel;  (* what it sleeps on, NoChan when 0 *)
  killed : Z;
  frozen : Z;  (* stopped by SIGSTOP *)
  ofile : list (option nat);  (* open files, indices in ftable *)
  cwd : option nat;  (* index in the inode cache *)
  name : list Z;  (* the bytes of name[16] *)
  pendingSignals : Z;
  signalMask : Z;
  signalMaskBU : Z;
  signalHandlerMasks : list Z;
  signalHandler : list Z;
  uTrapFrameBU : Z;  (* user address of the saved trap frame *)
}.

Definition set_sz (v : Z) (x : proc) : proc :=
  mk_proc v (pgdir x) (kstack x) (state x) (pid x) (parent x) (tf x) (kcontext x) (chan x)
     (killed x) (frozen x) (ofile x) (cwd x) (name x) (pendingSignals x) (signalMask x)
     (signalMaskBU x) (signalHandlerMasks x) (signalHandler x) (uTrapFrameBU x).

Definition set_pgdir (v : Z) (x : proc) : proc :=
  mk_proc (sz x) v (kstack x) (state x) (pid x) (parent x) (tf x) (kcontext x) (chan x)
     (killed x) (frozen x) (ofile x) (cwd x) (name x) (pendingSignals x) (signalMask x)
     (signalMaskBU x) (signalHandlerMasks x) (signalHandler x) (uTrapFrameBU x).

Definition set_kstack (v : Z) (x : proc) : proc :=
  mk_proc (sz x) (pgdir x) v (state x) (pid x) (parent x) (tf x) (kcontext x) (chan x)
     (killed x) (frozen x) (ofile x) (cwd x) (name x) (pendingSignals x) (signalMask x)
     (signalMaskBU x) (signalHandlerMasks x) (signalHandler x) (uTrapFrameBU x).

Definition set_state (v : Z) (x : proc) : proc :=
  mk_proc (sz x) (pgdir x) (kstack x) v (pid x) (parent x) (tf x) (kcontext x) (chan x)
     (killed x) (frozen x) (ofile x) (cwd x) (name x) (pendingSignals x) (signalMask x)
     (signalMaskBU x) (signalHandlerMasks x) (signalHandler x) (uTrapFrameBU x).

Definition set_pid (v : Z) (x : proc) : proc :=
  mk_proc (sz x) (pgdir x) (kstack x) (state x) v (parent x) (tf x) (kcontext x) (chan x)
     (killed x) (frozen x) (ofile x) (cwd x) (name x) (pendingSignals x) (signalMask x)
     (signalMaskBU x) (signalHandlerMasks x) (signalHandler x) (uTrapFrameBU x).

Definition set_parent (v : option nat) (x : proc) : proc :=
  mk_proc (sz x) (pgdir x) (kstack x) (state x) (pid x) v (tf x) (kcontext x) (chan x)
     (killed x) (frozen x) (ofile x) (cwd x) (name x) (pendingSignals x) (signalMask x)
     (signalMaskBU x) (signalHandlerMasks x) (signalHandler x) (uTrapFrameBU x).

Definition set_tf (v : trapframe) (x : proc) : proc :=
  mk_proc (sz x) (pgdir x) (kstack x) (state x) (pid x) (parent x) v (kcontext x) (chan x)
     (killed x) (frozen x) (ofile x) (cwd x) (name x) (pendingSignals x) (signalMask x)
     (signalMaskBU x) (signalHandlerMasks x) (signalHandler x) (uTrapFrameBU x).

Definition set_kcontext (v : context) (x : proc) : proc :=
  mk_proc (sz x) (pgdir x) (kstack x) (state x) (pid x) (parent x) (tf x) v (chan x) (killed x)
     (frozen x) (ofile x) (cwd x) (name x) (pendingSignals x) (signalMask x) (signalMaskBU x)
     (signalHandlerMasks x) (signalHandler x) (uTrapFrameBU x).

Definition set_chan (v : channel) (x : proc) : proc :=
  mk_proc (sz x) (pgdir x) (kstack x) (state x) (pid x) (parent x) (tf x) (kcontext x) v
     (killed x) (frozen x) (ofile x) (cwd x) (name x) (pendingSignals x) (signalMask x)
     (signalMaskBU x) (signalHandlerMasks x) (signalHandler x) (uTrapFrameBU x).

Definition set_killed (v : Z) (x : proc) : proc :=
  mk_proc (sz x) (pgdir x) (kstack x) (state x) (pid x) (parent x) (tf x) (kcontext x) (chan x)
     v (frozen x) (ofile x) (cwd x) (name x) (pendingSignals x) (signalMask x) (signalMaskBU x)
     (signalHandlerMasks x) (signalHandler x) (uTrapFrameBU x).

Definition set_frozen (v : Z) (x : proc) : proc :=
  mk_proc (sz x) (pgdir x) (kstack x) (state x) (pid x) (parent x) (tf x) (kcontext x) (chan x)
     (killed x) v (ofile x) (cwd x) (name x) (pendingSignals x) (signalMask x) (signalMaskBU x)
     (signalHandlerMasks x) (signalHandler x) (uTrapFrameBU x).

Definition set_ofile (v : list (option nat)) (x : proc) : proc :=
  mk_proc (sz x) (pgdir x) (kstack x) (state x) (pid x) (parent x) (tf x) (kcontext x) (chan x)
     (killed x) (frozen x) v (cwd x) (name x) (pendingSignals x) (signalMask x) (signalMaskBU x)
     (signalHandlerMasks x) (signalHandler x) (uTrapFrameBU x).

Definition set_cwd (v : option nat) (x : proc) : proc :=
  mk_proc (sz x) (pgdir x) (kstack x) (state x) (pid x) (parent x) (tf x) (kcontext x) (chan x)
     (killed x) (frozen x) (ofile x) v (name x) (pendingSignals x) (signalMask x)
     (signalMaskBU x) (signalHandlerMasks x) (signalHandler x) (uTrapFrameBU x).

Definition set_name (v : list Z) (x : proc) : proc :=
  mk_proc (sz x) (pgdir x) (kstack x) (state x) (pid x) (parent x) (tf x) (kcontext x) (chan x)
     (killed x) (frozen x) (ofile x) (cwd x) v (pendingSignals x) (signalMask x)
     (signalMaskBU x) (signalHandlerMasks x) (signalHandler x) (uTrapFrameBU x).

Definition set_pendingSignals (v : Z) (x : proc) : proc :=
  mk_proc (sz x) (pgdir x) (kstack x) (state x) (pid x) (parent x) (tf x) (kcontext x) (chan x)
     (killed x) (frozen x) (ofile x) (cwd x) (name x) v (signalMask x) (signalMaskBU x)
     (signalHandlerMasks x) (signalHandler x) (uTrapFrameBU x).

Definition set_signalMask (v : Z) (x : proc) : proc :=
  mk_proc (sz x) (pgdir x) (kstack x) (state x) (pid x) (parent x) (tf x) (kcontext x) (chan x)
     (killed x) (frozen x) (ofile x) (cwd x) (name x) (pendingSignals x) v (signalMaskBU x)
     (signalHandlerMasks x) (signalHandler x) (uTrapFrameBU x).

Definition set_signalMaskBU (v : Z) (x : proc) : proc :=
  mk_proc (sz x) (pgdir x) (kstack x) (state x) (pid x) (parent x) (tf x) (kcontext x) (chan x)
     (killed x) (frozen x) (ofile x) (cwd x) (name x) (pendingSignals x) (signalMask x) v
     (signalHandlerMasks x) (signalHandler x) (uTrapFrameBU x).

Definition set_signalHandlerMasks (v : list Z) (x : proc) : proc :=
  mk_proc (sz x) (pgdir x) (kstack x) (state x) (pid x) (parent x) (tf x) (kcontext x) (chan x)
     (killed x) (frozen x) (ofile x) (cwd x) (name x) (pendingSignals x) (signalMask x)
     (signalMaskBU x) v (signalHandler x) (uTrapFrameBU x).

Definition set_signalHandler (v : list Z) (x : proc) : proc :=
  mk_proc (sz x) (pgdir x) (kstack x) (state x) (pid x) (parent x) (tf x) (kcontext x) (chan x)
     (killed x) (frozen x) (ofile x) (cwd x) (name x) (pendingSignals x) (signalMask x)
     (signalMaskBU x) (signalHandlerMasks x) v (uTrapFrameBU x).

Definition set_uTrapFrameBU (v : Z) (x : proc) : proc :=
  mk_proc (sz x) (pgdir x) (kstack x) (state x) (pid x) (parent x) (tf x) (kcontext x) (chan x)
     (killed x) (frozen x) (ofile x) (cwd x) (name x) (pendingSignals x) (signalMask x)
     (signalMaskBU x) (signalHandlerMasks x) (signalHandler x) v.

Definition trapframe0 : trapframe :=
  mk_trapframe 0 0 0 0 0 0 0 0 0 0 0 0 0 0 0 0 0 0 0 0 0 0 0 0 0.

(** A descriptor of the zero-initialised ptable. *)
Definition proc0 : proc :=
  mk_proc 0 0 0 UNUSED 0 None trapframe0 context0 NoChan 0 0 (replicate 16 None) None
    (replicate 16 0) 0 0 0 (replicate 32 0) (replicate 32 0) 0.

(** [p->signalHandler[i]] and [p->signalHandlerMasks[i]]; the callers bound
    the index. *)
Definition handler (p : proc) (i : Z) : Z := nth (Z.to_nat i) (signalHandler p) 0.
Definition handler_mask (p : proc) (i : Z) : Z := nth (Z.to_nat i) (signalHandlerMasks p) 0.

(** ** A trap frame as 19 little-endian words *)

Definition pack16 (lo hi : Z) : Z := lo + 2 ^ 16 * hi.

Definition tf_words (t : trapframe) : list Z :=
  [edi t; esi t; ebp t; oesp t; ebx t; edx t; ecx t; eax t;
   pack16 (gs t) (padding1 t); pack16 (fs t) (padding2 t);
   pack16 (es t) (padding3 t); pack16 (ds t) (padding4 t);
   trapno t; err t; eip t; pack16 (cs t) (padding5 t); eflags t; esp t;
   pack16 (ss t) (padding6 t)].

Definition lo16 (w : Z) : Z := w mod 2 ^ 16.
Definition hi16 (w : Z) : Z := (w / 2 ^ 16) mod 2 ^ 16.

Definition tf_of_words (ws : list Z) : trapframe :=
  let w i := nth i ws 0 in
  mk_trapframe (w 0%nat) (w 1%nat) (w 2%nat) (w 3%nat) (w 4%nat) (w 5%nat) (w 6%nat) (w 7%nat)
    (lo16 (w 8%nat)) (hi16 (w 8%nat)) (lo16 (w 9%nat)) (hi16 (w 9%nat))
    (lo16 (w 10%nat)) (hi16 (w 10%nat)) (lo16 (w 11%nat)) (hi16 (w 11%nat))
    (w 12%nat) (w 13%nat) (w 14%nat) (lo16 (w 15%nat)) (hi16 (w 15%nat))
    (w 16%nat) (w 17%nat) (lo16 (w 18%nat)) (hi16 (w 18%nat)).

(** sizeof(struct trapframe) and offsetof(struct trapframe, esp) *)
Definition TF_SIZE : Z := 76.
Definition TF_ESP : Z := 68.

Fixpoint store_words (m : mem) (a : Z) (ws : list Z) : mem :=
  match ws with
  | [] => m
  | w :: ws => store_words (store32 m a w) (a + 4) ws
  end.

Fixpoint load_words (m : mem) (a : Z) (n : nat) : list Z :=
  match n with
  | O => []
  | S n => load32 m a :: load_words m (a + 4) n
  end.

Definition store_tf (m : mem) (a : Z) (t : trapframe) : mem := store_words m a (tf_words t).
Definition load_tf (m : mem) (a : Z) : trapframe := tf_of_words (load_words m a 19).

Fixpoint store_bytes (m : mem) (a : Z) (bs : list Z) : mem :=
  match bs with
  | [] => m
  | b :: bs => store_bytes (store8 m a b) (a + 1) bs
  end.

(** ** Well-formed trap frames: every field fits its C type *)

Definition is_u16 (z : Z) : Prop := 0 <= z < 2 ^ 16.

Definition tf_wf (t : trapframe) : Prop :=
  Forall is_u32 [edi t; esi t; ebp t; oesp t; ebx t; edx t; ecx t; eax t; trapno t; err t;
                 eip t; eflags t; esp t] /\
  Forall is_u16 [gs t; padding1 t; fs t; padding2 t; es t; padding3 t; ds t; padding4 t;
                 cs t; padding5 t; ss t; padding6 t].

Lemma pack16_range lo hi : is_u16 lo -> is_u16 hi -> is_u32 (pack16 lo hi).
Proof. unfold is_u16, is_u32, pack16. lia. Qed.

Lemma lo16_pack lo hi : is_u16 lo -> lo16 (pack16 lo hi) = lo.
Proof.
  intros H. unfold lo16, pack16. rewrite Z.mul_comm, Z_mod_plus_full. by apply Z.mod_small.
Qed.

Lemma hi16_pack lo hi : is_u16 lo -> is_u16 hi -> hi16 (pack16 lo hi) = hi.
Proof.
  intros Hl Hh. unfold hi16, pack16. rewrite Z.mul_comm, Z_div_plus_full by lia.
  rewrite (Z.div_small lo) by done. by apply Z.mod_small.
Qed.

Lemma tf_of_words_words t : tf_wf t -> tf_of_words (tf_words t) = t.
Proof.
  destruct t. intros [H32 H16]. cbn in H16.
  split_Forall.
  unfold tf_of_words, tf_words. cbn [nth edi esi ebp oesp ebx edx ecx eax gs padding1 fs padding2
    es padding3 ds padding4 trapno err eip cs padding5 eflags esp ss padding6].
  by rewrite !lo16_pack, !hi16_pack by done.
Qed.

Lemma tf_words_u32 t : tf_wf t -> Forall is_u32 (tf_words t).
Proof.
  intros [H32 H16].
  split_Forall.
  repeat constructor; try (by apply pack16_range); match goal with H : is_u32 ?x |- context [?x] => apply H end.
Qed.

(** ** Loads after stores *)

Lemma store_words_out m a ws x :
  x < a \/ a + 4 * Z.of_nat (length ws) <= x -> store_words m a ws x = m x.
Proof.
  revert m a. induction ws as [|w ws IH]; intros m a H; cbn [store_words length] in *; [done|].
  rewrite IH by lia. rewrite store32_spec. by unfold_range.
Qed.

Lemma load_words_ext m m' a n :
  (forall x, a <= x < a + 4 * Z.of_nat n -> m' x = m x) -> load_words m' a n = load_words m a n.
Proof.
  revert a. induction n as [|n IH]; intros a H; cbn [load_words]; [done|].
  f_equal; [apply load32_ext | apply IH]; intros x Hx; apply H; lia.
Qed.

Lemma load_store_words m a ws :
  Forall is_u32 ws -> load_words (store_words m a ws) a (length ws) = ws.
Proof.
  revert m a. induction ws as [|w ws IH]; intros m a H; cbn [load_words store_words length]; [done|].
  apply Forall_cons_1 in H as [Hw Hws]. f_equal; [|by apply IH].
  transitivity (load32 (store32 m a w) a); [|by apply load32_store32_eq].
  apply load32_ext. intros x Hx. apply store_words_out. lia.
Qed.

Lemma load_store_tf m a t : tf_wf t -> load_tf (store_tf m a t) a = t.
Proof.
  intros H. unfold load_tf, store_tf.
  change 19%nat with (length (tf_words t)).
  rewrite load_store_words by by apply tf_words_u32. by apply tf_of_words_words.
Qed.

Lemma load_tf_ext m m' a :
  (forall x, a <= x < a + TF_SIZE -> m' x = m x) -> load_tf m' a = load_tf m a.
Proof. intros H. unfold load_tf. f_equal. by apply load_words_ext. Qed.

Lemma load_words_store32 m a n k v :
  (k < n)%nat -> is_u32 v ->
  load_words (store32 m (a + 4 * Z.of_nat k) v) a n = <[k := v]> (load_words m a n).
Proof.
  revert a k. induction n as [|n IH]; intros a k Hk Hv; [lia|]. destruct k as [|k]; cbn [load_words].
  - replace (a + 4 * Z.of_nat 0) with a by lia. rewrite load32_store32_eq by done.
    cbn. f_equal. apply load_words_ext. intros x Hx. rewrite store32_spec. by unfold_range.
  - rewrite load32_store32_ne by lia. cbn. f_equal.
    rewrite <- IH by (done || lia). f_equal. f_equal. lia.
Qed.
