(* ===== verification/Signal.v ===== *)
(** Signals: proc.c from kill to handle_signals, the signal system calls of
    sysproc.c, the argument checks and the dispatcher of syscall.c, and the
    code that sigretasm.S injects on the user stack.

    The state of these functions is the descriptor of the current process and
    the memory its address space maps ([ustate]); kill works on the process
    table.  [handle_signals] may give up the CPU in the middle of its loop
    (SIGSTOP calls yield): it then returns [HsYield] with the loop index at
    which it goes on when the process runs again. *)

From S2P Require Import Prelude Word Mem Proc.

Local Open Scope Z_scope.

Record ustate := mk_ustate { up : proc; um : mem }.

Definition set_up (p : proc) (s : ustate) : ustate := mk_ustate p (um s).
Definition set_um (m : mem) (s : ustate) : ustate := mk_ustate (up s) m.

(** ** Masks and handlers *)

Definition sigprocmask (sigmask : Z) : M ustate Z := fun s =>
  let oldMask := signalMask (up s) in
  Ret (set_up (set_signalMask sigmask (up s)) s) oldMask.

(** [act] and [oldact] are user addresses of a struct sigaction: the handler
    at offset 0, the mask at offset 4. *)
Definition sigaction (signum act oldact : Z) : M ustate Z := fun s =>
  let p := up s in
  let m :=
    if negb (oldact =? 0) then
      store32 (store32 (um s) oldact (handler p signum)) (oldact + 4) (handler_mask p signum)
    else um s in
  let p := set_signalHandler (<[Z.to_nat signum := load32 m act]> (signalHandler p)) p in
  let p := set_signalHandlerMasks
             (<[Z.to_nat signum := load32 m (act + 4)]> (signalHandlerMasks p)) p in
  Ret (mk_ustate p m) 0.

Definition is_it_sigkill (p : proc) (signum : Z) : Z :=
  if signum =? SIGKILL then 1
  else if negb (bit_test (signalMask p) signum)
          && ((handler p signum =? SIGKILL) || (handler p signum =? SIG_DFL)) then 1
  else 0.

(** [n] signals are left, the next one is [32 - n]. *)
Fixpoint check_cont_loop (n : nat) (p : proc) : bool * proc :=
  match n with
  | O => (false, p)
  | S n' =>
      let i := 32 - Z.of_nat n in
      let def := (i =? SIGCONT) && (handler p i =? SIG_DFL) in
      if bit_test (pendingSignals p) i && negb (bit_test (signalMask p) i)
         && ((handler p i =? SIGCONT) || def)
      then (true, set_pendingSignals (bit_flip (pendingSignals p) i) p)
      else check_cont_loop n' p
  end.

Definition check_cont_sig (p : proc) : bool * proc := check_cont_loop 32 p.

Definition sh_sigkill (p : proc) : proc := set_killed 1 p.
Definition sh_sigcont (p : proc) : proc := set_frozen 0 p.

(** The part of yield that runs before the CPU is given up. *)
Definition yield_cas (p : proc) : option proc :=
  let '(ok, st) := cas (state p) RUNNING (- RUNNABLE) in
  if ok then Some (set_state st p) else None.

(** sh_sigstop up to the switch to the scheduler; [None] is panic("yeild cas"). *)
Definition sh_sigstop (p : proc) : option proc := yield_cas (set_frozen 1 p).

(** ** sigret *)

Definition sigret : M ustate unit := fun s =>
  let p := set_signalMask (signalMaskBU (up s)) (up s) in
  let p := set_tf (load_tf (um s) (uTrapFrameBU p)) p in
  Ret (set_up p s) tt.

(** The bytes between sigret_start and sigret_end:
    movl $SYS_sigret, %eax; int $T_SYSCALL. *)
Definition SYS_sigret : Z := 24.
Definition T_SYSCALL : Z := 64.
Definition sigret_code : list Z := [0xB8; SYS_sigret; 0; 0; 0; 0xCD; T_SYSCALL].
Definition SIGRET_SIZE : Z := 7.

(** ** handle_signals *)

Definition DPL_USER : Z := 3.

(** The user signal branch: save the mask and the frame, inject the sigret
    code, build the handler's stack frame. *)
Definition deliver (i : Z) (p : proc) (m : mem) : proc * mem :=
  let espbu := esp (tf p) in
  let p := set_signalMaskBU (signalMask p) p in
  let p := set_signalMask (handler_mask p i) p in
  let p := set_tf (set_esp (u32 (esp (tf p) - TF_SIZE)) (tf p)) p in
  let p := set_uTrapFrameBU (esp (tf p)) p in
  let m := store_tf m (uTrapFrameBU p) (tf p) in
  let m := store32 m (uTrapFrameBU p + TF_ESP) espbu in
  let p := set_tf (set_esp (u32 (esp (tf p) - SIGRET_SIZE)) (tf p)) p in
  let m := store_bytes m (esp (tf p)) sigret_code in
  let m := store32 m (u32 (esp (tf p) - 4)) i in
  let m := store32 m (u32 (esp (tf p) - 8)) (esp (tf p)) in
  let p := set_tf (set_esp (u32 (esp (tf p) - 8)) (tf p)) p in
  let p := set_tf (set_eip (handler p i) (tf p)) p in
  (p, m).

Inductive hs_action :=
| ANext (p : proc)                 (* go on with the next signal *)
| AYield (p : proc)                (* the CPU is given up inside sh_sigstop *)
| APanic (msg : string)
| AReturn (p : proc) (m : mem).    (* a user handler has been set up *)

(** The body of the loop for signal [i]. *)
Definition handle_one (i : Z) (p : proc) (m : mem) : hs_action :=
  let blockable := negb (i =? SIGKILL) && negb (i =? SIGSTOP) in
  if bit_test (pendingSignals p) i then
    if bit_test (signalMask p) i && blockable then ANext p
    else if (handler p i =? SIG_IGN) && blockable then ANext p
    else
      let p := set_pendingSignals (bit_clear (pendingSignals p) i) p in
      if (handler p i =? SIGSTOP) || (i =? SIGSTOP) then
        match sh_sigstop p with Some p => AYield p | None => APanic "yeild cas" end
      else if (handler p i =? SIGCONT) || ((i =? SIGCONT) && (handler p i =? SIG_DFL)) then
        ANext (sh_sigcont p)
      else if (handler p i =? SIGKILL) || (handler p i =? SIG_DFL) then ANext (sh_sigkill p)
      else let '(p, m) := deliver i p m in AReturn p m
  else ANext p.

Inductive hs_result :=
| HsDone (p : proc) (m : mem)
| HsYield (n : nat) (p : proc) (m : mem)
| HsPanic (msg : string).

Fixpoint handle_loop (n : nat) (p : proc) (m : mem) : hs_result :=
  match n with
  | O => HsDone p m
  | S n' =>
      if pendingSignals p =? 0 then HsDone p m
      else match handle_one (32 - Z.of_nat n) p m with
           | ANext p => handle_loop n' p m
           | AYield p => HsYield n' p m
           | APanic e => HsPanic e
           | AReturn p m => HsDone p m
           end
  end.

(** [tf_cs] is the code segment of the trap frame argument; [p] is None when
    no process runs on the CPU. *)
Definition handle_signals (tf_cs : Z) (op : option proc) (m : mem) : option hs_result :=
  match op with
  | None => None
  | Some p =>
      if negb (Z.land tf_cs 3 =? DPL_USER) then Some (HsDone p m)
      else if negb (killed p =? 0) then Some (HsDone p m)
      else Some (handle_loop 32 p m)
  end.

(** ** kill *)

Fixpoint find_pid (pt : list proc) (pid_ : Z) (i : nat) : option (nat * proc) :=
  match pt with
  | [] => None
  | p :: pt =>
      if (pid p =? pid_) && negb (state p =? UNUSED) then Some (i, p) else find_pid pt pid_ (S i)
  end.

(** The condition under which kill wakes a sleeping process. *)
Definition kill_wakes (p : proc) (signum : Z) : bool :=
  (signum =? SIGKILL)
  || (negb (bit_test (signalMask p) signum)
      && ((handler p signum =? SIGKILL) || (handler p signum =? SIG_DFL))).

(** What follows the spin [while(p->state == -SLEEPING)] for descriptor [i]. *)
Definition kill_wake (i : nat) : M (list proc) Z := fun pt =>
  match pt !! i with
  | None => Ret pt 0
  | Some p =>
      if state p =? - SLEEPING then Wait Spin pt
      else let '(_, st) := cas (state p) SLEEPING RUNNABLE in
           Ret (<[i := set_state st p]> pt) 0
  end.

Definition kill (pid_ signum : Z) : M (list proc) Z := fun pt =>
  if (signum <? 0) || (32 <=? signum) then Ret pt (-1)
  else match find_pid pt pid_ 0 with
       | None => Ret pt (-1)
       | Some (i, p) =>
           if handler p signum =? SIG_IGN then Ret pt 0
           else
             let p := set_pendingSignals (bit_set (pendingSignals p) signum) p in
             let pt := <[i := p]> pt in
             if ((state p =? SLEEPING) || (state p =? - SLEEPING)) && kill_wakes p signum
             then kill_wake i pt
             else Ret pt 0
       end.

(** ** System call arguments (syscall.c) *)

Definition fetchint (addr : Z) (s : ustate) : option Z :=
  if (sz (up s) <=? addr) || (sz (up s) <? u32 (addr + 4)) then None
  else Some (s32 (load32 (um s) addr)).

(** The scan for the NUL, [n] bytes before the end of the address space. *)
Fixpoint fetchstr_loop (n : nat) (m : mem) (s len : Z) : option Z :=
  match n with
  | O => None
  | S n' => if m s =? 0 then Some len else fetchstr_loop n' m (s + 1) (len + 1)
  end.

(** The pointer and the length of the string. *)
Definition fetchstr (addr : Z) (s : ustate) : option (Z * Z) :=
  if sz (up s) <=? addr then None
  else match fetchstr_loop (Z.to_nat (sz (up s) - addr)) (um s) addr 0 with
       | Some len => Some (addr, len)
       | None => None
       end.

Definition argint (n : Z) (s : ustate) : option Z :=
  fetchint (u32 (esp (tf (up s)) + 4 + 4 * n)) s.

Definition argptr (n size : Z) (s : ustate) : option Z :=
  match argint n s with
  | None => None
  | Some i =>
      if (size <? 0) || (sz (up s) <=? u32 i) || (sz (up s) <? u32 (u32 i + size)) then None
      else Some (u32 i)
  end.

Definition argstr (n : Z) (s : ustate) : option (Z * Z) :=
  match argint n s with
  | None => None
  | Some addr => fetchstr (u32 addr) s
  end.

(** ** The signal system calls (sysproc.c) *)

Definition sys_getpid : M ustate Z := fun s => Ret s (pid (up s)).

Definition sys_sigprocmask : M ustate Z := fun s =>
  match argint 0 s with
  | None => Ret s (-1)
  | Some sigmask => sigprocmask (u32 sigmask) s
  end.

(** [sizeof( *sigaction )]: in syscall context [sigaction] is the function of
    defs.h, and the size of a function designator is 1. *)
Definition sizeof_sigaction_operand : Z := 1.

Definition sys_sigaction : M ustate Z := fun s =>
  match argint 0 s with
  | None => Ret s (-1)
  | Some signum =>
      if (signum =? SIGKILL) || (signum =? SIGSTOP) || (signum <? 0)
         || (SIGNAL_HANDLERS_SIZE <=? signum) then Ret s (-1)
      else match argptr 1 sizeof_sigaction_operand s with
           | None => Ret s (-1)
           | Some act =>
               match argptr 2 sizeof_sigaction_operand s with
               | None => Ret s (-1)
               | Some oldact => sigaction signum act oldact s
               end
           end
  end.

Definition sys_sigret : M ustate Z := sigret ≫= fun _ => mret 0.

(** sys_kill on the table, the arguments taken from the caller. *)
Definition sys_kill (s : ustate) : M (list proc) Z := fun pt =>
  match argint 0 s with
  | None => Ret pt (-1)
  | Some pid_ =>
      match argint 1 s with
      | None => Ret pt (-1)
      | Some signum => kill pid_ signum pt
      end
  end.

(** ** The dispatcher (syscall.c); [other] stands for the system calls that
    are not in this file *)

Definition SYS_getpid : Z := 11.
Definition SYS_sigprocmask : Z := 22.
Definition SYS_sigaction : Z := 23.
Definition NELEM_syscalls : Z := 25.

Definition syscalls (other : Z -> M ustate Z) (num : Z) : M ustate Z :=
  if num =? SYS_getpid then sys_getpid
  else if num =? SYS_sigprocmask then sys_sigprocmask
  else if num =? SYS_sigaction then sys_sigaction
  else if num =? SYS_sigret then sys_sigret
  else other num.

Definition set_up_eax (v : Z) (s : ustate) : ustate :=
  set_up (set_tf (set_eax (u32 v) (tf (up s))) (up s)) s.

Definition syscall (other : Z -> M ustate Z) : M ustate unit := fun s =>
  let num := s32 (eax (tf (up s))) in
  if (0 <? num) && (num <? NELEM_syscalls) then
    (syscalls other num ≫= fun r => modify (set_up_eax r)) s
  else Ret (set_up_eax (-1) s) tt.

(** ** Signal state across process creation and exec *)

(** allocproc, lines 137 to 143. *)
Definition init_signals (p : proc) : proc :=
  let p := set_signalHandler (replicate 32 SIG_DFL) p in
  let p := set_signalHandlerMasks (replicate 32 0) p in
  let p := set_pendingSignals 0 p in
  set_signalMask 0 p.

(** fork, lines 238 to 245. *)
Definition fork_signals (cur np : proc) : proc :=
  let np := set_signalMask (signalMask cur) np in
  let np := set_pendingSignals 0 np in
  let np := set_signalHandler (signalHandler cur) np in
  set_signalHandlerMasks (signalHandlerMasks cur) np.

(** exec, lines 102 to 107. *)
Definition exec_signals (p : proc) : proc :=
  set_signalHandler
    (map (fun h => if negb (h =? SIG_IGN) && negb (h =? SIG_DFL) then SIG_DFL else h)
       (signalHandler p)) p.

(** ** Properties of delivery *)

(** Signals that the loop leaves pending. *)
Definition skipped (p : proc) (j : Z) : bool :=
  negb (bit_test (pendingSignals p) j)
  || ((bit_test (signalMask p) j || (handler p j =? SIG_IGN))
      && negb (j =? SIGKILL) && negb (j =? SIGSTOP)).

(** Handlers that are code addresses of the process. *)
Definition user_handler (h : Z) : bool :=
  negb (h =? SIG_DFL) && negb (h =? SIG_IGN) && negb (h =? SIGSTOP)
  && negb (h =? SIGCONT) && negb (h =? SIGKILL).

Definition clear_pending (i : Z) (p : proc) : proc :=
  set_pendingSignals (bit_clear (pendingSignals p) i) p.

Lemma handle_one_skipped j p m : skipped p j = true -> handle_one j p m = ANext p.
Proof.
  unfold skipped, handle_one. intros H.
  destruct (bit_test (pendingSignals p) j); [|done].
  destruct (bit_test (signalMask p) j), (handler p j =? SIG_IGN), (j =? SIGKILL), (j =? SIGSTOP);
    done.
Qed.

Lemma handle_loop_skip n n' p m :
  (n' <= n <= 32)%nat -> pendingSignals p <> 0 ->
  (forall j, 32 - Z.of_nat n <= j < 32 - Z.of_nat n' -> skipped p j = true) ->
  handle_loop n p m = handle_loop n' p m.
Proof.
  intros Hn Hp. induction n as [|n IH]; intros Hs.
  - by replace n' with 0%nat by lia.
  - destruct (decide (n' = S n)) as [->|Hne]; [done|]. cbn [handle_loop].
    destruct (Z.eqb_spec (pendingSignals p) 0); [done|].
    rewrite handle_one_skipped by (apply Hs; lia). apply IH; [lia|].
    intros j Hj. apply Hs. lia.
Qed.

Lemma bit_test_nonzero x i : bit_test x i = true -> x <> 0.
Proof. intros H ->. unfold bit_test in H. by rewrite Z.land_0_l in H. Qed.

(** The loop reaches signal [i] unchanged when every lower signal is skipped. *)
Lemma handle_signals_reach cs_ p m i :
  Z.land cs_ 3 = DPL_USER -> killed p = 0 -> 0 <= i < 32 ->
  bit_test (pendingSignals p) i = true ->
  (forall j, 0 <= j < i -> skipped p j = true) ->
  handle_signals cs_ (Some p) m =
  Some (match handle_one i p m with
        | ANext p' => handle_loop (Z.to_nat (31 - i)) p' m
        | AYield p' => HsYield (Z.to_nat (31 - i)) p' m
        | APanic e => HsPanic e
        | AReturn p' m' => HsDone p' m'
        end).
Proof.
  intros Hcs Hk Hi Hb Hs. unfold handle_signals. rewrite Hcs, Hk, !Z.eqb_refl. cbn [negb]. f_equal.
  rewrite (handle_loop_skip 32 (Z.to_nat (32 - i))).
  - replace (Z.to_nat (32 - i)) with (S (Z.to_nat (31 - i))) by lia. cbn [handle_loop].
    destruct (Z.eqb_spec (pendingSignals p) 0); [by apply bit_test_nonzero in Hb|].
    by replace (32 - Z.of_nat (S (Z.to_nat (31 - i)))) with i by lia.
  - lia.
  - by apply (bit_test_nonzero _ i).
  - intros j Hj. apply Hs. lia.
Qed.

Lemma handle_one_deliver i p m :
  bit_test (pendingSignals p) i = true -> bit_test (signalMask p) i = false ->
  i <> SIGSTOP -> user_handler (handler p i) = true ->
  handle_one i p m =
  AReturn (fst (deliver i (clear_pending i p) m)) (snd (deliver i (clear_pending i p) m)).
Proof.
  unfold user_handler, handle_one. intros Hb Hm Hi Hh. to_prop. rewrite Hb, Hm. cbn [andb].
  assert (Eh : handler (clear_pending i p) i = handler p i) by done.
  unfold clear_pending in Eh |- *. rewrite Eh.
  repeat match goal with H : _ <> _ |- _ => apply Z.eqb_neq in H end.
  repeat match goal with H : (_ =? _) = false |- _ => rewrite H end.
  rewrite andb_false_r. cbn [andb orb]. by destruct (deliver i (set_pendingSignals _ p) m).
Qed.

Lemma store_bytes_out m a bs x :
  x < a \/ a + Z.of_nat (length bs) <= x -> store_bytes m a bs x = m x.
Proof.
  revert m a. induction bs as [|b bs IH]; intros m a H; cbn [store_bytes length] in *; [done|].
  rewrite IH by lia. unfold store8. apply upd_ne. lia.
Qed.

Lemma store_bytes_in m a bs k :
  (k < length bs)%nat -> store_bytes m a bs (a + Z.of_nat k) = u8 (nth k bs 0).
Proof.
  revert m a k. induction bs as [|b bs IH]; intros m a k H; cbn [store_bytes length] in *; [lia|].
  destruct k as [|k]; cbn [nth].
  - rewrite store_bytes_out by lia. unfold store8. rewrite Z.add_0_r. apply upd_eq.
  - replace (a + Z.of_nat (S k)) with (a + 1 + Z.of_nat k) by lia. apply IH. lia.
Qed.

Lemma set_esp_words t v : tf_words (set_esp v t) = <[17%nat := v]> (tf_words t).
Proof. done. Qed.

Lemma load_saved_frame m a t v :
  tf_wf t -> is_u32 v ->
  load_tf (store32 (store_tf m a (set_esp v t)) (a + TF_ESP) (esp t)) a = t.
Proof.
  intros Ht Hv. unfold load_tf. change TF_ESP with (4 * Z.of_nat 17).
  rewrite load_words_store32; [|lia|].
  - unfold store_tf. change 19%nat with (length (tf_words (set_esp v t))).
    rewrite load_store_words.
    + rewrite set_esp_words, list_insert_insert_eq, list_insert_id by done.
      by apply tf_of_words_words.
    + rewrite set_esp_words. apply Forall_insert; [by apply tf_words_u32 | done].
  - destruct Ht as [H _]. by apply (Forall_lookup_1 _ _ 12%nat _ H).
Qed.

Section delivered.
Context (i : Z) (p : proc) (m : mem).
Hypothesis Hi : 0 <= i < 32.
Hypothesis Htf : tf_wf (tf p).
Hypothesis Hesp : TF_SIZE + SIGRET_SIZE + 8 <= esp (tf p).

Let E := esp (tf p).

Local Lemma esp_u32 : is_u32 E.
Proof. destruct Htf as [H _]. by apply (Forall_lookup_1 _ _ 12%nat _ H). Qed.

Lemma deliver_proc :
  fst (deliver i p m) =
    set_tf (set_eip (handler p i) (set_esp (E - 91) (tf p)))
      (set_uTrapFrameBU (E - 76)
         (set_signalMask (handler_mask p i) (set_signalMaskBU (signalMask p) p))).
Proof.
  pose proof esp_u32 as [H1 H2]. unfold deliver, TF_SIZE, SIGRET_SIZE in *. cbn [fst].
  cbn [tf set_tf esp set_esp set_signalMaskBU set_signalMask set_uTrapFrameBU uTrapFrameBU].
  fold E in Hesp |- *.
  rewrite (u32_small (E - 76)), (u32_small (E - 76 - 7)), (u32_small (E - 76 - 7 - 8))
    by (unfold is_u32; lia).
  by replace (E - 76 - 7 - 8) with (E - 91) by lia.
Qed.

(** The memory of the delivery: handler frame, sigret code and saved frame
    from lower to higher addresses. *)
Lemma deliver_mem :
  snd (deliver i p m) =
    store32 (store32 (store_bytes
      (store32 (store_tf m (E - 76) (set_esp (E - 76) (tf p))) (E - 76 + TF_ESP) E)
      (E - 83) sigret_code) (E - 87) i) (E - 91) (E - 83).
Proof.
  pose proof esp_u32 as [H1 H2]. unfold deliver, TF_SIZE, SIGRET_SIZE in *. cbn [snd].
  cbn [tf set_tf esp set_esp set_signalMaskBU set_signalMask set_uTrapFrameBU uTrapFrameBU].
  fold E in Hesp |- *.
  rewrite (u32_small (E - 76)), (u32_small (E - 76 - 7)), (u32_small (E - 76 - 7 - 4)),
    (u32_small (E - 76 - 7 - 8)) by (unfold is_u32; lia).
  replace (E - 76 - 7) with (E - 83) by lia.
  replace (E - 83 - 4) with (E - 87) by lia. by replace (E - 83 - 8) with (E - 91) by lia.
Qed.

Lemma deliver_frame : load_tf (snd (deliver i p m)) (E - 76) = tf p.
Proof.
  pose proof esp_u32 as [H1 H2]. unfold TF_SIZE, SIGRET_SIZE in *. rewrite deliver_mem.
  etransitivity; [|apply (load_saved_frame m (E - 76) (tf p) (E - 76)); [done|unfold is_u32; fold E in Hesp; lia]].
  apply load_tf_ext. unfold TF_SIZE. intros x Hx.
  rewrite store32_out, store32_out by lia. by rewrite store_bytes_out by (cbn; lia).
Qed.

Lemma deliver_args :
  load32 (snd (deliver i p m)) (E - 91) = E - 83 /\
  load32 (snd (deliver i p m)) (E - 91 + 4) = i.
Proof.
  pose proof esp_u32 as [H1 H2]. unfold TF_SIZE, SIGRET_SIZE in *. fold E in Hesp.
  rewrite deliver_mem. split.
  - apply load32_store32_eq. unfold is_u32. lia.
  - rewrite load32_store32_ne by lia. replace (E - 91 + 4) with (E - 87) by lia.
    apply load32_store32_eq. unfold is_u32. lia.
Qed.

Lemma deliver_code : bytes_at (snd (deliver i p m)) (E - 83) 7 = sigret_code.
Proof.
  rewrite deliver_mem. unfold bytes_at. cbn [map seq].
  rewrite !(store32_out (store32 _ _ _)), !(store32_out (store_bytes _ _ _)) by lia.
  by rewrite !store_bytes_in by (cbn; lia).
Qed.

End delivered.

(** The descriptor and the memory after the handler frame has been built, as
    seen by the handler of the process. *)
Record handler_entry (i : Z) (p : proc) (p1 : proc) (m1 : mem) : Prop := {
  entry_eip : eip (tf p1) = handler p i;
  entry_arg : load32 m1 (esp (tf p1) + 4) = i;
  entry_return : bytes_at m1 (load32 m1 (esp (tf p1))) 7 = sigret_code;
  entry_mask : signalMask p1 = handler_mask p i;
  entry_pending : pendingSignals p1 = bit_clear (pendingSignals p) i;
}.


(** C37 (functional): The sigret system call taken through the dispatcher puts
    back every register of the saved frame except %eax, which the dispatcher
    then overwrites with the return value 0. *)
Theorem sigret_syscall_eax (other : Z -> M ustate Z) (s : ustate) :
  s32 (eax (tf (up s))) = SYS_sigret ->
  exists s', syscall other s = Ret s' tt /\ um s' = um s /\
    tf (up s') = set_eax 0 (load_tf (um s) (uTrapFrameBU (up s))) /\
    signalMask (up s') = signalMaskBU (up s).
Proof. intros H. unfold syscall. rewrite H. by eexists. Qed.


(** ** What the loop does to the pending set *)

Definition hs_proc (r : hs_result) : option proc :=
  match r with
  | HsDone p _ | HsYield _ p _ => Some p
  | HsPanic _ => None
  end.

(** What one iteration may change. *)
Definition one_ok (i : Z) (p q : proc) : Prop :=
  signalHandler q = signalHandler p /\ (killed p <> 0 -> killed q <> 0) /\
  (pendingSignals q = pendingSignals p \/
   (skipped p i = false /\ pendingSignals q = bit_clear (pendingSignals p) i)).

Lemma deliver_keeps i p m :
  signalHandler (fst (deliver i p m)) = signalHandler p /\ killed (fst (deliver i p m)) = killed p /\
  pendingSignals (fst (deliver i p m)) = pendingSignals p.
Proof. done. Qed.

Lemma handle_one_ok i p m :
  match handle_one i p m with
  | ANext q => one_ok i p q /\ signalMask q = signalMask p
  | AYield q | AReturn q _ => one_ok i p q
  | APanic _ => True
  end.
Proof.
  unfold handle_one, one_ok, skipped, sh_sigstop, yield_cas, cas.
  destruct (bit_test (pendingSignals p) i); cbn [negb orb]; [|by auto].
  destruct (bit_test (signalMask p) i && _) eqn:Hm; [by auto|].
  destruct ((handler p i =? SIG_IGN) && _) eqn:Hg; [by auto|].
  assert (Hs : (bit_test (signalMask p) i || (handler p i =? SIG_IGN))
               && negb (i =? SIGKILL) && negb (i =? SIGSTOP) = false).
  { destruct (bit_test (signalMask p) i), (handler p i =? SIG_IGN), (i =? SIGKILL), (i =? SIGSTOP);
      done. }
  rewrite Hs. case_if.
  { cbn [state set_frozen set_pendingSignals]. case_if; [|done]. cbn. auto. }
  case_if; [cbn; auto 10|]. case_if; [cbn; auto 10|].
  pose proof (deliver_keeps i (set_pendingSignals (bit_clear (pendingSignals p) i) p) m) as Hd.
  destruct (deliver i _ m) as [q m']. cbn [fst] in Hd.
  destruct Hd as (-> & -> & ->). cbn. auto.
Qed.

Lemma testbit_one i j p q :
  0 <= i < 32 -> 0 <= j < 32 -> one_ok i p q -> skipped p j = true ->
  Z.testbit (pendingSignals q) j = Z.testbit (pendingSignals p) j.
Proof.
  intros Hi Hj (_ & _ & [->|[Hs ->]]) Hsk; [done|].
  rewrite testbit_clear by lia. destruct (Z.eqb_spec i j) as [->|]; [congruence|].
  by rewrite andb_true_r.
Qed.

Lemma skipped_next i j p q :
  0 <= i < 32 -> 0 <= j < 32 -> one_ok i p q -> signalMask q = signalMask p ->
  skipped p j = true -> skipped q j = true.
Proof.
  intros Hi Hj Ho Hm Hs. pose proof (testbit_one i j p q Hi Hj Ho Hs) as Hb.
  destruct Ho as (Hh & _). unfold skipped, handler in *.
  rewrite !bit_test_testbit in * by lia. by rewrite Hb, Hm, Hh.
Qed.

Lemma handle_loop_pending n p m j q :
  (n <= 32)%nat -> 0 <= j < 32 -> skipped p j = true ->
  hs_proc (handle_loop n p m) = Some q ->
  Z.testbit (pendingSignals q) j = Z.testbit (pendingSignals p) j.
Proof.
  intros Hn Hj. revert p. induction n as [|n IH]; intros p Hs; cbn [handle_loop].
  { by intros [= <-]. }
  case_if; [by intros [= <-]|].
  set (i := 32 - Z.of_nat (S n)). assert (Hi : 0 <= i < 32) by lia.
  pose proof (handle_one_ok i p m) as Hok. destruct (handle_one i p m) as [p'|p'| |p' m'].
  - destruct Hok as [Hok Hm]. intros Hq.
    rewrite (IH ltac:(lia) p' (skipped_next i j p p' Hi Hj Hok Hm Hs) Hq).
    by apply (testbit_one i).
  - intros [= <-]. by apply (testbit_one i).
  - done.
  - intros [= <-]. by apply (testbit_one i).
Qed.

(** C38 (invariant): a signal that is blocked by the mask or ignored by its
    handler (and is neither SIGKILL nor SIGSTOP) stays pending through
    handle_signals, and a signal that is not pending does not become so. *)
Theorem blocked_signals_stay_pending (cs_ : Z) (p : proc) (m : mem) (r : hs_result) (q : proc) (j : Z) :
  0 <= j < 32 -> skipped p j = true ->
  handle_signals cs_ (Some p) m = Some r -> hs_proc r = Some q ->
  bit_test (pendingSignals q) j = bit_test (pendingSignals p) j.
Proof.
  intros Hj Hs Hr Hq. rewrite !bit_test_testbit by done. unfold handle_signals in Hr.
  repeat case_if_in Hr; simplify_eq; cbn [hs_proc] in Hq; simplify_eq; try done.
  by apply (handle_loop_pending 32 _ m).
Qed.

(** ** SIGKILL *)

Lemma handle_loop_killed n p m q :
  killed p <> 0 -> hs_proc (handle_loop n p m) = Some q -> killed q <> 0.
Proof.
  revert p. induction n as [|n IH]; intros p Hk; cbn [handle_loop]; [by intros [= <-]|].
  case_if; [by intros [= <-]|]. set (i := 32 - Z.of_nat (S n)).
  pose proof (handle_one_ok i p m) as Hok. destruct (handle_one i p m) as [p'|p'| |p' m'].
  - destruct Hok as [(_ & Hk' & _) _]. by apply IH, Hk'.
  - destruct Hok as (_ & Hk' & _). intros [= <-]. auto.
  - done.
  - destruct Hok as (_ & Hk' & _). intros [= <-]. auto.
Qed.

(** Signals whose handling does not leave the loop. *)
Definition passes (p : proc) (j : Z) : bool :=
  skipped p j || ((handler p j =? SIG_DFL) || (handler p j =? SIGKILL) || (handler p j =? SIGCONT)).

Lemma handle_one_passes i p m :
  i <> SIGSTOP -> passes p i = true -> exists q, handle_one i p m = ANext q.
Proof.
  intros Hi Hp. unfold passes in Hp. apply orb_true_iff in Hp as [Hp|Hp].
  { exists p. by apply handle_one_skipped. }
  unfold handle_one. cbn [handler set_pendingSignals].
  destruct (bit_test _ i); [|by eauto]. case_if; [by eauto|]. case_if; [by eauto|].
  apply Z.eqb_neq in Hi. rewrite Hi.
  change (handler (set_pendingSignals _ p) i) with (handler p i).
  assert (H : handler p i = SIG_DFL \/ handler p i = SIGKILL \/ handler p i = SIGCONT)
    by (unfold SIG_DFL, SIGKILL, SIGCONT in *; lia).
  destruct H as [->|[->| ->]]; cbn [orb andb Z.eqb SIG_DFL SIGKILL SIGSTOP SIGCONT];
    rewrite ?andb_false_r; repeat case_if; solve [eauto | done].
Qed.

Lemma passes_next i j p q :
  0 <= i < 32 -> 0 <= j < 32 -> one_ok i p q -> signalMask q = signalMask p ->
  passes p j = true -> passes q j = true.
Proof.
  intros Hi Hj Ho Hm Hp. unfold passes in *. apply orb_true_iff in Hp as [Hp|Hp].
  - by rewrite (skipped_next i j p q).
  - destruct Ho as (Hh & _). unfold handler in *. rewrite Hh, Hp. apply orb_true_r.
Qed.

Lemma handle_loop_sigkill n p m q :
  (n <= 32)%nat -> 32 - Z.of_nat n <= SIGKILL ->
  bit_test (pendingSignals p) SIGKILL = true -> handler p SIGKILL = SIG_DFL ->
  (forall j, 0 <= j < SIGKILL -> passes p j = true) ->
  hs_proc (handle_loop n p m) = Some q -> killed q <> 0.
Proof.
  unfold SIGKILL. revert p. induction n as [|n IH]; intros p Hn Hle Hb Hh Hp; [lia|].
  cbn [handle_loop]. case_if.
  { to_prop. exfalso. by apply (bit_test_nonzero _ _ Hb). }
  set (i := 32 - Z.of_nat (S n)) in *. destruct (decide (i = 9)) as [Hi|Hi].
  - assert (E : handle_one i p m = ANext (sh_sigkill (clear_pending i p))).
    { rewrite Hi. unfold handle_one, handler, clear_pending in *. rewrite Hb.
      cbn [signalHandler set_pendingSignals]. unfold SIG_DFL in Hh. rewrite Hh. cbn.
      by rewrite andb_false_r. }
    rewrite E. apply handle_loop_killed. done.
  - destruct (handle_one_passes i p m) as [p' E]; [unfold SIGSTOP; lia | apply Hp; lia|].
    rewrite E. pose proof (handle_one_ok i p m) as Hok. rewrite E in Hok. destruct Hok as [Hok Hm].
    apply IH; try lia.
    + rewrite bit_test_testbit in * by lia. destruct Hok as (_ & _ & [->|[_ ->]]); [done|].
      rewrite testbit_clear by lia. destruct (Z.eqb_spec i 9); [done|]. by rewrite Hb.
    + destruct Hok as (Hh' & _). unfold handler in *. by rewrite Hh'.
    + intros j Hj. apply (passes_next i j p p'); try done; try lia. by apply Hp.
Qed.

Lemma find_pid_lookup pt pid_ k i p :
  find_pid pt pid_ k = Some (i, p) ->
  (k <= i)%nat /\ pt !! (i - k)%nat = Some p /\ pid p = pid_ /\ state p <> UNUSED.
Proof.
  revert k. induction pt as [|q pt IH]; intros k; cbn [find_pid]; [done|]. case_if.
  - intros [= <- <-]. to_prop. by rewrite Nat.sub_diag.
  - intros H. destruct (IH _ H) as (? & Hl & ?). split; [lia|]. split; [|done].
    replace (i - k)%nat with (S (i - S k)) by lia. done.
Qed.

(** Kill(pid, SIGKILL) on a sleeping process makes it RUNNABLE
    whatever its signal mask is, and its next return to user mode marks it
    killed, unless a lower signal with a user or stop handler is taken
    first. *)
Theorem sigkill_effective (pt : list proc) (pid_ : Z) (i : nat) (p : proc) (cs_ : Z) (m : mem) :
  find_pid pt pid_ 0 = Some (i, p) -> state p = SLEEPING -> handler p SIGKILL = SIG_DFL ->
  (forall j, 0 <= j < SIGKILL -> passes p j = true) ->
  Z.land cs_ 3 = DPL_USER ->
  exists pt' p',
    kill pid_ SIGKILL pt = Ret pt' 0 /\ pt' !! i = Some p' /\ state p' = RUNNABLE /\
    (forall k, k <> i -> pt' !! k = pt !! k) /\
    forall r q, handle_signals cs_ (Some p') m = Some r -> hs_proc r = Some q -> killed q <> 0.
Proof.
  intros Hf Hst Hh Hp Hcs. destruct (find_pid_lookup _ _ _ _ _ Hf) as (_ & Hpt & _).
  rewrite Nat.sub_0_r in Hpt. set (p1 := set_pendingSignals (bit_set (pendingSignals p) SIGKILL) p).
  assert (Hlt : (i < length pt)%nat) by by eapply lookup_lt_Some.
  assert (Hb : bit_test (pendingSignals p1) SIGKILL = true).
  { rewrite bit_test_testbit by (unfold SIGKILL; lia).
    change (pendingSignals p1) with (bit_set (pendingSignals p) SIGKILL).
    rewrite testbit_set, Z.eqb_refl by (unfold SIGKILL; lia). apply orb_true_r. }
  exists (<[i := set_state RUNNABLE p1]> pt), (set_state RUNNABLE p1). split_and!.
  - unfold kill. cbn [SIGKILL]. change ((SIGKILL <? 0) || (32 <=? SIGKILL)) with false.
    rewrite Hf, Hh. cbn [SIG_DFL SIG_IGN]. change (SIG_DFL =? SIG_IGN) with false.
    fold p1. change (state p1) with (state p). rewrite Hst.
    change (kill_wakes p1 SIGKILL) with true. cbn. unfold kill_wake.
    rewrite list_lookup_insert_eq by done. change (state p1) with (state p). rewrite Hst.
    cbn. by rewrite list_insert_insert_eq.
  - by apply list_lookup_insert_eq.
  - done.
  - intros k Hk. by apply list_lookup_insert_ne.
  - intros r q Hr Hq. unfold handle_signals in Hr. rewrite Hcs, Z.eqb_refl in Hr. cbn [negb] in Hr.
    case_if_in Hr; simplify_eq.
    { cbn in Hq. simplify_eq. to_prop. cbn in *. done. }
    apply (handle_loop_sigkill 32 (set_state RUNNABLE p1) m); try done.
    intros j Hj. apply orb_true_iff. specialize (Hp j Hj). apply orb_true_iff in Hp.
    destruct Hp as [Hp|Hp]; [left|by right]. unfold skipped in *. cbn [pendingSignals set_state p1 set_pendingSignals].
    rewrite !bit_test_testbit in * by (unfold SIGKILL in *; lia).
    rewrite testbit_set by (unfold SIGKILL in *; lia).
    destruct (Z.eqb_spec SIGKILL j); [lia|]. by rewrite orb_false_r.
Qed.

(** ** SIGKILL and SIGSTOP keep their default action *)

Definition protected (p : proc) : Prop :=
  length (signalHandler p) = 32%nat /\ handler p SIGKILL = SIG_DFL /\ handler p SIGSTOP = SIG_DFL.

(** The descriptors that the code that writes signalHandler can produce. *)
Inductive handlers_reach : proc -> Prop :=
| reach_alloc p : handlers_reach (init_signals p)
| reach_fork cur np : handlers_reach cur -> handlers_reach (fork_signals cur np)
| reach_exec p : handlers_reach p -> handlers_reach (exec_signals p)
| reach_syscall p m other s r :
    handlers_reach p ->
    (forall k s1 s2 r, other k s1 = Ret s2 r -> signalHandler (up s2) = signalHandler (up s1)) ->
    syscall other (mk_ustate p m) = Ret s r -> handlers_reach (up s)
| reach_signals p m cs_ r q :
    handlers_reach p -> handle_signals cs_ (Some p) m = Some r -> hs_proc r = Some q ->
    handlers_reach q
(* the rest of the kernel does not assign signalHandler *)
| reach_other p q : handlers_reach p -> signalHandler q = signalHandler p -> handlers_reach q.

Lemma protected_ext p q : signalHandler q = signalHandler p -> protected p -> protected q.
Proof. unfold protected, handler. by intros ->. Qed.

Lemma handle_loop_handlers n p m q :
  hs_proc (handle_loop n p m) = Some q -> signalHandler q = signalHandler p.
Proof.
  revert p. induction n as [|n IH]; intros p; cbn [handle_loop]; [by intros [= <-]|].
  case_if; [by intros [= <-]|]. set (i := 32 - Z.of_nat (S n)).
  pose proof (handle_one_ok i p m) as Hok. destruct (handle_one i p m) as [p'|p'| |p' m'].
  - destruct Hok as [(<- & _) _]. apply IH.
  - destruct Hok as (<- & _). by intros [= <-].
  - done.
  - destruct Hok as (<- & _). by intros [= <-].
Qed.

Lemma handle_signals_handlers cs_ p m r q :
  handle_signals cs_ (Some p) m = Some r -> hs_proc r = Some q -> signalHandler q = signalHandler p.
Proof.
  unfold handle_signals. intros Hr Hq. repeat case_if_in Hr; simplify_eq; cbn [hs_proc] in Hq;
    simplify_eq; try done. by apply (handle_loop_handlers 32 _ m).
Qed.

Lemma sigaction_protected p m signum act oldact s r :
  protected p -> 0 <= signum < 32 -> signum <> SIGKILL -> signum <> SIGSTOP ->
  sigaction signum act oldact (mk_ustate p m) = Ret s r -> protected (up s).
Proof.
  intros (Hl & H9 & H17) Hn Hk Hs [= <- <-]. unfold protected, handler in *.
  cbn [up signalHandler set_signalHandler set_signalHandlerMasks]. rewrite length_insert.
  rewrite !nth_lookup in *. unfold SIGKILL, SIGSTOP in *.
  rewrite !list_lookup_insert_ne by lia. done.
Qed.

Lemma sys_sigaction_protected p m s r :
  protected p -> sys_sigaction (mk_ustate p m) = Ret s r -> protected (up s).
Proof.
  intros Hp H. unfold sys_sigaction in H. destruct (argint 0 _) as [signum|]; [|by simplify_eq].
  case_if_in H; [by simplify_eq|]. destruct (argptr 1 _ _) as [act|]; [|by simplify_eq].
  destruct (argptr 2 _ _) as [oldact|]; [|by simplify_eq]. to_prop.
  unfold SIGNAL_HANDLERS_SIZE in *. by eapply (sigaction_protected p m signum); [..|exact H].
Qed.

Lemma syscall_protected other p m s r :
  (forall k s1 s2 r, other k s1 = Ret s2 r -> signalHandler (up s2) = signalHandler (up s1)) ->
  protected p -> syscall other (mk_ustate p m) = Ret s r -> protected (up s).
Proof.
  intros Ho Hp H. unfold syscall in H. case_if_in H; [|by simplify_eq; exact Hp].
  inv_bind H. unfold modify in H. simplify_eq. apply (protected_ext (up s0)); [done|].
  unfold syscalls in E. repeat case_if_in E.
  - unfold sys_getpid in E. simplify_eq. exact Hp.
  - unfold sys_sigprocmask, sigprocmask in E. destruct (argint 0 _); simplify_eq; exact Hp.
  - by eapply sys_sigaction_protected.
  - unfold sys_sigret, sigret, mbind, M_bind, mret, M_ret in E. simplify_eq. exact Hp.
  - apply Ho in E. by apply (protected_ext p).
Qed.

Lemma exec_signals_handler p i :
  handler (exec_signals p) i =
    if negb (handler p i =? SIG_IGN) && negb (handler p i =? SIG_DFL) then SIG_DFL else handler p i.
Proof.
  unfold handler, exec_signals. cbn [signalHandler set_signalHandler].
  exact (map_nth (fun h => if negb (h =? SIG_IGN) && negb (h =? SIG_DFL) then SIG_DFL else h)
           (signalHandler p) 0 (Z.to_nat i)).
Qed.

(** Whatever sequence of process creation, fork, exec, system
    calls and signal deliveries produced it, a process has the default
    handler for SIGKILL and SIGSTOP: sigaction cannot install another one. *)
Theorem handlers_protected (p : proc) : handlers_reach p -> protected p.
Proof.
  induction 1.
  - done.
  - by apply (protected_ext cur).
  - destruct IHhandlers_reach as (Hl & H9 & H17). unfold protected.
    rewrite !exec_signals_handler, H9, H17. cbn. by rewrite length_map.
  - by eapply syscall_protected.
  - apply (protected_ext p); [|done]. by eapply handle_signals_handlers.
  - by apply (protected_ext p).
Qed.

(** ** The SIGCONT test of the scheduler *)

Definition continues (p : proc) (i : Z) : bool :=
  bit_test (pendingSignals p) i && negb (bit_test (signalMask p) i)
  && ((handler p i =? SIGCONT) || ((i =? SIGCONT) && (handler p i =? SIG_DFL))).

Lemma check_cont_loop_spec n p :
  (n <= 32)%nat ->
  match check_cont_loop n p with
  | (true, q) => exists i, 32 - Z.of_nat n <= i < 32 /\ continues p i = true /\
      (forall j, 32 - Z.of_nat n <= j < i -> continues p j = false) /\
      q = set_pendingSignals (bit_flip (pendingSignals p) i) p
  | (false, q) => q = p /\ forall i, 32 - Z.of_nat n <= i < 32 -> continues p i = false
  end.
Proof.
  induction n as [|n IH]; intros Hn; cbn [check_cont_loop]; [split; [done|lia]|].
  set (i := 32 - Z.of_nat (S n)). change (bit_test (pendingSignals p) i && _ && _) with (continues p i).
  destruct (continues p i) eqn:Hc.
  - exists i. split_and!; try done; lia.
  - specialize (IH ltac:(lia)). destruct (check_cont_loop n p) as [[] q].
    + destruct IH as (k & Hk & Hck & Hlt & ->). exists k. split_and!; try done; try lia.
      intros j Hj. destruct (decide (j = i)) as [->|]; [done|]. apply Hlt. lia.
    + destruct IH as [-> IH]. split; [done|]. intros j Hj.
      destruct (decide (j = i)) as [->|]; [done|]. apply IH. lia.
Qed.

(** Check_cont_sig answers whether some unblocked pending
    signal is a continue signal, and consumes exactly the lowest one. *)
Theorem check_cont_sig_spec (p : proc) :
  match check_cont_sig p with
  | (true, q) => exists i, 0 <= i < 32 /\ continues p i = true /\
      (forall j, 0 <= j < i -> continues p j = false) /\
      bit_test (pendingSignals q) i = false /\
      (forall j, 0 <= j < 32 -> j <> i ->
         bit_test (pendingSignals q) j = bit_test (pendingSignals p) j)
  | (false, q) => q = p /\ forall i, 0 <= i < 32 -> continues p i = false
  end.
Proof.
  pose proof (check_cont_loop_spec 32 p ltac:(lia)) as H. fold (check_cont_sig p) in H.
  destruct (check_cont_sig p) as [[] q]; [|done].
  destruct H as (i & Hi & Hc & Hlt & ->). exists i. cbn [pendingSignals set_pendingSignals].
  assert (Hb : Z.testbit (pendingSignals p) i = true).
  { unfold continues in Hc. to_prop. by rewrite bit_test_testbit in * by lia. }
  split_and!; try done; try lia.
  - rewrite bit_test_testbit, testbit_flip, Hb, Z.eqb_refl by lia. done.
  - intros j Hj Hne. rewrite !bit_test_testbit, testbit_flip by lia.
    destruct (Z.eqb_spec i j); [congruence|]. apply xorb_false_r.
Qed.

(** ** Bounds of system call arguments *)

Lemma fetchint_bounds addr s v :
  0 <= sz (up s) <= KERNBASE -> is_u32 addr -> fetchint addr s = Some v -> addr + 4 <= sz (up s).
Proof.
  unfold fetchint, KERNBASE, is_u32. intros Hsz Ha H. case_if_in H; [done|]. to_prop.
  rewrite u32_small in * by (unfold is_u32; lia). lia.
Qed.

(** A pointer accepted by argptr for size bytes designates
    memory inside the process, with no wrap-around, for every int size. *)
Theorem argptr_bounds (n size : Z) (s : ustate) (a : Z) :
  0 <= sz (up s) <= KERNBASE -> is_s32 size -> argptr n size s = Some a ->
  0 <= a < sz (up s) /\ 0 <= size /\ a + size <= sz (up s).
Proof.
  unfold argptr, is_s32, KERNBASE. intros Hsz Hs H. destruct (argint n s) as [i|]; [|done].
  case_if_in H; [done|]. simplify_eq. to_prop. pose proof (u32_range i) as [? ?].
  rewrite (u32_small (u32 i + size)) in * by (unfold is_u32; lia). lia.
Qed.

Lemma fetchstr_loop_spec n m s len k :
  fetchstr_loop n m s len = Some k ->
  exists j, k = len + Z.of_nat j /\ (j < n)%nat /\ m (s + Z.of_nat j) = 0 /\
            forall i, (i < j)%nat -> m (s + Z.of_nat i) <> 0.
Proof.
  revert s len. induction n as [|n IH]; intros s len; cbn [fetchstr_loop]; [done|].
  destruct (Z.eqb_spec (m s) 0) as [E|E].
  - intros [= <-]. exists 0%nat. rewrite !Z.add_0_r. split_and!; (done || lia).
  - intros H. destruct (IH _ _ H) as (j & -> & Hj & Hz & Hnz). exists (S j). split_and!; try lia.
    + rewrite <- Hz. f_equal. lia.
    + intros [|i] Hi; [by rewrite Z.add_0_r|].
      replace (s + Z.of_nat (S i)) with (s + 1 + Z.of_nat i) by lia. apply Hnz. lia.
Qed.

(** A string accepted by fetchstr lies inside the process, ends
    with a NUL there, and the length returned is that of the C string. *)
Theorem fetchstr_spec (addr : Z) (s : ustate) (p len : Z) :
  0 <= addr -> fetchstr addr s = Some (p, len) ->
  p = addr /\ 0 <= len /\ p + len < sz (up s) /\ um s (p + len) = 0 /\
  forall i, 0 <= i < len -> um s (p + i) <> 0.
Proof.
  unfold fetchstr. intros Ha H. case_if_in H; [done|]. to_prop.
  destruct (fetchstr_loop _ _ _ _) as [k|] eqn:E; simplify_eq.
  apply fetchstr_loop_spec in E as (j & -> & Hj & Hz & Hnz). split_and!; try lia; [done|].
  intros i Hi. specialize (Hnz (Z.to_nat i) ltac:(lia)). by rewrite Z2Nat.id in Hnz by lia.
Qed.

(** A process of 4096 bytes that calls sigaction(1, 0, 4095), its stack at
    1024. *)
Definition sigaction_caller : ustate :=
  mk_ustate (set_sz 4096 (set_tf (set_esp 1024 trapframe0) proc0))
    (store32 (store32 (store32 (fun _ => 7) 1028 1) 1032 0) 1036 4095).


(** ** Witnesses *)

(** A user process that installed the handler 100 for signal 3 and was sent
    it, its stack pointer at 4096. *)
Definition sample_tf : trapframe :=
  mk_trapframe 1 2 3 4 5 6 7 8 35 0 35 0 35 0 35 0 64 0 512 27 0 514 4096 35 0.
Definition sample_proc : proc :=
  set_sz 8192 (set_tf sample_tf
    (set_signalHandler (<[3%nat := 100]> (replicate 32 SIG_DFL))
      (set_pendingSignals (bit_set 0 3) proc0))).
Definition sample_mem : mem := fun a => a mod 251.

Lemma sample_tf_wf : tf_wf sample_tf.
Proof. split; repeat constructor; done. Qed.

(** A bounded universal statement on signal numbers, by evaluation. *)
Lemma below_check (f : Z -> bool) (n : nat) :
  forallb f (map Z.of_nat (seq 0 n)) = true -> forall j, 0 <= j < Z.of_nat n -> f j = true.
Proof.
  intros H j Hj. rewrite forallb_forall in H. apply H. apply in_map_iff.
  exists (Z.to_nat j). split; [lia|]. apply in_seq. lia.
Qed.


Lemma sigret_syscall_eax_witness :
  exists s', syscall (fun _ => mret (-1))
      (mk_ustate (set_tf (set_eax SYS_sigret sample_tf) sample_proc) sample_mem) = Ret s' tt /\
    eax (tf (up s')) = 0.
Proof.
  destruct (sigret_syscall_eax (fun _ => mret (-1))
    (mk_ustate (set_tf (set_eax SYS_sigret sample_tf) sample_proc) sample_mem))
    as (s' & H & _ & Htf & _); [reflexivity|].
  exists s'. split; [exact H|]. by rewrite Htf.
Defined.


Lemma blocked_signals_stay_pending_witness :
  let p := set_pendingSignals (bit_set (bit_set 0 3) 5) (set_signalMask (bit_set 0 5) sample_proc) in
  exists r q, handle_signals 27 (Some p) sample_mem = Some r /\ hs_proc r = Some q /\
    bit_test (pendingSignals q) 5 = true.
Proof.
  intros p. destruct (handle_signals 27 (Some p) sample_mem) as [r|] eqn:Hr; [|done].
  destruct (hs_proc r) as [q|] eqn:Hq; [|by vm_compute in Hr; simplify_eq].
  exists r, q. split_and!; [done..|].
  by rewrite (blocked_signals_stay_pending 27 p sample_mem r q 5).
Defined.

Lemma sigkill_effective_witness :
  exists pt', kill 4 SIGKILL [proc0; set_pid 4 (set_state SLEEPING proc0)] = Ret pt' 0.
Proof.
  destruct (sigkill_effective [proc0; set_pid 4 (set_state SLEEPING proc0)] 4 1
    (set_pid 4 (set_state SLEEPING proc0)) 27 sample_mem) as (pt' & _ & H & _); try done.
  by exists pt'.
Defined.

Lemma handlers_protected_witness : protected (exec_signals (init_signals sample_proc)).
Proof. apply handlers_protected. apply reach_exec, reach_alloc. Defined.

Lemma argptr_bounds_witness :
  exists a, argptr 2 1 sigaction_caller = Some a /\ a + 1 <= 4096.
Proof.
  exists 4095. split; [reflexivity|].
  by apply (argptr_bounds 2 1 sigaction_caller 4095).
Defined.

Lemma fetchstr_spec_witness :
  fetchstr 1033 sigaction_caller = Some (1033, 0) /\ um sigaction_caller 1033 = 0.
Proof.
  split; [reflexivity|].
  by apply (fetchstr_spec 1033 sigaction_caller 1033 0).
Defined.
