(* ===== verification/SignalTypes.v ===== *)
(** The types of the signal state: every field of a process stays inside its
    C type, and every byte of memory a byte, whatever the operations on
    signals do with values that user programs choose. *)

From S2P Require Import Prelude Word Mem Proc Signal.

Local Open Scope Z_scope.

Create HintDb typed.

Definition bytes (m : mem) : Prop := forall a, 0 <= m a < 2 ^ 8.

(** One word per signal. *)
Definition table32 (l : list Z) : Prop := length l = 32%nat /\ Forall is_u32 l.

Record proc_typed (p : proc) : Prop := {
  ty_tf : tf_wf (tf p);
  ty_pending : is_u32 (pendingSignals p);
  ty_mask : is_u32 (signalMask p);
  ty_maskBU : is_u32 (signalMaskBU p);
  ty_handlers : table32 (signalHandler p);
  ty_masks : table32 (signalHandlerMasks p);
  ty_tfBU : is_u32 (uTrapFrameBU p);
}.

Definition typed (p : proc) (m : mem) : Prop := proc_typed p /\ bytes m.

(** ** Memory *)

Lemma store8_bytes m a v : bytes m -> bytes (store8 m a v).
Proof.
  intros H x. unfold store8, upd. case_if; [|apply H]. apply Z.mod_pos_bound. lia.
Qed.
#[local] Hint Resolve store8_bytes : typed.

Lemma store32_bytes m a v : bytes m -> bytes (store32 m a v).
Proof. intros H. unfold store32. auto 10 with typed. Qed.
#[local] Hint Resolve store32_bytes : typed.

Lemma store_words_bytes ws m a : bytes m -> bytes (store_words m a ws).
Proof. revert m a. induction ws as [|w ws IH]; intros m a H; cbn; [done|]. auto with typed. Qed.

Lemma store_bytes_bytes bs m a : bytes m -> bytes (store_bytes m a bs).
Proof. revert m a. induction bs as [|b bs IH]; intros m a H; cbn; [done|]. auto with typed. Qed.
#[local] Hint Resolve store_words_bytes store_bytes_bytes : typed.

Lemma load32_typed m a : bytes m -> is_u32 (load32 m a).
Proof.
  intros H. unfold load32, is_u32. pose proof (H a). pose proof (H (a + 1)). pose proof (H (a + 2)). pose proof (H (a + 3)). lia.
Qed.
#[local] Hint Resolve load32_typed : typed.

(** ** Trap frames *)

Ltac fields := repeat first [apply List.Forall_nil | apply List.Forall_cons].

Lemma nth_typed l k : Forall is_u32 l -> is_u32 (nth k l 0).
Proof.
  intros H. destruct (nth_in_or_default k l 0) as [Hin| ->]; [|unfold is_u32; lia].
  rewrite list.Forall_forall in H. apply H. by apply list_elem_of_In.
Qed.

Lemma u32_typed z : is_u32 (u32 z).
Proof. apply Z.mod_pos_bound. lia. Qed.
#[local] Hint Resolve u32_typed : typed.

Lemma half_typed w : is_u16 (lo16 w) /\ is_u16 (hi16 w).
Proof. split; apply Z.mod_pos_bound; lia. Qed.

Lemma load_words_typed m n a : bytes m -> Forall is_u32 (load_words m a n).
Proof. intros H. revert a. induction n as [|n IH]; intros a; cbn; constructor; auto with typed. Qed.

Lemma load_tf_typed m a : bytes m -> tf_wf (load_tf m a).
Proof.
  intros H. pose proof (load_words_typed m 19 a H) as Hw. unfold load_tf.
  assert (Hn : forall k, is_u32 (nth k (load_words m a 19) 0)) by (intros k; by apply nth_typed).
  split; fields; try apply Hn; apply half_typed.
Qed.
#[local] Hint Resolve load_tf_typed : typed.

Lemma set_esp_typed v t : is_u32 v -> tf_wf t -> tf_wf (set_esp v t).
Proof.
  intros Hv [H32 H16]. split_Forall.
  split; fields; done.
Qed.

Lemma set_eip_typed v t : is_u32 v -> tf_wf t -> tf_wf (set_eip v t).
Proof.
  intros Hv [H32 H16]. split_Forall.
  split; fields; done.
Qed.

Lemma set_eax_typed v t : is_u32 v -> tf_wf t -> tf_wf (set_eax v t).
Proof.
  intros Hv [H32 H16]. split_Forall.
  split; fields; done.
Qed.
#[local] Hint Resolve set_esp_typed set_eip_typed set_eax_typed : typed.

(** ** Handlers and masks *)

Lemma table_nth l k : table32 l -> is_u32 (nth k l 0).
Proof. intros [_ H]. by apply nth_typed. Qed.

Lemma table_insert l k v : table32 l -> is_u32 v -> table32 (<[k := v]> l).
Proof. intros [Hl H] Hv. split; [by rewrite length_insert | by apply Forall_insert]. Qed.

Lemma table_same v : is_u32 v -> table32 (replicate 32 v).
Proof. intros Hv. split; [done | by apply Forall_replicate]. Qed.

Lemma handler_typed p i : proc_typed p -> is_u32 (handler p i).
Proof. intros H. apply table_nth, H. Qed.

Lemma handler_mask_typed p i : proc_typed p -> is_u32 (handler_mask p i).
Proof. intros H. apply table_nth, H. Qed.
#[local] Hint Resolve table_insert table_same handler_typed handler_mask_typed : typed.

(** ** The operations *)

Lemma is_u32_0 : is_u32 0.
Proof. unfold is_u32. lia. Qed.
#[local] Hint Resolve is_u32_0 : typed.

(** A field replaced by a value of its type. *)
Ltac field_typed := intros; match goal with H : proc_typed _ |- _ => destruct H; split; cbn; auto with typed end.

Lemma set_pending_typed v p : is_u32 v -> proc_typed p -> proc_typed (set_pendingSignals v p).
Proof. field_typed. Qed.
Lemma set_mask_typed v p : is_u32 v -> proc_typed p -> proc_typed (set_signalMask v p).
Proof. field_typed. Qed.
Lemma set_maskBU_typed v p : is_u32 v -> proc_typed p -> proc_typed (set_signalMaskBU v p).
Proof. field_typed. Qed.
Lemma set_tf_typed v p : tf_wf v -> proc_typed p -> proc_typed (set_tf v p).
Proof. field_typed. Qed.
Lemma set_tfBU_typed v p : is_u32 v -> proc_typed p -> proc_typed (set_uTrapFrameBU v p).
Proof. field_typed. Qed.
Lemma set_handlers_typed v p : table32 v -> proc_typed p -> proc_typed (set_signalHandler v p).
Proof. field_typed. Qed.
Lemma set_masks_typed v p : table32 v -> proc_typed p -> proc_typed (set_signalHandlerMasks v p).
Proof. field_typed. Qed.
Lemma set_killed_typed v p : proc_typed p -> proc_typed (set_killed v p).
Proof. field_typed. Qed.
Lemma set_frozen_typed v p : proc_typed p -> proc_typed (set_frozen v p).
Proof. field_typed. Qed.
Lemma set_state_typed v p : proc_typed p -> proc_typed (set_state v p).
Proof. field_typed. Qed.
#[local] Hint Resolve set_pending_typed set_mask_typed set_maskBU_typed set_tf_typed set_tfBU_typed
  set_handlers_typed set_masks_typed set_killed_typed set_frozen_typed set_state_typed : typed.
#[local] Hint Resolve ty_tf ty_pending ty_mask ty_maskBU ty_handlers ty_masks ty_tfBU : typed.
#[local] Hint Resolve bit_clear_u32 bit_set_u32 bit_flip_u32 : typed.

Lemma tf_esp_typed p : proc_typed p -> is_u32 (esp (tf p)).
Proof. intros [[H _] _ _ _ _ _ _]. repeat (apply Forall_cons_1 in H as [? H]). done. Qed.
#[local] Hint Resolve tf_esp_typed : typed.

Lemma deliver_typed i p m : typed p m -> let '(p', m') := deliver i p m in typed p' m'.
Proof.
  intros [Hp Hm]. unfold deliver, store_tf. split; [|auto 10 with typed].
  assert (Hh : is_u32 (handler p i)) by auto with typed. assert (Hk : is_u32 (handler_mask p i)) by auto with typed.
  destruct Hp as [H1 H2 H3 H4 H5 H6 H7]. split; cbn; auto 10 with typed.
Qed.

Lemma handle_one_typed i p m : typed p m ->
  match handle_one i p m with
  | ANext q | AYield q => typed q m
  | AReturn q m' => typed q m'
  | APanic _ => True
  end.
Proof.
  intros [Hp Hm]. unfold handle_one, sh_sigstop, yield_cas, sh_sigcont, sh_sigkill.
  destruct (bit_test (pendingSignals p) i); [|by split].
  destruct (bit_test (signalMask p) i && _); [by split|]. destruct ((handler p i =? SIG_IGN) && _); [by split|].
  set (p' := set_pendingSignals _ p). assert (Hp' : proc_typed p') by (unfold p'; auto with typed).
  destruct ((handler p' i =? SIGSTOP) || _).
  { destruct (cas _ _ _) as [[] st]; [|done]. split; auto with typed. }
  destruct ((handler p' i =? SIGCONT) || _); [split; auto with typed|].
  destruct ((handler p' i =? SIGKILL) || _); [split; auto with typed|].
  pose proof (deliver_typed i p' m (conj Hp' Hm)) as Hd. by destruct (deliver i p' m).
Qed.

Lemma handle_loop_typed n p m : typed p m ->
  match handle_loop n p m with
  | HsDone q m' | HsYield _ q m' => typed q m'
  | HsPanic _ => True
  end.
Proof.
  revert p m. induction n as [|n IH]; intros p m H; cbn [handle_loop]; [done|].
  destruct (pendingSignals p =? 0); [done|]. pose proof (handle_one_typed (32 - Z.of_nat (S n)) p m H) as H1.
  destruct (handle_one _ p m); [by apply IH | done | done | done].
Qed.

Lemma sigaction_typed k act oldact p m s' r :
  typed p m -> sigaction k act oldact (mk_ustate p m) = Ret s' r -> typed (up s') (um s').
Proof.
  intros [Hp Hm] [= <- <-]. cbn. set (m' := if negb (oldact =? 0) then _ else m).
  assert (Hm' : bytes m') by (unfold m'; case_if; auto with typed). split; [|done]. auto 10 with typed.
Qed.

Lemma sys_sigaction_typed p m s' r :
  typed p m -> sys_sigaction (mk_ustate p m) = Ret s' r -> typed (up s') (um s').
Proof.
  intros H. unfold sys_sigaction. destruct (argint 0 _); [|by intros [= <- _]].
  case_if; [by intros [= <- _]|]. destruct (argptr 1 _ _); [|by intros [= <- _]].
  destruct (argptr 2 _ _); [|by intros [= <- _]]. by apply sigaction_typed.
Qed.

Lemma sys_sigret_typed p m s' r : typed p m -> sys_sigret (mk_ustate p m) = Ret s' r -> typed (up s') (um s').
Proof. intros [Hp Hm] [= <- _]. split; cbn; [|done]. auto 10 with typed. Qed.

Lemma sys_sigprocmask_typed p m s' r : typed p m -> sys_sigprocmask (mk_ustate p m) = Ret s' r -> typed (up s') (um s').
Proof.
  intros [Hp Hm]. unfold sys_sigprocmask. destruct (argint 0 _); [|by intros [= <- _]].
  intros [= <- _]. split; cbn; auto with typed.
Qed.

Lemma exec_signals_typed p : proc_typed p -> proc_typed (exec_signals p).
Proof.
  intros H. apply set_handlers_typed; [|done]. destruct (ty_handlers _ H) as [Hl Hu]. split; [by rewrite length_map|].
  apply Forall_map. eapply Forall_impl; [|exact Hu]. cbn. intros h Hh. case_if; [|done]. unfold SIG_DFL, is_u32. lia.
Qed.

Lemma kill_typed pid_ signum pt pt' r :
  Forall proc_typed pt -> kill pid_ signum pt = Ret pt' r -> Forall proc_typed pt'.
Proof.
  intros H. unfold kill. case_if; [by intros [= <- _]|]. to_prop.
  destruct (find_pid pt pid_ 0) as [[i p]|] eqn:Ef; [|by intros [= <- _]].
  case_if; [by intros [= <- _]|]. assert (Hp : proc_typed p).
  { apply find_pid_lookup in Ef as (_ & Ef & _). rewrite Nat.sub_0_r in Ef. by eapply Forall_lookup_1. }
  set (q := set_pendingSignals _ p). assert (Hq : proc_typed q) by (unfold q; auto with typed lia).
  case_if; [|by intros [= <- _]; apply Forall_insert]. unfold kill_wake.
  destruct (<[i := q]> pt !! i) as [q'|] eqn:El; [|by intros [= <- _]; apply Forall_insert].
  assert (Hq' : proc_typed q') by (eapply Forall_lookup_1; [|exact El]; by apply Forall_insert).
  case_if; [done|]. destruct (cas _ _ _) as [b st]. intros [= <- _]. apply Forall_insert; [by apply Forall_insert | auto with typed].
Qed.


Lemma sample_typed : typed sample_proc sample_mem.
Proof.
  split.
  - split; [exact sample_tf_wf | by unfold is_u32.. | | | by unfold is_u32];
      (split; [reflexivity|]; cbn; fields; by unfold is_u32).
  - intros a. unfold sample_mem. pose proof (Z.mod_pos_bound a 251 ltac:(lia)). lia.
Qed.

