(* ===== verification/Spinlock.v ===== *)
(** Spin locks (spinlock.c) and sleep locks (sleeplock.c).

    [pushcli] and [popcli] act on the interrupt state of one CPU.  The spin
    lock is a transition system over any number of CPUs, one step per access
    to the lock word or to lk->cpu.  The class [HasLock] is what the other
    components use of a spin lock: their operations are the critical sections
    that the transition system shows to be exclusive, so there a lock is the
    flag that says whether it is held. *)

From S2P Require Import Prelude Word Mem Proc.

Local Open Scope Z_scope.

(** ** Interrupt nesting *)

(** The IF bit of eflags, and ncli and intena of struct cpu. *)
Record cpuint := mk_cpuint { ifl : bool; ncli : Z; intena : bool }.

Definition pushcli : M cpuint unit := fun k =>
  let eflags := ifl k in
  let ia := if ncli k =? 0 then eflags else intena k in
  Ret (mk_cpuint false (ncli k + 1) ia) tt.

Definition popcli : M cpuint unit := fun k =>
  if ifl k then Panic "popcli - interruptible"
  else
    let n := ncli k - 1 in
    if n <? 0 then Panic "popcli"
    else Ret (mk_cpuint (if (n =? 0) && intena k then true else ifl k) n (intena k)) tt.

(** While ncli is positive interrupts are off. *)
Definition cpuint_wf (k : cpuint) : Prop := 0 <= ncli k /\ (0 < ncli k -> ifl k = false).

Fixpoint repeatM {S} (n : nat) (m : M S unit) : M S unit :=
  match n with O => mret tt | Datatypes.S n => m ≫= fun _ => repeatM n m end.

(** ** The lock *)

Record spinlock := mk_spinlock { locked : Z; lkcpu : option nat }.

Definition initlock : spinlock := mk_spinlock 0 None.

(** holding, run by CPU [c]. *)
Definition holding (c : nat) (lk : spinlock) : M cpuint bool :=
  pushcli ≫= fun _ =>
  let r := negb (locked lk =? 0) && bool_decide (lkcpu lk = Some c) in
  popcli ≫= fun _ => mret r.

(** xchg (x86.h): the old value and the new content. *)
Definition xchg (cur newval : Z) : Z * Z := (cur, newval).

Inductive lpc :=
| LOut                             (* does not use the lock *)
| LPush                            (* acquire: pushcli() *)
| LHold                            (* if(holding(lk)) panic("acquire") *)
| LXchg                            (* while(xchg(&lk->locked, 1) != 0) *)
| LSet                             (* lk->cpu = mycpu() *)
| LCrit                            (* the critical section *)
| LRHold                           (* release: if(!holding(lk)) panic("release") *)
| LClear                           (* lk->cpu = 0 *)
| LStore                           (* lk->locked = 0 *)
| LPop.                            (* popcli() *)

Record lcpu := mk_lcpu { intr : cpuint; lpc_ : lpc }.

Record lconfig := mk_lconfig { lock : spinlock; lcpus : list lcpu }.

Inductive lresult :=
| LNext (cfg : lconfig)
| LPanic (msg : string)
| LNone.

(** One step of acquire and release on CPU [c]. *)
Definition lock_step (c : nat) (k : lcpu) (lk : spinlock) : outcome spinlock lcpu :=
  let at_ p i := mk_lcpu i p in
  match lpc_ k with
  | LOut => Ret lk (at_ LPush (intr k))
  | LPush => match pushcli (intr k) with
             | Ret i _ => Ret lk (at_ LHold i) | Panic e => Panic e | Wait w _ => Wait w lk end
  | LHold => match holding c lk (intr k) with
             | Ret i r => if r then Panic "acquire" else Ret lk (at_ LXchg i)
             | Panic e => Panic e | Wait w _ => Wait w lk end
  | LXchg => let '(old, new) := xchg (locked lk) 1 in
             Ret (mk_spinlock new (lkcpu lk)) (at_ (if old =? 0 then LSet else LXchg) (intr k))
  | LSet => Ret (mk_spinlock (locked lk) (Some c)) (at_ LCrit (intr k))
  | LCrit => Ret lk (at_ LRHold (intr k))
  | LRHold => match holding c lk (intr k) with
              | Ret i r => if r then Ret lk (at_ LClear i) else Panic "release"
              | Panic e => Panic e | Wait w _ => Wait w lk end
  | LClear => Ret (mk_spinlock (locked lk) None) (at_ LStore (intr k))
  | LStore => Ret (mk_spinlock 0 (lkcpu lk)) (at_ LPop (intr k))
  | LPop => match popcli (intr k) with
            | Ret i _ => Ret lk (at_ LOut i) | Panic e => Panic e | Wait w _ => Wait w lk end
  end.

Definition lock_exec (c : nat) (cfg : lconfig) : lresult :=
  match lcpus cfg !! c with
  | None => LNone
  | Some k =>
      match lock_step c k (lock cfg) with
      | Ret lk k => LNext (mk_lconfig lk (<[c := k]> (lcpus cfg)))
      | Panic e => LPanic e
      | Wait _ _ => LNone
      end
  end.

Definition lstep (cfg cfg' : lconfig) : Prop := exists c, lock_exec c cfg = LNext cfg'.

Definition linitial (cfg : lconfig) : Prop :=
  lock cfg = initlock /\ Forall (fun k => lpc_ k = LOut /\ cpuint_wf (intr k)) (lcpus cfg).

(** getcallerpcs: the saved program counters on the chain of frame pointers;
    [ld] reads a word of memory. *)
Fixpoint getcallerpcs_loop (n : nat) (ld : Z -> Z) (ebp : Z) : list Z :=
  match n with
  | O => []
  | S n' =>
      if (ebp =? 0) || (ebp <? KERNBASE) || (ebp =? 0xffffffff) then replicate n 0
      else ld (u32 (ebp + 4)) :: getcallerpcs_loop n' ld (ld ebp)
  end.

Definition getcallerpcs (ld : Z -> Z) (v : Z) : list Z :=
  getcallerpcs_loop 10 ld (u32 (v - 8)).

(** ** The interface of locked components *)

Class HasLock (S : Type) := {
  get_lock : S -> bool;
  set_lock : bool -> S -> S;
  get_set_lock : forall b s, get_lock (set_lock b s) = b;
  set_set_lock : forall b b' s, set_lock b (set_lock b' s) = set_lock b s;
  set_get_lock : forall s, set_lock (get_lock s) s = s;
}.

Section locked.
Context {S : Type} `{HasLock S}.

(** acquire and release as the code of one component sees them: it spins when
    another CPU is in the critical section. *)
Definition acquire : M S unit := fun s => if get_lock s then Wait Spin s else Ret (set_lock true s) tt.
Definition release : M S unit := fun s =>
  if get_lock s then Ret (set_lock false s) tt else Panic "release".

(** Every outcome of [m] started with the lock free leaves it free, unless
    the machine stops. *)
Definition lock_balanced {A} (m : M S A) : Prop :=
  forall s, get_lock s = false ->
    match m s with
    | Ret s' _ => get_lock s' = false
    | Wait (On _) s' => get_lock s' = false
    | Wait Spin _ => False
    | Panic _ => True
    end.

Lemma acquire_free s : get_lock s = false -> acquire s = Ret (set_lock true s) tt.
Proof. intros E. unfold acquire. by rewrite E. Qed.

Lemma release_held s : get_lock s = true -> release s = Ret (set_lock false s) tt.
Proof. intros E. unfold release. by rewrite E. Qed.

End locked.

(** ** Sleep locks (sleeplock.c) *)

(** The inner spin lock, locked and pid, and the number of wakeup(lk) made. *)
Record sleeplock := mk_sleeplock { sl_lk : bool; sl_locked : Z; sl_pid : Z; sl_wakeups : nat }.

#[refine, export] Instance sleeplock_lock : HasLock sleeplock := {|
  get_lock := sl_lk;
  set_lock b s := mk_sleeplock b (sl_locked s) (sl_pid s) (sl_wakeups s);
|}.
Proof. 1-2: done. by intros []. Defined.

Definition initsleeplock : sleeplock := mk_sleeplock false 0 0 0.

(** [addr] is the address of the lock, on which waiters sleep; sleep releases
    the inner lock, and when it returns with the lock held again the loop of
    acquiresleep tests lk->locked again: the call resumes as
    [acquiresleep addr mypid]. *)
Definition acquiresleep (addr mypid : Z) : M sleeplock unit :=
  acquire ≫= fun _ =>
  get ≫= fun s =>
  if negb (sl_locked s =? 0) then release ≫= fun _ => waiton (On addr)
  else put (mk_sleeplock (sl_lk s) 1 mypid (sl_wakeups s)) ≫= fun _ => release.

Definition releasesleep : M sleeplock unit :=
  acquire ≫= fun _ =>
  modify (fun s => mk_sleeplock (sl_lk s) 0 0 (S (sl_wakeups s))) ≫= fun _ =>
  release.

Definition holdingsleep (mypid : Z) : M sleeplock bool :=
  acquire ≫= fun _ =>
  get ≫= fun s =>
  let r := negb (sl_locked s =? 0) && (sl_pid s =? mypid) in
  release ≫= fun _ => mret r.

(** ** Theorems on nesting *)

Lemma pushcli_wf k : cpuint_wf k ->
  exists k', pushcli k = Ret k' tt /\ cpuint_wf k' /\ ncli k' = ncli k + 1 /\ ifl k' = false.
Proof.
  intros [Hn Hi]. eexists. split; [reflexivity|]. cbn. unfold cpuint_wf. cbn. split; [|done].
  split; [lia | done].
Qed.

Lemma popcli_wf k : cpuint_wf k -> 0 < ncli k ->
  exists k', popcli k = Ret k' tt /\ cpuint_wf k' /\ ncli k' = ncli k - 1.
Proof.
  intros [Hn Hi] Hp. unfold popcli. rewrite (Hi Hp).
  destruct (Z.ltb_spec (ncli k - 1) 0); [lia|]. eexists. split; [reflexivity|].
  split; [|done]. split; cbn; [lia|]. intros H1. destruct (Z.eqb_spec (ncli k - 1) 0); [lia|done].
Qed.

(** One matched pair restores everything but intena, which is only meaningful
    while ncli is positive. *)
Lemma push_pop k : cpuint_wf k ->
  exists ia, (pushcli ≫= fun _ => popcli) k = Ret (mk_cpuint (ifl k) (ncli k) ia) tt /\
             (0 < ncli k -> ia = intena k).
Proof.
  intros [Hn Hi]. unfold pushcli, popcli, mbind, M_bind. cbn.
  replace (ncli k + 1 - 1) with (ncli k) by lia. destruct (Z.ltb_spec (ncli k) 0); [lia|].
  destruct (Z.eqb_spec (ncli k) 0) as [E|E]; cbn.
  - exists (ifl k). split; [|lia]. by destruct (ifl k).
  - exists (intena k). split; [|done]. by rewrite Hi by lia.
Qed.

Lemma repeat_push n k : cpuint_wf k ->
  exists k', repeatM n pushcli k = Ret k' tt /\ cpuint_wf k' /\ ncli k' = ncli k + Z.of_nat n /\
    (0 < Z.of_nat n -> ifl k' = false) /\
    (0 < ncli k -> intena k' = intena k) /\
    (ncli k = 0 -> 0 < Z.of_nat n -> intena k' = ifl k).
Proof.
  revert k. induction n as [|n IH]; intros k Hk.
  { exists k. cbn. split; [done|]. split; [done|]. repeat split; (lia || done). }
  destruct (pushcli_wf k Hk) as (k1 & H1 & Hk1 & Hn1 & Hf1).
  destruct (IH k1 Hk1) as (k2 & H2 & Hk2 & Hn2 & Hf2 & Hi2 & _).
  exists k2. cbn [repeatM]. rewrite (bind_ret _ _ _ _ _ H1). split; [done|]. split; [done|].
  split; [lia|]. destruct Hk as [Hk0 Hk]. rewrite Hi2 by lia. unfold pushcli in H1. simplify_eq. cbn.
  split_and!.
  - intros _. apply Hk2. cbn in *. lia.
  - intros H. destruct (Z.eqb_spec (ncli k) 0); [lia|done].
  - intros -> _. done.
Qed.

Lemma repeat_pop n k : cpuint_wf k -> Z.of_nat n <= ncli k ->
  exists k', repeatM n popcli k = Ret k' tt /\ cpuint_wf k' /\ ncli k' = ncli k - Z.of_nat n /\
    intena k' = intena k /\
    ifl k' = (if Z.of_nat n =? 0 then ifl k else if ncli k - Z.of_nat n =? 0 then intena k else false).
Proof.
  revert k. induction n as [|n IH]; intros k Hk Hn.
  { exists k. split; [done|]. split; [done|]. split; [lia|]. done. }
  destruct (popcli_wf k Hk) as (k1 & H1 & Hk1 & Hn1); [lia|].
  destruct (IH k1 Hk1) as (k2 & H2 & Hk2 & Hn2 & Hi2 & Hf2); [lia|].
  exists k2. cbn [repeatM]. rewrite (bind_ret _ _ _ _ _ H1). split; [done|]. split; [done|].
  split; [lia|]. unfold popcli in H1. destruct Hk as [Hk0 Hk]. rewrite Hk in H1 by lia.
  case_if_in H1; [done|]. simplify_eq. cbn [intena ncli ifl] in *. split; [done|].
  rewrite Hf2. destruct (Z.eqb_spec (Z.of_nat n) 0) as [E|E].
  - rewrite E in *. replace (ncli k - Z.of_nat (S n)) with (ncli k - 1) by lia.
    destruct (Z.eqb_spec (Z.of_nat (S n)) 0); [lia|].
    destruct (ncli k - 1 =? 0), (intena k); done.
  - replace (ncli k - 1 - Z.of_nat n) with (ncli k - Z.of_nat (S n)) by lia.
    destruct (Z.eqb_spec (Z.of_nat (S n)) 0); [lia|done].
Qed.

(** Pushcli and popcli are matched.  After n calls of pushcli
    interrupts are off, and n calls of popcli restore the interrupt flag and
    the depth, whatever they were. *)
Theorem cli_nesting (n : nat) (k : cpuint) :
  cpuint_wf k -> (0 < n)%nat ->
  exists k1 k2, repeatM n pushcli k = Ret k1 tt /\ ifl k1 = false /\
    repeatM n popcli k1 = Ret k2 tt /\ ifl k2 = ifl k /\ ncli k2 = ncli k.
Proof.
  intros Hk Hn. destruct (repeat_push n k Hk) as (k1 & H1 & Hk1 & Hn1 & Hf1 & Hi1 & Hj1).
  destruct (repeat_pop n k1 Hk1) as (k2 & H2 & Hk2 & Hn2 & Hi2 & Hf2); [destruct Hk; lia|].
  exists k1, k2. split; [done|]. split; [apply Hf1; lia|]. split; [done|]. split; [|lia].
  destruct (Z.eqb_spec (Z.of_nat n) 0); [lia|]. rewrite Hf2.
  replace (ncli k1 - Z.of_nat n) with (ncli k) by lia. destruct Hk as [Hk0 Hk].
  destruct (Z.eqb_spec (ncli k) 0) as [E|E].
  - apply Hj1; [done | lia].
  - symmetry. apply Hk. lia.
Qed.

Lemma cli_nesting_witness :
  exists k1 k2, repeatM 3 pushcli (mk_cpuint true 0 false) = Ret k1 tt /\ ifl k1 = false /\
    repeatM 3 popcli k1 = Ret k2 tt /\ ifl k2 = true /\ ncli k2 = 0.
Proof. apply (cli_nesting 3 (mk_cpuint true 0 false)); [split; cbn; lia | lia]. Defined.

(** ** Mutual exclusion *)

Definition in_section (p : lpc) : bool :=
  match p with LSet | LCrit | LRHold | LClear | LStore => true | _ => false end.

(** The points at which lk->cpu designates the holder. *)
Definition recorded (p : lpc) : bool :=
  match p with LCrit | LRHold | LClear => true | _ => false end.

Definition cli_on (p : lpc) : bool := match p with LOut | LPush => false | _ => true end.

Definition lcpu_wf (k : lcpu) : Prop :=
  cpuint_wf (intr k) /\ (cli_on (lpc_ k) = true -> 0 < ncli (intr k)).

Record linv (cfg : lconfig) : Prop := {
  linv_wf : forall c k, lcpus cfg !! c = Some k -> lcpu_wf k;
  linv_section : forall c k, lcpus cfg !! c = Some k -> in_section (lpc_ k) = true ->
    locked (lock cfg) = 1;
  linv_unique : forall c1 c2 k1 k2, lcpus cfg !! c1 = Some k1 -> lcpus cfg !! c2 = Some k2 ->
    in_section (lpc_ k1) = true -> in_section (lpc_ k2) = true -> c1 = c2;
  linv_cpu : forall c, lkcpu (lock cfg) = Some c <->
    exists k, lcpus cfg !! c = Some k /\ recorded (lpc_ k) = true;
  linv_free : locked (lock cfg) <> 0 ->
    exists c k, lcpus cfg !! c = Some k /\ in_section (lpc_ k) = true;
}.

Lemma recorded_section p : recorded p = true -> in_section p = true.
Proof. by destruct p. Qed.

Lemma holding_ok c lk i : cpuint_wf i ->
  exists i', holding c lk i = Ret i' (negb (locked lk =? 0) && bool_decide (lkcpu lk = Some c)) /\
             cpuint_wf i' /\ ncli i' = ncli i.
Proof.
  intros Hi. destruct (pushcli_wf i Hi) as (i1 & H1 & Hi1 & Hn1 & _).
  destruct (popcli_wf i1 Hi1) as (i2 & H2 & Hi2 & Hn2); [destruct Hi; lia|].
  exists i2. unfold holding. rewrite (bind_ret _ _ _ _ _ H1), (bind_ret _ _ _ _ _ H2).
  split; [done|]. split; [done | lia].
Qed.

Lemma lookup_insert_cases {A} (l : list A) c k' c2 k2 :
  <[c := k']> l !! c2 = Some k2 -> c2 = c /\ k2 = k' \/ c2 <> c /\ l !! c2 = Some k2.
Proof.
  intros H. destruct (decide (c2 = c)) as [->|Hne].
  - left. split; [done|]. assert (c < length l)%nat.
    { apply lookup_lt_Some in H. by rewrite length_insert in H. }
    rewrite list_lookup_insert_eq in H by done. congruence.
  - rewrite list_lookup_insert_ne in H by done. auto.
Qed.

Section update.
Context (cfg : lconfig) (c : nat) (k k' : lcpu) (lk' : spinlock).
Context (Hinv : linv cfg) (Hk : lcpus cfg !! c = Some k) (Hwf' : lcpu_wf k').
(* entering requires a free lock word; being inside means it is set *)
Context (Hin : in_section (lpc_ k') = true -> in_section (lpc_ k) = true \/ locked (lock cfg) = 0).
Context (Hl : locked lk' = if in_section (lpc_ k') then 1
                           else if in_section (lpc_ k) then 0 else locked (lock cfg)).
Context (Hcpu : lkcpu lk' = if recorded (lpc_ k') then Some c
                            else if recorded (lpc_ k) then None else lkcpu (lock cfg)).
Context (Hrec : recorded (lpc_ k') = true -> in_section (lpc_ k) = true).

(** Nobody else is inside when [c] is, or gets, inside. *)
Lemma others_out c2 k2 :
  c2 <> c -> lcpus cfg !! c2 = Some k2 -> in_section (lpc_ k2) = true ->
  in_section (lpc_ k') = false /\ in_section (lpc_ k) = false.
Proof.
  intros Hne H2 Hs2. destruct (in_section (lpc_ k)) eqn:E.
  { destruct Hne. by eapply (linv_unique _ Hinv). }
  split; [|done]. destruct (in_section (lpc_ k')) eqn:E'; [|done].
  destruct (Hin eq_refl) as [?|H0]; [done|].
  rewrite (linv_section _ Hinv _ _ H2 Hs2) in H0. done.
Qed.

Lemma recorded_update c2 :
  lkcpu lk' = Some c2 <->
  exists k2, <[c := k']> (lcpus cfg) !! c2 = Some k2 /\ recorded (lpc_ k2) = true.
Proof.
  assert (Hlen : (c < length (lcpus cfg))%nat) by by eapply lookup_lt_Some.
  rewrite Hcpu. destruct (decide (c2 = c)) as [->|Hne].
  - rewrite list_lookup_insert_eq by done. destruct (recorded (lpc_ k')) eqn:E.
    { split; [by exists k' | done]. }
    transitivity False; [|split; [done|]; intros (k2 & [= <-] & ?); congruence].
    destruct (recorded (lpc_ k)) eqn:E2; [done|]. rewrite (linv_cpu _ Hinv).
    split; [|done]. intros (k2 & Hk2 & ?). congruence.
  - rewrite list_lookup_insert_ne by done.
    assert (Hno : recorded (lpc_ k') = true \/ recorded (lpc_ k) = true ->
      (exists k2, lcpus cfg !! c2 = Some k2 /\ recorded (lpc_ k2) = true) -> False).
    { intros Hr (k2 & H2 & Hr2). destruct (others_out c2 k2 Hne H2 (recorded_section _ Hr2)) as [? Hk2].
      destruct Hr as [Hr|Hr]; [apply Hrec in Hr | apply recorded_section in Hr]; congruence. }
    destruct (recorded (lpc_ k')); [split; [intros [= ->]; done | by intros H; destruct Hno; auto]|].
    destruct (recorded (lpc_ k)); [split; [done | by intros H; destruct Hno; auto]|].
    apply (linv_cpu _ Hinv).
Qed.

(** A step of CPU [c] from [k] to [k'] keeps the invariant. *)
Lemma linv_update : linv (mk_lconfig lk' (<[c := k']> (lcpus cfg))).
Proof.
  assert (Hlen : (c < length (lcpus cfg))%nat) by by eapply lookup_lt_Some.
  split; cbn [lock lcpus].
  - intros c2 k2 H. destruct (lookup_insert_cases _ _ _ _ _ H) as [[-> ->]|[_ H2]]; [done|].
    by eapply (linv_wf _ Hinv).
  - intros c2 k2 H Hi. rewrite Hl.
    destruct (lookup_insert_cases _ _ _ _ _ H) as [[-> ->]|[Hne H2]]; [by rewrite Hi|].
    destruct (others_out _ _ Hne H2 Hi) as [-> ->]. by eapply (linv_section _ Hinv).
  - intros c1 c2 k1 k2 H1 H2 Hi1 Hi2.
    destruct (lookup_insert_cases _ _ _ _ _ H1) as [[-> ->]|[Hne1 H1']],
             (lookup_insert_cases _ _ _ _ _ H2) as [[-> ->]|[Hne2 H2']].
    + done.
    + destruct (others_out _ _ Hne2 H2' Hi2). congruence.
    + destruct (others_out _ _ Hne1 H1' Hi1). congruence.
    + by eapply (linv_unique _ Hinv).
  - apply recorded_update.
  - rewrite Hl. intros Hnz. destruct (in_section (lpc_ k')) eqn:E.
    { exists c, k'. by rewrite list_lookup_insert_eq. }
    destruct (in_section (lpc_ k)) eqn:E2; [done|].
    destruct (linv_free _ Hinv Hnz) as (c2 & k2 & H2 & Hi2).
    exists c2, k2. rewrite list_lookup_insert_ne; [done|]. congruence.
Qed.

End update.

Lemma lock_exec_ok c cfg :
  linv cfg -> match lock_exec c cfg with LNext cfg' => linv cfg' | LPanic _ => False | LNone => True end.
Proof.
  intros Hinv. unfold lock_exec. destruct (lcpus cfg !! c) as [k|] eqn:Hk; [|done].
  destruct (linv_wf _ Hinv _ _ Hk) as [Hw Hon].
  pose proof (linv_section _ Hinv _ _ Hk) as Hsec. pose proof (linv_cpu _ Hinv c) as Hc.
  unfold lock_step. destruct (lpc_ k) eqn:E; cbn [cli_on in_section] in *.
  all: try specialize (Hon eq_refl); try specialize (Hsec eq_refl).
  - apply (linv_update cfg c k); try done; rewrite ?E; done.
  - destruct (pushcli_wf _ Hw) as (i & -> & Hi & Hn & _).
    apply (linv_update cfg c k); rewrite ?E; try done. split; [done|]. cbn. destruct Hw. lia.
  - destruct (holding_ok c (lock cfg) _ Hw) as (i & -> & Hi & Hn).
    rewrite bool_decide_eq_false_2, andb_false_r.
    2:{ intros H. apply Hc in H as (k2 & Hk2 & Hr). simplify_eq. by rewrite E in Hr. }
    apply (linv_update cfg c k); rewrite ?E; try done. split; [done|]. cbn. lia.
  - cbn [xchg]. destruct (Z.eqb_spec (locked (lock cfg)) 0) as [H0|H0].
    + apply (linv_update cfg c k); rewrite ?E; try done. by right.
    + destruct (linv_free _ Hinv H0) as (c2 & k2 & H2 & Hi2).
      apply (linv_update cfg c k); rewrite ?E; try done. cbn.
      by rewrite (linv_section _ Hinv _ _ H2 Hi2).
  - apply (linv_update cfg c k); rewrite ?E; try done. by left.
  - apply (linv_update cfg c k); rewrite ?E; try done; [by left|]. cbn. apply Hc. exists k. by rewrite E.
  - destruct (holding_ok c (lock cfg) _ Hw) as (i & -> & Hi & Hn).
    rewrite Hsec, bool_decide_eq_true_2; cbn [Z.eqb negb andb].
    2:{ apply Hc. exists k. by rewrite E. }
    apply (linv_update cfg c k); rewrite ?E; try done; [|by left|].
    + split; [done|]. cbn. lia.
    + cbn. apply Hc. exists k. by rewrite E.
  - apply (linv_update cfg c k); rewrite ?E; try done. by left.
  - apply (linv_update cfg c k); rewrite ?E; done.
  - destruct (popcli_wf _ Hw Hon) as (i & -> & Hi & Hn). apply (linv_update cfg c k); rewrite ?E; done.
Qed.

Lemma linitial_inv cfg : linitial cfg -> linv cfg.
Proof.
  intros [Hl Hc]. rewrite Forall_lookup in Hc.
  assert (Hout : forall c k, lcpus cfg !! c = Some k -> in_section (lpc_ k) = false).
  { intros c k H. destruct (Hc _ _ H) as [-> _]. done. }
  split; try rewrite Hl; cbn [initlock locked lkcpu].
  - intros c k H. destruct (Hc _ _ H) as [E Hw]. split; [done|]. by rewrite E.
  - intros c k H. rewrite (Hout _ _ H). done.
  - intros c1 c2 k1 k2 H1 H2. rewrite (Hout _ _ H1). done.
  - intros c. split; [done|]. intros (k & H & Hr). apply recorded_section in Hr.
    rewrite (Hout _ _ H) in Hr. done.
  - done.
Qed.

(** C8 (safety): The spin lock.  With any number of CPUs running acquire
    and release in any interleaving, at most one is between the successful
    xchg and the store that frees the lock, interrupts are off there, the
    lock word is set exactly when some CPU is there, and neither acquire nor
    release nor popcli panics. *)
Theorem spinlock_exclusion (cfg0 cfg : lconfig) :
  linitial cfg0 -> steps lstep cfg0 cfg ->
  (forall c1 c2 k1 k2, lcpus cfg !! c1 = Some k1 -> lcpus cfg !! c2 = Some k2 ->
     in_section (lpc_ k1) = true -> in_section (lpc_ k2) = true -> c1 = c2) /\
  (forall c k, lcpus cfg !! c = Some k -> in_section (lpc_ k) = true -> ifl (intr k) = false) /\
  (locked (lock cfg) <> 0 <-> exists c k, lcpus cfg !! c = Some k /\ in_section (lpc_ k) = true) /\
  (forall c e, lock_exec c cfg <> LPanic e).
Proof.
  intros Hi Hs. assert (Hinv : linv cfg).
  { eapply (steps_invariant lstep linv); [|exact Hs|by apply linitial_inv].
    intros s s' (c & Hx) Hinv. pose proof (lock_exec_ok c s Hinv) as H. by rewrite Hx in H. }
  split_and!.
  - apply (linv_unique _ Hinv).
  - intros c k Hk Hin. destruct (linv_wf _ Hinv _ _ Hk) as [[_ Hf] Hon]. apply Hf, Hon.
    by destruct (lpc_ k).
  - split; [apply (linv_free _ Hinv)|]. intros (c & k & Hk & Hin).
    by rewrite (linv_section _ Hinv _ _ Hk Hin).
  - intros c e He. pose proof (lock_exec_ok c cfg Hinv) as H. by rewrite He in H.
Qed.

Lemma spinlock_exclusion_witness :
  exists cfg, steps lstep (mk_lconfig initlock (replicate 2 (mk_lcpu (mk_cpuint true 0 false) LOut))) cfg /\
    locked (lock cfg) = 1 /\ forall c e, lock_exec c cfg <> LPanic e.
Proof.
  set (cfg0 := mk_lconfig initlock (replicate 2 (mk_lcpu (mk_cpuint true 0 false) LOut))).
  assert (Hs : exists cfg, steps lstep cfg0 cfg /\ locked (lock cfg) = 1).
  { eexists. split.
    - do 4 (eapply steps_cons; [exists 0%nat; reflexivity|]). constructor.
    - reflexivity. }
  destruct Hs as (cfg & Hs & Hl). exists cfg. split; [done|]. split; [done|].
  apply (spinlock_exclusion cfg0 cfg); [|done]. split; [done|].
  apply Forall_replicate. split; [done|]. split; cbn; lia.
Defined.

(** ** Sleep locks against their specification *)

(** The abstract state: the pid of the holder. *)
Definition sl_holder (s : sleeplock) : option Z := if sl_locked s =? 0 then None else Some (sl_pid s).

Lemma acquiresleep_eq addr mypid s :
  sl_lk s = false ->
  acquiresleep addr mypid s =
    if sl_locked s =? 0 then Ret (mk_sleeplock false 1 mypid (sl_wakeups s)) tt else Wait (On addr) s.
Proof.
  destruct s as [b l p w]. cbn. intros ->. unfold acquiresleep, acquire, get, put, waiton, mbind, M_bind.
  cbn. by destruct (l =? 0).
Qed.

Lemma releasesleep_eq s :
  sl_lk s = false -> releasesleep s = Ret (mk_sleeplock false 0 0 (S (sl_wakeups s))) tt.
Proof. destruct s as [b l p w]. cbn. by intros ->. Qed.

Lemma holdingsleep_eq mypid s :
  sl_lk s = false -> holdingsleep mypid s = Ret s (bool_decide (sl_holder s = Some mypid)).
Proof.
  destruct s as [b l p w]. cbn. intros ->. unfold holdingsleep, acquire, get, mbind, M_bind. cbn.
  f_equal. unfold sl_holder. cbn. destruct (Z.eqb_spec l 0) as [->|H]; cbn; [done|].
  destruct (Z.eqb_spec p mypid) as [->|Hp]; [by rewrite bool_decide_eq_true_2|].
  rewrite bool_decide_eq_false_2; [done | congruence].
Qed.

(** A sleep lock is an optional holder.  When the inner lock
    is free, acquiresleep takes a free lock for the caller and otherwise
    sleeps on it with the state unchanged; releasesleep frees it and wakes the
    waiters; holdingsleep tells whether the caller holds it; the inner lock is
    free again in every case. *)
Theorem sleeplock_spec (s : sleeplock) (addr mypid : Z) :
  get_lock s = false ->
  (match sl_holder s with
   | None => exists s', acquiresleep addr mypid s = Ret s' tt /\
               sl_holder s' = Some mypid /\ get_lock s' = false
   | Some _ => acquiresleep addr mypid s = Wait (On addr) s
   end) /\
  (exists s', releasesleep s = Ret s' tt /\ sl_holder s' = None /\
     sl_wakeups s' = S (sl_wakeups s) /\ get_lock s' = false) /\
  holdingsleep mypid s = Ret s (bool_decide (sl_holder s = Some mypid)).
Proof.
  intros Hl. rewrite acquiresleep_eq, releasesleep_eq, holdingsleep_eq by done. split_and!; [|by eexists|done].
  unfold sl_holder. destruct (sl_locked s =? 0); [by eexists | done].
Qed.

Lemma sleeplock_spec_witness :
  exists s', acquiresleep 64 5 initsleeplock = Ret s' tt /\ sl_holder s' = Some 5 /\ get_lock s' = false.
Proof. apply (sleeplock_spec initsleeplock 64 5 eq_refl). Defined.

(** ** getcallerpcs *)

Lemma getcallerpcs_length ld v : length (getcallerpcs ld v) = 10%nat.
Proof.
  unfold getcallerpcs. generalize (u32 (v - 8)). generalize 10%nat. intros n. induction n as [|n IH]; intros e.
  - done.
  - cbn [getcallerpcs_loop]. case_if; [by rewrite length_replicate|]. cbn. by rewrite IH.
Qed.
