(* ===== verification/Sched.v ===== *)
(** Process states under concurrency: the scheduler, sched, yield, sleep,
    wakeup1, wait, exit, fork and kill of proc.c, interleaved on any number
    of CPUs.

    A configuration is the shared memory ([shared]: the process table with,
    for each descriptor, the point at which its saved context resumes; nextpid,
    initproc, the spin locks held) and the CPUs, each with a program counter.
    One step is one atomic access of one CPU: a CAS, one test of a spin loop,
    one read or write of a shared field.  The steps are computed by [exec];
    the label names the CPU and, where the code around this file decides, what
    it asks for (a system call, an interrupt, the outcome of kalloc).

    The first part defines the steps, the second proves mutual exclusion and
    the absence of failed CASes for the executions in which the three CASes at
    the end of scheduler's loop body are not separated, the third gives the
    executions in which the code as written goes wrong. *)

From S2P Require Import Prelude Word Mem Proc Signal.

Local Open Scope Z_scope.

(** ** Shared state *)

(** Where a saved context continues when the scheduler switches to it. *)
Inductive resume :=
| RFork                            (* forkret, set up by allocproc *)
| RYield                           (* after sched() in yield *)
| RSleep (lk : Z)                  (* after sched() in sleep *)
| RWait                            (* after sched() in wait *)
| RExit.                           (* after sched() in exit *)

Record slot := mk_slot { pr : proc; ctx : resume }.

Record shared := mk_shared {
  slots : list slot;               (* ptable.proc and the contexts *)
  nextpid : Z;
  initproc : nat;
  held : list (Z * nat);           (* spin locks and the CPU that holds them *)
}.

Definition set_slots (l : list slot) (sh : shared) : shared :=
  mk_shared l (nextpid sh) (initproc sh) (held sh).
Definition set_nextpid (n : Z) (sh : shared) : shared :=
  mk_shared (slots sh) n (initproc sh) (held sh).
Definition set_held (h : list (Z * nat)) (sh : shared) : shared :=
  mk_shared (slots sh) (nextpid sh) (initproc sh) h.

Definition set_pr (p : proc) (s : slot) : slot := mk_slot p (ctx s).
Definition set_ctx (k : resume) (s : slot) : slot := mk_slot (pr s) k.

Definition on_proc (i : nat) (f : proc -> proc) (sh : shared) : shared :=
  set_slots (alter (fun s => set_pr (f (pr s)) s) i (slots sh)) sh.

Definition state_at (sh : shared) (i : nat) : Z :=
  match slots sh !! i with Some s => state (pr s) | None => UNUSED end.

(** cas(&p->state, expected, newval) on descriptor [i]. *)
Definition cas_state (i : nat) (expected newval : Z) (sh : shared) : bool * shared :=
  match slots sh !! i with
  | None => (false, sh)
  | Some s =>
      let '(ok, st) := cas (state (pr s)) expected newval in
      if ok then (true, on_proc i (set_state st) sh) else (false, sh)
  end.

(** What the code around asks a CPU to do next. *)
Inductive op :=
| OStep                            (* go on *)
| OYield                           (* timer interrupt *)
| OSigstop                         (* sh_sigstop from handle_signals *)
| OSleep (ch : channel) (lk : Z)
| OAcquire (lk : Z)
| ORelease (lk : Z)
| OWait
| OExit
| OWakeup (ch : channel)
| OKill (pid_ signum : Z)
| OFork
| OKalloc (r : option Z)           (* result of kalloc in allocproc *)
| OCopyuvm (r : option Z).         (* result of copyuvm in fork *)

(** The result of one step of a routine with program counters [P]. *)
Inductive res (P : Type) :=
| Go (p : P) (sh : shared)
| Done (sh : shared) (r : Z)
| Die (msg : string).
Arguments Go {P} p sh.
Arguments Done {P} sh r.
Arguments Die {P} msg.

(** ** wakeup1 *)

Inductive wpc :=
| WkChan (i : nat) (ch : channel)      (* p->chan == chan *)
| WkState (i : nat) (ch : channel)     (* p->state == SLEEPING *)
| WkState2 (i : nat) (ch : channel)    (* p->state == -SLEEPING *)
| WkSpin (i : nat) (ch : channel)      (* while(p->state == -SLEEPING) *)
| WkCas (i : nat) (ch : channel)       (* cas(SLEEPING, -RUNNABLE) *)
| WkClear (i : nat) (ch : channel)     (* p->chan = 0 *)
| WkFin (i : nat) (ch : channel).      (* cas(-RUNNABLE, RUNNABLE) *)

Definition wakeup1_step (w : wpc) (sh : shared) : res wpc :=
  match w with
  | WkChan i ch =>
      match slots sh !! i with
      | None => Done sh 0
      | Some s => if decide (chan (pr s) = ch) then Go (WkState i ch) sh else Go (WkChan (S i) ch) sh
      end
  | WkState i ch =>
      if state_at sh i =? SLEEPING then Go (WkSpin i ch) sh else Go (WkState2 i ch) sh
  | WkState2 i ch =>
      if state_at sh i =? - SLEEPING then Go (WkSpin i ch) sh else Go (WkChan (S i) ch) sh
  | WkSpin i ch =>
      if state_at sh i =? - SLEEPING then Go (WkSpin i ch) sh else Go (WkCas i ch) sh
  | WkCas i ch =>
      let '(ok, sh) := cas_state i SLEEPING (- RUNNABLE) sh in
      if ok then Go (WkClear i ch) sh else Go (WkChan (S i) ch) sh
  | WkClear i ch => Go (WkFin i ch) (on_proc i (set_chan NoChan) sh)
  | WkFin i ch =>
      let '(ok, sh) := cas_state i (- RUNNABLE) RUNNABLE sh in
      if ok then Go (WkChan (S i) ch) sh else Die "wakeup cas"
  end.

(** ** kill *)

Inductive kpc :=
| KPid (i : nat)                   (* p->pid == pid *)
| KState (i : nat)                 (* p->state != UNUSED *)
| KIgn (i : nat)                   (* p->signalHandler[signum] == SIG_IGN *)
| KPend (i : nat)                  (* p->pendingSignals |= ... *)
| KSleep (i : nat)                 (* p->state == SLEEPING *)
| KSleep2 (i : nat)                (* p->state == -SLEEPING *)
| KCond (i : nat)                  (* does the signal wake the process *)
| KSpin (i : nat)                  (* while(p->state == -SLEEPING) *)
| KCas (i : nat).                  (* cas(SLEEPING, RUNNABLE) *)

Definition kill_step (pid_ signum : Z) (k : kpc) (sh : shared) : res kpc :=
  match k with
  | KPid i =>
      match slots sh !! i with
      | None => Done sh (-1)
      | Some s => if pid (pr s) =? pid_ then Go (KState i) sh else Go (KPid (S i)) sh
      end
  | KState i => if state_at sh i =? UNUSED then Go (KPid (S i)) sh else Go (KIgn i) sh
  | KIgn i =>
      match slots sh !! i with
      | None => Done sh (-1)
      | Some s => if handler (pr s) signum =? SIG_IGN then Done sh 0 else Go (KPend i) sh
      end
  | KPend i =>
      Go (KSleep i)
         (on_proc i (fun p => set_pendingSignals (bit_set (pendingSignals p) signum) p) sh)
  | KSleep i => if state_at sh i =? SLEEPING then Go (KCond i) sh else Go (KSleep2 i) sh
  | KSleep2 i => if state_at sh i =? - SLEEPING then Go (KCond i) sh else Done sh 0
  | KCond i =>
      match slots sh !! i with
      | None => Done sh (-1)
      | Some s => if kill_wakes (pr s) signum then Go (KSpin i) sh else Done sh 0
      end
  | KSpin i => if state_at sh i =? - SLEEPING then Go (KSpin i) sh else Go (KCas i) sh
  | KCas i => let '(_, sh) := cas_state i SLEEPING RUNNABLE sh in Done sh 0
  end.

(** ** allocpid, allocproc and fork *)

Inductive fpc :=
| FScan (i : nat)                  (* cas(UNUSED, EMBRYO) *)
| FPid (i : nat)                   (* pid = nextpid *)
| FPidCas (i : nat) (v : Z)        (* cas(&nextpid, pid, pid+1) *)
| FSetPid (i : nat) (v : Z)        (* p->pid = allocpid() *)
| FStack (i : nat)                 (* kalloc, then the context and the signal state *)
| FCopy (i : nat)                  (* copyuvm, then the fields *)
| FRun (i : nat).                  (* cas(EMBRYO, RUNNABLE) *)

(** The fields that fork copies, lines 234 to 255; [pg] is the page table
    that copyuvm returned.  The name is copied by safestrcpy. *)
Definition fork_fields (cur : nat) (cp : proc) (pg : Z) (np : proc) : proc :=
  let np := set_pgdir pg np in
  let np := set_sz (sz cp) np in
  let np := set_parent (Some cur) np in
  let np := set_tf (tf cp) np in
  let np := fork_signals cp np in
  let np := set_tf (set_eax 0 (tf np)) np in
  let np := set_ofile (zip_with (fun o n => match o with Some f => Some f | None => n end)
                                (ofile cp) (ofile np)) np in
  let np := set_cwd (cwd cp) np in
  let mem16 := fun a : Z => nth (Z.to_nat (a - 16)) (name cp) 0 in
  set_name (bytes_at (safestrcpy (fun a => if a <? 16 then nth (Z.to_nat a) (name np) 0
                                           else mem16 a) 0 16 16) 0 16) np.

(** allocpid and allocproc. *)
Definition allocproc_step (o : op) (f : fpc) (sh : shared) : res fpc :=
  match f with
  | FScan i =>
      match slots sh !! i with
      | None => Done sh (-1)
      | Some _ => let '(ok, sh) := cas_state i UNUSED EMBRYO sh in
                  if ok then Go (FPid i) sh else Go (FScan (S i)) sh
      end
  | FPid i => Go (FPidCas i (nextpid sh)) sh
  | FPidCas i v =>
      let '(ok, n) := cas (nextpid sh) v (s32 (v + 1)) in
      if ok then Go (FSetPid i (s32 (v + 1))) (set_nextpid n sh) else Go (FPid i) sh
  | FSetPid i v => Go (FStack i) (on_proc i (set_pid v) sh)
  | FStack i =>
      match o with
      | OKalloc (Some k) =>
          Go (FCopy i)
             (set_slots (alter (fun s => mk_slot (init_signals (set_kstack k (pr s))) RFork) i
                               (slots sh)) sh)
      | _ => Done (on_proc i (fun p => set_state UNUSED (set_kstack 0 p)) sh) (-1)
      end
  | FCopy _ | FRun _ => Die "not in allocproc"
  end.

Definition fork_step (cur : nat) (o : op) (f : fpc) (sh : shared) : res fpc :=
  match f with
  | FCopy i =>
      match o, slots sh !! cur with
      | OCopyuvm (Some pg), Some c => Go (FRun i) (on_proc i (fork_fields cur (pr c) pg) sh)
      | _, _ => Done (on_proc i (fun p => set_state UNUSED (set_kstack 0 (set_pgdir 0 p))) sh) (-1)
      end
  | FRun i =>
      let '(ok, sh') := cas_state i EMBRYO RUNNABLE sh in
      if ok then Done sh' (match slots sh !! i with Some s => pid (pr s) | None => 0 end)
      else Die "fork cas error"
  | FScan _ | FPid _ | FPidCas _ _ | FSetPid _ _ | FStack _ => allocproc_step o f sh
  end.

(** ** Kernel threads *)

(** Where wakeup1 returns to. *)
Inductive wcont :=
| CRet                             (* wakeup *)
| CReparent (i : nat).             (* exit, before descriptor i is examined *)

Inductive tpc :=
| TRun (r : Z)                     (* code outside this file; r: last result *)
| TSched (k : resume)              (* in sched() *)
| TYield                           (* yield: cas(RUNNING, -RUNNABLE) *)
| TSleep (ch : channel) (lk : Z)   (* sleep: cas(RUNNING, -SLEEPING) *)
| TSleepRel (ch : channel) (lk : Z) (* release(lk) *)
| TSleepChan (ch : channel) (lk : Z) (* p->chan = chan *)
| TSleepTidy (lk : Z)              (* p->chan = 0 *)
| TAcquire (lk : Z)                (* acquire(lk) *)
| TWait                            (* wait: cas(RUNNING, -SLEEPING) *)
| TWaitChan                        (* curproc->chan = curproc *)
| TWaitScan (i : nat) (havekids : bool) (* p->parent != curproc *)
| TWaitSpin (i : nat)              (* while(p->state == -ZOMBIE) *)
| TWaitCas (i : nat)               (* cas(ZOMBIE, PRE_UNUSED) *)
| TReap (i : nat)                  (* the fields of the child *)
| TReapSelf (i : nat) (r : Z)      (* cas(&curproc->state, -SLEEPING, RUNNING) *)
| TReapFree (i : nat) (r : Z)      (* cas(&p->state, PRE_UNUSED, UNUSED) *)
| TWaitNone                        (* cas(&curproc->state, -SLEEPING, RUNNING) *)
| TWaitNoneChan                    (* curproc->chan = 0 *)
| TExit                            (* exit: cas(RUNNING, -ZOMBIE) *)
| TExitWake                        (* wakeup1(curproc->parent) *)
| TReparent (i : nat)              (* p->parent == curproc; p->parent = initproc *)
| TReparentSpin (i : nat)          (* while(p->state == -ZOMBIE) *)
| TReparentTest (i : nat)          (* if(p->state == ZOMBIE) *)
| TWake (w : wpc) (k : wcont)
| TKill (pid_ signum : Z) (k : kpc)
| TFork (f : fpc).

Inductive tres :=
| TGo (t : tpc) (sh : shared)
| TSwtch (sh : shared)             (* swtch to the scheduler of this CPU *)
| TDie (msg : string).

Definition proc_chan (o : option nat) : channel :=
  match o with Some i => ChProc i | None => NoChan end.

(** wait, one step; [cur] is the index of curproc. *)
Definition reap (p : proc) : proc :=
  set_killed 0 (set_name (<[0%nat := 0]> (name p)) (set_parent None (set_pid 0 (set_kstack 0 p)))).

Definition wait_step (cur : nat) (t : tpc) (sh : shared) : tres :=
  match t with
  | TWait => let '(_, sh) := cas_state cur RUNNING (- SLEEPING) sh in TGo TWaitChan sh
  | TWaitChan => TGo (TWaitScan 0 false) (on_proc cur (set_chan (ChProc cur)) sh)
  | TWaitScan i havekids =>
      match slots sh !! i with
      | Some s => if decide (parent (pr s) = Some cur) then TGo (TWaitSpin i) sh
                  else TGo (TWaitScan (S i) havekids) sh
      | None =>
          if negb havekids
             || match slots sh !! cur with Some s => negb (killed (pr s) =? 0) | None => false end
          then TGo TWaitNone sh else TGo (TSched RWait) sh
      end
  | TWaitSpin i =>
      if state_at sh i =? - ZOMBIE then TGo (TWaitSpin i) sh else TGo (TWaitCas i) sh
  | TWaitCas i =>
      let '(ok, sh) := cas_state i ZOMBIE PRE_UNUSED sh in
      if ok then TGo (TReap i) sh else TGo (TWaitScan (S i) true) sh
  | TReap i =>
      TGo (TReapSelf i (match slots sh !! i with Some s => pid (pr s) | None => 0 end))
          (on_proc i reap sh)
  | TReapSelf i r =>
      let '(ok, sh) := cas_state cur (- SLEEPING) RUNNING sh in
      if ok then TGo (TReapFree i r) sh else TDie "wait cas"
  | TReapFree i r =>
      let '(ok, sh) := cas_state i PRE_UNUSED UNUSED sh in
      if ok then TGo (TRun r) sh else TDie "wait cas"
  | TWaitNone =>
      let '(ok, sh) := cas_state cur (- SLEEPING) RUNNING sh in
      if ok then TGo TWaitNoneChan sh else TDie "wait cas err"
  | TWaitNoneChan => TGo (TRun (-1)) (on_proc cur (set_chan NoChan) sh)
  | _ => TDie "not in wait"
  end.

(** exit from line 296; the files and the directory of the process have been
    released before. *)
Definition exit_step (cur : nat) (t : tpc) (sh : shared) : tres :=
  match t with
  | TExit =>
      if decide (cur = initproc sh) then TDie "init exiting"
      else let '(_, sh) := cas_state cur RUNNING (- ZOMBIE) sh in TGo TExitWake sh
  | TExitWake =>
      match slots sh !! cur with
      | Some s => TGo (TWake (WkChan 0 (proc_chan (parent (pr s)))) (CReparent 0)) sh
      | None => TDie "not in exit"
      end
  | TReparent i =>
      match slots sh !! i with
      | None => TGo (TSched RExit) sh
      | Some s =>
          if decide (parent (pr s) = Some cur)
          then TGo (TReparentSpin i) (on_proc i (set_parent (Some (initproc sh))) sh)
          else TGo (TReparent (S i)) sh
      end
  | TReparentSpin i =>
      if state_at sh i =? - ZOMBIE then TGo (TReparentSpin i) sh else TGo (TReparentTest i) sh
  | TReparentTest i =>
      if state_at sh i =? ZOMBIE
      then TGo (TWake (WkChan 0 (ChProc (initproc sh))) (CReparent (S i))) sh
      else TGo (TReparent (S i)) sh
  | _ => TDie "not in exit"
  end.

(** acquire and release, as sleep and its callers use them: [c] is the CPU. *)
Definition holder (sh : shared) (lk : Z) : option nat :=
  match list_find (fun h => fst h = lk) (held sh) with
  | Some (_, h) => Some (snd h)
  | None => None
  end.

Definition drop_lock (lk : Z) (sh : shared) : shared :=
  set_held (filter (fun h => fst h <> lk) (held sh)) sh.

Definition acquire_step (c : nat) (lk : Z) (sh : shared) : tres :=
  match holder sh lk with
  | None => TGo (TRun 0) (set_held ((lk, c) :: held sh) sh)
  | Some c' => if decide (c' = c) then TDie "acquire" else TGo (TAcquire lk) sh
  end.

(** sleep; [t] is the step of the code. *)
Definition sleep_step (c cur : nat) (t : tpc) (sh : shared) : tres :=
  match t with
  | TSleep ch lk =>
      let '(ok, sh) := cas_state cur RUNNING (- SLEEPING) sh in
      if ok then TGo (TSleepRel ch lk) sh else TDie "sleep cas"
  | TSleepRel ch lk =>
      if decide (holder sh lk = Some c) then TGo (TSleepChan ch lk) (drop_lock lk sh)
      else TDie "release"
  | TSleepChan ch lk => TGo (TSched (RSleep lk)) (on_proc cur (set_chan ch) sh)
  | TSleepTidy lk => TGo (TAcquire lk) (on_proc cur (set_chan NoChan) sh)
  | TAcquire lk => acquire_step c lk sh
  | _ => TDie "not in sleep"
  end.

(** sched: with the one pushcli of its callers, mycpu()->ncli is 1 when this
    CPU holds no spin lock. *)
Definition sched_step (c cur : nat) (k : resume) (sh : shared) : tres :=
  if existsb (fun h => (snd h =? c)%nat) (held sh) then TDie "sched locks"
  else if state_at sh cur =? RUNNING then TDie "sched running"
  else TSwtch (set_slots (alter (set_ctx k) cur (slots sh)) sh).

Definition yield_step (cur : nat) (sh : shared) : tres :=
  let '(ok, sh) := cas_state cur RUNNING (- RUNNABLE) sh in
  if ok then TGo (TSched RYield) sh else TDie "yeild cas".

(** The calls that code outside this file makes. *)
Definition call (c cur : nat) (o : op) (r : Z) (sh : shared) : tres :=
  match o with
  | OYield => TGo TYield sh
  | OSigstop => TGo TYield (on_proc cur (set_frozen 1) sh)
  | OSleep ch lk => TGo (TSleep ch lk) sh
  | OAcquire lk => TGo (TAcquire lk) sh
  | ORelease lk =>
      if decide (holder sh lk = Some c) then TGo (TRun r) (drop_lock lk sh) else TDie "release"
  | OWait => TGo TWait sh
  | OExit => TGo TExit sh
  | OWakeup ch => TGo (TWake (WkChan 0 ch) CRet) sh
  | OKill pid_ signum =>
      if (signum <? 0) || (32 <=? signum) then TGo (TRun (-1)) sh
      else TGo (TKill pid_ signum (KPid 0)) sh
  | OFork => TGo (TFork (FScan 0)) sh
  | _ => TGo (TRun r) sh
  end.

Definition thread_step (c cur : nat) (o : op) (t : tpc) (sh : shared) : tres :=
  match t with
  | TRun r => call c cur o r sh
  | TSched k => sched_step c cur k sh
  | TYield => yield_step cur sh
  | TSleep _ _ | TSleepRel _ _ | TSleepChan _ _ | TSleepTidy _ | TAcquire _ =>
      sleep_step c cur t sh
  | TWait | TWaitChan | TWaitScan _ _ | TWaitSpin _ | TWaitCas _ | TReap _ | TReapSelf _ _
  | TReapFree _ _ | TWaitNone | TWaitNoneChan => wait_step cur t sh
  | TExit | TExitWake | TReparent _ | TReparentSpin _ | TReparentTest _ => exit_step cur t sh
  | TWake w k =>
      match wakeup1_step w sh with
      | Go w sh => TGo (TWake w k) sh
      | Done sh _ => TGo (match k with CRet => TRun 0 | CReparent i => TReparent i end) sh
      | Die e => TDie e
      end
  | TKill pid_ signum k =>
      match kill_step pid_ signum k sh with
      | Go k sh => TGo (TKill pid_ signum k) sh
      | Done sh r => TGo (TRun r) sh
      | Die e => TDie e
      end
  | TFork f =>
      match fork_step cur o f sh with
      | Go f sh => TGo (TFork f) sh
      | Done sh r => TGo (TRun r) sh
      | Die e => TDie e
      end
  end.

(** ** CPUs *)

Inductive cpc :=
| SIdle                            (* scheduler, between sti and pushcli *)
| SIntr (w : wpc)                  (* an interrupt handler calls wakeup *)
| SScan (i : nat)                  (* frozen test of descriptor i *)
| SCas (i : nat)                   (* cas(RUNNABLE, -RUNNING) *)
| SSet (i : nat)                   (* c->proc = p; switchuvm(p) *)
| SRun (i : nat)                   (* cas(-RUNNING, RUNNING) *)
| SSwtch (i : nat)                 (* swtch(&c->scheduler, p->context) *)
| SIn (i : nat) (t : tpc)          (* a kernel thread runs *)
| SBack (i : nat)                  (* c->proc = 0 *)
| SFin1 (i : nat)                  (* cas(-RUNNABLE, RUNNABLE) *)
| SFin2 (i : nat)                  (* cas(-SLEEPING, SLEEPING) *)
| SFin3 (i : nat).                 (* cas(-ZOMBIE, ZOMBIE) *)

Record cpu := mk_cpu { pc : cpc; cproc : option nat }.

Record config := mk_config { sh : shared; cpus : list cpu }.

Inductive result :=
| Next (cfg : config)
| Panicked (msg : string)
| Disabled.                        (* no such CPU *)

(** The point at which a context switched to goes on. *)
Definition resumed (k : resume) : tpc :=
  match k with
  | RFork => TRun 0
  | RYield => TRun 0
  | RSleep lk => TSleepTidy lk
  | RWait => TWait
  | RExit => TRun 0
  end.

(** One round of the loop of scheduler, lines 410 to 442, and the interrupts
    taken while it is idle. *)
Definition scheduler_step (o : op) (k : cpu) (s : shared) : res cpu :=
  match pc k with
  | SIdle =>
      match o with
      | OWakeup ch => Go (mk_cpu (SIntr (WkChan 0 ch)) (cproc k)) s
      | _ => Go (mk_cpu (SScan 0) (cproc k)) s
      end
  | SIntr w =>
      match wakeup1_step w s with
      | Go w s => Go (mk_cpu (SIntr w) (cproc k)) s
      | Done s _ => Go (mk_cpu SIdle (cproc k)) s
      | Die e => Die e
      end
  | SScan i =>
      match slots s !! i with
      | None => Go (mk_cpu SIdle (cproc k)) s
      | Some x =>
          if frozen (pr x) =? 0 then Go (mk_cpu (SCas i) (cproc k)) s
          else let '(c, p) := check_cont_sig (pr x) in
               if c then Go (mk_cpu (SCas i) (cproc k)) (on_proc i (fun _ => set_frozen 0 p) s)
               else Go (mk_cpu (SScan (S i)) (cproc k)) s
      end
  | SCas i =>
      let '(ok, s) := cas_state i RUNNABLE (- RUNNING) s in
      if ok then Go (mk_cpu (SSet i) (cproc k)) s else Go (mk_cpu (SScan (S i)) (cproc k)) s
  | SSet i => Go (mk_cpu (SRun i) (Some i)) s
  | SRun i => let '(_, s) := cas_state i (- RUNNING) RUNNING s in
              Go (mk_cpu (SSwtch i) (cproc k)) s
  | SSwtch i =>
      match slots s !! i with
      | Some x =>
          match ctx x with
          | RExit => Die "zombie exit"
          | c => Go (mk_cpu (SIn i (resumed c)) (cproc k)) s
          end
      | None => Die "no such process"
      end
  | SBack i => Go (mk_cpu (SFin1 i) None) s
  | SFin1 i => let '(_, s) := cas_state i (- RUNNABLE) RUNNABLE s in
               Go (mk_cpu (SFin2 i) (cproc k)) s
  | SFin2 i => let '(_, s) := cas_state i (- SLEEPING) SLEEPING s in
               Go (mk_cpu (SFin3 i) (cproc k)) s
  | SFin3 i => let '(_, s) := cas_state i (- ZOMBIE) ZOMBIE s in
               Go (mk_cpu (SScan (S i)) (cproc k)) s
  | SIn _ _ => Done s 0
  end.

(** One step of CPU [c]. *)
Definition exec (c : nat) (o : op) (cfg : config) : result :=
  match cpus cfg !! c with
  | None => Disabled
  | Some k =>
      match pc k, cproc k with
      | SIn i t, Some cur =>
          match thread_step c cur o t (sh cfg) with
          | TGo t s => Next (mk_config s (<[c := mk_cpu (SIn i t) (Some cur)]> (cpus cfg)))
          | TSwtch s => Next (mk_config s (<[c := mk_cpu (SBack i) (Some cur)]> (cpus cfg)))
          | TDie e => Panicked e
          end
      | SIn _ _, None => Disabled
      | _, _ =>
          match scheduler_step o k (sh cfg) with
          | Go k s => Next (mk_config s (<[c := k]> (cpus cfg)))
          | Done s _ => Disabled
          | Die e => Panicked e
          end
      end
  end.

Fixpoint run (l : list (nat * op)) (cfg : config) : option config :=
  match l with
  | [] => Some cfg
  | (c, o) :: l =>
      match exec c o cfg with Next cfg => run l cfg | _ => None end
  end.

Definition step (cfg cfg' : config) : Prop := exists c o, exec c o cfg = Next cfg'.

(** The table of a system that has started: descriptors are unused, or
    runnable with a context that allocproc made. *)
Definition fresh (s : slot) : Prop := state (pr s) = UNUSED \/ state (pr s) = RUNNABLE /\ ctx s = RFork.

Definition initial (cfg : config) : Prop :=
  Forall fresh (slots (sh cfg)) /\
  Forall (fun k => k = mk_cpu SIdle None) (cpus cfg).

(** ** Ownership of descriptors

    What a CPU relies on while it works on a descriptor is a claim.  The
    invariant is that claims hold, that no two CPUs claim the same
    descriptor, and that a descriptor nobody claims is in one of the four
    states from which a CAS may take it.  Only the state and the saved context
    of a descriptor matter here: its view. *)

Local Abbreviation view := (Z * resume)%type.
Definition vw (s : slot) : view := (state (pr s), ctx s).
Definition views (s : shared) : list view := vw <$> slots s.

Definition idle (v : view) : Prop :=
  fst v = UNUSED \/ fst v = RUNNABLE \/ fst v = SLEEPING \/ fst v = ZOMBIE.

Definition idle_ok (v : view) : Prop :=
  fst v = UNUSED \/ fst v = ZOMBIE \/ (fst v = RUNNABLE \/ fst v = SLEEPING) /\ snd v <> RExit.

Inductive claim :=
| Is (st : Z)                      (* that state, and a context to go back to *)
| Born (st : Z)                    (* that state, the context not set up yet *)
| Fin.                             (* given up, to be settled by the scheduler *)

Definition claim_ok (k : claim) (v : view) : Prop :=
  match k with
  | Is st => fst v = st /\ snd v <> RExit
  | Born st => fst v = st
  | Fin => (fst v = - RUNNABLE \/ fst v = - SLEEPING) /\ snd v <> RExit \/ fst v = - ZOMBIE
  end /\ ~ idle v.

(** The state of the running process at each point of the code. *)
Definition fin_state (k : resume) : Z :=
  match k with
  | RFork => EMBRYO
  | RYield => - RUNNABLE
  | RSleep _ | RWait => - SLEEPING
  | RExit => - ZOMBIE
  end.

Definition tstate (t : tpc) : Z :=
  match t with
  | TSched k => fin_state k
  | TSleepRel _ _ | TSleepChan _ _ | TWaitChan | TWaitScan _ _ | TWaitSpin _ | TWaitCas _
  | TReap _ | TReapSelf _ _ | TWaitNone => - SLEEPING
  | TExitWake | TReparent _ | TReparentSpin _ | TReparentTest _ | TWake _ (CReparent _) => - ZOMBIE
  | _ => RUNNING
  end.

Definition wake_claims (w : wpc) : list (nat * claim) :=
  match w with WkClear i _ | WkFin i _ => [(i, Is (- RUNNABLE))] | _ => [] end.

Definition fork_claims (f : fpc) : list (nat * claim) :=
  match f with
  | FScan _ => []
  | FPid i | FPidCas i _ | FSetPid i _ | FStack i => [(i, Born EMBRYO)]
  | FCopy i | FRun i => [(i, Is EMBRYO)]
  end.

Definition extra_claims (t : tpc) : list (nat * claim) :=
  match t with
  | TReap i | TReapSelf i _ | TReapFree i _ => [(i, Born PRE_UNUSED)]
  | TWake w _ => wake_claims w
  | TFork f => fork_claims f
  | _ => []
  end.

Definition thread_claims (cur : nat) (t : tpc) : list (nat * claim) :=
  (cur, Is (tstate t)) :: extra_claims t.

Definition cpu_claims (k : cpu) : list (nat * claim) :=
  match pc k with
  | SIdle | SScan _ | SCas _ => []
  | SIntr w => wake_claims w
  | SSet i | SRun i => [(i, Is (- RUNNING))]
  | SSwtch i => [(i, Is RUNNING)]
  | SIn i t => thread_claims i t
  | SBack i | SFin1 i | SFin2 i | SFin3 i => [(i, Fin)]
  end.

Definition cpu_wf (k : cpu) : Prop :=
  match pc k with
  | SRun i | SSwtch i => cproc k = Some i
  | SIn i t => cproc k = Some i /\ t <> TSched RFork
  | SFin2 _ | SFin3 _ => False
  | _ => True
  end.

(** One CPU changes its claims from [own] to [own'] and the views from [V] to
    [V']: it touches one descriptor [i], which it claims or finds idle, and
    leaves it claimed or idle. *)
Definition move (own own' : list (nat * claim)) (V V' : list view) : Prop :=
  own' = own /\ V' = V \/
  exists i v v',
    V !! i = Some v /\ V' = <[i := v']> V /\
    (forall j k, j <> i -> (j, k) ∈ own' <-> (j, k) ∈ own) /\
    ((exists k, (i, k) ∈ own) \/ idle v) /\
    (forall k, (i, k) ∈ own' -> claim_ok k v') /\
    ((exists k, (i, k) ∈ own') \/ idle_ok v').

Definition claims_hold (own : list (nat * claim)) (V : list view) : Prop :=
  forall i k, (i, k) ∈ own -> exists v, V !! i = Some v /\ claim_ok k v.

Record owned (V : list view) (cl : list (list (nat * claim))) : Prop := {
  owned_hold : forall c own, cl !! c = Some own -> claims_hold own V;
  owned_disjoint : forall c1 c2 own1 own2 i k1 k2,
    cl !! c1 = Some own1 -> cl !! c2 = Some own2 ->
    (i, k1) ∈ own1 -> (i, k2) ∈ own2 -> c1 = c2;
  owned_rest : forall i v, V !! i = Some v ->
    (exists c own k, cl !! c = Some own /\ (i, k) ∈ own) \/ idle_ok v;
}.

Lemma idle_ok_idle v : idle_ok v -> idle v.
Proof. unfold idle_ok, idle. tauto. Qed.

Lemma owned_move V V' cl c own own' :
  owned V cl -> cl !! c = Some own -> move own own' V V' -> owned V' (<[c := own']> cl).
Proof.
  intros [Hh Hd Hr] Hc [[-> ->]|(i & v & v' & Hv & -> & Hsame & Hp & Hq & Hq')].
  { by rewrite list_insert_id by done. }
  assert (Hlen : (c < length cl)%nat) by by eapply lookup_lt_Some.
  assert (Hi : (i < length V)%nat) by by eapply lookup_lt_Some.
  (* nobody else claims i *)
  assert (Hexcl : forall c2 own2 k2, c2 <> c -> cl !! c2 = Some own2 -> (i, k2) ∈ own2 -> False).
  { intros c2 own2 k2 Hne H2 Hin. destruct Hp as [[k Hk]|Hidle].
    - apply Hne. by eapply Hd.
    - destruct (Hh _ _ H2 _ _ Hin) as (w & Hw & [_ Hb]). by simplify_eq. }
  split.
  - intros c2 own2 H2 j k Hin. destruct (decide (c2 = c)) as [->|Hne].
    + rewrite list_lookup_insert_eq in H2 by done. simplify_eq.
      destruct (decide (j = i)) as [->|Hj].
      * exists v'. rewrite list_lookup_insert_eq by done. auto.
      * rewrite list_lookup_insert_ne by done. apply Hsame in Hin; [|done]. by eapply Hh.
    + rewrite list_lookup_insert_ne in H2 by done.
      destruct (decide (j = i)) as [->|Hj]; [by exfalso; eapply Hexcl|].
      rewrite list_lookup_insert_ne by done. by eapply Hh.
  - assert (Hback : forall c2 own2 j k, <[c:=own']> cl !! c2 = Some own2 -> (j, k) ∈ own2 ->
      j = i /\ c2 = c \/ j <> i /\ exists own3, cl !! c2 = Some own3 /\ (j, k) ∈ own3).
    { intros c2 own2 j k H2 Hin. destruct (decide (c2 = c)) as [->|Hne].
      - rewrite list_lookup_insert_eq in H2 by done. simplify_eq.
        destruct (decide (j = i)) as [->|Hj]; [by left|]. right. split; [done|].
        exists own. split; [done|]. by apply Hsame.
      - rewrite list_lookup_insert_ne in H2 by done.
        destruct (decide (j = i)) as [->|Hj]; [by exfalso; eapply Hexcl|]. right. eauto. }
    intros c1 c2 own1 own2 j k1 k2 H1 H2 Hk1 Hk2.
    destruct (Hback _ _ _ _ H1 Hk1) as [[? ->]|[? (o3 & ? & ?)]],
             (Hback _ _ _ _ H2 Hk2) as [[? ->]|[? (o4 & ? & ?)]]; try done.
    by eapply Hd.
  - intros j w Hw. destruct (decide (j = i)) as [->|Hj].
    + rewrite list_lookup_insert_eq in Hw by done. simplify_eq. destruct Hq' as [[k Hk]|?]; [|by right].
      left. exists c, own', k. by rewrite list_lookup_insert_eq.
    + rewrite list_lookup_insert_ne in Hw by done.
      destruct (Hr j w Hw) as [(c2 & own2 & k & H2 & Hin)|?]; [|by right]. left.
      destruct (decide (c2 = c)) as [->|Hne].
      * simplify_eq. exists c, own', k. rewrite list_lookup_insert_eq by done.
        split; [done|]. by apply Hsame.
      * exists c2, own2, k. by rewrite list_lookup_insert_ne.
Qed.

(** ** Moves of the routines *)

Lemma views_on_proc i f s :
  (forall p, state (f p) = state p) -> views (on_proc i f s) = views s.
Proof.
  intros Hf. unfold views, on_proc, set_slots. cbn [slots]. apply list_eq. intros j.
  rewrite !list_lookup_fmap. destruct (decide (j = i)) as [->|Hj].
  - rewrite list_lookup_alter_eq. destruct (slots s !! i); [|done]. cbn. unfold vw. cbn. by rewrite Hf.
  - by rewrite list_lookup_alter_ne by done.
Qed.

Lemma views_lookup s i v :
  views s !! i = Some v -> exists x, slots s !! i = Some x /\ state (pr x) = fst v /\ ctx x = snd v.
Proof.
  unfold views. rewrite list_lookup_fmap. destruct (slots s !! i) as [x|]; [|done].
  intros [= <-]. by exists x.
Qed.

Lemma views_alter i g s v v' :
  views s !! i = Some v ->
  (forall x, slots s !! i = Some x -> vw (g x) = v') ->
  views (set_slots (alter g i (slots s)) s) = <[i := v']> (views s).
Proof.
  intros Hv Hg. destruct (views_lookup _ _ _ Hv) as (x & Hx & _).
  unfold views, set_slots. cbn [slots]. apply list_eq. intros j. rewrite list_lookup_fmap.
  assert ((i < length (vw <$> slots s))%nat) by (rewrite length_fmap; by eapply lookup_lt_Some).
  destruct (decide (j = i)) as [->|Hj].
  - rewrite list_lookup_alter_eq, list_lookup_insert_eq by done. rewrite Hx. cbn. f_equal. by apply Hg.
  - rewrite list_lookup_alter_ne, list_lookup_insert_ne by done. by rewrite list_lookup_fmap.
Qed.

Lemma views_set_state i f s st k n :
  views s !! i = Some (st, k) -> (forall p, state (f p) = n) ->
  views (on_proc i f s) = <[i := (n, k)]> (views s).
Proof.
  intros Hv Hf. unfold on_proc. eapply views_alter; [exact Hv|]. intros x Hx.
  destruct (views_lookup _ _ _ Hv) as (y & Hy & _ & Hk). simplify_eq. unfold vw. cbn.
  by rewrite Hf, Hk.
Qed.

Lemma state_at_view s i v : views s !! i = Some v -> state_at s i = fst v.
Proof. intros H. destruct (views_lookup _ _ _ H) as (x & Hx & <- & _). unfold state_at. by rewrite Hx. Qed.

(** A CAS fails and changes nothing, or finds what it expects. *)
Lemma cas_state_cases i e n s :
  match cas_state i e n s with
  | (true, s') => exists k, views s !! i = Some (e, k) /\ views s' = <[i := (n, k)]> (views s)
  | (false, s') => s' = s /\ forall k, views s !! i <> Some (e, k)
  end.
Proof.
  unfold cas_state. destruct (slots s !! i) as [x|] eqn:Hx.
  - assert (Hv : views s !! i = Some (vw x)) by (unfold views; by rewrite list_lookup_fmap, Hx).
    unfold cas. destruct (Z.eqb_spec (state (pr x)) e) as [He|He].
    + exists (ctx x). split; [by rewrite Hv; unfold vw; rewrite He|].
      unfold on_proc. apply (views_alter _ _ _ _ _ Hv). intros y Hy. by simplify_eq.
    + split; [done|]. intros k Hk. rewrite Hv in Hk. unfold vw in Hk. congruence.
  - split; [done|]. intros k. unfold views. by rewrite list_lookup_fmap, Hx.
Qed.

(** The CAS of a claimed descriptor succeeds. *)
Lemma cas_state_owned i e n s k :
  views s !! i = Some (e, k) ->
  exists s', cas_state i e n s = (true, s') /\ views s' = <[i := (n, k)]> (views s).
Proof.
  intros H. pose proof (cas_state_cases i e n s) as Hc. destruct (cas_state i e n s) as [[] s'].
  - destruct Hc as (k' & H' & Hs). simplify_eq. eauto.
  - destruct Hc as [_ Hc]. by destruct (Hc k).
Qed.

Lemma move_refl own V V' : V' = V -> move own own V V'.
Proof. by left. Qed.

Definition apart (rest own : list (nat * claim)) : Prop :=
  forall j k k' v, (j, k) ∈ rest -> (j, k') ∈ own -> claim_ok k v -> claim_ok k' v -> False.

(** A move of a part of the claims is a move of all of them. *)
Lemma move_part rest own own' all all' V V' :
  (forall x, x ∈ all <-> x ∈ rest \/ x ∈ own) -> (forall x, x ∈ all' <-> x ∈ rest \/ x ∈ own') ->
  (own' = own -> all' = all) -> claims_hold all V -> apart rest own ->
  move own own' V V' -> move all all' V V'.
Proof.
  intros Hall Hall' Heq Hh Ha [[-> ->]|(i & v & v' & Hv & -> & Hsame & Hp & Hq & Hq')].
  { left. auto. }
  right.
  assert (Hno : forall k, (i, k) ∉ rest).
  { intros k Hk. destruct (Hh i k) as (w & Hw & Hk1); [apply Hall; auto|]. simplify_eq.
    destruct Hp as [[k' Hk']|Hi]; [|by apply Hk1].
    destruct (Hh i k') as (w & Hw' & Hk2); [apply Hall; auto|]. simplify_eq. by eapply Ha. }
  exists i, v, v'. split_and!; [done|done| | | |].
  - intros j k Hj. by rewrite Hall, Hall', Hsame.
  - destruct Hp as [[k Hk]|?]; [|by right]. left. exists k. apply Hall. auto.
  - intros k Hk. apply Hall' in Hk as [Hk|Hk]; [by destruct (Hno k)|auto].
  - destruct Hq' as [[k Hk]|?]; [|by right]. left. exists k. apply Hall'. auto.
Qed.

Lemma move_frame rest own own' V V' :
  claims_hold (rest ++ own) V -> apart rest own ->
  move own own' V V' -> move (rest ++ own) (rest ++ own') V V'.
Proof.
  apply move_part; [intros x; apply elem_of_app | intros x; apply elem_of_app | by intros ->].
Qed.

Lemma move_frame_r rest own own' V V' :
  claims_hold (own ++ rest) V -> apart rest own ->
  move own own' V V' -> move (own ++ rest) (own' ++ rest) V V'.
Proof.
  apply move_part; [intros x; rewrite elem_of_app; tauto.. | by intros ->].
Qed.

(** The three kinds of moves that change one claim. *)
Lemma move_take i v v' k V V' :
  V !! i = Some v -> idle v -> V' = <[i := v']> V -> claim_ok k v' -> move [] [(i, k)] V V'.
Proof.
  intros Hv Hi -> Hk. right. exists i, v, v'. split_and!; [done|done|set_solver|by right| |].
  - intros k' Hk'. by apply list_elem_of_singleton in Hk' as [= ->].
  - left. exists k. set_solver.
Qed.

Lemma move_keep i v v' k k' V V' :
  V !! i = Some v -> V' = <[i := v']> V -> claim_ok k' v' -> move [(i, k)] [(i, k')] V V'.
Proof.
  intros Hv -> Hk. right. exists i, v, v'. split_and!; [done|done|set_solver| | |].
  - left. exists k. set_solver.
  - intros k2 Hk2. by apply list_elem_of_singleton in Hk2 as [= ->].
  - left. exists k'. set_solver.
Qed.

Lemma move_drop i v v' k V V' :
  V !! i = Some v -> V' = <[i := v']> V -> idle_ok v' -> move [(i, k)] [] V V'.
Proof.
  intros Hv -> Hk. right. exists i, v, v'. split_and!; [done|done|set_solver| | |by right].
  - left. exists k. set_solver.
  - set_solver.
Qed.

(** An idle descriptor stays idle. *)
Lemma move_idle own i v v' V V' :
  claims_hold own V ->
  V !! i = Some v -> idle v -> V' = <[i := v']> V -> idle_ok v' -> move own own V V'.
Proof.
  intros Hh Hv Hi -> Hk. right. exists i, v, v'. split_and!; [done|done|done|by right| |by right].
  intros k Hin. destruct (Hh _ _ Hin) as (w & Hw & [_ Hb]). by simplify_eq.
Qed.

Ltac claim_solver :=
  unfold tstate, fin_state in *;
  unfold claim_ok, idle_ok, idle, UNUSED, EMBRYO, SLEEPING, RUNNABLE, RUNNING, ZOMBIE, PRE_UNUSED in *;
  cbn [fst snd] in *; intuition (congruence || lia).

Lemma claims_one own i k V :
  claims_hold own V -> (i, k) ∈ own -> exists v, V !! i = Some v /\ claim_ok k v.
Proof. intros H. apply H. Qed.

(** What a CAS on a descriptor that nobody claims may rely on. *)
Definition settled (V : list view) : Prop :=
  forall i v, V !! i = Some v -> idle v -> idle_ok v.

Lemma owned_settled V cl : owned V cl -> settled V.
Proof.
  intros [Hh _ Hr] i v Hv Hi. destruct (Hr i v Hv) as [(c & own & k & Hc & Hin)|?]; [|done].
  destruct (Hh _ _ Hc _ _ Hin) as (w & Hw & [_ Hb]). by simplify_eq.
Qed.

(** The cases of a CAS on a descriptor whose claims are unknown. *)
Ltac cas_cases i e n s :=
  let H := fresh "H" in let k := fresh "k" in let Hv := fresh "Hv" in let Hs := fresh "Hs" in
  let s' := fresh "s'" in
  pose proof (cas_state_cases i e n s) as H; destruct (cas_state i e n s) as [[] s'];
  [destruct H as (k & Hv & Hs) | destruct H as [-> _]; try by left].

(** The CAS of the claimed descriptor [i] of [Hc]. *)
Ltac cas_owned i K n Hc :=
  let st := fresh "st" in let k := fresh "k" in let Hv := fresh "Hv" in let Hs := fresh "Hs" in
  let s' := fresh "s'" in let Hk := fresh "Hk" in
  let H := fresh "H" in
  destruct (claims_one _ i K _ Hc) as ([st k] & Hv & Hk); [set_solver|];
  assert (H := proj1 Hk); cbn [fst snd] in H;
  match goal with |- context [cas_state i ?e n ?s] =>
    let E := fresh "E" in
    assert (E : st = e) by (unfold claim_ok in Hk; cbn [fst] in Hk; tauto); subst st;
    destruct (cas_state_owned i e n s k Hv) as (s' & -> & Hs)
  end.

Lemma wakeup1_step_ok w s :
  settled (views s) -> claims_hold (wake_claims w) (views s) ->
  match wakeup1_step w s with
  | Go w' s' => move (wake_claims w) (wake_claims w') (views s) (views s')
  | Done s' _ => wake_claims w = [] /\ s' = s
  | Die _ => False
  end.
Proof.
  intros Hset Hc. destruct w as [i ch|i ch|i ch|i ch|i ch|i ch|i ch]; cbn [wakeup1_step].
  - destruct (slots s !! i); [|done]. case_decide; by left.
  - case_if; by left.
  - case_if; by left.
  - case_if; by left.
  - cas_cases i SLEEPING (- RUNNABLE) s.
    assert (Hok := Hset _ _ Hv ltac:(claim_solver)).
    eapply move_take; [exact Hv | claim_solver | exact Hs | claim_solver].
  - left. split; [done|]. by apply views_on_proc.
  - cas_owned i (Is (- RUNNABLE)) RUNNABLE Hc.
    eapply move_drop; [exact Hv | exact Hs | claim_solver].
Qed.

Lemma kill_step_ok pid_ signum k s own :
  settled (views s) -> claims_hold own (views s) ->
  match kill_step pid_ signum k s with
  | Go _ s' | Done s' _ => move own own (views s) (views s')
  | Die _ => False
  end.
Proof.
  intros Hset Hc. destruct k as [i|i|i|i|i|i|i|i|i]; cbn [kill_step];
    try (destruct (slots s !! i); [case_if|]; by left); try (case_if; by left).
  - left. split; [done|]. by apply views_on_proc.
  - cas_cases i SLEEPING RUNNABLE s.
    assert (Hok := Hset _ _ Hv ltac:(claim_solver)).
    eapply move_idle; [done | exact Hv | claim_solver | exact Hs | claim_solver].
Qed.

Lemma fork_fields_state cur cp pg p : state (fork_fields cur cp pg p) = state p.
Proof. done. Qed.

(** A failing allocation puts the descriptor back. *)
Lemma fork_fail_ok i f s k :
  claims_hold [(i, k)] (views s) -> (forall p, state (f p) = UNUSED) ->
  move [(i, k)] [] (views s) (views (on_proc i f s)).
Proof.
  intros Hc Hf. destruct (claims_one _ i k _ Hc) as ([st c] & Hv & _); [set_solver|].
  eapply move_drop; [exact Hv | by eapply views_set_state | by left].
Qed.

Lemma fork_step_ok cur o f s :
  settled (views s) -> claims_hold (fork_claims f) (views s) ->
  match fork_step cur o f s with
  | Go f' s' => move (fork_claims f) (fork_claims f') (views s) (views s')
  | Done s' _ => move (fork_claims f) [] (views s) (views s')
  | Die _ => False
  end.
Proof.
  intros Hset Hc. destruct f as [i|i|i v|i v|i|i|i]; cbn [fork_step allocproc_step].
  - destruct (slots s !! i); [|by left]. cas_cases i UNUSED EMBRYO s.
    eapply move_take; [exact Hv | claim_solver | exact Hs | claim_solver].
  - by left.
  - destruct (cas _ _ _) as [[] n]; by left.
  - left. split; [done|]. by apply views_on_proc.
  - destruct o as [| | | | | | | | | | |[k|]|]; try by apply fork_fail_ok.
    destruct (claims_one _ i (Born EMBRYO) _ Hc) as ([st c] & Hv & [Hk _]); [set_solver|].
    cbn in Hk. subst st. apply (move_keep i (EMBRYO, c) (EMBRYO, RFork)); [done| |claim_solver].
    eapply views_alter; [exact Hv|]. intros x Hx.
    destruct (views_lookup _ _ _ Hv) as (y & Hy & Hst & _). simplify_eq.
    unfold vw. cbn in *. by rewrite Hst.
  - destruct o as [| | | | | | | | | | | |[pg|]]; try by apply fork_fail_ok.
    destruct (slots s !! cur); [|by apply fork_fail_ok]. left. split; [done|].
    by apply views_on_proc.
  - cas_owned i (Is EMBRYO) RUNNABLE Hc.
    eapply move_drop; [exact Hv | exact Hs | claim_solver].
Qed.

(** The panics a caller can cause: exit of init, and lock misuse. *)
Definition caller_panic (e : string) : Prop :=
  e = "init exiting" \/ e = "acquire" \/ e = "release" \/ e = "sched locks".

Definition tres_ok (cur : nat) (t : tpc) (s : shared) (r : tres) : Prop :=
  match r with
  | TGo t' s' => t' <> TSched RFork /\
                 move (thread_claims cur t) (thread_claims cur t') (views s) (views s')
  | TSwtch s' => move (thread_claims cur t) [(cur, Fin)] (views s) (views s')
  | TDie e => caller_panic e
  end.

Lemma tres_ok_same cur t t' s s' :
  tstate t' = tstate t -> extra_claims t' = extra_claims t -> t' <> TSched RFork ->
  views s' = views s -> tres_ok cur t s (TGo t' s').
Proof.
  intros Hst He Hn Hv. split; [done|]. left. split; [|done]. unfold thread_claims. by rewrite Hst, He.
Qed.

(** The CAS by which a thread changes the state of its own process. *)
Lemma tres_ok_self cur t t' s s' k :
  views s !! cur = Some (tstate t, k) -> views s' = <[cur := (tstate t', k)]> (views s) ->
  claims_hold (thread_claims cur t) (views s) ->
  apart (extra_claims t) [(cur, Is (tstate t))] ->
  extra_claims t' = extra_claims t -> t' <> TSched RFork -> claim_ok (Is (tstate t')) (tstate t', k) ->
  tres_ok cur t s (TGo t' s').
Proof.
  intros Hv Hs Hc Ha He Hn Hk. split; [done|]. unfold thread_claims. rewrite He.
  apply (move_frame_r (extra_claims t) [(cur, Is (tstate t))] [(cur, Is (tstate t'))]); [done..|].
  by eapply move_keep.
Qed.

Lemma apart_nil own : apart [] own.
Proof. intros j k k' v H. set_solver. Qed.

Lemma apart_one i j k k' :
  (forall v, claim_ok k v -> claim_ok k' v -> False) -> apart [(i, k)] [(j, k')].
Proof.
  intros H a k1 k2 v H1 H2. apply list_elem_of_singleton in H1, H2. simplify_eq. apply H.
Qed.

Lemma apart_wake i st w : st = RUNNING \/ st = - ZOMBIE -> apart [(i, Is st)] (wake_claims w).
Proof.
  intros Hst. destruct w; cbn [wake_claims]; try (intros ? ? ? ? _ H; set_solver).
  all: apply apart_one; intros ?; claim_solver.
Qed.

Lemma apart_fork i f : apart [(i, Is RUNNING)] (fork_claims f).
Proof.
  destruct f; cbn [fork_claims]; try (intros ? ? ? ? _ H; set_solver).
  all: apply apart_one; intros ?; claim_solver.
Qed.

Lemma claims_hold_app a b V : claims_hold (a ++ b) V -> claims_hold a V /\ claims_hold b V.
Proof. intros H. split; intros i k Hk; apply H; set_solver. Qed.

(** The state of the current process, from the claim of its thread. *)
Lemma thread_claims_self cur t V :
  claims_hold (thread_claims cur t) V -> exists k, V !! cur = Some (tstate t, k) /\ k <> RExit.
Proof.
  intros H. destruct (H cur (Is (tstate t))) as ([st k] & Hv & [[Hst Hk] _]); [set_solver|].
  cbn in *. subst st. eauto.
Qed.

Ltac same_step := first [apply tres_ok_same; [done..|]; first [done | by apply views_on_proc] | done].

(** The CAS on the state of the current process finds what it expects. *)
Ltac self_cas Hc cur e n s :=
  let k := fresh "k" in let Hv := fresh "Hv" in let Hk := fresh "Hk" in
  let s' := fresh "s'" in let Hs := fresh "Hs" in
  destruct (thread_claims_self _ _ _ Hc) as (k & Hv & Hk); cbn [tstate] in Hv;
  destruct (cas_state_owned cur e n s k Hv) as (s' & -> & Hs);
  eapply tres_ok_self; [exact Hv | exact Hs | exact Hc | | done | done | claim_solver].

Lemma wait_step_ok cur t s :
  settled (views s) -> claims_hold (thread_claims cur t) (views s) ->
  match t with
  | TWait | TWaitChan | TWaitScan _ _ | TWaitSpin _ | TWaitCas _ | TReap _ | TReapSelf _ _
  | TReapFree _ _ | TWaitNone | TWaitNoneChan => tres_ok cur t s (wait_step cur t s)
  | _ => True
  end.
Proof.
  intros Hset Hc. destruct t as [| | | | | | | | | |i hk|i|i|i|i r|i r| | | | | | | | | |]; try done;
    cbn [wait_step].
  - self_cas Hc cur RUNNING (- SLEEPING) s. apply apart_nil.
  - same_step.
  - destruct (slots s !! i); [case_decide; same_step|]. case_if; same_step.
  - case_if; same_step.
  - cas_cases i ZOMBIE PRE_UNUSED s; [|same_step]. split; [done|].
    apply (move_frame [(cur, Is (- SLEEPING))] [] [(i, Born PRE_UNUSED)]);
      [exact Hc | intros ? ? ? ? _ H; set_solver |].
    eapply move_take; [exact Hv | claim_solver | exact Hs | claim_solver].
  - same_step.
  - self_cas Hc cur (- SLEEPING) RUNNING s. apply apart_one. intros v. claim_solver.
  - cas_owned i (Born PRE_UNUSED) UNUSED Hc. split; [done|].
    apply (move_frame [(cur, Is RUNNING)] [(i, Born PRE_UNUSED)] []);
      [exact Hc | apply apart_one; intros v; claim_solver |].
    eapply move_drop; [exact Hv | exact Hs | claim_solver].
  - self_cas Hc cur (- SLEEPING) RUNNING s. apply apart_nil.
  - same_step.
Qed.

Lemma exit_step_ok cur t s :
  claims_hold (thread_claims cur t) (views s) ->
  match t with
  | TExit | TExitWake | TReparent _ | TReparentSpin _ | TReparentTest _ =>
      tres_ok cur t s (exit_step cur t s)
  | _ => True
  end.
Proof.
  intros Hc. destruct t; try done; cbn [exit_step].
  - case_decide; [by left|]. self_cas Hc cur RUNNING (- ZOMBIE) s. apply apart_nil.
  - destruct (thread_claims_self _ _ _ Hc) as (k & Hv & Hk).
    destruct (views_lookup _ _ _ Hv) as (x & -> & _). same_step.
  - destruct (slots s !! i); [case_decide|]; same_step.
  - case_if; same_step.
  - case_if; same_step.
Qed.

Lemma acquire_step_ok c cur lk s :
  tres_ok cur (TAcquire lk) s (acquire_step c lk s).
Proof.
  unfold acquire_step. destruct (holder s lk); [case_decide; [by right; left|]|]; same_step.
Qed.

Lemma sleep_step_ok c cur t s :
  claims_hold (thread_claims cur t) (views s) ->
  match t with
  | TSleep _ _ | TSleepRel _ _ | TSleepChan _ _ | TSleepTidy _ | TAcquire _ =>
      tres_ok cur t s (sleep_step c cur t s)
  | _ => True
  end.
Proof.
  intros Hc. destruct t; try done; cbn [sleep_step].
  - self_cas Hc cur RUNNING (- SLEEPING) s. apply apart_nil.
  - case_decide; [same_step | by right; right; left].
  - same_step.
  - same_step.
  - apply acquire_step_ok.
Qed.

Lemma sched_step_ok c cur k s :
  k <> RFork -> claims_hold (thread_claims cur (TSched k)) (views s) ->
  tres_ok cur (TSched k) s (sched_step c cur k s).
Proof.
  intros Hk Hc. destruct (thread_claims_self _ _ _ Hc) as (c0 & Hv & Hc0). cbn [tstate] in Hv.
  unfold sched_step. case_if; [by right; right; right|]. rewrite (state_at_view _ _ _ Hv). cbn [fst].
  case_if; [exfalso; destruct k; by to_prop|]. cbn [tres_ok]. eapply move_keep; [exact Hv | |].
  - eapply (views_alter _ _ _ _ (fin_state k, k)); [exact Hv|]. intros x Hx.
    destruct (views_lookup _ _ _ Hv) as (y & Hy & Hst & _). simplify_eq. unfold vw. cbn in *. by rewrite Hst.
  - destruct k; claim_solver.
Qed.

Lemma thread_step_ok c cur o t s :
  settled (views s) -> claims_hold (thread_claims cur t) (views s) -> t <> TSched RFork ->
  tres_ok cur t s (thread_step c cur o t s).
Proof.
  intros Hset Hc Ht.
  pose proof (wait_step_ok cur t s Hset Hc) as Hwait.
  pose proof (exit_step_ok cur t s Hc) as Hexit.
  pose proof (sleep_step_ok c cur t s Hc) as Hsleep.
  destruct t; try assumption; cbn [thread_step]; clear Hwait Hexit Hsleep.
  - destruct o; cbn [call]; try same_step.
    + case_decide; [same_step | by right; right; left].
    + case_if; same_step.
  - apply sched_step_ok; [congruence | done].
  - unfold yield_step. self_cas Hc cur RUNNING (- RUNNABLE) s. apply apart_nil.
  - destruct (claims_hold_app [_] _ _ Hc) as [_ Hw].
    pose proof (wakeup1_step_ok w s Hset Hw) as H. destruct (wakeup1_step w s) as [w' s'|s' r|e]; [| |done].
    + split; [done|].
      replace (thread_claims cur (TWake w' k)) with ([(cur, Is (tstate (TWake w k)))] ++ wake_claims w')
        by by destruct k.
      apply (move_frame [_]); [exact Hc | apply apart_wake; destruct k; auto | done].
    + destruct H as [He ->]. destruct k; apply tres_ok_same; cbn; done.
  - destruct (claims_hold_app [_] _ _ Hc) as [_ Hw].
    pose proof (kill_step_ok pid_ signum k s _ Hset Hc) as H.
    destruct (kill_step pid_ signum k s); done.
  - destruct (claims_hold_app [_] _ _ Hc) as [_ Hw].
    pose proof (fork_step_ok cur o f s Hset Hw) as H.
    destruct (fork_step cur o f s) as [f' s'|s' r|e]; [| |done]; (split; [done|]).
    + apply (move_frame [_]); [exact Hc | apply apart_fork | done].
    + apply (move_frame [_] _ []); [exact Hc | apply apart_fork | done].
Qed.

Lemma check_cont_loop_state n p : state (snd (check_cont_loop n p)) = state p.
Proof.
  induction n as [|n IH]; cbn [check_cont_loop]; [done|]. case_if; [done | exact IH].
Qed.

Lemma thaw_views i x s p :
  slots s !! i = Some x -> state p = state (pr x) ->
  views (on_proc i (fun _ => set_frozen 0 p) s) = views s.
Proof.
  intros Hx Hp. assert (Hv : views s !! i = Some (state (pr x), ctx x))
    by (unfold views; by rewrite list_lookup_fmap, Hx).
  rewrite (views_set_state i _ s _ _ (state (pr x)) Hv) by done. by apply list_insert_id.
Qed.

Definition in_finish (k : cpu) : Prop :=
  match pc k with SFin1 _ | SFin2 _ | SFin3 _ => True | _ => False end.

Lemma scheduler_step_ok o k s :
  settled (views s) -> claims_hold (cpu_claims k) (views s) -> cpu_wf k -> ~ in_finish k ->
  match pc k with SIn _ _ => True | _ =>
    match scheduler_step o k s with
    | Go k' s' => cpu_wf k' /\ move (cpu_claims k) (cpu_claims k') (views s) (views s')
    | Done _ _ | Die _ => False
    end
  end.
Proof.
  unfold cpu_claims, cpu_wf, in_finish, scheduler_step. intros Hset Hc Hwf Hfin.
  destruct (pc k) as [|w|i|i|i|i|i|i t|i|i|i|i] eqn:Hpc; try done.
  - destruct o; cbn [pc]; (split; [done | by left]).
  - pose proof (wakeup1_step_ok w s Hset Hc) as H. destruct (wakeup1_step w s) as [w' s'|s' r|e]; [by split| |done].
    destruct H as [-> ->]. split; [done | by left].
  - destruct (slots s !! i) as [x|] eqn:Hx; [|by split; [|left]].
    case_if; [by split; [|left]|]. destruct (check_cont_sig (pr x)) as [b p] eqn:E.
    destruct b; (split; [done|]); left; (split; [done|]); [|done].
    apply (thaw_views i x); [done|]. pose proof (check_cont_loop_state 32 (pr x)) as H.
    unfold check_cont_sig in E. by rewrite E in H.
  - cas_cases i RUNNABLE (- RUNNING) s; [|by split; [|left]]. split; [done|].
    assert (Hok := Hset _ _ Hv ltac:(claim_solver)).
    eapply move_take; [exact Hv | claim_solver | exact Hs | claim_solver].
  - split; [done | by left].
  - cas_owned i (Is (- RUNNING)) RUNNING Hc. split; [done|].
    eapply move_keep; [exact Hv | exact Hs | claim_solver].
  - destruct (Hc i (Is RUNNING)) as ([st c] & Hv & [[Hst Hn] _]); [set_solver|]. cbn in Hst, Hn.
    destruct (views_lookup _ _ _ Hv) as (x & -> & _ & Hctx). cbn in Hctx. rewrite Hctx.
    destruct c; try done; (split; [done|]); by left.
  - split; [done | by left].
Qed.

(** The invariant of executions whose finishing CASes are not separated. *)
Record inv (cfg : config) : Prop := {
  inv_owned : owned (views (sh cfg)) (cpu_claims <$> cpus cfg);
  inv_cpus : forall c k, cpus cfg !! c = Some k -> cpu_wf k;
}.

Lemma inv_update cfg s' c k k' :
  inv cfg -> cpus cfg !! c = Some k -> cpu_wf k' ->
  move (cpu_claims k) (cpu_claims k') (views (sh cfg)) (views s') ->
  inv (mk_config s' (<[c := k']> (cpus cfg))).
Proof.
  intros [Ho Hw] Hc Hwf Hm. split; cbn [sh cpus].
  - rewrite list_fmap_insert. eapply owned_move; [exact Ho | by rewrite list_lookup_fmap, Hc | done].
  - intros c2 k2 H2. destruct (decide (c2 = c)) as [->|Hne].
    + rewrite list_lookup_insert_eq in H2 by by eapply lookup_lt_Some. by simplify_eq.
    + rewrite list_lookup_insert_ne in H2 by done. by eapply Hw.
Qed.

Lemma inv_claims cfg c k : inv cfg -> cpus cfg !! c = Some k -> claims_hold (cpu_claims k) (views (sh cfg)).
Proof.
  intros [Ho _] Hc. eapply owned_hold; [exact Ho|]. by rewrite list_lookup_fmap, Hc.
Qed.

(** Outside the finishing CASes, a step keeps the invariant and panics only
    when its caller is at fault. *)
Lemma exec_ok c o cfg k :
  inv cfg -> cpus cfg !! c = Some k -> (forall i, pc k <> SFin1 i) ->
  match exec c o cfg with
  | Next cfg' => inv cfg'
  | Panicked e => caller_panic e
  | Disabled => False
  end.
Proof.
  intros Hinv Hc Hn1. pose proof (inv_claims _ _ _ Hinv Hc) as Hcl.
  pose proof (owned_settled _ _ (inv_owned _ Hinv)) as Hset.
  pose proof (inv_cpus _ Hinv _ _ Hc) as Hwf. unfold exec. rewrite Hc.
  assert (Hfin : ~ in_finish k).
  { unfold in_finish, cpu_wf in *. destruct (pc k) eqn:E; try tauto. by destruct (Hn1 i). }
  pose proof (scheduler_step_ok o k (sh cfg) Hset Hcl Hwf Hfin) as Hs.
  destruct (pc k) as [|w|i|i|i|i|i|i t|i|i|i|i] eqn:Hpc.
  8:{ unfold cpu_wf in Hwf. rewrite Hpc in Hwf. destruct Hwf as [-> Ht].
      assert (Hk : cpu_claims k = thread_claims i t) by (unfold cpu_claims; by rewrite Hpc).
      rewrite Hk in Hcl. pose proof (thread_step_ok c i o t (sh cfg) Hset Hcl Ht) as Ht'.
      destruct (thread_step c i o t (sh cfg)) as [t' s'|s'|e]; [| |done]; cbn [tres_ok] in Ht'.
      - destruct Ht' as [Hn' Hm]. eapply inv_update; [done | exact Hc | done | by rewrite Hk].
      - eapply inv_update; [done | exact Hc | done | by rewrite Hk]. }
  all: destruct (scheduler_step o k (sh cfg)) as [k' s'|s' r|e]; [|done|done].
  all: destruct Hs as [Hwf' Hm]; eapply inv_update; [done | exact Hc | done | done].
Qed.

(** The three CASes at the end of the loop body, together. *)
Definition finish (i : nat) (s : shared) : shared :=
  snd (cas_state i (- ZOMBIE) ZOMBIE
    (snd (cas_state i (- SLEEPING) SLEEPING (snd (cas_state i (- RUNNABLE) RUNNABLE s))))).

Lemma run_finish c cfg k i :
  cpus cfg !! c = Some k -> pc k = SFin1 i ->
  run [(c, OStep); (c, OStep); (c, OStep)] cfg =
    Some (mk_config (finish i (sh cfg)) (<[c := mk_cpu (SScan (S i)) (cproc k)]> (cpus cfg))).
Proof.
  intros Hc Hpc. assert (Hlen : (c < length (cpus cfg))%nat) by by eapply lookup_lt_Some.
  unfold finish. cbn [run]. unfold exec at 1. rewrite Hc. unfold scheduler_step. rewrite Hpc.
  destruct (cas_state i (- RUNNABLE) RUNNABLE (sh cfg)) as [b1 s1]. cbn [snd].
  unfold exec at 1. cbn [cpus sh]. rewrite list_lookup_insert_eq by done. cbn [pc cproc].
  unfold scheduler_step. cbn [pc cproc].
  destruct (cas_state i (- SLEEPING) SLEEPING s1) as [b2 s2]. cbn [snd].
  unfold exec. cbn [cpus sh]. rewrite list_insert_insert_eq, list_lookup_insert_eq by done.
  unfold scheduler_step. cbn [pc cproc].
  destruct (cas_state i (- ZOMBIE) ZOMBIE s2) as [b3 s3]. cbn [snd].
  by rewrite list_insert_insert_eq.
Qed.

Lemma cas_state_other i e n s st r :
  views s !! i = Some (st, r) -> st <> e -> cas_state i e n s = (false, s).
Proof.
  intros Hv Hne. pose proof (cas_state_cases i e n s) as H. destruct (cas_state i e n s) as [[] s'].
  - destruct H as (k & Hk & _). congruence.
  - by destruct H as [-> _].
Qed.

Lemma finish_views i s st r :
  views s !! i = Some (st, r) -> st = - RUNNABLE \/ st = - SLEEPING \/ st = - ZOMBIE ->
  views (finish i s) = <[i := (- st, r)]> (views s).
Proof.
  intros Hv Hst. assert (Hi : (i < length (views s))%nat) by by eapply lookup_lt_Some.
  unfold finish.
  destruct Hst as [->|[->| ->]].
  - destruct (cas_state_owned i (- RUNNABLE) RUNNABLE s r Hv) as (s1 & -> & Hs1). cbn [snd].
    assert (Hv1 : views s1 !! i = Some (RUNNABLE, r)) by by rewrite Hs1, list_lookup_insert_eq.
    by rewrite !(cas_state_other i _ _ _ _ _ Hv1).
  - rewrite (cas_state_other i (- RUNNABLE) _ _ _ _ Hv) by done. cbn [snd].
    destruct (cas_state_owned i (- SLEEPING) SLEEPING s r Hv) as (s1 & -> & Hs1). cbn [snd].
    assert (Hv1 : views s1 !! i = Some (SLEEPING, r)) by by rewrite Hs1, list_lookup_insert_eq.
    by rewrite !(cas_state_other i _ _ _ _ _ Hv1).
  - rewrite (cas_state_other i (- RUNNABLE) _ _ _ _ Hv) by done. cbn [snd].
    rewrite (cas_state_other i (- SLEEPING) _ _ _ _ Hv) by done. cbn [snd].
    by destruct (cas_state_owned i (- ZOMBIE) ZOMBIE s r Hv) as (s1 & -> & Hs1).
Qed.

Lemma finish_ok c cfg k i cfg' :
  inv cfg -> cpus cfg !! c = Some k -> pc k = SFin1 i ->
  run [(c, OStep); (c, OStep); (c, OStep)] cfg = Some cfg' -> inv cfg'.
Proof.
  intros Hinv Hc Hpc. rewrite (run_finish c cfg k i Hc Hpc). intros [= <-].
  pose proof (inv_claims _ _ _ Hinv Hc) as Hcl.
  assert (Hk : cpu_claims k = [(i, Fin)]) by (unfold cpu_claims; by rewrite Hpc).
  rewrite Hk in Hcl. destruct (Hcl i Fin) as ([st r] & Hv & Hok); [set_solver|].
  eapply inv_update; [done | exact Hc | done |]. rewrite Hk.
  eapply move_drop; [exact Hv | |].
  - apply (finish_views i (sh cfg) st r Hv). claim_solver.
  - claim_solver.
Qed.

(** A step of an execution in which no CPU is stopped between the three
    CASes. *)
Definition astep (cfg cfg' : config) : Prop :=
  exists c k, cpus cfg !! c = Some k /\
    ((forall i, pc k <> SFin1 i) /\ (exists o, exec c o cfg = Next cfg') \/
     (exists i, pc k = SFin1 i) /\ run [(c, OStep); (c, OStep); (c, OStep)] cfg = Some cfg').

Lemma astep_inv cfg cfg' : astep cfg cfg' -> inv cfg -> inv cfg'.
Proof.
  intros (c & k & Hc & [[Hn [o He]]|[[i Hpc] Hr]]) Hinv.
  - pose proof (exec_ok c o cfg k Hinv Hc Hn) as H. by rewrite He in H.
  - by eapply finish_ok.
Qed.

Lemma initial_inv cfg : initial cfg -> inv cfg.
Proof.
  intros [Hs Hc]. rewrite Forall_lookup in Hs. rewrite Forall_lookup in Hc. split.
  - split.
    + intros c own H. rewrite list_lookup_fmap in H. destruct (cpus cfg !! c) as [k|] eqn:E; [|done].
      rewrite (Hc _ _ E) in H. cbn in H. simplify_eq. intros i k' Hk. set_solver.
    + intros c1 c2 own1 own2 i k1 k2 H. rewrite list_lookup_fmap in H.
      destruct (cpus cfg !! c1) as [k|] eqn:E; [|done]. rewrite (Hc _ _ E) in H. cbn in H.
      simplify_eq. set_solver.
    + intros i v Hv. right. destruct (views_lookup _ _ _ Hv) as (x & Hx & Hst & Hctx).
      destruct (Hs _ _ Hx) as [H|[H1 H2]]; unfold idle_ok; rewrite <- Hst, <- ?Hctx; [by left|].
      right. right. rewrite H2. auto.
  - intros c k E. by rewrite (Hc _ _ E).
Qed.



(** ** Executions *)

Lemma run_steps l cfg cfg' : run l cfg = Some cfg' -> steps step cfg cfg'.
Proof.
  revert cfg. induction l as [|[c o] l IH]; intros cfg; cbn [run]; [intros [= ->]; constructor|].
  destruct (exec c o cfg) as [cfg1| |] eqn:E; [|done|done]. intros H.
  econstructor; [by exists c, o | by apply IH].
Qed.

(** Runs that do not separate the finishing CASes. *)
Fixpoint arun (l : list (nat * op)) (cfg : config) : option config :=
  match l with
  | [] => Some cfg
  | (c, o) :: l =>
      match cpus cfg !! c with
      | None => None
      | Some k =>
          match pc k with
          | SFin1 _ => match run [(c, OStep); (c, OStep); (c, OStep)] cfg with
                       | Some cfg => arun l cfg | None => None end
          | _ => match exec c o cfg with Next cfg => arun l cfg | _ => None end
          end
      end
  end.

Lemma arun_steps l cfg cfg' : arun l cfg = Some cfg' -> steps astep cfg cfg'.
Proof.
  revert cfg. induction l as [|[c o] l IH]; intros cfg; cbn [arun]; [intros [= ->]; constructor|].
  destruct (cpus cfg !! c) as [k|] eqn:Hc; [|done].
  destruct (pc k) eqn:Hpc.
  10: { destruct (run _ cfg) as [cfg1|] eqn:E; [|done]. intros H.
        econstructor; [exists c, k; split; [done|]; right; by eauto | by apply IH]. }
  all: destruct (exec c o cfg) as [cfg1| |] eqn:E; [|done|done]; intros H;
    econstructor; [exists c, k; split; [done|]; left; split; [intros j; congruence | by exists o] | by apply IH].
Qed.

(** A started system: init in the first descriptor, 63 unused ones. *)
Definition boot (ncpu : nat) : config :=
  mk_config
    (mk_shared (mk_slot (set_pid 2 (set_state RUNNABLE proc0)) RFork ::
                replicate 63 (mk_slot proc0 RFork)) 2 0 [])
    (replicate ncpu (mk_cpu SIdle None)).

Lemma boot_initial ncpu : initial (boot ncpu).
Proof.
  split.
  - constructor; [by right|]. apply Forall_replicate. by left.
  - by apply Forall_replicate.
Qed.

Definition go (c n : nat) : list (nat * op) := replicate n (c, OStep).

(** An idle CPU [c] scans up to descriptor [i] and runs it. *)
Definition pick (c i : nat) : list (nat * op) := go c (1 + 2 * i + 5).

(** The process on CPU [c] forks; its child gets descriptor [i]. *)
Definition forks (c i : nat) : list (nat * op) :=
  (c, OFork) :: go c (i + 4) ++ [(c, OKalloc (Some 4096)); (c, OCopyuvm (Some 8192)); (c, OStep)].

(** init and a child of it run on CPUs 0 and 1. *)
Definition start2 : list (nat * op) := pick 0 0 ++ forks 0 1 ++ pick 1 1.



(** CPU 1 stops between the first and the second finishing CAS of process 1;
    CPU 2 runs the process, which goes to sleep; the second CAS of CPU 1
    publishes it as SLEEPING before CPU 2 has switched away; kill makes it
    RUNNABLE and CPU 1 runs it again. *)
Definition race : list (nat * op) :=
  start2 ++ [(1%nat, OYield)] ++ go 1 4
  ++ pick 2 1 ++ [(2%nat, OAcquire 7); (2%nat, OStep); (2%nat, OSleep (ChAddr 100) 7); (2%nat, OStep)]
  ++ go 1 1 ++ (0%nat, OKill 3 SIGKILL) :: go 0 9 ++ go 1 126 ++ pick 1 1.

(** C32 (safety): The three finishing CASes of scheduler are not one atomic
    step, and when another CPU interleaves them two CPUs end up running the
    same process on the same kernel stack. *)
Theorem finish_race :
  exists cfg, steps step (boot 3) cfg /\
    exists k1 k2 t1 t2,
      cpus cfg !! 1%nat = Some k1 /\ cpus cfg !! 2%nat = Some k2 /\
      pc k1 = SIn 1 t1 /\ pc k2 = SIn 1 t2.
Proof.
  destruct (run race (boot 3)) as [cfg|] eqn:E; [|by vm_compute in E].
  exists cfg. split; [by eapply run_steps|]. vm_compute in E. simplify_eq. by do 4 eexists.
Qed.

(** init waits for its child (CPU 0) while the child exits (CPU 1). *)
Definition stuck : list (nat * op) :=
  start2 ++ [(1%nat, OExit); (1%nat, OStep); (0%nat, OWait)] ++ go 0 4 ++ go 1 4.

(** C31 (liveness): Wait and exit can deadlock.  The parent, -SLEEPING, spins
    until its child leaves -ZOMBIE; the child, -ZOMBIE, spins in wakeup1 until
    the parent leaves -SLEEPING; every step of either CPU is one more test. *)
Theorem exit_wait_deadlock :
  exists cfg, steps step (boot 2) cfg /\
    state_at (sh cfg) 0 = - SLEEPING /\ state_at (sh cfg) 1 = - ZOMBIE /\
    (forall cfg', step cfg cfg' -> cfg' = cfg) /\
    (forall c o, (c < 2)%nat -> exec c o cfg = Next cfg).
Proof.
  destruct (run stuck (boot 2)) as [cfg|] eqn:E; [|by vm_compute in E].
  exists cfg. assert (Hs : steps step (boot 2) cfg) by by eapply run_steps.
  vm_compute in E. injection E as E. subst cfg. split; [done|]. split; [done|]. split; [done|]. split.
  - intros cfg' (c & o & H). destruct c as [|[|c]]; cbv in H; congruence.
  - intros c o Hc. destruct c as [|[|c]]; [reflexivity | reflexivity | lia].
Qed.

(** Process 1 is in sleep(100, lk 7) and has released the lock. *)
Definition sleeper : list (nat * op) :=
  start2 ++ [(1%nat, OAcquire 7); (1%nat, OStep); (1%nat, OSleep (ChAddr 100) 7)] ++ go 1 2.

(** The other side of the protocol: wakeup under the lock. *)
Definition waker : list (nat * op) :=
  [(0%nat, OAcquire 7); (0%nat, OStep); (0%nat, OWakeup (ChAddr 100))] ++ go 0 65 ++ [(0%nat, ORelease 7)].

(** C33 (liveness): A wakeup can be lost.  sleep releases its lock before it
    sets p->chan; a wakeup made under that lock in between does not see the
    sleeper, which then sleeps on the channel with no wakeup to come. *)
Theorem lost_wakeup :
  exists cfg1 cfg2 cfg3,
    steps step (boot 2) cfg1 /\
    (exists k, cpus cfg1 !! 1%nat = Some k /\ pc k = SIn 1 (TSleepChan (ChAddr 100) 7)) /\
    holder (sh cfg1) 7 = None /\
    run waker cfg1 = Some cfg2 /\
    (exists k, cpus cfg2 !! 0%nat = Some k /\ pc k = SIn 0 (TRun 0)) /\
    run (go 1 6) cfg2 = Some cfg3 /\
    exists s, slots (sh cfg3) !! 1%nat = Some s /\
      state (pr s) = SLEEPING /\ chan (pr s) = ChAddr 100 /\ ctx s = RSleep 7.
Proof.
  destruct (run sleeper (boot 2)) as [cfg1|] eqn:E1; [|by vm_compute in E1].
  assert (Hs : steps step (boot 2) cfg1) by by eapply run_steps.
  vm_compute in E1. injection E1 as <-.
  eexists _, _, _. split; [exact Hs|]. split; [by eexists|]. split; [done|].
  split; [vm_compute; reflexivity|]. split; [by eexists|].
  split; [vm_compute; reflexivity|]. by eexists.
Qed.

(** ** wakeup1 without interference *)

(** wakeup1 run by one CPU alone, at most [n] steps. *)
Fixpoint wakeup1_run (n : nat) (w : wpc) (s : shared) : option shared :=
  match n with
  | O => None
  | S n => match wakeup1_step w s with
           | Go w s => wakeup1_run n w s
           | Done s _ => Some s
           | Die _ => None
           end
  end.

Definition wake_slot (ch : channel) (s : slot) : slot :=
  if decide (chan (pr s) = ch /\ state (pr s) = SLEEPING)
  then set_pr (set_state RUNNABLE (set_chan NoChan (pr s))) s else s.

Lemma wakeup1_run_mono n m w s s' :
  wakeup1_run n w s = Some s' -> (n <= m)%nat -> wakeup1_run m w s = Some s'.
Proof.
  revert m w s. induction n as [|n IH]; intros m w s H Hm; [done|]. destruct m; [lia|].
  cbn [wakeup1_run] in *. destruct (wakeup1_step w s); [apply IH; [done | lia] | done | done].
Qed.

Lemma alter_middle {A} (f : A -> A) l1 x l2 : alter f (length l1) (l1 ++ x :: l2) = l1 ++ f x :: l2.
Proof. induction l1 as [|y l1 IH]; cbn; [done|]. by f_equal. Qed.

Lemma slot_middle (l1 : list slot) x l2 : (l1 ++ x :: l2) !! length l1 = Some x.
Proof. by rewrite lookup_app_r, Nat.sub_diag by done. Qed.

Lemma cas_middle l1 x l2 e n s :
  slots s = l1 ++ x :: l2 -> state (pr x) = e ->
  cas_state (length l1) e n s = (true, set_slots (l1 ++ set_pr (set_state n (pr x)) x :: l2) s).
Proof.
  intros Hl He. unfold cas_state. rewrite Hl, slot_middle. unfold cas. rewrite He, Z.eqb_refl.
  unfold on_proc. by rewrite Hl, alter_middle.
Qed.

(** The three steps that wake a sleeping process. *)
Lemma wakeup1_run_take n ch s l1 x l2 :
  slots s = l1 ++ x :: l2 -> chan (pr x) = ch -> state (pr x) = SLEEPING ->
  wakeup1_run (3 + n) (WkCas (length l1) ch) s =
  wakeup1_run n (WkChan (S (length l1)) ch) (set_slots (l1 ++ wake_slot ch x :: l2) s).
Proof.
  intros Hl Hch Hst. unfold wake_slot. rewrite decide_True by done.
  cbn [Nat.add wakeup1_run wakeup1_step]. rewrite (cas_middle l1 x l2) by done. cbn [wakeup1_step].
  unfold on_proc. cbn [slots set_slots]. rewrite alter_middle. cbn [wakeup1_step].
  rewrite (cas_middle l1 (set_pr (set_chan NoChan (set_state (- RUNNABLE) (pr x))) x) l2) by done.
  done.
Qed.

(** From a descriptor to the next one, in at most six steps. *)
Lemma wakeup1_run_slot n ch s s' l1 x l2 :
  slots s = l1 ++ x :: l2 -> (chan (pr x) = ch -> state (pr x) <> - SLEEPING) ->
  wakeup1_run n (WkChan (S (length l1)) ch) (set_slots (l1 ++ wake_slot ch x :: l2) s) = Some s' ->
  wakeup1_run (6 + n) (WkChan (length l1) ch) s = Some s'.
Proof.
  intros Hl Hns Hrun. assert (Hx : slots s !! length l1 = Some x) by (rewrite Hl; apply slot_middle).
  assert (Hst : state_at s (length l1) = state (pr x)) by (unfold state_at; by rewrite Hx).
  assert (Hid : ~ (chan (pr x) = ch /\ state (pr x) = SLEEPING) ->
                set_slots (l1 ++ wake_slot ch x :: l2) s = s).
  { intros H. unfold wake_slot. rewrite decide_False by done. rewrite <- Hl. by destruct s. }
  change (6 + n)%nat with (S (S (S (3 + n)))). cbn [wakeup1_run wakeup1_step]. rewrite Hx.
  destruct (decide (chan (pr x) = ch)) as [Hch|Hch].
  2:{ rewrite Hid in Hrun by tauto. by eapply (wakeup1_run_mono n (S (S (3 + n)))); [|lia]. }
  cbn [wakeup1_step]. rewrite Hst. destruct (Z.eqb_spec (state (pr x)) SLEEPING) as [E|E].
  - cbn [wakeup1_step]. rewrite Hst, E. change (SLEEPING =? - SLEEPING) with false.
    cbn iota. by rewrite (wakeup1_run_take n ch s l1 x l2).
  - rewrite Hid in Hrun by tauto. cbn [wakeup1_step]. rewrite Hst.
    apply Hns, Z.eqb_neq in Hch as ->. eapply (wakeup1_run_mono n (3 + n)); [exact Hrun | lia].
Qed.

(** Wakeup1, when no process is between going to sleep and
    being settled, terminates and makes runnable exactly the processes asleep
    on the channel, whose channel it clears. *)
Theorem wakeup1_spec (ch : channel) (s : shared) :
  (forall i x, slots s !! i = Some x -> chan (pr x) = ch -> state (pr x) <> - SLEEPING) ->
  wakeup1_run (6 * length (slots s) + 1) (WkChan 0 ch) s =
    Some (set_slots (wake_slot ch <$> slots s) s).
Proof.
  intros Hns.
  cut (forall l1 l2 s', slots s' = l1 ++ l2 ->
    (forall x, x ∈ l2 -> chan (pr x) = ch -> state (pr x) <> - SLEEPING) ->
    wakeup1_run (6 * length l2 + 1) (WkChan (length l1) ch) s' =
      Some (set_slots (l1 ++ (wake_slot ch <$> l2)) s')).
  { intros H. apply (H [] (slots s) s eq_refl). intros x Hx.
    apply list_elem_of_lookup in Hx as [i Hi]. by apply (Hns i). }
  intros l1 l2. revert l1. induction l2 as [|x l2 IH]; intros l1 s' Hl Hn.
  - cbn. rewrite Hl, app_nil_r, lookup_ge_None_2 by done. rewrite <- (app_nil_r l1), <- Hl.
    by destruct s'.
  - replace (6 * length (x :: l2) + 1)%nat with (6 + (6 * length l2 + 1))%nat by (cbn; lia).
    eapply (wakeup1_run_slot _ ch s' _ l1 x l2); [done | apply Hn; set_solver |].
    pose proof (IH (l1 ++ [wake_slot ch x]) (set_slots (l1 ++ wake_slot ch x :: l2) s')) as H.
    rewrite length_app, (Nat.add_comm (length l1)), <- !app_assoc in H. apply H; [done|].
    intros y Hy. apply Hn. set_solver.
Qed.

Lemma wakeup1_spec_witness :
  let p := set_chan (ChAddr 100) (set_state SLEEPING proc0) in
  exists s', wakeup1_run 13 (WkChan 0 (ChAddr 100))
    (mk_shared [mk_slot proc0 RFork; mk_slot p (RSleep 7)] 3 0 []) = Some s' /\
    state_at s' 1 = RUNNABLE.
Proof.
  intros p. eexists. split.
  - apply (wakeup1_spec (ChAddr 100) (mk_shared [mk_slot proc0 RFork; mk_slot p (RSleep 7)] 3 0 [])).
    intros [|[|i]] x Hx; cbn in Hx; simplify_eq; by vm_compute.
  - reflexivity.
Defined.
