(* ===== verification/Kalloc.v ===== *)
(** The physical page allocator (kalloc.c).

    Memory is bytes indexed by kernel virtual address, and the free list is
    threaded through the free pages as in the code: the word at the start of a
    free page is the address of the next one.  The representation predicate
    [is_list] relates the head of the list to the list of its pages, and the
    theorems state the allocator's contract on that abstract list. *)

From S2P Require Import Prelude Word Mem Spinlock.

Local Open Scope Z_scope.

Record kmem := mk_kmem {
  km_lock : bool;
  use_lock : bool;
  freelist : Z;                    (* 0 when empty *)
  km_mem : mem;
}.

#[refine, export] Instance kmem_lock : HasLock kmem := {|
  get_lock := km_lock;
  set_lock b s := mk_kmem b (use_lock s) (freelist s) (km_mem s);
|}.
Proof. 1-2: done. by intros []. Defined.

Section kalloc.
(** [end] of the kernel image, from the linker script. *)
Context (end_ : Z).

Definition when_lock (m : M kmem unit) : M kmem unit := fun s =>
  if use_lock s then m s else Ret s tt.

Definition kfree (v : Z) : M kmem unit :=
  (fun s => if negb (v mod PGSIZE =? 0) || (v <? end_) || (PHYSTOP <=? u32 (V2P v))
            then Panic "kfree" else Ret s tt) ≫= fun _ =>
  modify (fun s => mk_kmem (km_lock s) (use_lock s) (freelist s) (memset (km_mem s) v 1 PGSIZE)) ≫= fun _ =>
  when_lock acquire ≫= fun _ =>
  modify (fun s => mk_kmem (km_lock s) (use_lock s) v (store32 (km_mem s) v (freelist s))) ≫= fun _ =>
  when_lock release.

Definition kalloc : M kmem Z :=
  when_lock acquire ≫= fun _ =>
  get ≫= fun s =>
  let r := freelist s in
  (if negb (r =? 0)
   then put (mk_kmem (km_lock s) (use_lock s) (load32 (km_mem s) r) (km_mem s))
   else mret tt) ≫= fun _ =>
  when_lock release ≫= fun _ => mret r.

(** The loop of freerange, with the number of pages of the range as fuel. *)
Fixpoint freerange_loop (n : nat) (p vend : Z) : M kmem unit :=
  match n with
  | O => mret tt
  | S n => if p + PGSIZE <=? vend then kfree p ≫= fun _ => freerange_loop n (p + PGSIZE) vend
           else mret tt
  end.

Definition freerange (vstart vend : Z) : M kmem unit :=
  let p := PGROUNDUP vstart in
  freerange_loop (Z.to_nat ((vend - p) / PGSIZE)) p vend.

Definition kinit1 (vstart vend : Z) : M kmem unit :=
  modify (fun s => mk_kmem false false (freelist s) (km_mem s)) ≫= fun _ => freerange vstart vend.

Definition kinit2 (vstart vend : Z) : M kmem unit :=
  freerange vstart vend ≫= fun _ =>
  modify (fun s => mk_kmem (km_lock s) true (freelist s) (km_mem s)).

(** ** The free list *)

(** A page of physical memory the allocator may own. *)
Definition page_ok (v : Z) : Prop := v mod PGSIZE = 0 /\ end_ <= v /\ V2P v < PHYSTOP /\ is_u32 v.

Fixpoint is_list (m : mem) (h : Z) (l : list Z) : Prop :=
  match l with
  | [] => h = 0
  | v :: l => h = v /\ page_ok v /\ is_list m (load32 m v) l
  end.

Record kinv (s : kmem) (l : list Z) : Prop := {
  kinv_list : is_list (km_mem s) (freelist s) l;
  kinv_nodup : NoDup l;
  kinv_lock : km_lock s = false;
}.

(** Two different pages do not overlap. *)
Lemma pages_disjoint v w a : page_ok v -> page_ok w -> v <> w -> in_range v PGSIZE a = true ->
  in_range w PGSIZE a = false.
Proof.
  intros (Hv & _) (Hw & _) Hne. unfold in_range, PGSIZE in *. rewrite andb_true_iff. intros [H1 H2].
  to_prop. destruct (Z.leb_spec w a), (Z.ltb_spec a (w + 4096)); try done. exfalso.
  apply Z.mod_divide in Hv as [x ->]; [|done]. apply Z.mod_divide in Hw as [y ->]; [|done]. nia.
Qed.

Lemma load32_outside (m m' : mem) v w :
  page_ok v -> page_ok w -> v <> w ->
  (forall a, in_range v PGSIZE a = false -> m' a = m a) -> load32 m' w = load32 m w.
Proof.
  intros Hv Hw Hne Hm. assert (H : forall a, w <= a < w + 4 -> m' a = m a).
  { intros a Ha. apply Hm. apply (pages_disjoint w v); [done..|].
    unfold in_range, PGSIZE. lia. }
  unfold load32. by rewrite !H by lia.
Qed.

(** Writing to a page that is not in the list does not change the list. *)
Lemma is_list_outside m m' v h l :
  page_ok v -> v ∉ l -> (forall a, in_range v PGSIZE a = false -> m' a = m a) ->
  is_list m h l -> is_list m' h l.
Proof.
  intros Hv Hnin Hm. revert h. induction l as [|w l IH]; intros h; [done|]. cbn.
  intros (-> & Hw & Hl). split; [done|]. split; [done|].
  rewrite (load32_outside m m' v w) by (done || set_solver). apply IH; [set_solver | done].
Qed.

Lemma is_list_pages m h l : is_list m h l -> Forall page_ok l.
Proof. revert h. induction l as [|v l IH]; intros h; cbn; [done|]. intros (_ & ? & ?). constructor; eauto. Qed.

Context (Hend : KERNBASE <= end_).

Lemma page_ok_nonzero v : page_ok v -> v <> 0.
Proof. intros (_ & H & _). unfold KERNBASE in *. lia. Qed.

Lemma is_list_head_u32 m h l : is_list m h l -> is_u32 h.
Proof. destruct l; cbn; [intros ->; done|]. by intros (-> & (_ & _ & _ & ?) & _). Qed.

Lemma kfree_eq ul fl m v :
  page_ok v ->
  kfree v (mk_kmem false ul fl m) =
    Ret (mk_kmem false ul v (store32 (memset m v 1 PGSIZE) v fl)) tt.
Proof.
  intros (Hm & He & Hp & Hu). unfold kfree, mbind, M_bind at 1.
  rewrite Hm, (proj2 (Z.ltb_ge v end_) He).
  destruct (Z.leb_spec PHYSTOP (u32 (V2P v))) as [H|H].
  { unfold V2P in *. rewrite u32_small in H by apply u32_range. lia. }
  by destruct ul.
Qed.

Lemma kalloc_eq ul fl m :
  kalloc (mk_kmem false ul fl m) =
    Ret (mk_kmem false ul (if fl =? 0 then 0 else load32 m fl) m) fl.
Proof.
  unfold kalloc, mbind, M_bind, when_lock. destruct ul; cbn; destruct (Z.eqb_spec fl 0); by subst.
Qed.

Lemma kfree_keeps_list m v h l :
  page_ok v -> v ∉ l -> is_list m h l ->
  is_list (store32 (memset m v 1 PGSIZE) v h) v (v :: l).
Proof.
  intros Hv Hnin Hl. split; [done|]. split; [done|].
  rewrite load32_store32_eq by by eapply is_list_head_u32.
  apply (is_list_outside m _ v); [done..| |done]. intros a Ha.
  rewrite store32_spec, memset_byte, Ha. unfold in_range, PGSIZE in *. case_if; [|done]. lia.
Qed.

(** Kfree of a page that is not free puts it at the head of
    the free list, fills it with ones except for the link, changes no other
    memory and leaves the lock free. *)
Theorem kfree_spec (s : kmem) (l : list Z) (v : Z) :
  kinv s l -> page_ok v -> v ∉ l ->
  exists s', kfree v s = Ret s' tt /\ kinv s' (v :: l) /\
    (forall a, in_range v PGSIZE a = false -> km_mem s' a = km_mem s a) /\
    (forall a, v + 4 <= a < v + PGSIZE -> km_mem s' a = 1).
Proof.
  intros [Hl Hn Hk] Hv Hnin. destruct s as [lk ul fl m]. cbn in *. subst lk.
  rewrite kfree_eq by done. eexists. split; [done|]. cbn. split_and!.
  - split; cbn; [by apply kfree_keeps_list | by constructor | done].
  - intros a Ha. rewrite store32_spec, memset_byte, Ha. unfold in_range, PGSIZE in *. case_if; [lia|done].
  - intros a Ha. rewrite store32_spec, memset_byte. unfold in_range, PGSIZE in *. case_ifs; (lia || done).
Qed.

(** Kalloc takes the first free page and leaves its content
    and all other memory alone; it returns 0 exactly when no page is free. *)
Theorem kalloc_spec (s : kmem) (l : list Z) :
  kinv s l ->
  match l with
  | [] => kalloc s = Ret s 0
  | v :: l' => exists s', kalloc s = Ret s' v /\ v <> 0 /\ kinv s' l' /\ v ∉ l' /\ km_mem s' = km_mem s
  end.
Proof.
  intros [Hl Hn Hk]. destruct s as [lk ul fl m]. cbn in *. subst lk. rewrite kalloc_eq.
  destruct l as [|v l].
  - cbn in Hl. by subst fl.
  - destruct Hl as (-> & Hv & Hl). apply page_ok_nonzero in Hv as Hnz.
    destruct (Z.eqb_spec v 0); [done|]. inversion Hn as [|? ? Hnin Hn']; subst.
    eexists. split; [done|]. split; [done|]. split; [by split|]. done.
Qed.

(** ** Initialisation *)

(** The pages of a range. *)
Fixpoint pages (n : nat) (p : Z) : list Z :=
  match n with O => [] | S n => p :: pages n (p + PGSIZE) end.

Lemma elem_of_pages n p v : v ∈ pages n p -> p <= v.
Proof.
  revert p. induction n as [|n IH]; intros p; cbn; [set_solver|].
  rewrite elem_of_cons. intros [->|H]; [lia|]. apply IH in H. unfold PGSIZE in H. lia.
Qed.

Lemma pages_nodup n p : NoDup (pages n p).
Proof.
  revert p. induction n as [|n IH]; intros p; cbn; constructor; [|apply IH].
  intros H. apply elem_of_pages in H. unfold PGSIZE in H. lia.
Qed.

Lemma freerange_loop_spec n p vend s l :
  kinv s l -> Forall page_ok (pages n p) -> (forall v, v ∈ pages n p -> v ∉ l) ->
  p + PGSIZE * Z.of_nat n <= vend ->
  exists s', freerange_loop n p vend s = Ret s' tt /\ kinv s' (rev (pages n p) ++ l) /\ use_lock s' = use_lock s.
Proof.
  revert p s l. induction n as [|n IH]; intros p s l Hk Hp Hd Hend'; [by exists s|].
  cbn [pages freerange_loop rev] in *. apply Forall_cons_1 in Hp as [Hp1 Hp2].
  destruct (Z.leb_spec (p + PGSIZE) vend); [|unfold PGSIZE in *; lia].
  destruct Hk as [Hl Hn Hlk]. destruct s as [lk ul fl m]. cbn in *. subst lk.
  rewrite (bind_ret _ _ _ _ _ (kfree_eq ul fl m p Hp1)).
  destruct (IH (p + PGSIZE) (mk_kmem false ul p (store32 (memset m p 1 PGSIZE) p fl)) (p :: l))
    as (s' & -> & Hk' & Hu).
  - split; cbn; [apply kfree_keeps_list; [done | apply Hd; set_solver | done] | | done].
    constructor; [apply Hd; set_solver | done].
  - done.
  - intros v Hv Hin. apply elem_of_cons in Hin as [->|Hin]; [|by eapply Hd; [right|]].
    apply elem_of_pages in Hv. unfold PGSIZE in Hv. lia.
  - lia.
  - exists s'. split; [done|]. by rewrite <- app_assoc.
Qed.

Lemma pages_ok n p : page_ok p -> p + PGSIZE * Z.of_nat n <= KERNBASE + PHYSTOP -> Forall page_ok (pages n p).
Proof.
  revert p. induction n as [|n IH]; intros p Hp Hn; cbn [pages]; constructor; [done|].
  destruct n as [|n]; [done|]. apply IH; [|lia]. destruct Hp as (Hm & He & _ & Hu).
  assert (H : KERNBASE <= p + PGSIZE < KERNBASE + PHYSTOP) by (unfold PGSIZE in *; lia).
  unfold page_ok. unfold KERNBASE, PHYSTOP, PGSIZE in *. split_and!; [|lia| |unfold is_u32; lia].
  - rewrite Z.add_mod, Hm by lia. done.
  - unfold V2P, KERNBASE. rewrite u32_small by (unfold is_u32; lia). lia.
Qed.

(** Kinit1 on a range of physical memory makes exactly the
    whole pages of the range free. *)
Theorem kinit1_spec (vstart vend : Z) (s : kmem) :
  freelist s = 0 -> end_ <= vstart <= vend -> vend <= KERNBASE + PHYSTOP ->
  exists s', kinit1 vstart vend s = Ret s' tt /\
    kinv s' (rev (pages (Z.to_nat ((vend - PGROUNDUP vstart) / PGSIZE)) (PGROUNDUP vstart))).
Proof.
  intros Hf Hs Hv. unfold kinit1, freerange.
  rewrite (bind_ret _ _ s (mk_kmem false false (freelist s) (km_mem s)) tt) by done.
  assert (Hp : PGROUNDUP vstart = 4096 * ((vstart + 4096 - 1) / 4096)).
  { apply PGROUNDUP_spec. unfold KERNBASE, PHYSTOP, PGSIZE in *. lia. }
  set (p := PGROUNDUP vstart) in *.
  assert (Hge : vstart <= p) by (rewrite Hp; pose proof (Z_div_mod_eq_full (vstart + 4096 - 1) 4096);
                                 pose proof (Z.mod_pos_bound (vstart + 4096 - 1) 4096); lia).
  pose proof (Z_div_mod_eq_full (vend - p) PGSIZE) as Hdm.
  pose proof (Z.mod_pos_bound (vend - p) PGSIZE ltac:(done)) as Hmb.
  destruct (Z.le_gt_cases 0 ((vend - p) / PGSIZE)) as [Hq|Hq].
  2:{ rewrite Z2Nat.nonpos by lia. eexists. split; [done|]. split; [by cbn | constructor | done]. }
  set (n := Z.to_nat ((vend - p) / PGSIZE)).
  assert (Hn : p + PGSIZE * Z.of_nat n <= vend) by (unfold n; rewrite Z2Nat.id by done; lia).
  destruct (freerange_loop_spec n p vend (mk_kmem false false (freelist s) (km_mem s)) [])
    as (s' & H & Hk & _).
  - split; [by cbn | constructor | done].
  - destruct n as [|n']; [constructor|]. apply pages_ok; [|lia].
    assert (Hb : KERNBASE <= p < KERNBASE + PHYSTOP) by (unfold PGSIZE in *; lia).
    unfold KERNBASE, PHYSTOP, PGSIZE in *. split_and!; [| lia | | unfold is_u32; lia].
    + unfold PGSIZE. rewrite Hp, Z.mul_comm. by apply Z_mod_mult.
    + unfold V2P, KERNBASE, PHYSTOP. rewrite u32_small by (unfold is_u32; lia). lia.
  - set_solver.
  - done.
  - exists s'. split; [done|]. by rewrite app_nil_r in Hk.
Qed.

(** ** No page is handed out twice *)

(** The states reached by callers that free only pages they hold; [live] are
    the pages handed out. *)
Inductive kreach (s0 : kmem) : kmem -> list Z -> Prop :=
| kreach_init : kreach s0 s0 []
| kreach_alloc s live s' v :
    kreach s0 s live -> kalloc s = Ret s' v -> v <> 0 -> kreach s0 s' (v :: live)
| kreach_fail s live s' :
    kreach s0 s live -> kalloc s = Ret s' 0 -> kreach s0 s' live
| kreach_free s live live' v s' :
    kreach s0 s live -> live ≡ₚ v :: live' -> kfree v s = Ret s' tt -> kreach s0 s' live'
| kreach_write s live v m :
    (* a holder writes to its page *)
    kreach s0 s live -> v ∈ live -> (forall a, in_range v PGSIZE a = false -> m a = km_mem s a) ->
    kreach s0 (mk_kmem (km_lock s) (use_lock s) (freelist s) m) live.

Lemma kinv_live s0 l0 live l v :
  kinv s0 l0 -> live ++ l ≡ₚ l0 -> v ∈ live -> page_ok v /\ v ∉ l.
Proof.
  intros [Hl Hn _] Hp Hv. split.
  - apply is_list_pages in Hl. rewrite Forall_lookup in Hl.
    assert (Hin : v ∈ l0) by (rewrite <- Hp; set_solver).
    apply list_elem_of_lookup in Hin as [i Hi]. by eapply Hl.
  - rewrite <- Hp in Hn. apply list.NoDup_app in Hn as (_ & Hd & _). by apply Hd.
Qed.

(** C25 (invariant): The allocated and the free pages together are always the
    pages of the initial list, each once: kalloc never returns a page that is
    still in use, whatever callers write to the pages they hold, and no page
    is lost. *)
Theorem kalloc_no_alias (s0 s : kmem) (l0 live : list Z) :
  kinv s0 l0 -> kreach s0 s live ->
  exists l, kinv s l /\ live ++ l ≡ₚ l0.
Proof.
  intros H0 Hr. induction Hr as [|s live s' v Hr (l & Hk & Hp) He Hv|s live s' Hr (l & Hk & Hp) He
    |s live live' v s' Hr (l & Hk & Hp) Hlive He|s live v m Hr (l & Hk & Hp) Hin Hm].
  - by exists l0.
  - pose proof (kalloc_eq (use_lock s) (freelist s) (km_mem s)) as E.
    destruct Hk as [Hl Hn Hlk]. destruct s as [lk ul fl mm]. cbn in *. subst lk. rewrite E in He.
    simplify_eq. destruct l as [|w l]; [by cbn in Hl|]. destruct Hl as (-> & Hw & Hl).
    inversion Hn as [|? ? Hnin Hn']; subst. exists l. split; [|by rewrite <- Hp, <- Permutation_middle].
    split; [|done|done]. cbn. by apply Z.eqb_neq in Hv as ->.
  - pose proof (kalloc_eq (use_lock s) (freelist s) (km_mem s)) as E.
    destruct s as [lk ul fl mm]. destruct Hk as [Hl Hn Hlk]. cbn in *. subst lk. rewrite E in He.
    simplify_eq. by exists l.
  - destruct (kinv_live s0 l0 live l v H0 Hp) as [Hv Hnin]; [rewrite Hlive; set_solver|].
    destruct Hk as [Hl Hn Hlk]. destruct s as [lk ul fl mm]. cbn in *. subst lk.
    rewrite kfree_eq in He by done. simplify_eq. exists (v :: l). split.
    + split; [by apply kfree_keeps_list | by constructor | done].
    + rewrite <- Hp, Hlive. cbn. by rewrite <- Permutation_middle.
  - destruct (kinv_live s0 l0 live l v H0 Hp Hin) as [Hv Hnin]. destruct Hk as [Hl Hn Hlk].
    exists l. split; [|done]. split; [|done|done]. cbn. by apply (is_list_outside (km_mem s) m v).
Qed.

End kalloc.

(** ** Witnesses *)

Definition sample_kmem : kmem := mk_kmem false true 0 (fun _ => 0).

Lemma sample_kinv : kinv 0x80112000 sample_kmem [].
Proof. split; [done | constructor | done]. Qed.

Lemma sample_page : page_ok 0x80112000 0x80112000.
Proof. by vm_compute. Qed.

Lemma kfree_spec_witness :
  exists s', kfree 0x80112000 0x80112000 sample_kmem = Ret s' tt /\ kinv 0x80112000 s' [0x80112000].
Proof.
  destruct (kfree_spec 0x80112000 sample_kmem [] 0x80112000) as (s' & H & Hk & _);
    [exact sample_kinv | exact sample_page | set_solver |].
  by exists s'.
Defined.

Lemma kalloc_spec_witness : kalloc sample_kmem = Ret sample_kmem 0.
Proof. apply (kalloc_spec 0x80112000 ltac:(done) sample_kmem []). exact sample_kinv. Defined.

Lemma kinit1_spec_witness :
  exists s', kinit1 0x80112000 0x80112001 0x80115000 sample_kmem = Ret s' tt /\
    kinv 0x80112000 s' [0x80114000; 0x80113000].
Proof.
  apply (kinit1_spec 0x80112000 ltac:(done) 0x80112001 0x80115000 sample_kmem); done.
Defined.

Lemma kalloc_no_alias_witness :
  exists l, kinv 0x80112000 (mk_kmem false true 0 (fun _ => 0)) l /\ [0x80112000] ++ l ≡ₚ [0x80112000].
Proof.
  apply (kalloc_no_alias 0x80112000 ltac:(done) (mk_kmem false true 0x80112000 (fun _ => 0))).
  - split; [split; [done|]; split; [exact sample_page | done] | apply NoDup_singleton | done].
  - by eapply (kreach_alloc _ _ (mk_kmem false true 0x80112000 (fun _ => 0)));
      [constructor | reflexivity |].
Defined.
