(* ===== verification/Pipe.v ===== *)
(** Pipes (pipe.c): a ring buffer of 512 bytes with two free-running 32-bit
    counters.

    Every activation of pipewrite or piperead runs under the pipe's lock, from
    its acquire to a release or to a sleep, which releases the lock too.  A
    call that sleeps returns [PSleep] with its loop index; when the process is
    woken it goes on with [pipewrite_resume], or restarts piperead, whose
    state before the copy is the pipe only.  [killed] is myproc()->killed.

    The contract is a FIFO queue of at most 512 bytes ([contents]); the
    counters may wrap around 2^32, a multiple of the buffer size. *)

From S2P Require Import Prelude Word Mem Spinlock.

Local Open Scope Z_scope.

Definition PIPESIZE : Z := 512.

(** The two channels of a pipe, &p->nread and &p->nwrite. *)
Inductive pchan := NRead | NWrite.

Record pipe := mk_pipe {
  pp_lock : bool;
  data : list Z;
  nread : Z;
  nwrite : Z;
  readopen : Z;
  writeopen : Z;
  woken : list pchan;              (* the wakeup calls made, latest first *)
}.

#[refine, export] Instance pipe_lock : HasLock pipe := {|
  get_lock := pp_lock;
  set_lock b s := mk_pipe b (data s) (nread s) (nwrite s) (readopen s) (writeopen s) (woken s);
|}.
Proof. 1-2: done. by intros []. Defined.

Definition wakeup_on (c : pchan) (s : pipe) : pipe :=
  mk_pipe (pp_lock s) (data s) (nread s) (nwrite s) (readopen s) (writeopen s) (c :: woken s).
Definition set_readopen (v : Z) (s : pipe) : pipe :=
  mk_pipe (pp_lock s) (data s) (nread s) (nwrite s) v (writeopen s) (woken s).
Definition set_writeopen (v : Z) (s : pipe) : pipe :=
  mk_pipe (pp_lock s) (data s) (nread s) (nwrite s) (readopen s) v (woken s).

(** The pipe that pipealloc makes of a page with content [junk]. *)
Definition new_pipe (junk : list Z) : pipe := mk_pipe false junk 0 0 1 1 [].

(** pipeclose; the result tells whether the page was freed. *)
Definition pipeclose (writable : bool) : M pipe bool :=
  acquire ≫= fun _ =>
  modify (fun s => if writable then wakeup_on NRead (set_writeopen 0 s)
                   else wakeup_on NWrite (set_readopen 0 s)) ≫= fun _ =>
  get ≫= fun s =>
  let last := (readopen s =? 0) && (writeopen s =? 0) in
  release ≫= fun _ => mret last.

Inductive pres :=
| PDone (s : pipe) (r : Z)
| PSleep (s : pipe) (i : nat)      (* asleep on its channel at loop index i *)
| PStop (msg : string)
| PSpin.                           (* the lock is held by another CPU *)

Definition full (s : pipe) : bool := nwrite s =? u32 (nread s + PIPESIZE).

(** p->data[p->nwrite++ % PIPESIZE] = b *)
Definition put_byte (b : Z) (s : pipe) : pipe :=
  mk_pipe (pp_lock s) (<[Z.to_nat (nwrite s mod PIPESIZE) := b]> (data s)) (nread s)
    (u32 (nwrite s + 1)) (readopen s) (writeopen s) (woken s).

(** Leave the critical section with [k]. *)
Definition leave (s : pipe) (k : pipe -> pres) : pres :=
  match release s with
  | Ret s _ => k s
  | Panic e => PStop e
  | Wait _ _ => PSpin
  end.

(** The loop of pipewrite, [bs] the bytes left and [i] the index of the
    first; the lock is held. *)
Fixpoint pipewrite_loop (killed : bool) (n : Z) (bs : list Z) (i : nat) (s : pipe) : pres :=
  match bs with
  | [] => leave (wakeup_on NRead s) (fun s => PDone s n)
  | b :: bs' =>
      if full s then
        if (readopen s =? 0) || killed then leave s (fun s => PDone s (-1))
        else leave (wakeup_on NRead s) (fun s => PSleep s i)
      else pipewrite_loop killed n bs' (S i) (put_byte b s)
  end.

Definition with_lock (s : pipe) (k : pipe -> pres) : pres :=
  match acquire s with Ret s _ => k s | Panic e => PStop e | Wait _ _ => PSpin end.

(** [addr] are the bytes at addr; the loop runs over the first [n] of them. *)
Definition pipewrite_resume (killed : bool) (addr : list Z) (n : Z) (i : nat) (s : pipe) : pres :=
  with_lock s (pipewrite_loop killed n (drop i (take (Z.to_nat n) addr)) i).

Definition pipewrite (killed : bool) (addr : list Z) (n : Z) (s : pipe) : pres :=
  pipewrite_resume killed addr n 0 s.

(** The copy loop of piperead: the bytes stored at addr and the pipe. *)
Fixpoint piperead_loop (n : nat) (s : pipe) : list Z * pipe :=
  match n with
  | O => ([], s)
  | S n =>
      if nread s =? nwrite s then ([], s)
      else
        let b := nth (Z.to_nat (nread s mod PIPESIZE)) (data s) 0 in
        let '(bs, s') := piperead_loop n
          (mk_pipe (pp_lock s) (data s) (u32 (nread s + 1)) (nwrite s) (readopen s) (writeopen s) (woken s)) in
        (b :: bs, s')
  end.

(** piperead returns the bytes it stored at addr besides its result; this is
    the part after acquire. *)
Definition piperead_body (killed : bool) (n : Z) (s : pipe) : pres * list Z :=
  if (nread s =? nwrite s) && negb (writeopen s =? 0) then
    if killed then (leave s (fun s => PDone s (-1)), [])
    else (leave s (fun s => PSleep s 0), [])
  else
    let '(bs, s) := piperead_loop (Z.to_nat n) s in
    (leave (wakeup_on NWrite s) (fun s => PDone s (Z.of_nat (length bs))), bs).

Definition piperead (killed : bool) (n : Z) (s : pipe) : pres * list Z :=
  match acquire s with
  | Ret s _ => piperead_body killed n s
  | Panic e => (PStop e, [])
  | Wait _ _ => (PSpin, [])
  end.

(** ** The queue *)

Definition count (s : pipe) : Z := u32 (nwrite s - nread s).

Definition byte_at (s : pipe) (k : nat) : Z :=
  nth (Z.to_nat (u32 (nread s + Z.of_nat k) mod PIPESIZE)) (data s) 0.

Definition contents (s : pipe) : list Z := map (byte_at s) (seq 0 (Z.to_nat (count s))).

Record pipe_inv (s : pipe) : Prop := {
  inv_data : length (data s) = 512%nat;
  inv_nread : is_u32 (nread s);
  inv_nwrite : is_u32 (nwrite s);
  inv_count : count s <= PIPESIZE;
}.

Ltac mod_lia := Z.to_euclidean_division_equations; lia.

Lemma u32_mod_pipe x : u32 x mod PIPESIZE = x mod PIPESIZE.
Proof.
  unfold u32, PIPESIZE. change (2 ^ 32) with 4294967296. mod_lia.
Qed.

Lemma full_count s : pipe_inv s -> full s = (count s =? PIPESIZE).
Proof.
  intros [_ Hr Hw Hc]. unfold full, count, is_u32, u32, PIPESIZE in *.
  apply eq_true_iff_eq. rewrite !Z.eqb_eq. change (2 ^ 32) with 4294967296 in *. mod_lia.
Qed.

Lemma empty_count s : pipe_inv s -> (nread s =? nwrite s) = (count s =? 0).
Proof.
  intros [_ Hr Hw Hc]. unfold count, is_u32, u32 in *.
  apply eq_true_iff_eq. rewrite !Z.eqb_eq. change (2 ^ 32) with 4294967296 in *. mod_lia.
Qed.

Lemma count_nonneg s : 0 <= count s.
Proof. unfold count. apply u32_range. Qed.

Lemma count_put b s : pipe_inv s -> count s < PIPESIZE -> count (put_byte b s) = count s + 1.
Proof.
  intros [_ Hr Hw Hc]. unfold count, put_byte, is_u32, u32, PIPESIZE in *. cbn [nwrite nread].
  change (2 ^ 32) with 4294967296 in *. mod_lia.
Qed.

Lemma byte_at_put b s k : pipe_inv s -> Z.of_nat k <= count s < PIPESIZE ->
  byte_at (put_byte b s) k = if Z.of_nat k =? count s then b else byte_at s k.
Proof.
  intros [Hd Hr Hw Hc] Hk. unfold byte_at, put_byte. cbn [nread data]. rewrite u32_mod_pipe.
  set (i := Z.to_nat (nwrite s mod PIPESIZE)). set (j := Z.to_nat ((nread s + Z.of_nat k) mod PIPESIZE)).
  assert (Hij : j = i <-> Z.of_nat k = count s).
  { unfold i, j, count, is_u32, u32, PIPESIZE in *. change (2 ^ 32) with 4294967296 in *. mod_lia. }
  assert (Hi : (i < length (data s))%nat).
  { unfold i, PIPESIZE in *. rewrite Hd. mod_lia. }
  rewrite !nth_lookup. destruct (Z.eqb_spec (Z.of_nat k) (count s)) as [E|E].
  - rewrite (proj2 Hij E), list_lookup_insert_eq by done. done.
  - rewrite list_lookup_insert_ne; [done|]. intros H. apply E, Hij. congruence.
Qed.

Lemma put_byte_inv b s : pipe_inv s -> count s < PIPESIZE -> pipe_inv (put_byte b s).
Proof.
  intros Hi Hc. split; cbn [data nread nwrite put_byte].
  - rewrite length_insert. apply Hi.
  - apply Hi.
  - apply u32_range.
  - rewrite count_put by done. lia.
Qed.

Lemma contents_length s : Z.of_nat (length (contents s)) = count s.
Proof. unfold contents. rewrite length_map, length_seq. pose proof (count_nonneg s). lia. Qed.

(** Writing one byte appends it to the queue. *)
Lemma contents_put b s : pipe_inv s -> count s < PIPESIZE ->
  contents (put_byte b s) = contents s ++ [b].
Proof.
  intros Hi Hc. pose proof (count_nonneg s) as Hn. unfold contents. rewrite count_put by done.
  replace (Z.to_nat (count s + 1)) with (S (Z.to_nat (count s))) by lia.
  rewrite seq_S, map_app. cbn [map Nat.add]. f_equal.
  - apply map_ext_in. intros k Hk. apply in_seq in Hk. rewrite byte_at_put by (done || lia).
    destruct (Z.eqb_spec (Z.of_nat k) (count s)); [lia|done].
  - rewrite byte_at_put by (done || lia). rewrite Z2Nat.id by lia. by rewrite Z.eqb_refl.
Qed.

(** Reading one byte takes the head of the queue. *)
Definition drop_byte (s : pipe) : pipe :=
  mk_pipe (pp_lock s) (data s) (u32 (nread s + 1)) (nwrite s) (readopen s) (writeopen s) (woken s).

Lemma count_drop s : pipe_inv s -> 0 < count s -> count (drop_byte s) = count s - 1.
Proof.
  intros [_ Hr Hw Hc]. unfold count, drop_byte, is_u32, u32, PIPESIZE in *. cbn [nwrite nread].
  change (2 ^ 32) with 4294967296 in *. mod_lia.
Qed.

Lemma drop_byte_inv s : pipe_inv s -> 0 < count s -> pipe_inv (drop_byte s).
Proof.
  intros Hi Hc. split; [apply Hi | apply u32_range | apply Hi |].
  rewrite count_drop by done. destruct Hi. lia.
Qed.

Lemma contents_drop s : pipe_inv s -> 0 < count s ->
  contents s = nth (Z.to_nat (nread s mod PIPESIZE)) (data s) 0 :: contents (drop_byte s).
Proof.
  intros Hi Hc. unfold contents. rewrite count_drop by done.
  replace (Z.to_nat (count s)) with (S (Z.to_nat (count s - 1))) by lia. cbn [seq map]. f_equal.
  - unfold byte_at. rewrite u32_mod_pipe. do 3 f_equal. lia.
  - rewrite <- seq_shift, map_map. apply map_ext. intros k. unfold byte_at, drop_byte. cbn [nread data].
    rewrite !u32_mod_pipe. f_equal. f_equal. unfold u32, PIPESIZE. change (2 ^ 32) with 4294967296. mod_lia.
Qed.

Lemma pipe_inv_wakeup c s : pipe_inv s -> pipe_inv (wakeup_on c s).
Proof. by intros []. Qed.

Lemma pipe_inv_lock b s : pipe_inv s -> pipe_inv (set_lock b s).
Proof. by intros []. Qed.

Lemma leave_held s k : pp_lock s = true -> leave s k = k (set_lock false s).
Proof. intros H. unfold leave, release. cbn [get_lock pipe_lock]. by rewrite H. Qed.

(** What an activation of pipewrite does to the queue: [bs] are the bytes it
    has left, [i] the index of the first. *)
Definition write_post (killed : bool) (n : Z) (bs : list Z) (i : nat) (s : pipe) (r : pres) : Prop :=
  match r with
  | PDone s' r =>
      pipe_inv s' /\ pp_lock s' = false /\ readopen s' = readopen s /\ writeopen s' = writeopen s /\
      (r = n /\ contents s' = contents s ++ bs /\ woken s' = NRead :: woken s \/
       r = -1 /\ (readopen s = 0 \/ killed = true) /\
       exists k, (k < length bs)%nat /\ contents s' = contents s ++ take k bs /\ count s' = PIPESIZE)
  | PSleep s' j =>
      pipe_inv s' /\ pp_lock s' = false /\ readopen s' = readopen s /\ writeopen s' = writeopen s /\
      woken s' = NRead :: woken s /\
      exists k, j = (i + k)%nat /\ (k < length bs)%nat /\
        contents s' = contents s ++ take k bs /\ count s' = PIPESIZE
  | PStop _ | PSpin => False
  end.

Lemma pipewrite_loop_spec killed n bs i s :
  pipe_inv s -> pp_lock s = true -> write_post killed n bs i s (pipewrite_loop killed n bs i s).
Proof.
  revert i s. induction bs as [|b bs IH]; intros i s Hi Hl; cbn [pipewrite_loop].
  - rewrite leave_held by done. cbn [write_post]. split_and!; try done.
    + by apply pipe_inv_lock, pipe_inv_wakeup.
    + left. by rewrite app_nil_r.
  - rewrite full_count by done. destruct (Z.eqb_spec (count s) PIPESIZE) as [E|E].
    + case_if.
      * rewrite leave_held by done. cbn [write_post]. split_and!; try done; [by apply pipe_inv_lock|].
        right. split; [done|]. split; [to_prop; destruct Heqb0; to_prop; auto|].
        exists 0%nat. cbn [length take]. rewrite app_nil_r. split_and!; [lia | done | done].
      * rewrite leave_held by done. cbn [write_post]. split_and!; try done.
        -- by apply pipe_inv_lock, pipe_inv_wakeup.
        -- exists 0%nat. cbn [length take]. rewrite app_nil_r. split_and!; [lia | lia | done | done].
    + assert (Hc : count s < PIPESIZE) by (destruct Hi; lia).
      specialize (IH (S i) (put_byte b s) (put_byte_inv b s Hi Hc) Hl).
      destruct (pipewrite_loop killed n bs (S i) (put_byte b s)) as [s' r|s' j| |]; cbn [write_post] in *; try done.
      * destruct IH as (H1 & H2 & H3 & H4 & H5). split_and!; try done.
        rewrite contents_put in H5 by done.
        destruct H5 as [(-> & H6 & H7)|(-> & H6 & k & H7 & H8 & H9)].
        -- left. by rewrite H6, <- app_assoc.
        -- right. split; [done|]. split; [done|]. exists (S k). cbn [length take].
           rewrite H8, <- app_assoc. split_and!; [lia | done | done].
      * destruct IH as (H1 & H2 & H3 & H4 & H5 & k & -> & H7 & H8 & H9). split_and!; try done.
        rewrite contents_put, <- app_assoc in H8 by done. exists (S k). cbn [length take].
        split_and!; [lia | lia | done | done].
Qed.

(** An activation of pipewrite, the first one or one that
    resumes after a sleep, appends to the queue the bytes it accepts, in
    order and never beyond 512: all the bytes that are left, with result n; or
    a part, when the buffer is full and it sleeps after waking the readers;
    or a part, with result -1, when the buffer is full and there is no reader
    or the process is killed.  The lock is free on every path. *)
Theorem pipewrite_spec (killed : bool) (addr : list Z) (n : Z) (i : nat) (s : pipe) :
  pipe_inv s -> pp_lock s = false ->
  write_post killed n (drop i (take (Z.to_nat n) addr)) i s (pipewrite_resume killed addr n i s).
Proof.
  intros Hi Hl. unfold pipewrite_resume, with_lock, acquire. cbn [get_lock pipe_lock]. rewrite Hl.
  exact (pipewrite_loop_spec killed n (drop i (take (Z.to_nat n) addr)) i (set_lock true s)
           (pipe_inv_lock true s Hi) eq_refl).
Qed.

Lemma piperead_loop_spec n s :
  pipe_inv s ->
  match piperead_loop n s with
  | (bs, s') => pipe_inv s' /\ bs = take n (contents s) /\ contents s' = drop n (contents s) /\
      pp_lock s' = pp_lock s /\ woken s' = woken s /\ readopen s' = readopen s /\ writeopen s' = writeopen s
  end.
Proof.
  revert s. induction n as [|n IH]; intros s Hi; cbn [piperead_loop]; [done|].
  rewrite empty_count by done. destruct (Z.eqb_spec (count s) 0) as [E|E].
  - assert (Hnil : contents s = []) by (apply nil_length_inv; pose proof (contents_length s); lia).
    by rewrite Hnil.
  - assert (Hc : 0 < count s) by (pose proof (count_nonneg s); lia).
    specialize (IH (drop_byte s) (drop_byte_inv s Hi Hc)). unfold drop_byte at 1 in IH.
    destruct (piperead_loop n _) as [bs s']. destruct IH as (H1 & H2 & H3 & H4 & H5 & H6 & H7).
    rewrite (contents_drop s Hi Hc). cbn [take drop]. split_and!; try done. by rewrite H2.
Qed.

(** What piperead does to the queue: the result and the bytes stored. *)
Definition read_post (killed : bool) (n : Z) (s : pipe) (x : pres * list Z) : Prop :=
  let '(r, bs) := x in
  match r with
  | PDone s' v =>
      pipe_inv s' /\ pp_lock s' = false /\ readopen s' = readopen s /\ writeopen s' = writeopen s /\
      (v = Z.of_nat (length bs) /\ bs = take (Z.to_nat n) (contents s) /\
       contents s' = drop (Z.to_nat n) (contents s) /\ woken s' = NWrite :: woken s /\
       (contents s = [] -> writeopen s = 0) \/
       v = -1 /\ killed = true /\ bs = [] /\ s' = set_lock false s)
  | PSleep s' _ =>
      s' = set_lock false s /\ bs = [] /\ contents s = [] /\ writeopen s <> 0 /\ killed = false
  | PStop _ | PSpin => False
  end.

Lemma contents_nil s : contents s = [] <-> count s = 0.
Proof.
  pose proof (contents_length s) as H. split.
  - intros E. rewrite E in H. cbn in H. lia.
  - intros E. apply nil_length_inv. lia.
Qed.

Lemma piperead_body_spec killed n s :
  pipe_inv s -> pp_lock s = true -> read_post killed n s (piperead_body killed n s).
Proof.
  intros Hi Hl. unfold piperead_body. rewrite empty_count by done.
  destruct ((count s =? 0) && negb (writeopen s =? 0)) eqn:E.
  - to_prop. assert (Hnil : contents s = []) by by apply contents_nil.
    destruct killed; rewrite leave_held by done; cbn [read_post].
    + split_and!; try done; [by apply pipe_inv_lock | by right].
    + done.
  - pose proof (piperead_loop_spec (Z.to_nat n) s Hi) as H.
    destruct (piperead_loop (Z.to_nat n) s) as [bs s'].
    destruct H as (H1 & H2 & H3 & H4 & H5 & H6 & H7). rewrite leave_held by by rewrite <- Hl, <- H4.
    cbn [read_post]. split_and!; [by apply pipe_inv_lock, pipe_inv_wakeup | done | done | done |].
    left. split_and!; [done | done | done | by rewrite <- H5 |].
    intros Hnil. apply contents_nil in Hnil. rewrite Hnil in E. cbn in E. by to_prop.
Qed.

(** Piperead takes the first bytes of the queue, at most n,
    and wakes the writers; it sleeps only on an empty pipe that still has a
    writer, and then changes nothing; it returns 0 at end of file. *)
Theorem piperead_spec (killed : bool) (n : Z) (s : pipe) :
  pipe_inv s -> pp_lock s = false -> read_post killed n s (piperead killed n s).
Proof.
  intros Hi Hl. unfold piperead, acquire. cbn [get_lock pipe_lock]. rewrite Hl.
  exact (piperead_body_spec killed n (set_lock true s) (pipe_inv_lock true s Hi) eq_refl).
Qed.

(** ** The pipe as a queue between processes *)

(** One activation by a process that uses the pipe.  [sent] are the bytes
    that writers handed over so far, [got] those that readers received. *)
Inductive pipe_step : pipe * list Z * list Z -> pipe * list Z * list Z -> Prop :=
| step_write killed addr n i s sent got s' r k :
    pipewrite_resume killed addr n i s = PDone s' r ->
    (* the bytes taken from addr *)
    k = (length (contents s') - length (contents s))%nat ->
    pipe_step (s, sent, got) (s', sent ++ take k (drop i (take (Z.to_nat n) addr)), got)
| step_write_sleep killed addr n i s sent got s' j :
    pipewrite_resume killed addr n i s = PSleep s' j ->
    pipe_step (s, sent, got) (s', sent ++ take (j - i) (drop i (take (Z.to_nat n) addr)), got)
| step_read killed n s sent got s' v bs :
    piperead killed n s = (PDone s' v, bs) -> pipe_step (s, sent, got) (s', sent, got ++ bs)
| step_read_sleep killed n s sent got s' i bs :
    piperead killed n s = (PSleep s' i, bs) -> pipe_step (s, sent, got) (s', sent, got ++ bs)
| step_close writable s sent got s' :
    pipeclose writable s = Ret s' false -> pipe_step (s, sent, got) (s', sent, got).

Definition pipe_ok (x : pipe * list Z * list Z) : Prop :=
  let '(s, sent, got) := x in
  pipe_inv s /\ pp_lock s = false /\ sent = got ++ contents s.

Lemma pipeclose_keeps writable s s' last :
  pp_lock s = false -> pipeclose writable s = Ret s' last ->
  pp_lock s' = false /\ contents s' = contents s /\ (pipe_inv s -> pipe_inv s') /\
  (last = true <-> readopen s' = 0 /\ writeopen s' = 0) /\
  (if writable then writeopen s' = 0 else readopen s' = 0).
Proof.
  intros Hl. unfold pipeclose, acquire, release, modify, get, mbind, M_bind, mret, M_ret.
  cbn [get_lock pipe_lock]. rewrite Hl. destruct writable; cbn; intros [= <- <-]; cbn.
  all: (split; [done|]); (split; [done|]); (split; [by intros []|]); split; [|done].
  all: destruct (readopen s =? 0) eqn:E1, (writeopen s =? 0) eqn:E2; to_prop; cbn; intuition congruence.
Qed.

Lemma pipe_step_ok x y : pipe_step x y -> pipe_ok x -> pipe_ok y.
Proof.
  intros Hs. destruct Hs as [killed addr n i s sent got s' r k H Hk|killed addr n i s sent got s' j H
    |killed n s sent got s' v bs H|killed n s sent got s' i bs H|writable s sent got s' H];
    intros (Hi & Hl & ->).
  - pose proof (pipewrite_loop_spec killed n (drop i (take (Z.to_nat n) addr)) i (set_lock true s)
      (pipe_inv_lock true s Hi) eq_refl) as Hp.
    unfold pipewrite_resume, with_lock, acquire in H. cbn [get_lock pipe_lock] in H. rewrite Hl in H.
    rewrite H in Hp. destruct Hp as (H1 & H2 & _ & _ & H3). split; [done|]. split; [done|].
    change (contents (set_lock true s)) with (contents s) in H3. rewrite <- app_assoc. f_equal.
    destruct H3 as [(_ & Hc & _)|(_ & _ & m & Hm & Hc & _)];
      rewrite Hc; rewrite Hc, length_app in Hk; f_equal.
    + apply take_ge. lia.
    + rewrite length_take in Hk. f_equal. lia.
  - pose proof (pipewrite_loop_spec killed n (drop i (take (Z.to_nat n) addr)) i (set_lock true s)
      (pipe_inv_lock true s Hi) eq_refl) as Hp.
    unfold pipewrite_resume, with_lock, acquire in H. cbn [get_lock pipe_lock] in H. rewrite Hl in H.
    rewrite H in Hp. destruct Hp as (H1 & H2 & _ & _ & _ & m & -> & Hm & Hc & _).
    split; [done|]. split; [done|]. rewrite Hc, <- app_assoc. by replace (i + m - i)%nat with m by lia.
  - unfold piperead, acquire in H. cbn [get_lock pipe_lock] in H. rewrite Hl in H.
    pose proof (piperead_body_spec killed n (set_lock true s) (pipe_inv_lock true s Hi) eq_refl) as Hp.
    rewrite H in Hp. destruct Hp as (H1 & H2 & _ & _ & H3). split; [done|]. split; [done|].
    rewrite <- app_assoc. f_equal. destruct H3 as [(_ & -> & -> & _)|(_ & _ & -> & ->)]; [|done].
    symmetry. apply take_drop.
  - unfold piperead, acquire in H. cbn [get_lock pipe_lock] in H. rewrite Hl in H.
    pose proof (piperead_body_spec killed n (set_lock true s) (pipe_inv_lock true s Hi) eq_refl) as Hp.
    rewrite H in Hp. destruct Hp as (-> & -> & _).
    split; [exact (pipe_inv_lock false _ (pipe_inv_lock true s Hi))|]. split; [done|].
    by rewrite app_nil_r.
  - destruct (pipeclose_keeps _ _ _ _ Hl H) as (H1 & H2 & H3 & _). split; [by apply H3|].
    split; [done|]. by rewrite H2.
Qed.


(** Pipeclose marks its end closed, wakes the other side and
    frees the page exactly when both ends are closed; closing both ends frees
    it exactly once, at the second close. *)
Theorem pipeclose_spec (first : bool) (s s1 s2 : pipe) (last1 last2 : bool) :
  pp_lock s = false -> readopen s <> 0 -> writeopen s <> 0 ->
  pipeclose first s = Ret s1 last1 -> pipeclose (negb first) s1 = Ret s2 last2 ->
  last1 = false /\ last2 = true /\ contents s2 = contents s /\ pp_lock s2 = false.
Proof.
  intros Hl Hr Hw H1 H2. destruct (pipeclose_keeps _ _ _ _ Hl H1) as (Hl1 & Hc1 & _).
  destruct (pipeclose_keeps _ _ _ _ Hl1 H2) as (Hl2 & Hc2 & _).
  split; [|split; [|split; [congruence | done]]]; revert H1 H2;
    unfold pipeclose, acquire, release, modify, get, mbind, M_bind, mret, M_ret; cbn [get_lock pipe_lock];
    rewrite Hl; apply Z.eqb_neq in Hr, Hw; destruct first; cbn; intros [= <- <-]; cbn; intros [= <- <-];
    cbn; rewrite ?Hr, ?Hw; done.
Qed.

(** ** Witnesses *)

Definition empty_pipe : pipe := new_pipe (replicate 512 0).

Lemma empty_pipe_inv : pipe_inv empty_pipe.
Proof. split; done. Qed.

Lemma pipewrite_spec_witness :
  exists s', pipewrite false [10; 20; 30] 2 empty_pipe = PDone s' 2 /\ contents s' = [10; 20].
Proof.
  eexists. split; [reflexivity|].
  destruct (pipewrite_spec false [10; 20; 30] 2 0 empty_pipe empty_pipe_inv eq_refl)
    as (_ & _ & _ & _ & [(_ & H & _)|(H & _)]); [exact H | done].
Defined.

Lemma piperead_spec_witness :
  piperead false 4 empty_pipe = (PSleep empty_pipe 0, []) /\ contents empty_pipe = [].
Proof.
  split; [reflexivity|]. apply (piperead_spec false 4 empty_pipe empty_pipe_inv eq_refl).
Defined.


Lemma pipeclose_spec_witness :
  exists s1 s2, pipeclose true empty_pipe = Ret s1 false /\ pipeclose false s1 = Ret s2 true /\
    contents s2 = [].
Proof.
  eexists _, _. split; [vm_compute; reflexivity|]. split; [vm_compute; reflexivity|].
  etransitivity; [eapply (pipeclose_spec true empty_pipe) |]; try done; vm_compute; reflexivity.
Defined.
