(* ===== verification/Block.v ===== *)
(** What the buffer cache promises to the log and the file system: blocks
    that can be read, modified in memory and written to the disk.

    [view] is the content of every block as the cache shows it, [disk] the
    content of the disk, [hist] the disks after each write so far, latest
    first: a crash leaves one of them.  Bio.v shows that the buffer cache
    implements these operations. *)

From S2P Require Import Prelude Word Mem.

Local Open Scope Z_scope.

Definition BSIZE : Z := 512.

(** The content of a block: the bytes at offsets 0 to BSIZE - 1. *)
Definition block : Type := mem.

Record dev := mk_dev {
  view : Z -> block;
  disk : Z -> block;
  hist : list (Z -> block);
}.

Definition setb (f : Z -> block) (b : Z) (x : block) : Z -> block :=
  fun i => if i =? b then x else f i.

(** bread(dev, b)->data *)
Definition blk_read (b : Z) (s : dev) : block := view s b.

(** An assignment to the data of a buffer the caller has locked. *)
Definition blk_set (b : Z) (x : block) (s : dev) : dev :=
  mk_dev (setb (view s) b x) (disk s) (hist s).

(** bwrite *)
Definition blk_write (b : Z) (s : dev) : dev :=
  let d := setb (disk s) b (view s b) in mk_dev (view s) d (d :: hist s).

(** The machine restarts on disk [d] with an empty cache. *)
Definition restart (d : Z -> block) : dev := mk_dev d d [].

Lemma setb_eq f b x : setb f b x b = x.
Proof. unfold setb. by rewrite Z.eqb_refl. Qed.

Lemma setb_ne f b x i : i <> b -> setb f b x i = f i.
Proof. intros H. unfold setb. by apply Z.eqb_neq in H as ->. Qed.
