(* ===== verification/Log.v ===== *)
(** The write-ahead log (log.c): transactions that are on the disk entirely or
    not at all.

    The log works on the blocks of Block.v.  The in-memory header log.lh is
    the list of the block numbers logged so far (the n first entries of
    lh.block); on the disk the header is the bytes of block log.start: the
    word n, then the block numbers.  [commit] and [recover_from_log] are
    sequences of disk writes, and the crash theorems quantify over the disk
    that any prefix of them leaves. *)

From S2P Require Import Prelude Word Mem Spinlock Block.

Local Open Scope Z_scope.

Record log := mk_log {
  lg_lock : bool;
  start : Z;
  size : Z;
  outstanding : Z;
  committing : bool;
  lh : list Z;
  lg_wakeups : nat;                (* calls of wakeup(&log) *)
  dv : dev;
}.

#[refine, export] Instance log_lock : HasLock log := {|
  get_lock := lg_lock;
  set_lock b s := mk_log b (start s) (size s) (outstanding s) (committing s) (lh s) (lg_wakeups s) (dv s);
|}.
Proof. 1-2: done. by intros []. Defined.

Definition set_outstanding (v : Z) (s : log) : log :=
  mk_log (lg_lock s) (start s) (size s) v (committing s) (lh s) (lg_wakeups s) (dv s).
Definition set_committing (v : bool) (s : log) : log :=
  mk_log (lg_lock s) (start s) (size s) (outstanding s) v (lh s) (lg_wakeups s) (dv s).
Definition set_lh (v : list Z) (s : log) : log :=
  mk_log (lg_lock s) (start s) (size s) (outstanding s) (committing s) v (lg_wakeups s) (dv s).
Definition set_dv (v : dev) (s : log) : log :=
  mk_log (lg_lock s) (start s) (size s) (outstanding s) (committing s) (lh s) (lg_wakeups s) v.
Definition wakeup_log (s : log) : log :=
  mk_log (lg_lock s) (start s) (size s) (outstanding s) (committing s) (lh s) (S (lg_wakeups s)) (dv s).

(** lh.n *)
Definition lh_n (s : log) : Z := Z.of_nat (length (lh s)).

(** ** Transfers between memory and disk *)

(** install_trans from index [tail] on. *)
Fixpoint install_from (st tail : Z) (l : list Z) (d : dev) : dev :=
  match l with
  | [] => d
  | b :: l =>
      let lbuf := blk_read (st + tail + 1) d in
      let d := blk_set b lbuf d in
      let d := blk_write b d in
      install_from st (tail + 1) l d
  end.

Definition install_trans (s : log) : log := set_dv (install_from (start s) 0 (lh s) (dv s)) s.

(** The header in a block: n and the block numbers from index [i] on. *)
Fixpoint read_blocks (n : nat) (i : Z) (x : block) : list Z :=
  match n with O => [] | S n => load32 x (4 + 4 * i) :: read_blocks n (i + 1) x end.

Definition read_head (s : log) : log :=
  let buf := blk_read (start s) (dv s) in
  set_lh (read_blocks (Z.to_nat (s32 (load32 buf 0))) 0 buf) s.

Fixpoint write_blocks (l : list Z) (i : Z) (x : block) : block :=
  match l with [] => x | b :: l => write_blocks l (i + 1) (store32 x (4 + 4 * i) b) end.

Definition write_head (s : log) : log :=
  let buf := blk_read (start s) (dv s) in
  let hb := write_blocks (lh s) 0 (store32 buf 0 (lh_n s)) in
  set_dv (blk_write (start s) (blk_set (start s) hb (dv s))) s.

Definition recover_from_log (s : log) : log :=
  let s := read_head s in
  let s := install_trans s in
  let s := set_lh [] s in
  write_head s.

(** write_log from index [tail] on. *)
Fixpoint write_log_from (st tail : Z) (l : list Z) (d : dev) : dev :=
  match l with
  | [] => d
  | b :: l =>
      let from := blk_read b d in
      let d := blk_set (st + tail + 1) from d in
      let d := blk_write (st + tail + 1) d in
      write_log_from st (tail + 1) l d
  end.

Definition write_log (s : log) : log := set_dv (write_log_from (start s) 0 (lh s) (dv s)) s.

Definition commit (s : log) : log :=
  if 0 <? lh_n s then
    let s := write_log s in
    let s := write_head s in
    let s := install_trans s in
    let s := set_lh [] s in
    write_head s
  else s.

(** ** System calls *)

(** One test of the loop of begin_op; a call that sleeps restarts. *)
Definition begin_op (chan : Z) : M log unit :=
  acquire ≫= fun _ =>
  get ≫= fun s =>
  if committing s then release ≫= fun _ => waiton (On chan)
  else if LOGSIZE <? lh_n s + (outstanding s + 1) * MAXOPBLOCKS then
    release ≫= fun _ => waiton (On chan)
  else put (set_outstanding (outstanding s + 1) s) ≫= fun _ => release.

(** The first critical section of end_op; the result is do_commit. *)
Definition end_op_enter : M log bool :=
  acquire ≫= fun _ =>
  modify (fun s => set_outstanding (outstanding s - 1) s) ≫= fun _ =>
  get ≫= fun s =>
  if committing s then panic "log.committing"
  else if outstanding s =? 0 then
    put (set_committing true s) ≫= fun _ => release ≫= fun _ => mret true
  else put (wakeup_log s) ≫= fun _ => release ≫= fun _ => mret false.

Definition end_op_leave : M log unit :=
  acquire ≫= fun _ =>
  modify (fun s => wakeup_log (set_committing false s)) ≫= fun _ =>
  release.

Definition end_op : M log unit :=
  end_op_enter ≫= fun do_commit : bool =>
  if do_commit then modify commit ≫= fun _ => end_op_leave else mret tt.

(** The index of block [b] in lh.block, or n. *)
Fixpoint log_index (b : Z) (l : list Z) : nat :=
  match l with [] => O | x :: l => if x =? b then O else S (log_index b l) end.

(** log_write of the buffer of block [b], whose data the caller has set; the
    B_DIRTY it sets keeps the buffer in the cache, whose view it leaves alone. *)
Definition log_write (b : Z) : M log unit :=
  get ≫= fun s =>
  if (LOGSIZE <=? lh_n s) || (size s - 1 <=? lh_n s) then panic "too big a transaction"
  else if outstanding s <? 1 then panic "log_write outside of trans"
  else
    acquire ≫= fun _ =>
    modify (fun s => let i := log_index b (lh s) in
                     if (i =? length (lh s))%nat then set_lh (lh s ++ [b]) s
                     else set_lh (<[i := b]> (lh s)) s) ≫= fun _ =>
    release.

(** initlog, with the fields of the superblock. *)
Definition initlog (sb_logstart sb_nlog : Z) (d : Z -> block) : log :=
  recover_from_log (mk_log false sb_logstart sb_nlog 0 false [] 0 (restart d)).

(** ** The header block *)

Lemma load32_write_blocks l i x a :
  0 <= a -> a + 4 <= 4 + 4 * i -> load32 (write_blocks l i x) a = load32 x a.
Proof.
  revert i x. induction l as [|b l IH]; intros i x Ha Hi; cbn [write_blocks]; [done|].
  rewrite IH by lia. apply load32_store32_ne. lia.
Qed.

Lemma read_write_blocks l i x :
  0 <= i -> Forall is_u32 l -> read_blocks (length l) i (write_blocks l i x) = l.
Proof.
  revert i x. induction l as [|b l IH]; intros i x Hi Hl; [done|].
  apply Forall_cons_1 in Hl as [Hb Hl]. cbn [length read_blocks write_blocks]. f_equal.
  - rewrite load32_write_blocks by lia. by apply load32_store32_eq.
  - apply IH; [lia | done].
Qed.

(** The block numbers that the header in [x] lists. *)
Definition header (x : block) : list Z := read_blocks (Z.to_nat (s32 (load32 x 0))) 0 x.

Lemma header_write l x :
  Forall is_u32 l -> Z.of_nat (length l) <= LOGSIZE ->
  header (write_blocks l 0 (store32 x 0 (Z.of_nat (length l)))) = l.
Proof.
  intros Hl Hn. unfold LOGSIZE, MAXOPBLOCKS in Hn. unfold header.
  rewrite load32_write_blocks, load32_store32_eq by (unfold is_u32; lia).
  rewrite s32_small, Nat2Z.id by (unfold is_s32; lia). apply read_write_blocks; [lia | done].
Qed.

(** ** Installing and logging blocks *)

Section transfer.
Context (st sz : Z).

(** The blocks of the log: the header and the log blocks. *)
Definition log_area (b : Z) : Prop := st <= b < st + sz.

Record lh_ok (l : list Z) : Prop := {
  lh_nodup : NoDup l;
  lh_home : Forall (fun b => ~ log_area b /\ is_u32 b) l;
  lh_fits : Z.of_nat (length l) < sz;
  lh_size : Z.of_nat (length l) <= LOGSIZE;
}.

(** [P] holds of every disk written between [d] and [d']. *)
Definition writes (P : (Z -> block) -> Prop) (d d' : dev) : Prop :=
  exists h, hist d' = h ++ hist d /\ Forall P h.

Lemma writes_refl P d d' : hist d' = hist d -> writes P d d'.
Proof. intros H. exists []. by rewrite H. Qed.

Lemma writes_trans P d1 d2 d3 : writes P d1 d2 -> writes P d2 d3 -> writes P d1 d3.
Proof.
  intros (h1 & H1 & F1) (h2 & H2 & F2). exists (h2 ++ h1). rewrite H2, H1, app_assoc.
  split; [done|]. by apply Forall_app.
Qed.

Lemma writes_weaken (P Q : (Z -> block) -> Prop) d d' :
  (forall x, P x -> Q x) -> writes P d d' -> writes Q d d'.
Proof. intros H (h & Hh & F). exists h. split; [done|]. by eapply Forall_impl. Qed.

Lemma writes_one (P : (Z -> block) -> Prop) b d : P (disk (blk_write b d)) -> writes P d (blk_write b d).
Proof. intros H. exists [disk (blk_write b d)]. split; [done|]. by constructor. Qed.

Lemma install_from_spec tail l d :
  0 <= tail -> NoDup l -> tail + Z.of_nat (length l) < sz -> Forall (fun b => ~ log_area b) l ->
  let d' := install_from st tail l d in
  (forall b, b ∉ l -> disk d' b = disk d b /\ view d' b = view d b) /\
  (forall i b, l !! i = Some b -> disk d' b = view d (st + tail + 1 + Z.of_nat i) /\
                                  view d' b = view d (st + tail + 1 + Z.of_nat i)) /\
  writes (fun x => forall b, b ∉ l -> x b = disk d b) d d'.
Proof.
  revert tail d. induction l as [|b l IH]; intros tail d Ht Hn Hlen Hl; cbn [install_from].
  { split; [done|]. split; [by intros i b H|]. by apply writes_refl. }
  inversion Hn as [|? ? Hnin Hn']; subst. apply Forall_cons_1 in Hl as [Hb Hl]. cbn [length] in Hlen.
  set (x := blk_read (st + tail + 1) d). set (d1 := blk_write b (blk_set b x d)).
  assert (Hd1 : disk d1 = setb (disk d) b x /\ view d1 = setb (view d) b x).
  { unfold d1, blk_write, blk_set. cbn. by rewrite setb_eq. }
  destruct Hd1 as [Hd1 Hv1]. specialize (IH (tail + 1) d1).
  destruct IH as (IH1 & IH2 & IH3); [lia | done | lia | done |]. split; [|split].
  - intros b' Hb'. destruct (IH1 b') as [-> ->]; [set_solver|]. rewrite Hd1, Hv1.
    by rewrite !setb_ne by set_solver.
  - intros [|i] b' H; cbn in H.
    + simplify_eq. destruct (IH1 b' Hnin) as [-> ->]. rewrite Hd1, Hv1, !setb_eq.
      unfold x, blk_read. by rewrite Z.add_0_r.
    + destruct (IH2 i b' H) as [-> ->]. rewrite Hv1, setb_ne.
      * by replace (st + (tail + 1) + 1 + Z.of_nat i) with (st + tail + 1 + Z.of_nat (S i)) by lia.
      * apply lookup_lt_Some in H. intros E. apply Hb. rewrite <- E. unfold log_area. lia.
  - eapply writes_trans.
    + apply (writes_one _ b (blk_set b x d)). fold d1. intros b' Hb'.
      rewrite Hd1. apply setb_ne. set_solver.
    + eapply writes_weaken; [|exact IH3]. intros y Hy b' Hb'. rewrite Hy by set_solver.
      rewrite Hd1. apply setb_ne. set_solver.
Qed.

Lemma write_log_from_spec tail l d :
  0 <= tail -> tail + Z.of_nat (length l) < sz -> Forall (fun b => ~ log_area b) l ->
  let d' := write_log_from st tail l d in
  let inside b := st + tail < b <= st + tail + Z.of_nat (length l) in
  (forall b, ~ inside b -> disk d' b = disk d b /\ view d' b = view d b) /\
  (forall i b, l !! i = Some b -> disk d' (st + tail + 1 + Z.of_nat i) = view d b /\
                                  view d' (st + tail + 1 + Z.of_nat i) = view d b) /\
  writes (fun x => forall b, ~ inside b -> x b = disk d b) d d'.
Proof.
  revert tail d. induction l as [|b l IH]; intros tail d Ht Hlen Hl; cbn [write_log_from].
  { split; [done|]. split; [by intros i b H|]. by apply writes_refl. }
  apply Forall_cons_1 in Hl as [Hb Hl]. cbn [length] in *.
  set (x := blk_read b d). set (a := st + tail + 1). set (d1 := blk_write a (blk_set a x d)).
  assert (Hd1 : disk d1 = setb (disk d) a x /\ view d1 = setb (view d) a x).
  { unfold d1, blk_write, blk_set. cbn. by rewrite setb_eq. }
  destruct Hd1 as [Hd1 Hv1]. specialize (IH (tail + 1) d1).
  destruct IH as (IH1 & IH2 & IH3); [lia | lia | done |]. split; [|split].
  - intros b' Hb'. destruct (IH1 b') as [-> ->]; [lia|]. rewrite Hd1, Hv1.
    by rewrite !setb_ne by (unfold a; lia).
  - intros [|i] b' H; cbn in H.
    + simplify_eq. rewrite Z.add_0_r. destruct (IH1 a) as [H1 H2]; [unfold a; lia|].
      unfold a in *. rewrite H1, H2, Hd1, Hv1, !setb_eq. done.
    + destruct (IH2 i b' H) as [H1 H2].
      replace (a + Z.of_nat (S i)) with (st + (tail + 1) + 1 + Z.of_nat i) by (unfold a; lia).
      rewrite H1, H2, Hv1, setb_ne; [done|]. rewrite Forall_lookup in Hl.
      intros E. apply (Hl _ _ H). unfold log_area, a in *. lia.
  - eapply writes_trans.
    + apply (writes_one _ a (blk_set a x d)). fold d1. intros b' Hb'.
      rewrite Hd1. apply setb_ne. unfold a. lia.
    + eapply writes_weaken; [|exact IH3]. intros y Hy b' Hb'. rewrite Hy by lia.
      rewrite Hd1. apply setb_ne. unfold a. lia.
Qed.

End transfer.

(** ** Crashes *)

Section crash.
Context (st sz : Z) (Hsz : 0 < sz).

(** Recovery from disk [d] gives the home blocks the content [R]: the logged
    blocks come from the log, the others are in place. *)
Definition recovers_to (R : Z -> block) (d : Z -> block) : Prop :=
  let l := header (d st) in
  lh_ok st sz l /\
  (forall i b, l !! i = Some b -> d (st + 1 + Z.of_nat i) = R b) /\
  (forall b, ~ log_area st sz b -> b ∉ l -> d b = R b).

Lemma lh_ok_nil : lh_ok st sz [].
Proof. split; [constructor | constructor | done | done]. Qed.

Lemma log_index_area i (l : list Z) b :
  lh_ok st sz l -> l !! i = Some b -> log_area st sz (st + 1 + Z.of_nat i) /\ st + 1 + Z.of_nat i <> b /\ b <> st.
Proof.
  intros [_ Hh Hf _] Hi. rewrite Forall_lookup in Hh. destruct (Hh _ _ Hi) as [Hb _].
  apply lookup_lt_Some in Hi. unfold log_area in *. lia.
Qed.

Lemma lh_ok_home l : lh_ok st sz l -> Forall (fun b => ~ log_area st sz b) l.
Proof. intros [_ H _ _]. eapply Forall_impl; [|exact H]. by intros b []. Qed.

(** A block of the log is not a home block. *)
Lemma area_not_logged l b : lh_ok st sz l -> log_area st sz b -> b ∉ l.
Proof.
  intros Hl Hb Hin. apply lh_ok_home in Hl. apply list_elem_of_lookup in Hin as [i Hi].
  rewrite Forall_lookup in Hl. by apply (Hl i b).
Qed.

(** While blocks are installed, recovery keeps giving the same content. *)
Lemma install_recovers R l d :
  header (disk d st) = l -> recovers_to R (disk d) ->
  (forall i b, l !! i = Some b -> view d (st + 1 + Z.of_nat i) = R b) ->
  let d' := install_from st 0 l d in
  writes (recovers_to R) d d' /\
  (forall b, log_area st sz b -> disk d' b = disk d b /\ view d' b = view d b) /\
  (forall b, ~ log_area st sz b -> disk d' b = R b) /\
  (forall i b, l !! i = Some b -> view d' b = R b) /\
  (forall b, b ∉ l -> view d' b = view d b).
Proof.
  intros Hh (Hok & Hlog & Hhome) Hv. rewrite Hh in Hok, Hlog, Hhome.
  destruct (install_from_spec st sz 0 l d ltac:(done) (lh_nodup _ _ _ Hok))
    as (H1 & H2 & H3); [destruct Hok; lia | by apply lh_ok_home |].
  assert (Harea : forall b, log_area st sz b -> b ∉ l) by (intros b; by apply area_not_logged).
  split_and!.
  - eapply writes_weaken; [|exact H3]. intros x Hx. unfold recovers_to.
    assert (Hst : x st = disk d st) by (apply Hx, Harea; unfold log_area; lia).
    rewrite Hst, Hh. split; [done|]. split.
    + intros i b Hi. rewrite Hx; [by apply Hlog|]. apply Harea. by eapply log_index_area.
    + intros b Hb Hnin. rewrite Hx by done. by apply Hhome.
  - intros b Hb. by apply H1, Harea.
  - intros b Hb. destruct (decide (b ∈ l)) as [Hin|Hnin].
    + apply list_elem_of_lookup in Hin as [i Hi]. destruct (H2 i b Hi) as [-> _].
      rewrite Z.add_0_r. by apply Hv.
    + destruct (H1 b Hnin) as [-> _]. by apply Hhome.
  - intros i b Hi. destruct (H2 i b Hi) as [_ ->]. rewrite Z.add_0_r. by apply Hv.
  - intros b Hb. by apply H1.
Qed.

(** Clearing the header of a disk whose home blocks are in place. *)
Lemma clear_recovers R lk out com w d :
  (forall b, ~ log_area st sz b -> disk d b = R b) ->
  let s' := write_head (mk_log lk st sz out com [] w d) in
  writes (recovers_to R) d (dv s') /\ recovers_to R (disk (dv s')) /\
  header (disk (dv s') st) = [] /\
  (forall b, ~ log_area st sz b -> disk (dv s') b = R b) /\
  (forall b, b <> st -> view (dv s') b = view d b).
Proof.
  intros Hd s'. set (hb := store32 (view d st) 0 0).
  assert (Hdisk : disk (dv s') = setb (disk d) st hb) by (cbn; by rewrite setb_eq).
  assert (Hhd : header hb = []) by exact (header_write [] (view d st) (Forall_nil_2 _) ltac:(done)).
  assert (Hne : forall b, ~ log_area st sz b -> b <> st) by (unfold log_area; lia).
  assert (Hrec : recovers_to R (disk (dv s'))).
  { unfold recovers_to. rewrite Hdisk, setb_eq, Hhd. split; [apply lh_ok_nil|]. split; [done|].
    intros b Hb _. rewrite setb_ne by auto. auto. }
  split_and!.
  - exists [disk (dv s')]. split; [done|]. by constructor.
  - done.
  - by rewrite Hdisk, setb_eq.
  - intros b Hb. rewrite Hdisk, setb_ne by auto. auto.
  - intros b Hb. cbn. by apply setb_ne.
Qed.

Lemma initlog_recovers R d :
  recovers_to R d ->
  let s := initlog st sz d in
  Forall (recovers_to R) (hist (dv s)) /\ recovers_to R (disk (dv s)) /\
  header (disk (dv s) st) = [] /\ (forall b, ~ log_area st sz b -> disk (dv s) b = R b).
Proof.
  intros Hr s. destruct (install_recovers R (header (d st)) (restart d)) as (H1 & H2 & H3 & _);
    [done | done | by apply Hr |].
  destruct (clear_recovers R false 0 false 0 (install_from st 0 (header (d st)) (restart d)) H3)
    as (H4 & H5 & H6 & H7 & _).
  split_and!; [|exact H5 | exact H6 | exact H7].
  destruct (writes_trans _ _ _ _ H1 H4) as (h & Hh & HF).
  change (hist (restart d)) with (@nil (Z -> block)) in Hh. rewrite app_nil_r in Hh.
  change (dv s) with (dv (write_head (mk_log false st sz 0 false [] 0
    (install_from st 0 (header (d st)) (restart d))))). rewrite Hh. exact HF.
Qed.

(** What the home blocks hold once the transaction of [s] is committed. *)
Definition committed (s : log) (b : Z) : block :=
  if bool_decide (b ∈ lh s) then view (dv s) b else disk (dv s) b.

Lemma recovers_empty R d :
  header (d st) = [] -> (forall b, ~ log_area st sz b -> d b = R b) -> recovers_to R d.
Proof. intros H HR. unfold recovers_to. rewrite H. split; [apply lh_ok_nil|]. split; [done|]. auto. Qed.

(** Writing the log blocks does not change what recovery gives. *)
Lemma log_phase l d0 :
  lh_ok st sz l -> header (disk d0 st) = [] ->
  let d1 := write_log_from st 0 l d0 in
  writes (recovers_to (disk d0)) d0 d1 /\
  (forall b, b = st \/ ~ log_area st sz b -> disk d1 b = disk d0 b /\ view d1 b = view d0 b) /\
  (forall i b, l !! i = Some b -> disk d1 (st + 1 + Z.of_nat i) = view d0 b /\
                                  view d1 (st + 1 + Z.of_nat i) = view d0 b).
Proof.
  intros Hok Hh. destruct (write_log_from_spec st sz 0 l d0 ltac:(done)) as (W1 & W2 & W3);
    [destruct Hok; lia | by apply lh_ok_home |]. rewrite !Z.add_0_r in *.
  assert (Hin : forall b, b = st \/ ~ log_area st sz b -> ~ st < b <= st + Z.of_nat (length l)).
  { destruct Hok. unfold log_area. lia. }
  split_and!.
  - eapply writes_weaken; [|exact W3]. intros x Hx. apply recovers_empty.
    + rewrite Hx by auto. done.
    + intros b Hb. apply Hx. auto.
  - intros b Hb. apply W1. auto.
  - exact W2.
Qed.

(** Writing the header commits. *)
Lemma head_phase R l d1 lk out com w :
  lh_ok st sz l ->
  (forall i b, l !! i = Some b -> disk d1 (st + 1 + Z.of_nat i) = R b) ->
  (forall b, ~ log_area st sz b -> b ∉ l -> disk d1 b = R b) ->
  let d2 := dv (write_head (mk_log lk st sz out com l w d1)) in
  writes (recovers_to R) d1 d2 /\ recovers_to R (disk d2) /\ header (disk d2 st) = l /\
  (forall b, b <> st -> view d2 b = view d1 b).
Proof.
  intros Hok Hlog Hhome d2.
  set (hb := write_blocks l 0 (store32 (view d1 st) 0 (Z.of_nat (length l)))).
  assert (Hdisk : disk d2 = setb (disk d1) st hb) by (cbn; by rewrite setb_eq).
  assert (Hhd : header hb = l).
  { apply header_write; [|apply Hok]. eapply Forall_impl; [|apply (lh_home _ _ _ Hok)]. by intros b []. }
  assert (Hrec : recovers_to R (disk d2)).
  { unfold recovers_to. rewrite Hdisk, setb_eq, Hhd. split; [done|]. split.
    - intros i b Hi. rewrite setb_ne by lia. by apply Hlog.
    - intros b Hb Hnin. rewrite setb_ne; [by apply Hhome|]. unfold log_area in Hb. lia. }
  split_and!.
  - exists [disk d2]. split; [done|]. by constructor.
  - done.
  - by rewrite Hdisk, setb_eq.
  - intros b Hb. cbn. by apply setb_ne.
Qed.

(** The disks that a commit goes through: before the header is written
    recovery gives the old content, from then on the new one. *)
Lemma commit_recovers s :
  start s = st -> size s = sz -> lh_ok st sz (lh s) -> header (disk (dv s) st) = [] ->
  writes (fun x => recovers_to (disk (dv s)) x \/ recovers_to (committed s) x) (dv s) (dv (commit s)) /\
  header (disk (dv (commit s)) st) = [] /\
  (forall b, ~ log_area st sz b -> disk (dv (commit s)) b = committed s b /\
                                   view (dv (commit s)) b = view (dv s) b).
Proof.
  intros Hst Hsize Hok Hempty. unfold commit, lh_n. case_if.
  2:{ assert (El : lh s = []) by (to_prop; apply nil_length_inv; lia).
      split; [by apply writes_refl|]. split; [done|]. intros b Hb. unfold committed.
      rewrite El, bool_decide_eq_false_2; [done | set_solver]. }
  destruct s as [lk st' sz' out com l w d0]. cbn [start size lh dv] in *. subst st' sz'.
  set (R := committed (mk_log lk st sz out com l w d0)).
  destruct (log_phase l d0 Hok Hempty) as (A1 & A2 & A3). set (d1 := write_log_from st 0 l d0) in *.
  assert (HR : forall i b, l !! i = Some b -> R b = view d0 b).
  { intros i b Hi. unfold R, committed. cbn. rewrite bool_decide_eq_true_2; [done|].
    by eapply list_elem_of_lookup_2. }
  assert (HR' : forall b, b ∉ l -> R b = disk d0 b).
  { intros b Hb. unfold R, committed. cbn. by rewrite bool_decide_eq_false_2. }
  destruct (head_phase R l d1 lk out com w Hok) as (B1 & B2 & B3 & B4).
  { intros i b Hi. rewrite (HR i) by done. by apply A3. }
  { intros b Hb Hnin. rewrite HR' by done. apply A2. auto. }
  set (d2 := dv (write_head (mk_log lk st sz out com l w d1))) in *.
  destruct (install_recovers R l d2 B3 B2) as (C1 & C2 & C3 & C4 & C5).
  { intros i b Hi. rewrite B4 by lia. rewrite (HR i) by done. by apply A3. }
  set (d3 := install_from st 0 l d2) in *.
  destruct (clear_recovers R lk out com w d3 C3) as (D1 & D2 & D3 & D4 & D5).
  change (dv (write_head (set_lh [] _))) with (dv (write_head (mk_log lk st sz out com [] w d3))).
  split_and!.
  - eapply writes_trans; [eapply writes_weaken; [|exact A1]; by left|].
    eapply writes_trans; [eapply writes_weaken; [|exact B1]; by right|].
    eapply writes_trans; [eapply writes_weaken; [|exact C1]; by right|].
    eapply writes_weaken; [|exact D1]. by right.
  - exact D3.
  - intros b Hb. split; [by apply D4|]. assert (b <> st) by (unfold log_area in Hb; lia).
    rewrite D5 by done. destruct (decide (b ∈ l)) as [Hin|Hnin].
    + apply list_elem_of_lookup in Hin as [i Hi]. rewrite (C4 i b Hi). by apply (HR i).
    + rewrite C5, B4 by done. apply A2. auto.
Qed.

(** Crashes during recovery: the disk is one that recovery wrote. *)
Definition crash_again (d d' : Z -> block) : Prop := d' ∈ hist (dv (initlog st sz d)).

Lemma crash_again_recovers R d d' : steps crash_again d d' -> recovers_to R d -> recovers_to R d'.
Proof.
  apply (steps_invariant crash_again (recovers_to R)). intros x x' Hx Hr.
  destruct (initlog_recovers R x Hr) as (HF & _). apply list_elem_of_lookup in Hx as [i Hi].
  rewrite Forall_lookup in HF. by eapply HF.
Qed.

(** After any crash of a commit and any crashes of recoveries, the disk recovers
    to the state before or to the one after. *)
Lemma commit_crash_cases s x x' :
  start s = st -> size s = sz -> lh_ok st sz (lh s) -> header (disk (dv s) st) = [] ->
  hist (dv s) = [] -> x ∈ disk (dv s) :: hist (dv (commit s)) -> steps crash_again x x' ->
  recovers_to (disk (dv s)) x' \/ recovers_to (committed s) x'.
Proof.
  intros Hst Hsz' Hok Hempty Hhist Hx Hsteps.
  assert (Hr : recovers_to (disk (dv s)) x \/ recovers_to (committed s) x).
  { destruct (commit_recovers s Hst Hsz' Hok Hempty) as ((h & Hh & HF) & _).
    rewrite Hhist, app_nil_r in Hh. apply elem_of_cons in Hx as [->|Hx].
    - left. by apply recovers_empty.
    - rewrite Hh in Hx. apply list_elem_of_lookup in Hx as [i Hi]. rewrite Forall_lookup in HF.
      by eapply HF. }
  destruct Hr as [Hr|Hr]; apply (crash_again_recovers _ x x' Hsteps) in Hr; auto.
Qed.

(** C4 (safety): Transactions are atomic across crashes.  Stop the machine
    after any disk write of a commit, then again after any write of any number
    of recoveries; when a recovery completes, the home blocks are either all
    as before the transaction or all as the transaction left them, and the
    log is empty. *)
Theorem commit_crash_atomic (s : log) (x x' : Z -> block) :
  start s = st -> size s = sz -> lh_ok st sz (lh s) -> header (disk (dv s) st) = [] ->
  hist (dv s) = [] -> x ∈ disk (dv s) :: hist (dv (commit s)) -> steps crash_again x x' ->
  let r := disk (dv (initlog st sz x')) in
  header (r st) = [] /\
  ((forall b, ~ log_area st sz b -> r b = disk (dv s) b) \/
   (forall b, ~ log_area st sz b -> r b = committed s b)).
Proof.
  intros Hst Hsz' Hok Hempty Hhist Hx Hsteps r.
  destruct (commit_crash_cases s x x' Hst Hsz' Hok Hempty Hhist Hx Hsteps) as [Hr|Hr];
    destruct (initlog_recovers _ _ Hr) as (_ & _ & Hh & HR); auto.
Qed.

(** A commit that completes installs every logged block,
    leaves the other home blocks alone, keeps the cache's view of all of them
    and empties the log on the disk. *)
Theorem commit_installs (s : log) :
  start s = st -> size s = sz -> lh_ok st sz (lh s) -> header (disk (dv s) st) = [] ->
  header (disk (dv (commit s)) st) = [] /\
  forall b, ~ log_area st sz b ->
    disk (dv (commit s)) b = committed s b /\ view (dv (commit s)) b = view (dv s) b.
Proof. intros H1 H2 H3 H4. by destruct (commit_recovers s H1 H2 H3 H4) as (_ & H). Qed.

End crash.

(** ** Space in the log *)

Lemma log_index_in b l : (log_index b l < length l)%nat <-> b ∈ l.
Proof.
  induction l as [|x l IH]; cbn [log_index length]; [split; [lia | set_solver]|].
  rewrite elem_of_cons. destruct (Z.eqb_spec x b) as [->|Hne].
  - split; [by left | lia].
  - rewrite <- IH. split; [intros; right; lia | intros [->|H]; [done | lia]].
Qed.

Lemma log_index_le b l : (log_index b l <= length l)%nat.
Proof. induction l as [|x l IH]; cbn; [lia|]. case_if; lia. Qed.

Lemma log_index_insert b l : b ∈ l -> <[log_index b l := b]> l = l.
Proof.
  induction l as [|x l IH]; cbn [log_index]; [set_solver|]. destruct (Z.eqb_spec x b) as [->|Hne]; [done|].
  intros Hin. cbn. f_equal. apply IH. set_solver.
Qed.

Definition add_block (b : Z) (l : list Z) : list Z := if bool_decide (b ∈ l) then l else l ++ [b].

Lemma set_lh_id s : set_lh (lh s) s = s.
Proof. by destruct s. Qed.

(** log_write inside a transaction with room: absorption, or one more block. *)
Lemma log_write_eq b s :
  lg_lock s = false -> lh_n s < LOGSIZE -> lh_n s < size s - 1 -> 1 <= outstanding s ->
  log_write b s = Ret (set_lh (add_block b (lh s)) s) tt.
Proof.
  intros Hl H1 H2 H3. unfold log_write, get, mbind, M_bind.
  destruct (Z.leb_spec LOGSIZE (lh_n s)); [lia|]. destruct (Z.leb_spec (size s - 1) (lh_n s)); [lia|].
  cbn [orb]. destruct (Z.ltb_spec (outstanding s) 1); [lia|].
  destruct s as [lk st sz out com l w d]. cbn in Hl. subst lk. unfold acquire, modify. cbn.
  unfold add_block. destruct (Nat.eqb_spec (log_index b l) (length l)) as [E|E].
  - rewrite bool_decide_eq_false_2; [done|]. intros Hin. apply log_index_in in Hin. lia.
  - pose proof (log_index_le b l). assert (Hin : b ∈ l) by (apply log_index_in; lia).
    rewrite bool_decide_eq_true_2, log_index_insert by done. done.
Qed.

(** Log_write inside a transaction with room records the
    block once however often it is written, keeps the log well formed and
    releases the lock. *)
Theorem log_write_spec (b : Z) (s : log) :
  lg_lock s = false -> lh_n s < LOGSIZE -> lh_n s < size s - 1 -> 1 <= outstanding s ->
  lh_ok (start s) (size s) (lh s) -> ~ log_area (start s) (size s) b -> is_u32 b ->
  exists s', log_write b s = Ret s' tt /\ lg_lock s' = false /\ dv s' = dv s /\
    b ∈ lh s' /\ (forall c, c ∈ lh s' <-> c = b \/ c ∈ lh s) /\ lh_ok (start s') (size s') (lh s') /\
    (b ∈ lh s -> s' = s).
Proof.
  intros Hl H1 H2 H3 [Hn Hh Hf Hs] Hb Hu. rewrite log_write_eq by done. eexists. split; [done|].
  unfold add_block, lh_n in *. case_bool_decide as Hin; cbn [set_lh lg_lock dv lh start size].
  - split_and!; try done; [|by intros _; apply set_lh_id].
    intros c. split; [by right | by intros [->|?]].
  - split_and!; try done; [set_solver | set_solver|]. split.
    + apply list.NoDup_app. split_and!; [done | set_solver | apply NoDup_singleton].
    + apply Forall_app. split; [done|]. constructor; [done | constructor].
    + rewrite length_app. cbn. lia.
    + rewrite length_app. cbn. lia.
Qed.

(** Operations in progress, each with the number of new blocks it may still
    write.  A block that is logged already costs nothing. *)
Inductive op_step : log * list nat -> log * list nat -> Prop :=
| op_begin chan s bs s' :
    begin_op chan s = Ret s' tt -> op_step (s, bs) (s', Z.to_nat MAXOPBLOCKS :: bs)
| op_write b s bs1 r bs2 s' :
    b ∉ lh s -> log_write b s = Ret s' tt -> op_step (s, bs1 ++ S r :: bs2) (s', bs1 ++ r :: bs2)
| op_rewrite b s bs s' :
    b ∈ lh s -> log_write b s = Ret s' tt -> op_step (s, bs) (s', bs)
| op_end s bs1 r bs2 s' :
    end_op s = Ret s' tt -> op_step (s, bs1 ++ r :: bs2) (s', bs1 ++ bs2).

Fixpoint total (bs : list nat) : Z := match bs with [] => 0 | b :: bs => Z.of_nat b + total bs end.

Lemma total_app a b : total (a ++ b) = total a + total b.
Proof. induction a as [|x a IH]; cbn; [done|]. rewrite IH. lia. Qed.

Lemma total_nonneg bs : 0 <= total bs.
Proof. induction bs; cbn; lia. Qed.

Record reserved (s : log) (bs : list nat) : Prop := {
  res_lock : lg_lock s = false;
  res_count : outstanding s = Z.of_nat (length bs);
  res_each : Forall (fun b => (b <= 10)%nat) bs;
  res_space : lh_n s + total bs <= LOGSIZE;
  res_idle : committing s = false;
}.

Lemma total_le bs : Forall (fun b => (b <= 10)%nat) bs -> total bs <= 10 * Z.of_nat (length bs).
Proof. induction 1 as [|b bs Hb _ IH]; cbn; [done|]. lia. Qed.

Lemma begin_op_cases chan s :
  lg_lock s = false ->
  begin_op chan s =
    if committing s || (LOGSIZE <? lh_n s + (outstanding s + 1) * MAXOPBLOCKS) then Wait (On chan) s
    else Ret (set_outstanding (outstanding s + 1) s) tt.
Proof.
  destruct s as [lk st sz out com l w d]. cbn. intros ->.
  unfold begin_op, acquire, release, get, put, waiton, mbind, M_bind. cbn.
  destruct com; [done|]. unfold lh_n. cbn. by case_if.
Qed.

Lemma end_op_cases s :
  lg_lock s = false -> committing s = false ->
  exists s', end_op s = Ret s' tt /\ lg_lock s' = false /\ committing s' = false /\
    outstanding s' = outstanding s - 1 /\ start s' = start s /\ size s' = size s /\
    (if outstanding s =? 1 then lh s' = [] /\ dv s' = dv (commit s) else lh s' = lh s /\ dv s' = dv s).
Proof.
  destruct s as [lk st sz out com l w d]. cbn. intros -> ->.
  unfold end_op, end_op_enter, end_op_leave, acquire, release, get, put, modify, mbind, M_bind. cbn.
  destruct (Z.eqb_spec (out - 1) 0) as [E|E]; destruct (Z.eqb_spec out 1) as [E'|E']; try lia; cbn.
  - unfold commit, lh_n. cbn. destruct (Z.ltb_spec 0 (Z.of_nat (length l))); cbn; eexists; split_and!; try done.
    assert (l = []) as -> by (apply nil_length_inv; lia). done.
  - eexists. split_and!; done.
Qed.

Lemma op_step_reserved x y :
  op_step x y -> reserved (fst x) (snd x) -> reserved (fst y) (snd y).
Proof.
  intros Hs [Hl Hc He Hsp Hi]. destruct Hs as [chan s bs s' H|b s bs1 r bs2 s' Hb H|b s bs s' Hb H|s bs1 r bs2 s' H];
    cbn [fst snd] in *.
  - rewrite begin_op_cases, Hi in H by done. cbn [orb] in H. case_if_in H; [done|]. simplify_eq. to_prop.
    unfold MAXOPBLOCKS, lh_n in *. pose proof (total_le _ He). split; cbn; try done; [lia | by constructor|].
    unfold lh_n. cbn. unfold LOGSIZE, MAXOPBLOCKS in *. lia.
  - assert (Heq := H). unfold log_write, get, mbind, M_bind in H. case_if_in H; [done|]. case_if_in H; [done|].
    clear H. to_prop. rewrite log_write_eq in Heq by (done || lia). simplify_eq.
    rewrite total_app in Hsp. cbn [total] in Hsp. rewrite Forall_app, Forall_cons_iff in He.
    unfold add_block. rewrite bool_decide_eq_false_2 by done. split; cbn; try done.
    + rewrite length_app in *. cbn in *. lia.
    + rewrite Forall_app, Forall_cons_iff. intuition lia.
    + unfold lh_n in *. cbn. rewrite length_app, total_app. cbn. lia.
  - assert (Heq := H). unfold log_write, get, mbind, M_bind in H. case_if_in H; [done|]. case_if_in H; [done|].
    clear H. to_prop. rewrite log_write_eq in Heq by (done || lia). simplify_eq.
    unfold add_block. rewrite bool_decide_eq_true_2, set_lh_id by done. by split.
  - destruct (end_op_cases s Hl Hi) as (s'' & Hs' & H1 & H2 & H3 & H4 & H5 & H6).
    rewrite Hs' in H. injection H as <-.
    rewrite total_app in Hsp. cbn [total] in Hsp. rewrite Forall_app, Forall_cons_iff in He.
    rewrite length_app in Hc. cbn in Hc.
    split; try done.
    + rewrite H3, length_app. lia.
    + apply Forall_app. tauto.
    + rewrite total_app. unfold lh_n in *. assert (Hlen : (length (lh s'') <= length (lh s))%nat).
      { destruct (outstanding s =? 1); destruct H6 as [-> _]; cbn; lia. }
      lia.
Qed.


(** The log that mkfs makes: nlog = LOGSIZE blocks, the header included. *)
Definition mkfs_log : log := mk_log false 2 LOGSIZE 0 false [] 0 (restart (fun _ _ => 0)).

(** Run [n] calls of log_write on blocks b, b+1, ... *)
Fixpoint write_many (n : nat) (b : Z) : M log unit :=
  match n with O => mret tt | S n => log_write b ≫= fun _ => write_many n (b + 1) end.

(** With the log that mkfs makes the reservation is one block
    short: three system calls that begin_op admits and that stay within
    MAXOPBLOCKS blocks each end in panic("too big a transaction"). *)
Theorem log_reservation_short :
  (begin_op 1 ≫= fun _ => begin_op 1 ≫= fun _ => begin_op 1 ≫= fun _ =>
   write_many 10 100 ≫= fun _ => write_many 10 200 ≫= fun _ => write_many 10 300) mkfs_log
    = Panic "too big a transaction".
Proof. vm_compute. reflexivity. Qed.

(** ** Witnesses *)

Definition sample_dev : dev := mk_dev (fun b a => if b =? 100 then 7 else 0) (fun _ _ => 0) [].
Definition sample_log : log := mk_log false 2 30 1 false [100] 0 sample_dev.

Lemma sample_lh_ok : lh_ok 2 30 [100].
Proof.
  split; [apply NoDup_singleton | | done | done].
  constructor; [|constructor]. split; [unfold log_area; lia | done].
Qed.

Lemma commit_crash_atomic_witness :
  let r := disk (dv (initlog 2 30 (disk sample_dev))) in
  header (r 2) = [] /\
  ((forall b, ~ log_area 2 30 b -> r b = disk sample_dev b) \/
   (forall b, ~ log_area 2 30 b -> r b = committed sample_log b)).
Proof.
  apply (commit_crash_atomic 2 30 ltac:(done) sample_log (disk sample_dev) (disk sample_dev));
    [done | done | exact sample_lh_ok | done | done | left | constructor].
Defined.

Lemma commit_installs_witness :
  disk (dv (commit sample_log)) 100 0 = 7 /\ header (disk (dv (commit sample_log)) 2) = [].
Proof.
  destruct (commit_installs 2 30 ltac:(done) sample_log) as [H1 H2];
    [done | done | exact sample_lh_ok | done |].
  split; [|exact H1]. destruct (H2 100) as [-> _]; [unfold log_area; lia | done].
Defined.

Lemma log_write_spec_witness :
  exists s', log_write 101 sample_log = Ret s' tt /\ 101 ∈ lh s' /\ lg_lock s' = false.
Proof.
  destruct (log_write_spec 101 sample_log) as (s' & H1 & H2 & _ & H3 & _);
    [done | done | done | done | exact sample_lh_ok | unfold log_area; cbn; lia | done |].
  by exists s'.
Defined.

