(* ===== verification/Bio.v ===== *)
(** The buffer cache (bio.c), over the disk driver of memide.c.

    Buffers are indexed 0 to NBUF - 1; [HEAD] is the index of bcache.head.
    The doubly linked list is kept as in the code, by the next and prev fields
    ([bnext], [bprev]); the predicate [seg] relates them to the list of buffer
    indices in order of use.  The cache's contract is the block interface of
    Block.v: the theorems state that bread, bwrite and brelse act on the
    abstract view and disk as that interface says. *)

From S2P Require Import Prelude Word Mem Spinlock Block.

Local Open Scope Z_scope.

Definition B_VALID : Z := 2.
Definition B_DIRTY : Z := 4.

Record buf := mk_buf {
  flags : Z;
  bdev : Z;
  blockno : Z;
  block_lock : sleeplock;
  refcnt : Z;
  bdata : block;
}.

Record bcache := mk_bcache {
  bc_lock : bool;
  bufs : list buf;
  bnext : nat -> nat;
  bprev : nat -> nat;
  bdisk : Z -> block;              (* memdisk *)
  disksize : Z;
}.

#[refine, export] Instance bcache_lock : HasLock bcache := {|
  get_lock := bc_lock;
  set_lock b s := mk_bcache b (bufs s) (bnext s) (bprev s) (bdisk s) (disksize s);
|}.
Proof. 1-2: done. by intros []. Defined.

Definition nbuf : nat := Z.to_nat NBUF.
Definition HEAD : nat := nbuf.

Definition set_bufs (l : list buf) (s : bcache) : bcache :=
  mk_bcache (bc_lock s) l (bnext s) (bprev s) (bdisk s) (disksize s).
Definition set_links (nx pv : nat -> nat) (s : bcache) : bcache :=
  mk_bcache (bc_lock s) (bufs s) nx pv (bdisk s) (disksize s).
Definition set_bdisk (d : Z -> block) (s : bcache) : bcache :=
  mk_bcache (bc_lock s) (bufs s) (bnext s) (bprev s) d (disksize s).

Definition set_flags (v : Z) (b : buf) : buf := mk_buf v (bdev b) (blockno b) (block_lock b) (refcnt b) (bdata b).
Definition set_refcnt (v : Z) (b : buf) : buf := mk_buf (flags b) (bdev b) (blockno b) (block_lock b) v (bdata b).
Definition set_blk_lock (v : sleeplock) (b : buf) : buf := mk_buf (flags b) (bdev b) (blockno b) v (refcnt b) (bdata b).
Definition set_bdata (v : block) (b : buf) : buf := mk_buf (flags b) (bdev b) (blockno b) (block_lock b) (refcnt b) v.

Definition on_buf (i : nat) (f : buf -> buf) (s : bcache) : bcache := set_bufs (alter f i (bufs s)) s.

Definition nupd (f : nat -> nat) (i v : nat) : nat -> nat := fun j => if (j =? i)%nat then v else f j.

(** ** The list of buffers *)

(** Insertion after the head, in the order of the assignments of the code. *)
Definition push_front (b : nat) (nx pv : nat -> nat) : (nat -> nat) * (nat -> nat) :=
  let nx := nupd nx b (nx HEAD) in     (* b->next = bcache.head.next *)
  let pv := nupd pv b HEAD in          (* b->prev = &bcache.head *)
  let pv := nupd pv (nx HEAD) b in     (* bcache.head.next->prev = b *)
  let nx := nupd nx HEAD b in          (* bcache.head.next = b *)
  (nx, pv).

Definition unlink (b : nat) (nx pv : nat -> nat) : (nat -> nat) * (nat -> nat) :=
  let pv := nupd pv (nx b) (pv b) in   (* b->next->prev = b->prev *)
  let nx := nupd nx (pv b) (nx b) in   (* b->prev->next = b->next *)
  (nx, pv).

(** binit: the buffers are inserted one after the other. *)
Fixpoint binit_loop (n b : nat) (nx pv : nat -> nat) : (nat -> nat) * (nat -> nat) :=
  match n with
  | O => (nx, pv)
  | S n => let '(nx, pv) := push_front b nx pv in binit_loop n (S b) nx pv
  end.

Definition binit (d : Z -> block) (dsize : Z) : bcache :=
  let nx := nupd (fun _ => O) HEAD HEAD in
  let pv := nupd (fun _ => O) HEAD HEAD in
  let '(nx, pv) := binit_loop nbuf 0 nx pv in
  mk_bcache false (replicate nbuf (mk_buf 0 0 0 initsleeplock 0 (fun _ => 0))) nx pv d dsize.

(** ** The driver (memide.c) *)

Definition iderw (mypid : Z) (i : nat) : M bcache unit := fun s =>
  match bufs s !! i with
  | None => Panic "no such buffer"
  | Some b =>
      match holdingsleep mypid (block_lock b) with
      | Ret _ false => Panic "iderw: buf not locked"
      | Ret _ true =>
          if Z.land (flags b) (Z.lor B_VALID B_DIRTY) =? B_VALID then Panic "iderw: nothing to do"
          else if negb (bdev b =? 1) then Panic "iderw: request not for disk 1"
          else if disksize s <=? blockno b then Panic "iderw: block out of range"
          else if negb (Z.land (flags b) B_DIRTY =? 0) then
            Ret (on_buf i (fun b => set_flags (Z.lor (Z.land (flags b) (Z.lnot B_DIRTY)) B_VALID) b)
                   (set_bdisk (setb (bdisk s) (blockno b) (bdata b)) s)) tt
          else
            Ret (on_buf i (fun b => set_flags (Z.lor (flags b) B_VALID) (set_bdata (bdisk s (blockno b)) b)) s) tt
      | Panic e => Panic e
      | Wait c _ => Wait c s
      end
  end.

(** ** Buffers *)

(** The two scans of bget, [n] steps at most. *)
Fixpoint scan (n : nat) (link : nat -> nat) (test : nat -> bool) (b : nat) : option nat :=
  match n with
  | O => None
  | S n => if (b =? HEAD)%nat then None else if test b then Some b else scan n link test (link b)
  end.

Definition is_block (dev_ no : Z) (s : bcache) (i : nat) : bool :=
  match bufs s !! i with Some b => (bdev b =? dev_) && (blockno b =? no) | None => false end.

Definition is_unused (s : bcache) (i : nat) : bool :=
  match bufs s !! i with
  | Some b => (refcnt b =? 0) && (Z.land (flags b) B_DIRTY =? 0)
  | None => false
  end.

(** bget up to the acquiresleep: the buffer found or recycled. *)
Definition bget_find (dev_ no : Z) : M bcache nat :=
  acquire ≫= fun _ =>
  get ≫= fun s =>
  match scan (S nbuf) (bnext s) (is_block dev_ no s) (bnext s HEAD) with
  | Some i =>
      put (on_buf i (fun b => set_refcnt (u32 (refcnt b + 1)) b) s) ≫= fun _ =>
      release ≫= fun _ => mret i
  | None =>
      match scan (S nbuf) (bprev s) (is_unused s) (bprev s HEAD) with
      | Some i =>
          put (on_buf i (fun b => mk_buf 0 dev_ no (block_lock b) 1 (bdata b)) s) ≫= fun _ =>
          release ≫= fun _ => mret i
      | None => panic "bget: no buffers"
      end
  end.

(** acquiresleep and releasesleep of the lock of buffer [i]; the address of
    the lock is named by the index.  A call that sleeps resumes here. *)
Definition on_lock {A} (i : nat) (m : M sleeplock A) : M bcache A := fun s =>
  match bufs s !! i with
  | None => Panic "no such buffer"
  | Some b =>
      match m (block_lock b) with
      | Ret l a => Ret (on_buf i (set_blk_lock l) s) a
      | Panic e => Panic e
      | Wait c l => Wait c (on_buf i (set_blk_lock l) s)
      end
  end.

Definition bget (mypid dev_ no : Z) : M bcache nat :=
  bget_find dev_ no ≫= fun i =>
  on_lock i (acquiresleep (Z.of_nat i) mypid) ≫= fun _ => mret i.

Definition bread (mypid dev_ no : Z) : M bcache nat :=
  bget mypid dev_ no ≫= fun i =>
  get ≫= fun s =>
  match bufs s !! i with
  | Some b => if Z.land (flags b) B_VALID =? 0 then iderw mypid i ≫= fun _ => mret i else mret i
  | None => panic "no such buffer"
  end.

Definition bwrite (mypid : Z) (i : nat) : M bcache unit :=
  on_lock i (holdingsleep mypid) ≫= fun h : bool =>
  if negb h then panic "bwrite"
  else
    modify (on_buf i (fun b => set_flags (Z.lor (flags b) B_DIRTY) b)) ≫= fun _ =>
    iderw mypid i.

Definition brelse (mypid : Z) (i : nat) : M bcache unit :=
  on_lock i (holdingsleep mypid) ≫= fun h : bool =>
  if negb h then panic "brelse"
  else
    on_lock i releasesleep ≫= fun _ =>
    acquire ≫= fun _ =>
    modify (on_buf i (fun b => set_refcnt (u32 (refcnt b - 1)) b)) ≫= fun _ =>
    modify (fun s =>
      match bufs s !! i with
      | Some b =>
          if refcnt b =? 0 then
            let '(nx, pv) := unlink i (bnext s) (bprev s) in
            let '(nx, pv) := push_front i nx pv in
            set_links nx pv s
          else s
      | None => s
      end) ≫= fun _ =>
    release.

(** ** The linked list *)

Fixpoint seg (nx pv : nat -> nat) (a : nat) (l : list nat) (z : nat) : Prop :=
  match l with
  | [] => nx a = z /\ pv z = a
  | b :: l => nx a = b /\ pv b = a /\ seg nx pv b l z
  end.

(** Membership in explicit lists. *)
Ltac mem :=
  let E := fresh "E" in
  try (intros E);
  repeat match goal with
  | H : context [_ ∈ _ ++ _] |- _ => rewrite elem_of_app in H
  | H : context [_ ∈ _ :: _] |- _ => rewrite elem_of_cons in H
  | H : context [_ ∈ []] |- _ => rewrite elem_of_nil in H
  | |- context [_ ∈ _ ++ _] => rewrite elem_of_app
  | |- context [_ ∈ _ :: _] => rewrite elem_of_cons
  | |- context [_ ∈ []] => rewrite elem_of_nil
  | H : seg _ _ _ _ _ |- _ => clear H
  | H : NoDup _ |- _ => clear H
  | H : forall _, _ |- _ => lazymatch type of H with _ -> _ => fail | _ => clear H end
  end; try subst; intuition (subst; auto; congruence).

Lemma nupd_eq f i v : nupd f i v i = v.
Proof. unfold nupd. by rewrite Nat.eqb_refl. Qed.

Lemma nupd_ne f i v j : j <> i -> nupd f i v j = f j.
Proof. intros H. unfold nupd. by apply Nat.eqb_neq in H as ->. Qed.

Lemma seg_ext nx pv nx' pv' a l z :
  (forall x, x ∈ a :: l -> nx' x = nx x) -> (forall x, x ∈ l ++ [z] -> pv' x = pv x) ->
  seg nx pv a l z -> seg nx' pv' a l z.
Proof.
  revert a. induction l as [|b l IH]; intros a Hn Hp; cbn [seg].
  - intros [H1 H2]. rewrite Hn, Hp by set_solver. done.
  - intros (H1 & H2 & H3). rewrite Hn, Hp by set_solver. split; [done|]. split; [done|].
    apply IH; [|set_solver|done]. intros x Hx. apply Hn. set_solver.
Qed.

Lemma seg_app nx pv a l1 b l2 z :
  seg nx pv a (l1 ++ b :: l2) z <-> seg nx pv a l1 b /\ seg nx pv b l2 z.
Proof.
  revert a. induction l1 as [|c l1 IH]; intros a; cbn [app seg]; [tauto|]. rewrite IH. tauto.
Qed.

Lemma seg_last nx pv a l z : seg nx pv a l z -> pv z ∈ a :: l.
Proof.
  revert a. induction l as [|b l IH]; intros a; cbn [seg]; [intros [_ ->]; set_solver|].
  intros (_ & _ & H). apply IH in H. set_solver.
Qed.

Lemma seg_first nx pv a l z : seg nx pv a l z -> nx a ∈ l ++ [z].
Proof. destruct l; cbn [seg]; [intros [-> _]; set_solver | intros (-> & _); set_solver]. Qed.

(** Removing the element between two segments. *)
Lemma seg_join nx pv a l1 b l2 z :
  seg nx pv a l1 b -> seg nx pv b l2 z ->
  NoDup (a :: l1 ++ l2) -> z ∉ l1 ++ l2 -> b ∉ l1 ++ l2 -> b <> z -> a <> b ->
  seg (nupd nx (pv b) (nx b)) (nupd pv (nx b) (pv b)) a (l1 ++ l2) z.
Proof.
  intros H1 H2 Hn Hz Hb Hbz Hab. revert a H1 Hn Hab. induction l1 as [|c l1 IH]; intros a H1 Hn Hab; cbn [app] in *.
  - destruct H1 as [Hna Hpb]. rewrite Hpb. destruct l2 as [|d l2]; cbn [seg] in *.
    + destruct H2 as [-> _]. by rewrite !nupd_eq.
    + destruct H2 as (-> & Hpd & H2). rewrite !nupd_eq. split; [done|]. split; [done|].
      inversion Hn as [|? ? Hn1 Hn2]; subst. inversion Hn2 as [|? ? Hn3 Hn4]; subst.
      eapply seg_ext; [| |exact H2].
      * intros x Hx. apply nupd_ne. mem.
      * intros x Hx. apply nupd_ne. mem.
  - destruct H1 as (Hna & Hpc & H1). inversion Hn as [|? ? Hn1 Hn2]; subst. cbn [seg].
    pose proof (seg_last _ _ _ _ _ H1) as Hlast. pose proof (seg_first _ _ _ _ _ H2) as Hfirst.
    inversion Hn2 as [|? ? Hn3 Hn4]; subst.
    rewrite !nupd_ne by mem. split; [done|]. split; [done|].
    apply IH; [mem | mem | done | done | mem].
Qed.

Lemma seg_push nx pv l b :
  seg nx pv HEAD l HEAD -> NoDup l -> HEAD ∉ l -> b ∉ l -> b <> HEAD ->
  let '(nx', pv') := push_front b nx pv in seg nx' pv' HEAD (b :: l) HEAD.
Proof.
  intros H Hn Hh Hb Hne. unfold push_front. pose proof (seg_first _ _ _ _ _ H) as Hf.
  rewrite (nupd_ne nx b _ HEAD) by done. cbn [seg]. rewrite nupd_eq.
  assert (Hfb : nx HEAD <> b) by mem. rewrite (nupd_ne _ (nx HEAD)), nupd_eq by done.
  split; [done|]. split; [done|]. destruct l as [|c l]; cbn [seg] in *.
  - destruct H as [-> _]. rewrite nupd_ne, !nupd_eq by done. done.
  - destruct H as (-> & Hpc & H). rewrite (nupd_ne _ HEAD), nupd_eq, nupd_eq by done.
    split; [done|]. split; [done|]. inversion Hn as [|? ? Hn1 Hn2]; subst.
    eapply seg_ext; [| |exact H].
    + intros x Hx. rewrite !nupd_ne by mem. done.
    + intros x Hx. rewrite !nupd_ne by mem. done.
Qed.

(** Moving a buffer to the front, as brelse does. *)
Lemma seg_move nx pv l1 b l2 :
  seg nx pv HEAD (l1 ++ b :: l2) HEAD -> NoDup (l1 ++ b :: l2) -> HEAD ∉ l1 ++ b :: l2 ->
  let '(nx1, pv1) := unlink b nx pv in
  let '(nx', pv') := push_front b nx1 pv1 in seg nx' pv' HEAD (b :: l1 ++ l2) HEAD.
Proof.
  intros H Hn Hh. apply seg_app in H as [H1 H2].
  rewrite <- Permutation_middle in Hn. inversion Hn as [|? ? Hn1 Hn2]; subst.
  assert (Hbn : nx b <> b) by (pose proof (seg_first _ _ _ _ _ H2); mem).
  unfold unlink. rewrite (nupd_ne pv (nx b)) by done. apply seg_push; [|done|mem|done|mem].
  apply (seg_join nx pv HEAD l1 b l2 HEAD); [done | done | | mem | done | mem | mem].
  constructor; [mem | done].
Qed.

Lemma scan_next n nx pv test a l :
  seg nx pv a l HEAD -> HEAD ∉ l -> (length l < n)%nat ->
  scan n nx test (nx a) = snd <$> list_find (fun i => test i = true) l.
Proof.
  revert n a. induction l as [|b l IH]; intros n a H Hh Hlen; destruct n as [|n]; cbn in Hlen; try lia;
    cbn [seg scan list_find] in *.
  - destruct H as [-> _]. by rewrite Nat.eqb_refl.
  - destruct H as (-> & _ & H). destruct (Nat.eqb_spec b HEAD); [set_solver|].
    destruct (test b) eqn:E.
    + by rewrite decide_True.
    + rewrite decide_False by congruence. rewrite (IH n b) by (done || set_solver || lia).
      by destruct (list_find _ l) as [[? ?]|].
Qed.

Lemma scan_prev n nx pv test l z :
  seg nx pv HEAD l z -> HEAD ∉ l -> (length l < n)%nat ->
  scan n pv test (pv z) = snd <$> list_find (fun i => test i = true) (rev l).
Proof.
  revert n z. induction l as [|b l IH] using rev_ind; intros n z H Hh Hlen; destruct n as [|n];
    try lia; cbn [scan].
  - destruct H as [_ ->]. by rewrite Nat.eqb_refl.
  - apply seg_app in H as [H1 [_ ->]]. rewrite rev_app_distr. cbn [rev app list_find].
    rewrite length_app in Hlen. cbn in Hlen. destruct (Nat.eqb_spec b HEAD); [set_solver|].
    destruct (test b) eqn:E.
    + by rewrite decide_True.
    + rewrite decide_False by congruence. rewrite (IH n b) by (done || set_solver || lia).
      by destruct (list_find _ (rev l)) as [[? ?]|].
Qed.

(** ** The view of the cache *)

Definition valid (b : buf) : bool := negb (Z.land (flags b) B_VALID =? 0).
Definition dirty (b : buf) : bool := negb (Z.land (flags b) B_DIRTY =? 0).

(** Buffer [x] holds the content of block [no] of disk 1. *)
Definition caches (x : buf) (no : Z) : Prop := bdev x = 1 /\ blockno x = no /\ valid x = true.

#[export] Instance caches_dec x no : Decision (caches x no).
Proof. unfold caches. apply _. Defined.

Definition abs_view (s : bcache) (no : Z) : block :=
  match list_find (fun x => caches x no) (bufs s) with
  | Some (_, x) => bdata x
  | None => bdisk s no
  end.

(** Each block is in one buffer at most. *)
Definition unique (l : list buf) : Prop :=
  forall i j x y, l !! i = Some x -> l !! j = Some y -> bdev x = 1 -> bdev y = 1 ->
    blockno x = blockno y -> i = j.

Definition buf_ok (d : Z -> block) (x : buf) : Prop :=
  (flags x = 0 \/ flags x = 2 \/ flags x = 6) /\
  (bdev x = 0 /\ flags x = 0 \/ bdev x = 1) /\
  is_u32 (refcnt x) /\ sl_lk (block_lock x) = false /\
  (refcnt x = 0 -> sl_holder (block_lock x) = None) /\
  (sl_holder (block_lock x) = None -> valid x = true -> dirty x = false -> bdata x = d (blockno x)).

Record bc_ok (s : bcache) : Prop := {
  ok_lock : bc_lock s = false;
  ok_len : length (bufs s) = nbuf;
  ok_links : exists l, seg (bnext s) (bprev s) HEAD l HEAD /\ l ≡ₚ seq 0 nbuf;
  ok_unique : unique (bufs s);
  ok_bufs : Forall (buf_ok (bdisk s)) (bufs s);
}.

Lemma abs_view_cached s i x no :
  unique (bufs s) -> bufs s !! i = Some x -> caches x no -> abs_view s no = bdata x.
Proof.
  intros Hu Hi (Hd & Hb & Hv). unfold abs_view. destruct (list_find _ (bufs s)) as [[j y]|] eqn:E.
  - apply list_find_Some in E as (Hj & (Hd' & Hb' & _) & _).
    assert (i = j) as -> by (eapply Hu; eauto; congruence). congruence.
  - apply list_find_None in E. rewrite Forall_lookup in E. by destruct (E i x Hi).
Qed.

Lemma abs_view_uncached s no :
  (forall i x, bufs s !! i = Some x -> ~ caches x no) -> abs_view s no = bdisk s no.
Proof.
  intros H. unfold abs_view. destruct (list_find _ (bufs s)) as [[j y]|] eqn:E; [|done].
  apply list_find_Some in E as (Hj & Hc & _). by destruct (H j y).
Qed.

(** Changing one buffer without changing what the cache shows. *)
Lemma abs_view_update s s' i x x' :
  unique (bufs s) -> unique (bufs s') -> bufs s !! i = Some x -> bufs s' = <[i := x']> (bufs s) ->
  bdisk s' = bdisk s ->
  (forall no, caches x' no -> bdata x' = abs_view s no) ->
  (forall no, caches x no -> ~ caches x' no -> bdata x = bdisk s no) ->
  forall no, abs_view s' no = abs_view s no.
Proof.
  intros Hu Hu' Hi Hb Hd Hnew Hold no.
  assert (Hlen : (i < length (bufs s))%nat) by by eapply lookup_lt_Some.
  assert (Hi' : bufs s' !! i = Some x') by by rewrite Hb, list_lookup_insert_eq.
  destruct (decide (caches x' no)) as [Hc|Hc].
  { rewrite (abs_view_cached s' i x' no Hu' Hi' Hc). by apply Hnew. }
  destruct (list_find (fun y => caches y no) (bufs s')) as [[j y]|] eqn:He.
  - apply list_find_Some in He as (Hj & Hcy & _).
    rewrite (abs_view_cached s' j y no Hu' Hj Hcy). rewrite Hb in Hj.
    destruct (lookup_insert_cases _ _ _ _ _ Hj) as [[-> ->]|[Hne Hj']]; [done|].
    by rewrite (abs_view_cached s j y no Hu Hj' Hcy).
  - assert (Hn : forall j y, bufs s' !! j = Some y -> ~ caches y no).
    { intros j y Hj. apply list_find_None in He. rewrite Forall_lookup in He. by eapply He. }
    rewrite (abs_view_uncached s' no Hn), Hd. destruct (decide (caches x no)) as [Hx|Hx].
    + rewrite (abs_view_cached s i x no Hu Hi Hx). symmetry. by apply Hold.
    + symmetry. apply abs_view_uncached. intros j y Hj. destruct (decide (j = i)) as [->|Hne]; [congruence|].
      apply (Hn j). by rewrite Hb, list_lookup_insert_ne.
Qed.

Lemma alter_insert {A} (f : A -> A) (i : nat) (l : list A) x : l !! i = Some x -> alter f i l = <[i := f x]> l.
Proof.
  intros H. apply list_eq. intros j. destruct (decide (j = i)) as [->|Hne].
  - rewrite list_lookup_alter_eq, H, list_lookup_insert_eq; [done|]. by eapply lookup_lt_Some.
  - by rewrite list_lookup_alter_ne, list_lookup_insert_ne by done.
Qed.

Lemma unique_insert l i x x' :
  unique l -> l !! i = Some x ->
  (bdev x' = 1 -> bdev x = 1 /\ blockno x' = blockno x \/
     forall j y, l !! j = Some y -> bdev y = 1 -> blockno y <> blockno x') ->
  unique (<[i := x']> l).
Proof.
  intros Hu Hi Hx' a b y z Ha Hb Hy Hz He.
  destruct (lookup_insert_cases _ _ _ _ _ Ha) as [[-> ->]|[Hna Ha']],
           (lookup_insert_cases _ _ _ _ _ Hb) as [[-> ->]|[Hnb Hb']].
  - done.
  - destruct (Hx' Hy) as [[Hd Hn]|Hn]; [eapply Hu; eauto; congruence | by destruct (Hn b z)].
  - destruct (Hx' Hz) as [[Hd Hn]|Hn]; [eapply Hu; eauto; congruence | by destruct (Hn a y)].
  - by eapply Hu.
Qed.

Lemma bc_ok_update s s' i x x' :
  bc_ok s -> bufs s !! i = Some x ->
  bc_lock s' = false -> bufs s' = <[i := x']> (bufs s) -> bdisk s' = bdisk s ->
  (exists l, seg (bnext s') (bprev s') HEAD l HEAD /\ l ≡ₚ seq 0 nbuf) ->
  buf_ok (bdisk s) x' ->
  (bdev x' = 1 -> bdev x = 1 /\ blockno x' = blockno x \/
     forall j y, bufs s !! j = Some y -> bdev y = 1 -> blockno y <> blockno x') ->
  bc_ok s'.
Proof.
  intros [Hl Hlen Hk Hu Hb] Hi Hl' Hbufs Hd Hk' Hx' Hun. split; [done| |done| |].
  - by rewrite Hbufs, length_insert.
  - rewrite Hbufs. by eapply unique_insert.
  - rewrite Hbufs, Hd. by apply Forall_insert.
Qed.

Lemma bufs_on_buf i f s x : bufs s !! i = Some x -> bufs (on_buf i f s) = <[i := f x]> (bufs s).
Proof. intros H. unfold on_buf. cbn. by apply alter_insert. Qed.

Lemma links_head l : l ≡ₚ seq 0 nbuf -> HEAD ∉ l /\ length l = nbuf /\ NoDup l.
Proof.
  intros Hl. split; [|split].
  - rewrite Hl. rewrite list_elem_of_In, in_seq. unfold HEAD. lia.
  - by rewrite Hl, length_seq.
  - rewrite Hl. apply NoDup_seq.
Qed.

(** A buffer that a scan finds. *)
Lemma scan_found link test b n i :
  scan n link test b = Some i -> test i = true.
Proof.
  revert b. induction n as [|n IH]; intros b; cbn [scan]; [done|].
  case_if; [done|]. destruct (test b) eqn:E; [by intros [= <-] | apply IH].
Qed.

(** A block that the forward scan does not find is in no buffer. *)
Lemma scan_missing s test :
  bc_ok s -> scan (S nbuf) (bnext s) test (bnext s HEAD) = None ->
  forall i x, bufs s !! i = Some x -> test i = false.
Proof.
  intros [_ Hlen (l & Hs & Hp) _ _] Hn i x Hi. destruct (links_head l Hp) as (Hh & Hl & _).
  rewrite (scan_next _ _ (bprev s) _ HEAD l) in Hn by (done || lia).
  destruct (list_find _ l) as [[? ?]|] eqn:E; [done|]. apply list_find_None in E.
  rewrite Forall_lookup in E. assert (Hin : i ∈ l).
  { rewrite Hp, list_elem_of_In, in_seq. apply lookup_lt_Some in Hi. lia. }
  apply list_elem_of_lookup in Hin as [k Hk]. apply E in Hk. by destruct (test i).
Qed.

Definition found (no : Z) (s : bcache) (i : nat) (s' : bcache) : Prop :=
  exists x, bufs s !! i = Some x /\ bc_lock s' = false /\ bdisk s' = bdisk s /\
    bnext s' = bnext s /\ bprev s' = bprev s /\ disksize s' = disksize s /\
    (bdev x = 1 /\ blockno x = no /\
     bufs s' = <[i := set_refcnt (u32 (refcnt x + 1)) x]> (bufs s) \/
     refcnt x = 0 /\ dirty x = false /\
     (forall j y, bufs s !! j = Some y -> bdev y = 1 -> blockno y <> no) /\
     bufs s' = <[i := mk_buf 0 1 no (block_lock x) 1 (bdata x)]> (bufs s)).

Lemma bget_find_spec no s :
  bc_ok s ->
  match bget_find 1 no s with
  | Ret s' i => found no s i s'
  | Panic e => e = "bget: no buffers"
  | Wait _ _ => False
  end.
Proof.
  intros Hok. unfold bget_find.
  assert (Ha : acquire s = Ret (set_lock true s) tt) by (apply acquire_free; apply Hok).
  rewrite (bind_ret _ _ _ _ _ Ha).
  unfold get, mbind, M_bind at 1. cbn [bnext bprev set_lock bcache_lock].
  change (is_block 1 no (mk_bcache true _ _ _ _ _)) with (is_block 1 no s).
  change (is_unused (mk_bcache true _ _ _ _ _)) with (is_unused s).
  destruct (scan (S nbuf) (bnext s) (is_block 1 no s) (bnext s HEAD)) as [i|] eqn:E.
  - apply scan_found in E. unfold is_block in E. destruct (bufs s !! i) as [x|] eqn:Hi; [|done].
    to_prop. cbn. exists x. split_and!; try done. left. split_and!; try done.
    exact (alter_insert (fun b => set_refcnt (u32 (refcnt b + 1)) b) i (bufs s) x Hi).
  - destruct (scan (S nbuf) (bprev s) (is_unused s) (bprev s HEAD)) as [i|] eqn:E2; [|done].
    apply scan_found in E2. unfold is_unused in E2. destruct (bufs s !! i) as [x|] eqn:Hi; [|done].
    to_prop. cbn. exists x. split_and!; try done. right. split_and!; [done | | |].
    + unfold dirty. by rewrite H0.
    + intros j y Hj Hd Hb. pose proof (scan_missing s _ Hok E j y Hj) as Hm. unfold is_block in Hm.
      rewrite Hj, Hd, Hb, !Z.eqb_refl in Hm. done.
    + apply (alter_insert (fun b => mk_buf 0 1 no (block_lock b) 1 (bdata b))). done.
Qed.

(** Finding a buffer keeps the invariant and what the cache shows. *)
Lemma found_ok no s i s' :
  bc_ok s -> Forall (fun x => refcnt x < 2 ^ 32 - 1) (bufs s) -> found no s i s' ->
  bc_ok s' /\ (forall b, abs_view s' b = abs_view s b) /\
  exists x, bufs s' !! i = Some x /\ bdev x = 1 /\ blockno x = no /\ refcnt x <> 0.
Proof.
  intros Hok Hrc (x & Hi & Hl & Hd & Hn & Hp & _ & Hcase).
  assert (Hlen : (i < length (bufs s))%nat) by by eapply lookup_lt_Some.
  pose proof (ok_bufs _ Hok) as Hb. rewrite Forall_lookup in Hb.
  destruct (Hb i x Hi) as (Hf & Hdev & Hu & Hsl & Href & Hcoh).
  rewrite Forall_lookup in Hrc. specialize (Hrc i x Hi). cbn in Hrc.
  destruct Hcase as [(Hx1 & Hx2 & Hbufs)|(Hx1 & Hx2 & Hnone & Hbufs)].
  - assert (Hr : u32 (refcnt x + 1) = refcnt x + 1) by (apply u32_small; unfold is_u32 in *; lia).
    assert (Hok' : bc_ok s').
    { eapply bc_ok_update; [exact Hok | exact Hi | done | exact Hbufs | done | | | auto].
      - rewrite Hn, Hp. apply Hok.
      - rewrite Hr. unfold buf_ok, is_u32 in *. cbn. split_and!; try done; lia. }
    split; [done|]. split.
    + eapply abs_view_update; [apply Hok | apply Hok' | exact Hi | exact Hbufs | done | |].
      * intros b Hc. exact (eq_sym (abs_view_cached s i x b (ok_unique _ Hok) Hi Hc)).
      * intros b Hc Hnc. by destruct Hnc.
    + eexists. rewrite Hbufs, list_lookup_insert_eq by done. split; [done|]. cbn. rewrite Hr.
      unfold is_u32 in Hu. split_and!; [done | done | lia].
  - assert (Hok' : bc_ok s').
    { eapply bc_ok_update; [exact Hok | exact Hi | done | exact Hbufs | done | | | auto].
      - rewrite Hn, Hp. apply Hok.
      - unfold buf_ok, is_u32, valid, dirty. cbn. split_and!; (done || lia || auto). }
    split; [done|]. split.
    + eapply abs_view_update; [apply Hok | apply Hok' | exact Hi | exact Hbufs | done | |].
      * intros b (_ & _ & Hc). done.
      * intros b (_ & <- & Hc) _. apply Hcoh; [by apply Href | done | done].
    + eexists. rewrite Hbufs, list_lookup_insert_eq by done. done.
Qed.

(** A change of one buffer that concerns neither its identity nor its data. *)
Lemma touch_ok s s' i x x' :
  bc_ok s -> bufs s !! i = Some x -> bufs s' = <[i := x']> (bufs s) ->
  bc_lock s' = false -> bdisk s' = bdisk s ->
  (exists l, seg (bnext s') (bprev s') HEAD l HEAD /\ l ≡ₚ seq 0 nbuf) ->
  bdev x' = bdev x -> blockno x' = blockno x -> valid x' = valid x -> bdata x' = bdata x ->
  buf_ok (bdisk s) x' ->
  bc_ok s' /\ (forall b, abs_view s' b = abs_view s b).
Proof.
  intros Hok Hi Hb Hl Hd Hk H1 H2 H3 H4 Hx'.
  assert (Hok' : bc_ok s').
  { eapply bc_ok_update; [exact Hok | exact Hi | done..|]. intros H. left. by rewrite <- H1. }
  split; [done|]. eapply abs_view_update; [apply Hok | apply Hok' | exact Hi | exact Hb | done | |].
  - intros b (Ha & Hb' & Hc). rewrite H4. symmetry.
    apply (abs_view_cached s i x b (ok_unique _ Hok) Hi). by rewrite H1, H2, H3 in *.
  - intros b (Ha & Hb' & Hc) Hn. destruct Hn. by rewrite <- H1, <- H2, <- H3 in *.
Qed.

(** What acquiresleep does to the lock of a buffer. *)
Lemma lock_buf_spec mypid i s x :
  bc_ok s -> bufs s !! i = Some x -> refcnt x <> 0 ->
  match on_lock i (acquiresleep (Z.of_nat i) mypid) s with
  | Ret s' _ =>
      bc_ok s' /\ (forall b, abs_view s' b = abs_view s b) /\ bdisk s' = bdisk s /\ disksize s' = disksize s /\
      sl_holder (block_lock x) = None /\
      exists l, bufs s' !! i = Some (set_blk_lock l x) /\ sl_holder l = Some mypid /\ sl_lk l = false
  | Wait c s' =>
      c = On (Z.of_nat i) /\ bc_ok s' /\ (forall b, abs_view s' b = abs_view s b) /\ bdisk s' = bdisk s
  | Panic _ => False
  end.
Proof.
  intros Hok Hi Hrc. pose proof (ok_bufs _ Hok) as Hb. rewrite Forall_lookup in Hb.
  destruct (Hb i x Hi) as (Hf & Hdev & Hu & Hsl & Href & Hcoh).
  assert (Hlen : (i < length (bufs s))%nat) by by eapply lookup_lt_Some.
  unfold on_lock. rewrite Hi, acquiresleep_eq by done. unfold sl_holder in *.
  destruct (sl_locked (block_lock x) =? 0) eqn:E.
  - set (l := mk_sleeplock false 1 mypid (sl_wakeups (block_lock x))).
    destruct (touch_ok s (on_buf i (set_blk_lock l) s) i x (set_blk_lock l x)) as [H1 H2]; try done.
    + by apply bufs_on_buf.
    + apply Hok.
    + apply Hok.
    + split_and!; try done. exists l. split; [|done].
      rewrite (bufs_on_buf i _ s x Hi). by rewrite list_lookup_insert_eq.
  - destruct (touch_ok s (on_buf i (set_blk_lock (block_lock x)) s) i x (set_blk_lock (block_lock x) x))
      as [H1 H2]; try done.
    + by apply bufs_on_buf.
    + apply Hok.
    + apply Hok.
    + unfold buf_ok. cbn. unfold sl_holder. rewrite E. split_and!; try done; intros; congruence.
Qed.

(** Reading the content of a buffer that is locked and not valid. *)
Lemma iderw_read_spec mypid i s x :
  bc_ok s -> bufs s !! i = Some x -> sl_holder (block_lock x) = Some mypid ->
  valid x = false -> bdev x = 1 -> refcnt x <> 0 ->
  match iderw mypid i s with
  | Ret s' _ =>
      bc_ok s' /\ (forall b, abs_view s' b = abs_view s b) /\ bdisk s' = bdisk s /\
      exists x', bufs s' !! i = Some x' /\ valid x' = true /\ bdev x' = 1 /\ blockno x' = blockno x /\
        sl_holder (block_lock x') = Some mypid /\ bdata x' = abs_view s (blockno x)
  | Panic e => e = "iderw: block out of range"
  | Wait _ _ => False
  end.
Proof.
  intros Hok Hi Hh Hv Hd Hrc. pose proof (ok_bufs _ Hok) as Hb. rewrite Forall_lookup in Hb.
  destruct (Hb i x Hi) as (Hf & Hdev & Hu & Hsl & Href & Hcoh).
  assert (Hlen : (i < length (bufs s))%nat) by by eapply lookup_lt_Some.
  assert (Hfl : flags x = 0) by (unfold valid in Hv; destruct Hf as [?|[E|E]]; [done | rewrite E in Hv; done..]).
  assert (Hview : abs_view s (blockno x) = bdisk s (blockno x)).
  { apply abs_view_uncached. intros j y Hj (Hy1 & Hy2 & Hy3).
    assert (j = i) as -> by (eapply (ok_unique _ Hok); eauto). congruence. }
  unfold iderw. rewrite Hi, holdingsleep_eq, bool_decide_eq_true_2, Hfl, Hd by done.
  change (Z.land 0 (Z.lor B_VALID B_DIRTY) =? B_VALID) with false.
  change (negb (1 =? 1)) with false. change (negb (Z.land 0 B_DIRTY =? 0)) with false. cbn iota.
  destruct (Z.leb_spec (disksize s) (blockno x)); [done|].
  set (x' := set_flags (Z.lor (flags x) B_VALID) (set_bdata (bdisk s (blockno x)) x)).
  set (s' := on_buf i _ s). assert (Hbufs : bufs s' = <[i := x']> (bufs s)) by exact (bufs_on_buf i _ s x Hi).
  assert (Hfl' : flags x' = 2) by (unfold x'; cbn; by rewrite Hfl).
  assert (Hok' : bc_ok s').
  { eapply (bc_ok_update s s' i x x'); try done; [apply Hok | apply Hok | |].
    - unfold buf_ok, valid, dirty. rewrite Hfl'. split_and!; try done; [auto | by right].
    - intros _. by left. }
  split; [done|]. split; [|split; [done|]].
  - eapply (abs_view_update s s' i x x'); try done; [apply Hok | apply Hok' | |].
    + intros b (_ & <- & _). exact (eq_sym Hview).
    + intros b (_ & _ & Hc). congruence.
  - exists x'. rewrite Hbufs, list_lookup_insert_eq by done. rewrite Hview. split_and!; try done.
    unfold valid. by rewrite Hfl'.
Qed.

Lemma bread_ok (mypid no : Z) (s : bcache) :
  bc_ok s -> Forall (fun x => refcnt x < 2 ^ 32 - 1) (bufs s) ->
  match bread mypid 1 no s with
  | Ret s' i =>
      bc_ok s' /\ (forall b, abs_view s' b = abs_view s b) /\ bdisk s' = bdisk s /\
      exists x, bufs s' !! i = Some x /\ caches x no /\
        sl_holder (block_lock x) = Some mypid /\ bdata x = abs_view s no
  | Wait (On _) s' => bc_ok s' /\ (forall b, abs_view s' b = abs_view s b) /\ bdisk s' = bdisk s
  | Wait Spin _ => False
  | Panic e => e = "bget: no buffers" \/ e = "iderw: block out of range"
  end.
Proof.
  intros Hok Hrc. unfold bread, bget. pose proof (bget_find_spec no s Hok) as Hf.
  unfold mbind, M_bind at 1. unfold M_bind at 1.
  destruct (bget_find 1 no s) as [s1 i|e|c s1]; [|by left|done].
  assert (Hd1 : bdisk s1 = bdisk s) by by destruct Hf as (x & _ & _ & ? & _).
  destruct (found_ok no s i s1 Hok Hrc Hf) as (Hok1 & Hv1 & x & Hi & Hx1 & Hx2 & Hx3).
  pose proof (lock_buf_spec mypid i s1 x Hok1 Hi Hx3) as Hl. unfold M_bind at 1.
  destruct (on_lock i (acquiresleep (Z.of_nat i) mypid) s1) as [s2 u|e|c s2]; [|done|].
  2:{ destruct Hl as (-> & Hok2 & Hv2 & Hd2). split; [done|]. split; [|congruence].
      intros b. by rewrite Hv2, Hv1. }
  destruct Hl as (Hok2 & Hv2 & Hd2 & _ & _ & l & Hi2 & Hh2 & Hlk2).
  unfold mret, M_ret, get, M_bind at 1. rewrite Hi2. cbn [flags set_blk_lock].
  destruct (Z.land (flags x) B_VALID =? 0) eqn:Hval.
  - pose proof (iderw_read_spec mypid i s2 (set_blk_lock l x) Hok2 Hi2 Hh2) as Hr.
    unfold M_bind. unfold valid in Hr. cbn [flags set_blk_lock] in Hr. rewrite Hval in Hr.
    specialize (Hr eq_refl Hx1 Hx3). destruct (iderw mypid i s2) as [s3 u'|e|c s3]; [|by right|done].
    destruct Hr as (Hok3 & Hv3 & Hd3 & y & Hy1 & Hy2 & Hy3 & Hy4 & Hy5 & Hy6).
    split; [done|]. split; [intros b; by rewrite Hv3, Hv2, Hv1|]. split; [congruence|].
    exists y. split; [done|]. cbn in Hy4, Hy6. split; [unfold caches; split_and!; [done | congruence | exact Hy2]|].
    split; [done|]. by rewrite Hy6, Hv2, Hv1, Hx2.
  - split; [done|]. split; [intros b; by rewrite Hv2, Hv1|]. split; [congruence|].
    exists (set_blk_lock l x). split; [done|].
    assert (Hc : caches (set_blk_lock l x) no) by (unfold caches; split_and!; [done | done |]; unfold valid; cbn; by rewrite Hval).
    split; [done|]. split; [done|]. rewrite <- Hv1, <- Hv2. symmetry.
    by apply (abs_view_cached s2 i _ no (ok_unique _ Hok2) Hi2).
Qed.

(** Bread implements the read of the block interface.  It
    returns a buffer that the caller has locked and that holds what the cache
    shows for the block, and neither what the cache shows of any block nor the
    disk changes, whether the block was cached, was read from the disk, or
    another block had to be evicted.  If the buffer is locked by another
    process the caller sleeps on it. *)
Theorem bread_spec (mypid no : Z) (s : bcache) :
  bc_ok s -> Forall (fun x => refcnt x < 2 ^ 32 - 1) (bufs s) ->
  match bread mypid 1 no s with
  | Ret s' i =>
      bc_ok s' /\ (forall b, abs_view s' b = abs_view s b) /\ bdisk s' = bdisk s /\
      exists x, bufs s' !! i = Some x /\ caches x no /\
        sl_holder (block_lock x) = Some mypid /\ bdata x = abs_view s no
  | Wait (On _) s' => bc_ok s' /\ (forall b, abs_view s' b = abs_view s b) /\ bdisk s' = bdisk s
  | Wait Spin _ => False
  | Panic e => e = "bget: no buffers" \/ e = "iderw: block out of range"
  end.
Proof. apply bread_ok. Qed.

(** holdingsleep through the cache changes nothing. *)
Lemma holding_buf mypid i s x :
  bc_ok s -> bufs s !! i = Some x -> sl_holder (block_lock x) = Some mypid ->
  on_lock i (holdingsleep mypid) s = Ret s true.
Proof.
  intros Hok Hi Hh. pose proof (ok_bufs _ Hok) as Hb. rewrite Forall_lookup in Hb.
  destruct (Hb i x Hi) as (_ & _ & _ & Hsl & _). unfold on_lock.
  rewrite Hi, holdingsleep_eq, bool_decide_eq_true_2 by done. f_equal.
  unfold on_buf. rewrite (alter_insert _ i (bufs s) x Hi), list_insert_id; [by destruct s|].
  rewrite Hi. by destruct x.
Qed.

(** The write of a locked buffer by the driver. *)
Lemma iderw_write_spec mypid i s x :
  bc_ok s -> bufs s !! i = Some x -> sl_holder (block_lock x) = Some mypid -> caches x (blockno x) ->
  blockno x < disksize s -> flags x = 6 ->
  exists s' x', iderw mypid i s = Ret s' tt /\ bc_ok s' /\
    (forall b, abs_view s' b = abs_view s b) /\
    bdisk s' = setb (bdisk s) (blockno x) (bdata x) /\
    bufs s' = <[i := x']> (bufs s) /\ flags x' = 2 /\ bdata x' = bdata x /\ blockno x' = blockno x /\
    bdev x' = bdev x /\ block_lock x' = block_lock x /\ refcnt x' = refcnt x.
Proof.
  intros Hok Hi Hh (Hd & _ & Hv) Hlt Hfl. pose proof (ok_bufs _ Hok) as Hb.
  assert (Hb' := Hb). rewrite Forall_lookup in Hb'.
  destruct (Hb' i x Hi) as (Hf & Hdev & Hu & Hsl & Href & Hcoh).
  assert (Hlen : (i < length (bufs s))%nat) by by eapply lookup_lt_Some.
  unfold iderw. rewrite Hi, holdingsleep_eq, bool_decide_eq_true_2, Hfl, Hd by done.
  change (Z.land 6 (Z.lor B_VALID B_DIRTY) =? B_VALID) with false.
  change (negb (1 =? 1)) with false. change (negb (Z.land 6 B_DIRTY =? 0)) with true. cbn iota.
  destruct (Z.leb_spec (disksize s) (blockno x)); [lia|].
  set (d' := setb (bdisk s) (blockno x) (bdata x)).
  set (x' := set_flags (Z.lor (Z.land (flags x) (Z.lnot B_DIRTY)) B_VALID) x).
  set (s' := on_buf i _ _). exists s', x'.
  assert (Hbufs : bufs s' = <[i := x']> (bufs s)) by exact (bufs_on_buf i _ (set_bdisk d' s) x Hi).
  assert (Hfl' : flags x' = 2) by (unfold x'; cbn; by rewrite Hfl).
  assert (Hx' : buf_ok d' x').
  { unfold buf_ok, valid, dirty. rewrite Hfl'. split_and!; try done; [auto | by right |].
    intros _ _ _. unfold d'. cbn. by rewrite setb_eq. }
  assert (Hok' : bc_ok s').
  { destruct Hok as [H1 H2 H3 H4 H5]. split; [done | by rewrite Hbufs, length_insert | done | |].
    - rewrite Hbufs. eapply unique_insert; [done | exact Hi |]. intros _. by left.
    - rewrite Hbufs. change (bdisk s') with d'. apply Forall_lookup. intros j y Hj.
      destruct (lookup_insert_cases _ _ _ _ _ Hj) as [[-> ->]|[Hne Hj']]; [done|].
      destruct (Hb' j y Hj') as (A1 & A2 & A3 & A4 & A5 & A6). split_and!; try done.
      intros Ha Hb2 Hc. rewrite A6 by done. unfold d'. rewrite setb_ne; [done|]. intros E.
      apply Hne. destruct A2 as [[_ Hz]|A2]; [unfold valid in Hb2; by rewrite Hz in Hb2|].
      by eapply H4. }
  split_and!; try done. intros b. destruct (decide (b = blockno x)) as [->|Hne].
  - rewrite (abs_view_cached s i x _ (ok_unique _ Hok) Hi) by done.
    apply (abs_view_cached s' i x' _ (ok_unique _ Hok')).
    + by rewrite Hbufs, list_lookup_insert_eq.
    + split; [done|]. split; [done|]. unfold valid. by rewrite Hfl'.
  - destruct (list_find (fun y => caches y b) (bufs s)) as [[j y]|] eqn:E.
    + apply list_find_Some in E as (Hj & Hcy & _). assert (Hji : j <> i).
      { intros ->. simplify_eq. destruct Hcy as (_ & <- & _). done. }
      rewrite (abs_view_cached s j y b (ok_unique _ Hok) Hj Hcy).
      apply (abs_view_cached s' j y b (ok_unique _ Hok')); [|done]. by rewrite Hbufs, list_lookup_insert_ne.
    + apply list_find_None in E. rewrite Forall_lookup in E.
      rewrite (abs_view_uncached s b E), (abs_view_uncached s' b).
      * change (bdisk s') with d'. unfold d'. by apply setb_ne.
      * intros j y Hj. rewrite Hbufs in Hj.
        destruct (lookup_insert_cases _ _ _ _ _ Hj) as [[-> ->]|[_ Hj']]; [|by apply (E j)].
        intros (_ & Hbn & _). by destruct Hne.
Qed.

(** Bwrite implements the write of the block interface: the
    disk holds the data of the buffer, nothing else changes on it, and what
    the cache shows stays the same. *)
Theorem bwrite_spec (mypid : Z) (i : nat) (s : bcache) (x : buf) :
  bc_ok s -> bufs s !! i = Some x -> sl_holder (block_lock x) = Some mypid ->
  caches x (blockno x) -> blockno x < disksize s ->
  exists s' x', bwrite mypid i s = Ret s' tt /\ bc_ok s' /\
    (forall b, abs_view s' b = abs_view s b) /\
    bdisk s' = setb (bdisk s) (blockno x) (bdata x) /\
    bufs s' !! i = Some x' /\ bdata x' = bdata x /\ caches x' (blockno x) /\ dirty x' = false /\
    sl_holder (block_lock x') = Some mypid.
Proof.
  intros Hok Hi Hh Hc Hlt. assert (Hlen : (i < length (bufs s))%nat) by by eapply lookup_lt_Some.
  unfold bwrite. rewrite (bind_ret _ _ _ _ _ (holding_buf mypid i s x Hok Hi Hh)). cbn [negb].
  unfold modify, mbind, M_bind. pose proof (ok_bufs _ Hok) as Hb. rewrite Forall_lookup in Hb.
  destruct (Hb i x Hi) as (Hf & Hdev & Hu & Hsl & Href & Hcoh). destruct Hc as (Hc1 & Hc2 & Hc3).
  set (s2 := on_buf i _ s). set (x2 := set_flags (Z.lor (flags x) B_DIRTY) x).
  assert (Hfl2 : flags x2 = 6).
  { unfold x2. cbn. unfold valid in Hc3. destruct Hf as [E|[E|E]]; rewrite E in *; done. }
  assert (Hb2 : bufs s2 = <[i := x2]> (bufs s)) by exact (bufs_on_buf i _ s x Hi).
  destruct (touch_ok s s2 i x x2 Hok Hi Hb2) as [Hok2 Hv2]; try done.
  { apply Hok. }
  { apply Hok. }
  { unfold valid. rewrite Hfl2. by unfold valid in Hc3; rewrite Hc3. }
  { unfold buf_ok, valid, dirty. rewrite Hfl2. split_and!; try done; auto. }
  destruct (iderw_write_spec mypid i s2 x2 Hok2) as (s3 & x3 & H3 & Hok3 & Hv3 & Hd3 & Hb3 & F1 & F2 & F3 & F4 & F5 & F6);
    [by rewrite Hb2, list_lookup_insert_eq | done | | cbn; lia | done |].
  { split; [done|]. split; [done|]. unfold valid. by rewrite Hfl2. }
  exists s3, x3. split_and!; try done.
  - intros b. by rewrite Hv3, Hv2.
  - rewrite Hb3, list_lookup_insert_eq; [done|]. by rewrite Hb2, length_insert.
  - split; [rewrite F4; exact Hc1|]. split; [done|]. unfold valid. by rewrite F1.
  - unfold dirty. by rewrite F1.
  - by rewrite F5.
Qed.

(** An assignment to the data of a locked buffer is the
    assignment of the block interface. *)
Theorem bset_spec (mypid : Z) (i : nat) (s : bcache) (x : buf) (v : block) :
  bc_ok s -> bufs s !! i = Some x -> sl_holder (block_lock x) = Some mypid -> caches x (blockno x) ->
  let s' := on_buf i (set_bdata v) s in
  bc_ok s' /\ bdisk s' = bdisk s /\ forall b, abs_view s' b = setb (abs_view s) (blockno x) v b.
Proof.
  intros Hok Hi Hh Hc s'. assert (Hlen : (i < length (bufs s))%nat) by by eapply lookup_lt_Some.
  pose proof (ok_bufs _ Hok) as Hb. rewrite Forall_lookup in Hb.
  destruct (Hb i x Hi) as (Hf & Hdev & Hu & Hsl & Href & Hcoh).
  assert (Hbufs : bufs s' = <[i := set_bdata v x]> (bufs s)) by exact (bufs_on_buf i _ s x Hi).
  assert (Hok' : bc_ok s').
  { eapply (bc_ok_update s s' i x (set_bdata v x)); try done; [apply Hok | apply Hok | |].
    - unfold buf_ok. cbn. split_and!; try done. intros H. congruence.
    - intros _. left. by destruct Hc. }
  split; [done|]. split; [done|]. intros b. unfold setb. destruct (Z.eqb_spec b (blockno x)) as [->|Hne].
  - apply (abs_view_cached s' i (set_bdata v x) _ (ok_unique _ Hok')); [|done].
    by rewrite Hbufs, list_lookup_insert_eq.
  - destruct (list_find (fun y => caches y b) (bufs s)) as [[j y]|] eqn:E.
    + apply list_find_Some in E as (Hj & Hcy & _).
      assert (Hji : j <> i) by (intros ->; simplify_eq; destruct Hcy as (_ & <- & _); done).
      rewrite (abs_view_cached s j y b (ok_unique _ Hok) Hj Hcy).
      apply (abs_view_cached s' j y b (ok_unique _ Hok')); [|done]. by rewrite Hbufs, list_lookup_insert_ne.
    + apply list_find_None in E. rewrite Forall_lookup in E.
      rewrite (abs_view_uncached s b E), (abs_view_uncached s' b); [done|].
      intros j y Hj. rewrite Hbufs in Hj.
      destruct (lookup_insert_cases _ _ _ _ _ Hj) as [[-> ->]|[_ Hj']]; [|by apply (E j)].
      intros (_ & Hbn & _). by destruct Hne.
Qed.

(** The links after brelse of a buffer. *)
Lemma move_links nx pv i :
  (i < nbuf)%nat -> (exists l, seg nx pv HEAD l HEAD /\ l ≡ₚ seq 0 nbuf) ->
  let '(nx1, pv1) := unlink i nx pv in
  let '(nx2, pv2) := push_front i nx1 pv1 in
  exists l, seg nx2 pv2 HEAD l HEAD /\ l ≡ₚ seq 0 nbuf.
Proof.
  intros Hi (l & Hs & Hp). destruct (links_head l Hp) as (Hh & Hl & Hn).
  assert (Hin : i ∈ l) by (rewrite Hp, list_elem_of_In, in_seq; lia).
  apply list_elem_of_split in Hin as (l1 & l2 & ->).
  pose proof (seg_move nx pv l1 i l2 Hs Hn Hh) as H.
  destruct (unlink i nx pv) as [nx1 pv1]. destruct (push_front i nx1 pv1) as [nx2 pv2].
  exists (i :: l1 ++ l2). split; [done|]. by rewrite <- Hp, Permutation_middle.
Qed.

(** The state that brelse leaves. *)
Definition released (x : buf) : buf :=
  set_refcnt (u32 (refcnt x - 1)) (set_blk_lock (mk_sleeplock false 0 0 (S (sl_wakeups (block_lock x)))) x).

Definition to_front (i : nat) (x : buf) (s : bcache) : bcache :=
  if refcnt x =? 0 then
    let '(nx, pv) := unlink i (bnext s) (bprev s) in
    let '(nx, pv) := push_front i nx pv in set_links nx pv s
  else s.

Lemma brelse_eq mypid i s x :
  bc_ok s -> bufs s !! i = Some x -> sl_holder (block_lock x) = Some mypid ->
  brelse mypid i s = Ret (to_front i (released x) (set_bufs (<[i := released x]> (bufs s)) s)) tt.
Proof.
  intros Hok Hi Hh. assert (Hlen : (i < length (bufs s))%nat) by by eapply lookup_lt_Some.
  unfold brelse. rewrite (bind_ret _ _ _ _ _ (holding_buf mypid i s x Hok Hi Hh)). cbn [negb].
  pose proof (ok_bufs _ Hok) as Hb. rewrite Forall_lookup in Hb.
  destruct (Hb i x Hi) as (_ & _ & _ & Hsl & _).
  set (l' := mk_sleeplock false 0 0 (S (sl_wakeups (block_lock x)))).
  set (s2 := set_bufs (<[i := set_blk_lock l' x]> (bufs s)) s).
  assert (H2 : on_lock i releasesleep s = Ret s2 tt).
  { unfold on_lock, on_buf. by rewrite Hi, releasesleep_eq, (alter_insert _ i (bufs s) x Hi). }
  rewrite (bind_ret _ _ _ _ _ H2).
  assert (H3 : acquire s2 = Ret (set_lock true s2) tt) by (apply acquire_free; apply Hok).
  rewrite (bind_ret _ _ _ _ _ H3). unfold modify, mbind, M_bind.
  assert (Hi2 : bufs (set_lock true s2) !! i = Some (set_blk_lock l' x)) by by apply list_lookup_insert_eq.
  set (s3 := set_bufs (<[i := released x]> (bufs s)) (set_lock true s)).
  assert (E3 : on_buf i (fun b => set_refcnt (u32 (refcnt b - 1)) b) (set_lock true s2) = s3).
  { unfold on_buf. rewrite (alter_insert _ i _ _ Hi2). unfold s3, s2, set_bufs. cbn.
    by rewrite list_insert_insert_eq. }
  rewrite E3. assert (Hi3 : bufs s3 !! i = Some (released x)) by by apply list_lookup_insert_eq.
  rewrite Hi3. fold (to_front i (released x) s3).
  assert (Hl : get_lock (to_front i (released x) s3) = true).
  { unfold to_front. case_if; [|done]. by destruct (unlink _ _ _), (push_front _ _ _). }
  rewrite (release_held _ Hl). f_equal. unfold to_front. case_if.
  - cbn [bnext bprev set_bufs s3 set_lock bcache_lock]. destruct (unlink i (bnext s) (bprev s)) as [nx pv].
    destruct (push_front i nx pv) as [nx' pv']. destruct Hok as [Hl' _ _ _ _]. unfold set_links. cbn. by rewrite Hl'.
  - destruct Hok as [Hl' _ _ _ _]. unfold s3, set_bufs. cbn. by rewrite Hl'.
Qed.

(** Brelse of a buffer whose data is on the disk, or is
    marked dirty for the log, unlocks it and changes neither what the cache
    shows nor the disk; an unused buffer moves to the front of the list,
    which keeps all its buffers. *)
Theorem brelse_spec (mypid : Z) (i : nat) (s : bcache) (x : buf) :
  bc_ok s -> bufs s !! i = Some x -> sl_holder (block_lock x) = Some mypid ->
  (valid x = true -> dirty x = false -> bdata x = bdisk s (blockno x)) ->
  exists s' x', brelse mypid i s = Ret s' tt /\ bc_ok s' /\
    (forall b, abs_view s' b = abs_view s b) /\ bdisk s' = bdisk s /\
    bufs s' !! i = Some x' /\ refcnt x' = refcnt x - 1 /\ sl_holder (block_lock x') = None /\
    (refcnt x = 1 -> bnext s' HEAD = i).
Proof.
  intros Hok Hi Hh Hcl. assert (Hlen : (i < length (bufs s))%nat) by by eapply lookup_lt_Some.
  rewrite (brelse_eq mypid i s x) by done. set (s' := to_front i _ _).
  pose proof (ok_bufs _ Hok) as Hb. rewrite Forall_lookup in Hb.
  destruct (Hb i x Hi) as (Hf & Hdev & Hu & Hsl & Href & Hcoh).
  assert (Hrc : refcnt x <> 0) by (intros E; apply Href in E; congruence).
  assert (Hr : refcnt (released x) = refcnt x - 1) by (apply u32_small; unfold is_u32 in *; lia).
  pose proof (move_links (bnext s) (bprev s) i ltac:(rewrite <- (ok_len _ Hok); done) (ok_links _ Hok)) as Hmv.
  assert (Hs' : bufs s' = <[i := released x]> (bufs s) /\ bc_lock s' = false /\ bdisk s' = bdisk s /\
    (exists l, seg (bnext s') (bprev s') HEAD l HEAD /\ l ≡ₚ seq 0 nbuf) /\
    (refcnt x = 1 -> bnext s' HEAD = i)).
  { unfold s', to_front. rewrite Hr. cbn [bnext bprev set_bufs].
    destruct (unlink i (bnext s) (bprev s)) as [nx pv].
    destruct (push_front i nx pv) as [nx' pv'] eqn:E.
    destruct (Z.eqb_spec (refcnt x - 1) 0) as [E1|E1].
    - split_and!; try done; [apply Hok|]. intros _. unfold push_front in E. simplify_eq. cbn. apply nupd_eq.
    - split_and!; try done; [apply Hok | apply Hok | lia]. }
  destruct Hs' as (Hb' & Hl' & Hd' & Hk' & Hfirst).
  destruct (touch_ok s s' i x (released x) Hok Hi Hb' Hl' Hd' Hk') as [Hok' Hv']; try done.
  { unfold buf_ok. rewrite Hr. unfold is_u32 in *. split_and!; try done; lia. }
  exists s', (released x). split_and!; try done. by rewrite Hb', list_lookup_insert_eq.
Qed.

Lemma binit_loop_spec n b nx pv l :
  seg nx pv HEAD l HEAD -> l ≡ₚ seq 0 b -> (b + n = nbuf)%nat ->
  let '(nx', pv') := binit_loop n b nx pv in
  exists l', seg nx' pv' HEAD l' HEAD /\ l' ≡ₚ seq 0 nbuf.
Proof.
  revert b nx pv l. induction n as [|n IH]; intros b nx pv l Hs Hp Hn; cbn [binit_loop].
  { exists l. split; [done|]. by replace nbuf with b by lia. }
  pose proof (seg_push nx pv l b Hs) as H. destruct (push_front b nx pv) as [nx1 pv1].
  apply (IH (S b) nx1 pv1 (b :: l)); [|by rewrite Hp, seq_S, Permutation_app_comm | lia].
  assert (Hlt : forall x, x ∈ l -> (x < b)%nat) by (intros x; rewrite Hp, list_elem_of_In, in_seq; lia).
  apply H; unfold HEAD in *.
  - rewrite Hp. apply NoDup_seq.
  - intros Hx. apply Hlt in Hx. lia.
  - intros Hx. apply Hlt in Hx. lia.
  - lia.
Qed.

#[local] Opaque binit_loop.

Lemma binit_bufs d dsize i x :
  bufs (binit d dsize) !! i = Some x -> x = mk_buf 0 0 0 initsleeplock 0 (fun _ => 0).
Proof.
  unfold binit. destruct (binit_loop nbuf 0 _ _) as [nx pv]. cbn [bufs]. intros H.
  by apply lookup_replicate in H as [-> _].
Qed.

Lemma binit_ok d dsize : bc_ok (binit d dsize).
Proof.
  assert (Hb : forall i x, replicate nbuf (mk_buf 0 0 0 initsleeplock 0 (fun _ => 0)) !! i = Some x ->
    x = mk_buf 0 0 0 initsleeplock 0 (fun _ => 0)) by (intros i x Hx; by apply lookup_replicate in Hx as [-> _]).
  unfold binit.
  pose proof (binit_loop_spec nbuf 0 (nupd (fun _ => O) HEAD HEAD) (nupd (fun _ => O) HEAD HEAD) []) as H.
  destruct (binit_loop nbuf 0 _ _) as [nx pv].
  split; cbn; [done | done | apply H; [by cbn | done | lia] | |].
  - intros i j x y Hx Hy Hd. apply Hb in Hx. by subst.
  - apply Forall_lookup. intros i x Hx. apply Hb in Hx as ->. unfold buf_ok, valid. cbn.
    split_and!; try done; [by left | by left; split].
Qed.

(** Binit links all the buffers into one list, none of them
    in use, and the cache then shows the disk. *)
Theorem binit_spec (d : Z -> block) (dsize : Z) :
  bc_ok (binit d dsize) /\ bdisk (binit d dsize) = d /\
  (forall b, abs_view (binit d dsize) b = d b) /\
  Forall (fun x => refcnt x = 0 /\ sl_holder (block_lock x) = None) (bufs (binit d dsize)).
Proof.
  assert (Hd : bdisk (binit d dsize) = d) by (unfold binit; by destruct (binit_loop nbuf 0 _ _)).
  split_and!; [apply binit_ok | done | |].
  - intros b. transitivity (bdisk (binit d dsize) b); [|by rewrite Hd]. apply abs_view_uncached.
    intros i x Hx. apply binit_bufs in Hx as ->. by intros (? & _).
  - apply Forall_lookup. intros i x Hx. rewrite (binit_bufs d dsize i x Hx). split; reflexivity.
Qed.

(** ** Witnesses *)

Local Abbreviation sample_cache := (binit (fun b a => b + a) 1000).

Lemma sample_cache_refs : Forall (fun x => refcnt x < 2 ^ 32 - 1) (bufs sample_cache).
Proof. apply Forall_lookup. intros i x Hx. rewrite (binit_bufs _ _ i x Hx). reflexivity. Qed.

Lemma sample_read :
  match bread 3 1 5 sample_cache with Ret s _ => disksize s = 1000 | _ => False end.
Proof.
  assert (H : match bread 3 1 5 sample_cache with Ret s _ => disksize s =? 1000 | _ => false end = true)
    by (vm_compute; reflexivity).
  destruct (bread 3 1 5 sample_cache); [by apply Z.eqb_eq | done | done].
Qed.

Lemma bread_spec_witness :
  exists s' i x, bread 3 1 5 sample_cache = Ret s' i /\ bufs s' !! i = Some x /\ caches x 5.
Proof.
  pose proof (bread_spec 3 5 sample_cache (binit_ok _ _) sample_cache_refs) as H.
  pose proof sample_read as Hret. destruct (bread 3 1 5 sample_cache) as [s' i|e|c s']; [|destruct Hret|destruct Hret].
  destruct H as (_ & _ & _ & x & Hx & Hc & _). by exists s', i, x.
Defined.

(** Process 3 has block 5 in a locked buffer. *)
Lemma sample_locked :
  exists s i x, bc_ok s /\ bufs s !! i = Some x /\ sl_holder (block_lock x) = Some 3 /\
    caches x 5 /\ disksize s = 1000 /\ bdata x = bdisk s 5.
Proof.
  pose proof (bread_ok 3 5 sample_cache (binit_ok _ _) sample_cache_refs) as H.
  assert (Hv : abs_view sample_cache 5 = bdisk sample_cache 5).
  { apply abs_view_uncached. intros i x Hx. rewrite (binit_bufs _ _ i x Hx). intros (H0 & _). discriminate H0. }
  pose proof sample_read as Hret. destruct (bread 3 1 5 sample_cache) as [s' i|e|c s']; [|destruct Hret|destruct Hret].
  destruct H as (Hok & _ & Hd & x & Hx & Hc & Hh & Hdata). exists s', i, x.
  split_and!; try assumption. rewrite Hdata, Hv, Hd. reflexivity.
Qed.

Lemma bwrite_spec_witness :
  exists s i x s', bufs s !! i = Some x /\ caches x 5 /\ bwrite 3 i s = Ret s' tt /\ bdisk s' 5 = bdata x.
Proof.
  destruct sample_locked as (s & i & x & Hok & Hi & Hh & Hc & Hds & _). pose proof Hc as (Hc1 & Hc2 & Hc3).
  destruct (bwrite_spec 3 i s x Hok Hi Hh) as (s' & x' & H1 & _ & _ & H2 & _); [done | rewrite Hc2, Hds; done |].
  exists s, i, x, s'. split_and!; try done. by rewrite H2, Hc2, setb_eq.
Defined.

Lemma bset_spec_witness :
  exists s i, bc_ok s /\ abs_view (on_buf i (set_bdata (fun _ => 9)) s) 5 0 = 9.
Proof.
  destruct sample_locked as (s & i & x & Hok & Hi & Hh & Hc & _). pose proof Hc as (Hc1 & Hc2 & Hc3).
  destruct (bset_spec 3 i s x (fun _ => 9) Hok Hi Hh) as (_ & _ & H); [done|].
  exists s, i. split; [done|]. by rewrite H, Hc2, setb_eq.
Defined.

Lemma brelse_spec_witness :
  exists s i s', bc_ok s /\ brelse 3 i s = Ret s' tt /\ bc_ok s' /\ bdisk s' = bdisk s.
Proof.
  destruct sample_locked as (s & i & x & Hok & Hi & Hh & (_ & Hc & _) & _ & Hd).
  destruct (brelse_spec 3 i s x Hok Hi Hh) as (s' & x' & H1 & H2 & _ & H3 & _); [by rewrite Hc|].
  by exists s, i, s'.
Defined.
