(* ===== verification/Ide.v ===== *)
(** The IDE disk driver (ide.c) and the controller it drives.

    The controller is a machine of its own: the driver writes its task file
    with outb, gives it a command, and the controller finishes the command
    later and raises an interrupt.  The driver keeps the requests in a linked
    queue (idequeue and the qnext fields); the request at the front is the one
    in the controller.  The contract is the synchronous driver of memide.c
    (Bio.v): every request, when it completes, has had exactly its effect. *)

From S2P Require Import Prelude Word Mem Spinlock Block Bio.

Local Open Scope Z_scope.

(** ** The controller *)

Definition IDE_BSY : Z := 0x80.
Definition IDE_DRDY : Z := 0x40.
Definition IDE_DF : Z := 0x20.
Definition IDE_ERR : Z := 0x01.

Definition IDE_CMD_READ : Z := 0x20.
Definition IDE_CMD_WRITE : Z := 0x30.
Definition IDE_CMD_RDMUL : Z := 0xc4.
Definition IDE_CMD_WRMUL : Z := 0xc5.

Inductive job :=
| JIdle
| JReading
| JWaitData                        (* a write command, before its data *)
| JWriting (d : block)
| JRead (d : block)                (* finished, the data not taken yet *)
| JWritten.

Record ctl := mk_ctl {
  regs : Z -> Z;                   (* the last byte written to each port *)
  cjob : job;
  cerr : bool;                     (* the last command failed *)
  irq : bool;                      (* an interrupt that the driver has not taken *)
  disk1 : bool;                    (* disk 1 is there *)
  cdisk : Z -> Z -> block;         (* by drive and sector *)
}.

Definition set_job (j : job) (c : ctl) : ctl := mk_ctl (regs c) j (cerr c) (irq c) (disk1 c) (cdisk c).
Definition set_irq (b : bool) (c : ctl) : ctl := mk_ctl (regs c) (cjob c) (cerr c) b (disk1 c) (cdisk c).

Definition busy (c : ctl) : bool := match cjob c with JReading | JWriting _ => true | _ => false end.

Definition drive (c : ctl) : Z := Z.land (Z.shiftr (regs c 0x1f6) 4) 1.

(** The 28-bit sector number in the task file. *)
Definition lba (c : ctl) : Z :=
  regs c 0x1f3 + Z.shiftl (regs c 0x1f4) 8 + Z.shiftl (regs c 0x1f5) 16 + Z.shiftl (Z.land (regs c 0x1f6) 0x0f) 24.

(** inb(0x1f7): nothing answers for a drive that is not there. *)
Definition status (c : ctl) : Z :=
  if (drive c =? 1) && negb (disk1 c) then 0
  else Z.lor (if busy c then IDE_BSY else IDE_DRDY) (if cerr c then IDE_ERR else 0).

Definition outb_ctl (port v : Z) (c : ctl) : ctl :=
  if port =? 0x1f7 then
    if v =? IDE_CMD_READ then set_job JReading c
    else if v =? IDE_CMD_WRITE then set_job JWaitData c else c
  else mk_ctl (upd (regs c) port v) (cjob c) (cerr c) (irq c) (disk1 c) (cdisk c).

Definition outsl_ctl (d : block) (c : ctl) : ctl :=
  match cjob c with JWaitData => set_job (JWriting d) c | _ => c end.

(** The controller finishes its command. *)
Definition ctl_done (c : ctl) : option ctl :=
  match cjob c with
  | JReading => Some (mk_ctl (regs c) (JRead (cdisk c (drive c) (lba c))) false true (disk1 c) (cdisk c))
  | JWriting d =>
      Some (mk_ctl (regs c) JWritten false true (disk1 c)
              (fun dr => if dr =? drive c then setb (cdisk c dr) (lba c) d else cdisk c dr))
  | _ => None
  end.

(** It finishes with an error. *)
Definition ctl_fail (c : ctl) : ctl := mk_ctl (regs c) JIdle true true (disk1 c) (cdisk c).

(** ** The driver *)

Record ide := mk_ide {
  idelock : bool;
  ibufs : list buf;
  qnext : nat -> option nat;
  idequeue : option nat;
  havedisk1 : bool;
  hw : ctl;
  iwoken : list nat;               (* the buffers passed to wakeup, latest first *)
}.

#[refine, export] Instance ide_lock : HasLock ide := {|
  get_lock := idelock;
  set_lock b s := mk_ide b (ibufs s) (qnext s) (idequeue s) (havedisk1 s) (hw s) (iwoken s);
|}.
Proof. 1-2: done. by intros []. Defined.

Definition set_hw (c : ctl) (s : ide) : ide :=
  mk_ide (idelock s) (ibufs s) (qnext s) (idequeue s) (havedisk1 s) c (iwoken s).
Definition set_ibufs (l : list buf) (s : ide) : ide :=
  mk_ide (idelock s) l (qnext s) (idequeue s) (havedisk1 s) (hw s) (iwoken s).
Definition set_queue (qn : nat -> option nat) (q : option nat) (s : ide) : ide :=
  mk_ide (idelock s) (ibufs s) qn q (havedisk1 s) (hw s) (iwoken s).
Definition wakeup_buf (i : nat) (s : ide) : ide :=
  mk_ide (idelock s) (ibufs s) (qnext s) (idequeue s) (havedisk1 s) (hw s) (i :: iwoken s).

Definition outb (port v : Z) : M ide unit := modify (fun s => set_hw (outb_ctl port v (hw s)) s).
Definition outsl (d : block) : M ide unit := modify (fun s => set_hw (outsl_ctl d (hw s)) s).

(** The data words; what the port gives without a finished read is not
    specified. *)
Definition insl (noise : block) : M ide block := fun s =>
  match cjob (hw s) with
  | JRead d => Ret (set_hw (set_job JIdle (hw s)) s) d
  | _ => Ret s noise
  end.

Definition the_buf (i : nat) : M ide buf := fun s =>
  match ibufs s !! i with Some b => Ret s b | None => Panic "no such buffer" end.

Definition on_ibuf (i : nat) (f : buf -> buf) : M ide unit := modify (fun s => set_ibufs (alter f i (ibufs s)) s).

(** Spins while the controller is busy. *)
Definition idewait (checkerr : bool) : M ide Z := fun s =>
  let r := status (hw s) in
  if negb (Z.land r (Z.lor IDE_BSY IDE_DRDY) =? IDE_DRDY) then Wait Spin s
  else if checkerr && negb (Z.land r (Z.lor IDE_DF IDE_ERR) =? 0) then Ret s (-1)
  else Ret s 0.

(** The probe of ideinit, [n] rounds. *)
Fixpoint probe (n : nat) : M ide bool :=
  match n with
  | O => mret false
  | S n => get ≫= fun s => if negb (status (hw s) =? 0) then mret true else probe n
  end.

Definition ideinit : M ide unit :=
  idewait false ≫= fun _ =>
  outb 0x1f6 (Z.lor 0xe0 (Z.shiftl 1 4)) ≫= fun _ =>
  probe 1000 ≫= fun found =>
  modify (fun s => mk_ide (idelock s) (ibufs s) (qnext s) (idequeue s) (found || havedisk1 s) (hw s) (iwoken s)) ≫= fun _ =>
  outb 0x1f6 (Z.lor 0xe0 (Z.shiftl 0 4)).

Definition SECTOR_SIZE : Z := 512.

Definition idestart (b : option nat) : M ide unit :=
  match b with
  | None => panic "idestart"
  | Some i =>
      the_buf i ≫= fun b =>
      if FSSIZE <=? blockno b then panic "incorrect blockno" else
      let sector_per_block := BSIZE / SECTOR_SIZE in
      let sector := blockno b * sector_per_block in
      let read_cmd := if sector_per_block =? 1 then IDE_CMD_READ else IDE_CMD_RDMUL in
      let write_cmd := if sector_per_block =? 1 then IDE_CMD_WRITE else IDE_CMD_WRMUL in
      if 7 <? sector_per_block then panic "idestart" else
      idewait false ≫= fun _ =>
      outb 0x3f6 0 ≫= fun _ =>
      outb 0x1f2 sector_per_block ≫= fun _ =>
      outb 0x1f3 (Z.land sector 0xff) ≫= fun _ =>
      outb 0x1f4 (Z.land (Z.shiftr sector 8) 0xff) ≫= fun _ =>
      outb 0x1f5 (Z.land (Z.shiftr sector 16) 0xff) ≫= fun _ =>
      outb 0x1f6 (Z.lor (Z.lor 0xe0 (Z.shiftl (Z.land (bdev b) 1) 4)) (Z.land (Z.shiftr sector 24) 0x0f)) ≫= fun _ =>
      if dirty b then outb 0x1f7 write_cmd ≫= fun _ => outsl (bdata b)
      else outb 0x1f7 read_cmd
  end.

(** b->flags |= B_VALID; b->flags &= ~B_DIRTY; *)
Definition finished (b : buf) : buf := set_flags (Z.land (Z.lor (flags b) B_VALID) (Z.lnot B_DIRTY)) b.

(** Read data if needed. *)
Definition take_data (noise : block) (i : nat) (b : buf) : M ide unit :=
  if negb (dirty b) then
    idewait true ≫= fun r =>
    if 0 <=? r then insl noise ≫= fun d => on_ibuf i (set_bdata d) else mret tt
  else mret tt.

Definition ideintr (noise : block) : M ide unit :=
  acquire ≫= fun _ =>
  get ≫= fun s =>
  match idequeue s with
  | None => release
  | Some i =>
      modify (set_queue (qnext s) (qnext s i)) ≫= fun _ =>
      the_buf i ≫= fun b =>
      take_data noise i b ≫= fun _ =>
      on_ibuf i finished ≫= fun _ =>
      modify (wakeup_buf i) ≫= fun _ =>
      get ≫= fun s =>
      (match idequeue s with Some j => idestart (Some j) | None => mret tt end) ≫= fun _ =>
      release
  end.

(** The walk to the end of the queue, from node [p]. *)
Fixpoint queue_end (fuel : nat) (qn : nat -> option nat) (p : nat) : option nat :=
  match fuel with
  | O => None
  | S fuel => match qn p with None => Some p | Some p' => queue_end fuel qn p' end
  end.

Definition qupd (qn : nat -> option nat) (i : nat) (v : option nat) : nat -> option nat :=
  fun j => if (j =? i)%nat then v else qn j.

(** b->qnext = 0 and the append; a queue that does not end is walked
    forever. *)
Definition enqueue (i : nat) : M ide unit := fun s =>
  let qn := qupd (qnext s) i None in
  match idequeue s with
  | None => Ret (set_queue qn (Some i) s) tt
  | Some p =>
      match queue_end (length (ibufs s)) qn p with
      | Some e => Ret (set_queue (qupd qn e (Some i)) (idequeue s) s) tt
      | None => Wait Spin s
      end
  end.

(** The loop at the end of iderw, entered with the lock held. *)
Definition iderw_wait (chan : nat -> Z) (i : nat) : M ide unit :=
  the_buf i ≫= fun b =>
  if negb (Z.land (flags b) (Z.lor B_VALID B_DIRTY) =? B_VALID) then
    release ≫= fun _ => waiton (On (chan i))
  else release.

(** A process woken in that loop. *)
Definition iderw_resume (chan : nat -> Z) (i : nat) : M ide unit := acquire ≫= fun _ => iderw_wait chan i.

Definition holding_lock (mypid : Z) (b : buf) : M ide bool := fun s =>
  match holdingsleep mypid (block_lock b) with
  | Ret _ r => Ret s r
  | Panic e => Panic e
  | Wait c _ => Wait c s
  end.

Definition iderw (chan : nat -> Z) (mypid : Z) (i : nat) : M ide unit :=
  the_buf i ≫= fun b =>
  holding_lock mypid b ≫= fun h =>
  if negb h then panic "iderw: buf not locked" else
  if Z.land (flags b) (Z.lor B_VALID B_DIRTY) =? B_VALID then panic "iderw: nothing to do" else
  get ≫= fun s =>
  if negb (bdev b =? 0) && negb (havedisk1 s) then panic "iderw: ide disk 1 not present" else
  acquire ≫= fun _ =>
  enqueue i ≫= fun _ =>
  get ≫= fun s =>
  (if bool_decide (idequeue s = Some i) then idestart (Some i) else mret tt) ≫= fun _ =>
  iderw_wait chan i.

(** ** The system: processes in iderw, the driver and the controller *)

Record dsys := mk_dsys { drv : ide; waiting : list nat }.

(** The system with processes that are in iderw for the buffers [waiting], one
    for each, as the caller holds the lock of its buffer. *)
Inductive ide_step (noise : block) (chan : nat -> Z) : dsys -> dsys -> Prop :=
| st_request s w i pid b s' :
    i ∉ w -> ibufs s !! i = Some b -> bdev b = 1 -> 0 <= blockno b < FSSIZE ->
    iderw chan pid i s = Wait (On (chan i)) s' ->
    ide_step noise chan (mk_dsys s w) (mk_dsys s' (i :: w))
| st_return s w w1 w2 i s' :
    w = w1 ++ i :: w2 -> iderw_resume chan i s = Ret s' tt ->
    ide_step noise chan (mk_dsys s w) (mk_dsys s' (w1 ++ w2))
| st_again s w i s' :
    i ∈ w -> iderw_resume chan i s = Wait (On (chan i)) s' ->
    ide_step noise chan (mk_dsys s w) (mk_dsys s' w)
| st_controller s w c :
    ctl_done (hw s) = Some c -> ide_step noise chan (mk_dsys s w) (mk_dsys (set_hw c s) w)
| st_interrupt s w s' :
    irq (hw s) = true -> ideintr noise (set_hw (set_irq false (hw s)) s) = Ret s' tt ->
    ide_step noise chan (mk_dsys s w) (mk_dsys s' w)
| st_others s w l :
    (* processes outside iderw use the buffers they have locked *)
    length l = length (ibufs s) -> (forall i, i ∈ w -> l !! i = ibufs s !! i) ->
    ide_step noise chan (mk_dsys s w) (mk_dsys (set_ibufs l s) w).

(** The contract: requests wait in order, and each is served by the
    synchronous driver. *)
Inductive sync_step : bcache * list nat -> bcache * list nat -> Prop :=
| sync_request c q i : i ∉ q -> sync_step (c, q) (c, q ++ [i])
| sync_serve pid c c' q i : Bio.iderw pid i c = Ret c' tt -> sync_step (c, i :: q) (c', q)
| sync_others c q l :
    length l = length (bufs c) -> (forall i, i ∈ q -> l !! i = bufs c !! i) -> sync_step (c, q) (set_bufs l c, q).

(** ** The simulation *)

Fixpoint is_queue (qn : nat -> option nat) (q : option nat) (l : list nat) : Prop :=
  match l with
  | [] => q = None
  | i :: l => q = Some i /\ is_queue qn (qn i) l
  end.

Definition is_done (b : buf) : bool := Z.land (flags b) (Z.lor B_VALID B_DIRTY) =? B_VALID.

(** A buffer whose request is in the queue. *)
Record queued (b : buf) : Prop := {
  q_dev : bdev b = 1;
  q_no : 0 <= blockno b < FSSIZE;
  q_held : sl_lk (block_lock b) = false /\ exists pid, sl_holder (block_lock b) = Some pid;
  q_todo : is_done b = false;
}.

(** The controller works for [b], or has finished. *)
Definition works_for (b : buf) (c : ctl) : Prop :=
  drive c = 1 /\ lba c = blockno b /\
  if irq c then if dirty b then cjob c = JWritten /\ cdisk c 1 (blockno b) = bdata b
                else cjob c = JRead (cdisk c 1 (blockno b))
  else if dirty b then cjob c = JWriting (bdata b) else cjob c = JReading.

Record ide_inv (s : dsys) (l : list nat) : Prop := {
  ii_lock : idelock (drv s) = false;
  ii_disk1 : havedisk1 (drv s) = true /\ disk1 (hw (drv s)) = true /\ cerr (hw (drv s)) = false;
  ii_queue : is_queue (qnext (drv s)) (idequeue (drv s)) l;
  ii_nodup : NoDup l;
  ii_bufs : forall i, i ∈ l -> exists b, ibufs (drv s) !! i = Some b /\ queued b;
  ii_waiting : forall i, i ∈ l -> i ∈ waiting s;
  ii_once : NoDup (waiting s);
  ii_done : forall i, i ∈ waiting s -> i ∉ l -> exists b, ibufs (drv s) !! i = Some b /\ is_done b = true;
  ii_ctl : match l with
           | [] => irq (hw (drv s)) = false /\ busy (hw (drv s)) = false
           | i :: _ => forall b, ibufs (drv s) !! i = Some b -> works_for b (hw (drv s))
           end;
}.

(** The buffers as the contract sees them: a finished command has had its
    effect, though the interrupt has not been taken. *)
Definition taken (c : ctl) (b : buf) : buf :=
  finished (match cjob c with JRead d => set_bdata d b | _ => b end).

Definition abs_bufs (s : ide) : list buf :=
  match idequeue s with
  | Some i => if irq (hw s) then alter (taken (hw s)) i (ibufs s) else ibufs s
  | None => ibufs s
  end.

Definition abs_cache (s : ide) : bcache :=
  mk_bcache false (abs_bufs s) (fun _ => O) (fun _ => O) (cdisk (hw s) 1) FSSIZE.

Definition pending (s : dsys) (l : list nat) : list nat := if irq (hw (drv s)) then tail l else l.

Definition simulates (s : dsys) (a : bcache * list nat) : Prop :=
  exists l, ide_inv s l /\ a = (abs_cache (drv s), pending s l).

(** *** The controller under the driver *)

Lemma ready_ctl c : busy c = false -> disk1 c = true ->
  Z.land (status c) (Z.lor IDE_BSY IDE_DRDY) = IDE_DRDY.
Proof. intros Hb Hd. unfold status. rewrite Hb, Hd, andb_false_r. by destruct (cerr c). Qed.

Lemma idewait_ready b s : busy (hw s) = false -> disk1 (hw s) = true -> cerr (hw s) = false -> idewait b s = Ret s 0.
Proof.
  intros Hb Hd He. unfold idewait. rewrite ready_ctl by done. cbn [negb Z.eqb].
  unfold status. rewrite Hb, Hd, He, andb_false_r. by destruct b.
Qed.

Lemma sector_bytes x : 0 <= x < FSSIZE ->
  Z.land x 0xff + Z.shiftl (Z.land (Z.shiftr x 8) 0xff) 8 + Z.shiftl (Z.land (Z.shiftr x 16) 0xff) 16 = x /\
  Z.land (Z.shiftr x 24) 0x0f = 0.
Proof.
  unfold FSSIZE. intros Hx. change 0xff with (Z.ones 8). change 0x0f with (Z.ones 4).
  rewrite !Z.land_ones, !Z.shiftr_div_pow2, !Z.shiftl_mul_pow2 by lia.
  rewrite (Z.div_small x (2 ^ 16)), (Z.div_small x (2 ^ 24)) by lia. change (0 mod 2 ^ 8) with 0. change (0 mod 2 ^ 4) with 0.
  rewrite (Z.mod_small (x / 2 ^ 8)) by (split; [apply Z.div_pos; lia | apply Z.div_lt_upper_bound; lia]).
  pose proof (Z_div_mod_eq_full x (2 ^ 8)). lia.
Qed.

Lemma idestart_ok s i b :
  ibufs s !! i = Some b -> bdev b = 1 -> 0 <= blockno b < FSSIZE ->
  busy (hw s) = false -> disk1 (hw s) = true -> cerr (hw s) = false -> irq (hw s) = false ->
  exists c, idestart (Some i) s = Ret (set_hw c s) tt /\ works_for b c /\
    irq c = false /\ disk1 c = true /\ cerr c = false /\ cdisk c = cdisk (hw s).
Proof.
  intros Hi Hd Hn Hb H1 He Hq. destruct (sector_bytes (blockno b) Hn) as [Hs H24].
  unfold idestart, the_buf. unfold mbind at 1, M_bind at 1. rewrite Hi.
  destruct (Z.leb_spec FSSIZE (blockno b)); [lia|]. change (BSIZE / SECTOR_SIZE) with 1. cbn [Z.ltb Z.compare Pos.compare Pos.compare_cont].
  rewrite Z.mul_1_r. rewrite (bind_ret _ _ _ _ _ (idewait_ready false s Hb H1 He)).
  unfold outb, outsl, modify, mbind, M_bind. cbn [Z.eqb Pos.eqb]. rewrite Hd, H24.
  destruct (dirty b) eqn:Ed; eexists; (split; [reflexivity|]); unfold works_for; cbn -[Z.land Z.shiftr Z.shiftl];
    rewrite Hq, Ed; unfold lba, drive; cbn -[Z.land Z.shiftr Z.shiftl Z.add]; split_and!; try done;
    unfold upd; cbn -[Z.land Z.shiftr Z.shiftl Z.add]; change (Z.shiftl (Z.land 240 15) 24) with 0; rewrite ?Z.add_0_r; exact Hs.
Qed.

(** *** The queue *)

Lemma is_queue_ext qn qn' q l : (forall i, i ∈ l -> qn' i = qn i) -> is_queue qn q l -> is_queue qn' q l.
Proof.
  revert q. induction l as [|i l IH]; intros q He; cbn; [done|]. intros [-> Hl]. split; [done|].
  rewrite He by left. apply IH; [|done]. intros j Hj. apply He. by right.
Qed.

Lemma qupd_ne qn i v j : j <> i -> qupd qn i v j = qn j.
Proof. intros H. unfold qupd. by apply Nat.eqb_neq in H as ->. Qed.

Lemma qupd_eq qn i v : qupd qn i v i = v.
Proof. unfold qupd. by rewrite Nat.eqb_refl. Qed.

(** The walk stops at the last node, and a node linked there ends the queue. *)
Lemma queue_end_spec qn l p i fuel :
  is_queue qn (Some p) (p :: l) -> NoDup (p :: l) -> i ∉ p :: l -> qn i = None -> (length l < fuel)%nat ->
  exists e, queue_end fuel qn p = Some e /\ e ∈ p :: l /\ is_queue (qupd qn e (Some i)) (Some p) ((p :: l) ++ [i]).
Proof.
  revert p fuel. induction l as [|j l IH]; intros p fuel [_ Hq] Hnd Hi Hin Hf; (destruct fuel as [|fuel]; [lia|]); cbn [queue_end].
  - cbn in Hq. rewrite Hq. exists p. split_and!; [done | by left|]. cbn. rewrite qupd_eq.
    split_and!; try done. rewrite qupd_ne; [done|]. intros ->. apply Hi. by left.
  - destruct Hq as [Hj Hq]. rewrite Hj. apply list.NoDup_cons in Hnd as [Hp Hnd].
    destruct (IH j fuel) as (e & E & He & Hq'); [by split | done | by intros Hx; apply Hi; right | done | cbn in Hf; lia |].
    exists e. split_and!; [done | by right |]. split; [done|].
    rewrite qupd_ne, Hj; [done|]. by intros ->.
Qed.

Lemma nodup_bounded (l : list nat) n : NoDup l -> (forall i, i ∈ l -> (i < n)%nat) -> (length l <= n)%nat.
Proof.
  intros Hnd Hb. rewrite <- (length_seq n 0). apply submseteq_length, NoDup_submseteq; [done|].
  intros i Hi. apply elem_of_seq. specialize (Hb i Hi). lia.
Qed.

Lemma enqueue_ok i s l :
  is_queue (qnext s) (idequeue s) l -> NoDup l -> i ∉ l -> (forall j, j ∈ l -> (j < length (ibufs s))%nat) ->
  exists qn q, enqueue i s = Ret (set_queue qn q s) tt /\ is_queue qn q (l ++ [i]) /\
    q = (match l with [] => Some i | p :: _ => Some p end).
Proof.
  intros Hq Hnd Hi Hb. unfold enqueue. destruct l as [|p l].
  - cbn in Hq. rewrite Hq. do 2 eexists. split_and!; [done | | done]. cbn. by rewrite qupd_eq.
  - assert (Hq' : is_queue (qupd (qnext s) i None) (idequeue s) (p :: l)).
    { eapply is_queue_ext, Hq. intros j Hj. apply qupd_ne. by intros ->. }
    pose proof Hq' as [Ep _]. rewrite Ep in *.
    pose proof (nodup_bounded _ _ Hnd Hb) as Hlen.
    destruct (queue_end_spec (qupd (qnext s) i None) l p i (length (ibufs s))) as (e & -> & _ & Hl); [done | done | done | apply qupd_eq | done |].
    by do 2 eexists.
Qed.

(** *** Flags *)

Lemma finished_done b : is_done (finished b) = true.
Proof.
  unfold is_done, finished. cbn [flags set_flags]. apply Z.eqb_eq. apply Z.bits_inj'. intros n Hn.
  unfold B_VALID, B_DIRTY. rewrite !Z.land_spec, Z.lor_spec, Z.lnot_spec by done.
  change (Z.lor 2 4) with 6. destruct (Z.eq_dec n 1) as [->|H1]; [cbn; by rewrite orb_true_r|].
  destruct (Z.eq_dec n 2) as [->|H2]; [cbn; by rewrite andb_false_r|].
  assert (Z.testbit 6 n = false /\ Z.testbit 2 n = false) as [-> ->]; [|by rewrite andb_false_r].
  destruct (Z.eq_dec n 0) as [->|]; [done|]. split; apply Z.bits_above_log2; cbn; lia.
Qed.

Lemma finished_write b : dirty b = true ->
  finished b = set_flags (Z.lor (Z.land (flags b) (Z.lnot B_DIRTY)) B_VALID) b.
Proof.
  intros _. unfold finished. f_equal. rewrite Z.land_lor_distr_l. done.
Qed.

Lemma finished_read b : dirty b = false -> finished b = set_flags (Z.lor (flags b) B_VALID) b.
Proof.
  unfold dirty. rewrite negb_false_iff, Z.eqb_eq. intros H. unfold finished. f_equal.
  rewrite Z.land_lor_distr_l. f_equal. rewrite <- Z.ldiff_land. 
  pose proof (Z.lor_ldiff_and (flags b) B_DIRTY) as E. rewrite H, Z.lor_0_r in E. done.
Qed.

(** *** The steps *)

Section steps_ok.
Context (noise : block) (chan : nat -> Z).

Lemma iderw_wait_eq i s b : ibufs s !! i = Some b -> idelock s = true ->
  iderw_wait chan i s = if is_done b then Ret (set_lock false s) tt else Wait (On (chan i)) (set_lock false s).
Proof.
  intros Hi Hl. unfold iderw_wait, the_buf. unfold mbind at 1, M_bind at 1. rewrite Hi.
  fold (is_done b). destruct (is_done b); cbn [negb].
  - by rewrite release_held.
  - unfold mbind, M_bind, waiton. by rewrite release_held.
Qed.

Lemma iderw_resume_eq i s b : ibufs s !! i = Some b -> idelock s = false ->
  iderw_resume chan i s = if is_done b then Ret s tt else Wait (On (chan i)) s.
Proof.
  intros Hi Hl. unfold iderw_resume. rewrite (bind_ret _ _ s (set_lock true s) tt) by (by apply acquire_free).
  rewrite (iderw_wait_eq i _ b) by done. cbn. destruct s; cbn in *. by subst.
Qed.

Lemma waiting_buf s w l i : ide_inv (mk_dsys s w) l -> i ∈ w -> exists b, ibufs s !! i = Some b /\ (is_done b = true <-> i ∉ l).
Proof.
  intros I Hi. destruct (decide (i ∈ l)) as [Hl|Hl].
  - destruct (ii_bufs _ _ I i Hl) as (b & Hb & Hq). exists b. split; [done|]. rewrite (q_todo _ Hq). done.
  - destruct (ii_done _ _ I i Hi Hl) as (b & Hb & Hd). exists b. done.
Qed.

Lemma return_ok s w1 w2 l i s' :
  ide_inv (mk_dsys s (w1 ++ i :: w2)) l -> iderw_resume chan i s = Ret s' tt ->
  s' = s /\ ide_inv (mk_dsys s (w1 ++ w2)) l.
Proof.
  intros I E. destruct (waiting_buf _ _ _ i I) as (b & Hb & Hd); [rewrite elem_of_app; right; left|].
  rewrite (iderw_resume_eq i s b Hb (ii_lock _ _ I)) in E. destruct (is_done b); [|done].
  injection E as <-. split; [done|]. assert (Hl : i ∉ l) by (by apply Hd).
  destruct I as [H1 H2 H3 H4 H5 H6 H7 H8 H9]. cbn in *. split; cbn; try done.
  - intros j Hj. specialize (H6 j Hj). rewrite elem_of_app, elem_of_cons in H6. rewrite elem_of_app.
    destruct H6 as [?|[->|?]]; [by left | done | by right].
  - rewrite <- Permutation_middle in H7. by apply list.NoDup_cons in H7 as [].
  - intros j Hj. apply H8. rewrite elem_of_app in Hj. rewrite elem_of_app, elem_of_cons. tauto.
Qed.

Lemma serve_ok s w l c :
  ide_inv (mk_dsys s w) l -> ctl_done (hw s) = Some c ->
  exists i l' pid, l = i :: l' /\ irq (hw s) = false /\ irq c = true /\
    ide_inv (mk_dsys (set_hw c s) w) l /\ Bio.iderw pid i (abs_cache s) = Ret (abs_cache (set_hw c s)) tt.
Proof.
  intros I E. destruct l as [|i l].
  { destruct (ii_ctl _ _ I) as [_ Hb]. cbn in Hb. unfold ctl_done in E. unfold busy in Hb. by destruct (cjob (hw s)). }
  destruct (ii_bufs _ _ I i ltac:(left)) as (b & Hb & [Hd Hn [Hk [pid Hp]] Ht]). cbn in Hb.
  destruct (ii_ctl _ _ I b Hb) as (Hdr & Hlb & Hj). cbn in Hdr, Hlb, Hj.
  assert (Hq : irq (hw s) = false).
  { destruct (irq (hw s)); [|done]. destruct (dirty b); [destruct Hj as [Hj _]|]; unfold ctl_done in E; by rewrite Hj in E. }
  rewrite Hq in Hj. destruct I as [H1 H2 H3 H4 H5 H6 H7 H8 H9]. cbn in *. pose proof H3 as [Hq3 _].
  exists i, l, pid. split; [done|]. split; [done|]. unfold ctl_done in E.
  unfold abs_cache, abs_bufs, Bio.iderw. cbn. rewrite Hq3, Hq, Hb, holdingsleep_eq, Hp, bool_decide_true by done.
  fold (is_done b). rewrite Ht, Hd. cbn [negb Z.eqb Pos.eqb]. destruct (Z.leb_spec FSSIZE (blockno b)); [lia|].
  fold (dirty b). destruct (dirty b) eqn:Ed; rewrite Hj in E; injection E as <-; cbn; (split; [done|]); split.
  - split; cbn; try done. { by destruct H2 as (?&?&?). }
    intros b' Hb'. rewrite Hb in Hb'. injection Hb' as <-. unfold works_for. cbn.
    split_and!; [done | done|]. rewrite Ed, Hdr. cbn. by rewrite Hlb, setb_eq.
  - unfold on_buf, set_bufs. cbn. do 2 f_equal.
    + apply list_alter_ext; [|done]. intros x Hx. assert (x = b) as -> by congruence. unfold taken. cbn. by rewrite finished_write.
    + rewrite Hdr. cbn. by rewrite Hlb.
  - split; cbn; try done. { by destruct H2 as (?&?&?). }
    intros b' Hb'. rewrite Hb in Hb'. injection Hb' as <-. unfold works_for. cbn.
    split_and!; [done | done|]. by rewrite Ed, Hdr, Hlb.
  - unfold on_buf, set_bufs. cbn. do 2 f_equal.
    apply list_alter_ext; [|done]. intros x Hx. assert (x = b) as -> by congruence. unfold taken. cbn.
    by rewrite finished_read, Hdr, Hlb.
Qed.

Lemma list_alter_alter {A} (f g : A -> A) i (l : list A) : alter f i (alter g i l) = alter (f ∘ g) i l.
Proof. revert i. induction l as [|x l IH]; intros [|i]; cbn; [done..|]. f_equal. apply IH. Qed.

Lemma take_data_ok s i b c0 :
  ibufs s !! i = Some b -> works_for b c0 -> irq c0 = true -> hw s = set_irq false c0 ->
  disk1 c0 = true -> cerr c0 = false ->
  exists c, (take_data noise i b ≫= fun _ => on_ibuf i finished) s = Ret (set_ibufs (alter (taken c0) i (ibufs s)) (set_hw c s)) tt /\
    busy c = false /\ irq c = false /\ disk1 c = true /\ cerr c = false /\ cdisk c = cdisk c0.
Proof.
  intros Hi (_ & _ & Hj) Hq Hw H1 He. rewrite Hq in Hj. unfold take_data. destruct (dirty b) eqn:Ed; cbn [negb].
  - destruct Hj as [Hj _]. exists (hw s). unfold mbind, M_bind, mret, M_ret, on_ibuf, modify.
    split_and!; try (rewrite Hw; unfold busy; cbn; by rewrite ?Hj).
    f_equal. unfold set_ibufs, set_hw. cbn. f_equal. apply list_alter_ext; [|done]. intros x _. unfold taken. by rewrite Hj.
  - exists (set_job JIdle (set_irq false c0)). split; [|done]. rewrite bind_assoc.
    rewrite (bind_ret _ _ s s 0) by (apply idewait_ready; rewrite Hw; unfold busy; cbn; by rewrite ?Hj).
    unfold insl, on_ibuf, modify, mbind, M_bind. cbn [Z.leb Z.compare]. rewrite Hw. cbn [cjob set_irq]. rewrite Hj.
    f_equal. unfold set_ibufs, set_hw. cbn. f_equal. rewrite list_alter_alter.
    apply list_alter_ext; [|done]. intros x _. unfold taken, compose. by rewrite Hj.
Qed.

Lemma interrupt_ok s w l :
  ide_inv (mk_dsys s w) l -> irq (hw s) = true ->
  exists i l' s', l = i :: l' /\ ideintr noise (set_hw (set_irq false (hw s)) s) = Ret s' tt /\
    irq (hw s') = false /\ ide_inv (mk_dsys s' w) l' /\ abs_cache s' = abs_cache s.
Proof.
  intros I Hq. destruct l as [|i l]. { destruct (ii_ctl _ _ I) as [Hq' _]. cbn in Hq'. congruence. }
  destruct (ii_bufs _ _ I i ltac:(left)) as (b & Hb & Hqb). cbn in Hb. pose proof (ii_ctl _ _ I b Hb) as Hwork. cbn in Hwork.
  destruct I as [H1 (H2 & H2' & H2'') H3 H4 H5 H6 H7 H8 _]. cbn in *. pose proof H3 as [Hq3 Hq4].
  apply list.NoDup_cons in H4 as [Hil Hnd].
  set (s0 := set_hw (set_irq false (hw s)) s).
  set (s1 := set_queue (qnext s) (qnext s i) (set_lock true s0)).
  destruct (take_data_ok s1 i b (hw s)) as (c & Ec & Hc1 & Hc2 & Hc3 & Hc4 & Hc5); [done..|].
  set (s2 := wakeup_buf i (set_ibufs (alter (taken (hw s)) i (ibufs s1)) (set_hw c s1))).
  assert (Hother : forall j, j ∈ l -> exists b, ibufs s2 !! j = Some b /\ queued b).
  { intros j Hj. destruct (H5 j ltac:(by right)) as (bj & Hbj & Hqj). exists bj. split; [|done].
    cbn. rewrite list_lookup_alter_ne; [done|]. by intros ->. }
  assert (Hnext : exists c', (match idequeue s2 with Some j => idestart (Some j) | None => mret tt end) s2 = Ret (set_hw c' s2) tt /\
    irq c' = false /\ disk1 c' = true /\ cerr c' = false /\ cdisk c' = cdisk (hw s) /\
    match l with [] => busy c' = false | j :: _ => forall b, ibufs s2 !! j = Some b -> works_for b c' end).
  { destruct l as [|j l].
    - cbn in Hq4. exists c. subst s2 s1. cbn. rewrite Hq4. done.
    - destruct Hq4 as [Hj _]. destruct (Hother j ltac:(left)) as (bj & Hbj & Hqj).
      destruct (idestart_ok s2 j bj) as (c' & E & Hw' & ? & ? & ? & Hcd); [done | apply Hqj | apply Hqj | done..|].
      exists c'. replace (idequeue s2) with (Some j) by (by rewrite <- Hj). split_and!; try done.
      + by rewrite Hcd, <- Hc5.
      + intros b' Hb'. by assert (b' = bj) as -> by congruence. }
  destruct Hnext as (c' & En & Hn1 & Hn2 & Hn3 & Hn4 & Hn5).
  exists i, l, (set_lock false (set_hw c' s2)). split; [done|]. split.
  - unfold ideintr. rewrite (bind_ret _ _ s0 (set_lock true s0) tt) by (by apply acquire_free).
    rewrite (bind_ret get _ _ (set_lock true s0) (set_lock true s0)) by done.
    replace (idequeue (set_lock true s0)) with (Some i) by done.
    rewrite (bind_ret (modify _) _ _ s1 tt) by done.
    rewrite (bind_ret (the_buf i) _ s1 s1 b) by (unfold the_buf; by replace (ibufs s1 !! i) with (Some b) by done).
    rewrite <- (bind_assoc (take_data noise i b) (fun _ => on_ibuf i finished)), (bind_ret _ _ _ _ _ Ec).
    rewrite (bind_ret (modify _) _ _ s2 tt) by done. rewrite (bind_ret get _ _ s2 s2) by done.
    rewrite (bind_ret _ _ _ _ _ En). by apply release_held.
  - split; [done|]. split.
    + split; cbn; try done.
      * intros j Hj. apply H6. by right.
      * intros j Hj Hjl. destruct (decide (j = i)) as [->|Hji].
        -- rewrite list_lookup_alter_eq, Hb. cbn. eexists. split; [done|]. apply finished_done.
        -- rewrite list_lookup_alter_ne by done. apply H8; [done|]. rewrite elem_of_cons. tauto.
      * by destruct l.
    + unfold abs_cache, abs_bufs. cbn. rewrite Hn1, Hn4, Hq3, Hq. by destruct (qnext s i).
Qed.

Lemma request_ok s w l i pid b :
  ide_inv (mk_dsys s w) l -> i ∉ w -> ibufs s !! i = Some b -> queued b -> sl_holder (block_lock b) = Some pid ->
  exists s', iderw chan pid i s = Wait (On (chan i)) s' /\ ide_inv (mk_dsys s' (i :: w)) (l ++ [i]) /\
    abs_cache s' = abs_cache s /\ irq (hw s') = irq (hw s).
Proof.
  intros [H1 (H2 & H2' & H2'') H3 H4 H5 H6 H7 H8 H9] Hiw Hb Hqb Hp. cbn in *.
  assert (Hil : i ∉ l) by (intros Hx; apply Hiw, H6, Hx).
  assert (Hlen : forall j, j ∈ l -> (j < length (ibufs s))%nat).
  { intros j Hj. destruct (H5 j Hj) as (bj & Hbj & _). by apply lookup_lt_Some in Hbj. }
  destruct (enqueue_ok i (set_lock true s) l) as (qn & q & Eq & Hq & Hh); [done..|].
  set (s1 := set_queue qn q (set_lock true s)) in *.
  assert (Hstart : exists c, (if bool_decide (q = Some i) then idestart (Some i) else mret tt) s1 = Ret (set_hw c s1) tt /\
    irq c = irq (hw s) /\ disk1 c = true /\ cerr c = false /\ cdisk c = cdisk (hw s) /\
    match l ++ [i] with [] => False | j :: _ => forall b, ibufs s !! j = Some b -> works_for b c end /\
    (l = [] -> irq c = false) /\ (l <> [] -> c = hw s)).
  { destruct l as [|p l]; subst q; cbn [app].
    - rewrite bool_decide_true by done. destruct H9 as [Hq9 Hb9].
      destruct (idestart_ok s1 i b) as (c & E & Hw & Hc1 & Hc2 & Hc3 & Hc4); [done | apply Hqb | apply Hqb | done..|].
      exists c. split; [done|]. rewrite Hq9. split_and!; try done. intros b' Hb'. by assert (b' = b) as -> by congruence.
    - rewrite bool_decide_false by (intros [= ->]; apply Hil; left). exists (hw s). by split_and!. }
  destruct Hstart as (c & Ec & Hc1 & Hc2 & Hc3 & Hc4 & Hc5 & Hc6 & Hc7).
  exists (set_lock false (set_hw c s1)). split_and!; [| | | done].
  - unfold iderw, the_buf, holding_lock. rewrite (bind_ret _ _ s s b) by (by rewrite Hb).
    rewrite (bind_ret _ _ s s true)
      by (rewrite holdingsleep_eq, Hp by apply Hqb; by rewrite bool_decide_true).
    cbn [negb]. fold (is_done b). rewrite (q_todo _ Hqb). rewrite (bind_ret get _ s s s) by done.
    rewrite H2, andb_false_r. rewrite (bind_ret _ _ s (set_lock true s) tt) by (by apply acquire_free).
    rewrite (bind_ret _ _ _ _ _ Eq). rewrite (bind_ret get _ s1 s1 s1) by done.
    rewrite (bind_ret _ _ _ _ _ Ec). rewrite (iderw_wait_eq i _ b) by done. by rewrite (q_todo _ Hqb).
  - split; cbn; try done.
    + apply list.NoDup_app. split_and!; [done | | apply NoDup_singleton]. intros j Hj ->%list_elem_of_singleton. done.
    + intros j [Hj| ->%list_elem_of_singleton]%elem_of_app; [by apply H5 | by exists b].
    + intros j [Hj| ->%list_elem_of_singleton]%elem_of_app; [right; by apply H6 | left].
    + by apply list.NoDup_cons.
    + intros j [->|Hj]%elem_of_cons Hjl; [|apply H8; [done|]]; rewrite elem_of_app, list_elem_of_singleton in Hjl; tauto.
    + by destruct l.
  - unfold abs_cache, abs_bufs. cbn. rewrite Hc4, Hc1. destruct l as [|p l]; subst q.
    + destruct H9 as [-> _]. by destruct (idequeue s).
    + rewrite Hc7 by done. by destruct H3 as [-> _].
Qed.

Lemma others_ok s w l bs :
  ide_inv (mk_dsys s w) l -> length bs = length (ibufs s) -> (forall i, i ∈ w -> bs !! i = ibufs s !! i) ->
  ide_inv (mk_dsys (set_ibufs bs s) w) l.
Proof.
  intros [H1 H2 H3 H4 H5 H6 H7 H8 H9] Hl Hsame. cbn in *. split; cbn; try done.
  - intros i Hi. rewrite Hsame by auto. auto.
  - intros i Hi Hil. rewrite Hsame by auto. auto.
  - destruct l as [|i l]; [done|]. intros b. rewrite Hsame; [apply H9|]. apply H6. left.
Qed.

(** A request that sleeps has a buffer that the caller had locked. *)
Lemma request_inv s i pid b s' :
  ibufs s !! i = Some b -> iderw chan pid i s = Wait (On (chan i)) s' ->
  sl_lk (block_lock b) = false /\ sl_holder (block_lock b) = Some pid /\ is_done b = false.
Proof.
  intros Hb E. unfold iderw, the_buf in E. rewrite (bind_ret _ _ s s b) in E by (by rewrite Hb).
  assert (Hk : sl_lk (block_lock b) = false).
  { destruct (sl_lk (block_lock b)) eqn:Ek; [|done]. exfalso. unfold holding_lock, holdingsleep, acquire in E.
    unfold mbind, M_bind in E. cbn [get_lock sleeplock_lock] in E. by rewrite Ek in E. }
  unfold holding_lock in E. rewrite holdingsleep_eq in E by done. unfold mbind at 1, M_bind at 1 in E.
  destruct (bool_decide_reflect (sl_holder (block_lock b) = Some pid)) as [Hp|]; [|done].
  cbn [negb] in E. fold (is_done b) in E. by destruct (is_done b).
Qed.

End steps_ok.

(** ** Properties *)

Lemma ide_step_ok noise chan s s' a :
  ide_step noise chan s s' -> simulates s a -> exists a', steps sync_step a a' /\ simulates s' a'.
Proof.
  intros Hst (l & I & ->). destruct Hst as
    [s w i pid b s' Hi Hb Hd Hn E | s w w1 w2 i s' -> E | s w i s' Hi E | s w c E | s w s' Hq E | s w bs Hl Hsame].
  - destruct (request_inv chan s i pid b s' Hb E) as (Hk & Hp & Ht).
    destruct (request_ok chan s w l i pid b I Hi Hb) as (s1 & E1 & I1 & Ea & Eq); [by split; eauto | done |].
    assert (s1 = s') as -> by congruence. eexists. split; [|exists (l ++ [i]); split; [done | reflexivity]].
    apply steps_one. unfold pending. cbn [drv]. rewrite Ea, Eq.
    replace (if irq (hw s) then tail (l ++ [i]) else l ++ [i]) with ((if irq (hw s) then tail l else l) ++ [i]).
    + apply sync_request. intros Hx. apply Hi, (ii_waiting _ _ I). destruct (irq (hw s)); [|done].
      destruct l; [done|]. by right.
    + destruct (irq (hw s)) eqn:Hirq; [|done]. destruct l; [|done]. destruct (ii_ctl _ _ I) as [Hx _]. cbn in Hx. congruence.
  - destruct (return_ok chan s w1 w2 l i s' I E) as [-> I']. eexists. split; [constructor|]. by exists l.
  - destruct (waiting_buf s w l i I Hi) as (b & Hb & _).
    rewrite (iderw_resume_eq chan i s b Hb (ii_lock _ _ I)) in E. destruct (is_done b); [done|]. injection E as <-.
    eexists. split; [constructor|]. by exists l.
  - destruct (serve_ok s w l c I E) as (i & l' & pid & -> & H1 & H2 & I' & Es).
    eexists. split; [|exists (i :: l'); split; [exact I' | reflexivity]]. unfold pending. cbn. rewrite H1, H2.
    apply steps_one. by apply (sync_serve pid).
  - destruct (interrupt_ok noise chan s w l I Hq) as (i & l' & s1 & -> & E1 & H1 & I1 & Ea).
    assert (s1 = s') as -> by congruence. eexists. split; [|exists l'; split; [exact I1 | reflexivity]].
    unfold pending. cbn. rewrite Hq, H1, Ea. constructor.
  - eexists. split; [|exists l; split; [by apply others_ok | reflexivity]]. unfold pending. cbn. apply steps_one.
    replace (abs_cache (set_ibufs bs s)) with (set_bufs (abs_bufs (set_ibufs bs s)) (abs_cache s)) by done.
    assert (Hsub : forall i, i ∈ (if irq (hw s) then tail l else l) -> i ∈ l) by (intros i; destruct (irq (hw s)), l; cbn; auto; by right).
    apply sync_others; unfold abs_cache, abs_bufs; cbn.
    + destruct (idequeue s), (irq (hw s)); by rewrite ?length_alter.
    + intros i Hi. assert (Hw : bs !! i = ibufs s !! i) by (apply Hsame, (ii_waiting _ _ I), Hsub, Hi).
      destruct (idequeue s) as [j|]; [|done]. destruct (irq (hw s)); [|done].
      destruct (decide (j = i)) as [->|]; [by rewrite !list_lookup_alter_eq, Hw | by rewrite !list_lookup_alter_ne].
Qed.

(** The state that ideinit leaves: no request, disk 1 found. *)
Definition booted (s : dsys) : Prop :=
  waiting s = [] /\ idequeue (drv s) = None /\ idelock (drv s) = false /\
  havedisk1 (drv s) = true /\ disk1 (hw (drv s)) = true /\
  cerr (hw (drv s)) = false /\ irq (hw (drv s)) = false /\ busy (hw (drv s)) = false.

Lemma booted_simulates s : booted s -> simulates s (abs_cache (drv s), []).
Proof.
  intros (H1 & H2 & H3 & H4 & H5 & H6 & H7 & H8). exists []. split.
  - split; try done; [constructor | by intros i ?%elem_of_nil | by intros i ?%elem_of_nil | rewrite H1; constructor |].
    intros i Hi. rewrite H1 in Hi. by apply elem_of_nil in Hi.
  - unfold pending. by destruct (irq _).
Qed.

Lemma reachable_simulates noise chan s0 s :
  booted s0 -> steps (ide_step noise chan) s0 s ->
  exists a, steps sync_step (abs_cache (drv s0), []) a /\ simulates s a.
Proof.
  intros Hb Hst. pose proof (booted_simulates s0 Hb) as Hs. generalize dependent (abs_cache (drv s0), @nil nat).
  clear Hb. induction Hst as [s|s1 s2 s3 Hst _ IH]; intros a Hs; [exists a; split; [constructor | done]|].
  destruct (ide_step_ok _ _ _ _ _ Hst Hs) as (a2 & H2 & Hs2). destruct (IH a2 Hs2) as (a3 & H3 & Hs3).
  exists a3. split; [by eapply steps_trans | done].
Qed.

Lemma abs_bufs_other s w l i : ide_inv (mk_dsys s w) l -> i ∉ l -> abs_bufs s !! i = ibufs s !! i.
Proof.
  intros I Hi. unfold abs_bufs. pose proof (ii_queue _ _ I) as Hq. destruct l as [|j l]; cbn in Hq.
  - by rewrite Hq.
  - destruct Hq as [-> _]. destruct (irq (hw s)); [|done]. rewrite list_lookup_alter_ne; [done|].
    intros ->. apply Hi. left.
Qed.


Lemma drain noise chan l : forall s w, ide_inv (mk_dsys s w) l ->
  exists s', steps (ide_step noise chan) (mk_dsys s w) (mk_dsys s' w) /\ ide_inv (mk_dsys s' w) [].
Proof.
  induction l as [|i l IH]; intros s w I; [exists s; split; [constructor | done]|].
  assert (Hirq : forall s, ide_inv (mk_dsys s w) (i :: l) -> irq (hw s) = true ->
    exists s', steps (ide_step noise chan) (mk_dsys s w) (mk_dsys s' w) /\ ide_inv (mk_dsys s' w) []).
  { clear s I. intros s I Hq. destruct (interrupt_ok noise chan s w _ I Hq) as (j & l' & s1 & [= <- <-] & E & _ & I1 & _).
    destruct (IH s1 w I1) as (s2 & Hst & I2). exists s2. split; [|done]. eapply steps_cons, Hst. by apply st_interrupt. }
  destruct (irq (hw s)) eqn:Hq; [by apply Hirq|].
  destruct (ii_bufs _ _ I i ltac:(left)) as (b & Hb & _). destruct (ii_ctl _ _ I b Hb) as (_ & _ & Hj). cbn in Hj. rewrite Hq in Hj.
  assert (exists c, ctl_done (hw s) = Some c) as [c Ec] by (unfold ctl_done; destruct (dirty b); rewrite Hj; by eexists).
  destruct (serve_ok s w _ c I Ec) as (j & l' & pid & _ & _ & Hc & I1 & _).
  destruct (Hirq _ I1 Hc) as (s2 & Hst & I2). exists s2. split; [|done]. eapply steps_cons, Hst. by apply st_controller.
Qed.


(** *** A run: a process reads block 3 *)

Definition after {A} (m : M ide A) (s : ide) : ide :=
  match m s with Ret s' _ | Wait _ s' => s' | Panic _ => s end.

Definition sample_drv : ide :=
  mk_ide false [mk_buf 0 1 3 (mk_sleeplock false 1 7 0) 1 (fun _ => 0)] (fun _ => None) None true
    (mk_ctl (fun _ => 0) JIdle false false true (fun _ no _ => no)) [].
Definition sample_chan (i : nat) : Z := Z.of_nat i.
Definition zeros : block := fun _ => 0.

Definition sample_drv1 : ide := after (iderw sample_chan 7 0) sample_drv.
Definition sample_drv2 : ide := set_hw (default (hw sample_drv1) (ctl_done (hw sample_drv1))) sample_drv1.
Definition sample_drv3 : ide := after (ideintr zeros) (set_hw (set_irq false (hw sample_drv2)) sample_drv2).

(** Unfold the projections before the sample states when comparing terms. *)
Strategy expand [drv waiting].

Lemma sample_booted : booted (mk_dsys sample_drv []).
Proof. by vm_compute. Qed.

Lemma sample_request : steps (ide_step zeros sample_chan) (mk_dsys sample_drv []) (mk_dsys sample_drv1 [0%nat]).
Proof.
  apply steps_one. eapply (st_request _ _ _ _ _ 7); [apply not_elem_of_nil | reflexivity | done | by vm_compute |].
  vm_compute. reflexivity.
Qed.

Lemma sample_served : steps (ide_step zeros sample_chan) (mk_dsys sample_drv []) (mk_dsys sample_drv3 [0%nat]).
Proof.
  eapply steps_trans; [exact sample_request|]. eapply (steps_cons _ _ (mk_dsys sample_drv2 [0%nat])).
  - apply st_controller. vm_compute. reflexivity.
  - apply steps_one. apply st_interrupt; vm_compute; reflexivity.
Qed.



(** ** ideinit *)

Lemma probe_spec n s : (0 < n)%nat -> probe n s = Ret s (negb (status (hw s) =? 0)).
Proof.
  destruct n as [|n]; [lia|]. intros _. cbn [probe]. rewrite (bind_ret get _ s s s) by done.
  destruct (status (hw s) =? 0) eqn:E; [|done]. cbn [negb]. induction n as [|n IH]; [done|].
  cbn [probe]. rewrite (bind_ret get _ s s s) by done. rewrite E. exact IH.
Qed.

(** Ideinit finds disk 1 exactly when it is there, and leaves disk 0
    selected. *)
Lemma ideinit_spec s :
  busy (hw s) = false -> drive (hw s) = 0 -> havedisk1 s = false ->
  exists s', ideinit s = Ret s' tt /\ havedisk1 s' = disk1 (hw s) /\ drive (hw s') = 0 /\
    ibufs s' = ibufs s /\ idequeue s' = idequeue s /\ cjob (hw s') = cjob (hw s).
Proof.
  intros Hb Hd Hh. unfold ideinit.
  rewrite (bind_ret _ _ s s 0).
  2:{ unfold idewait, status. rewrite Hd, Hb. by destruct (cerr (hw s)). }
  rewrite (bind_ret (outb _ _) _ s (set_hw (outb_ctl 0x1f6 (Z.lor 0xe0 (Z.shiftl 1 4)) (hw s)) s) tt) by done.
  rewrite (bind_ret _ _ _ _ _ (probe_spec 1000 _ ltac:(lia))).
  eexists. split; [reflexivity|]. cbn. rewrite Hh, orb_false_r. split_and!; try done.
  unfold status. cbn. unfold busy in *. cbn. by destruct (disk1 (hw s)), (cjob (hw s)), (cerr (hw s)).
Qed.

(** ** Errors *)

(** A read that the controller reports as failed completes all the
    same: the interrupt marks the buffer valid with the data it had before,
    and the process returns from iderw. *)
Theorem ide_error_ignored (noise : block) (chan : nat -> Z) (s : ide) (w : list nat) (i : nat) (b : buf) :
  ide_inv (mk_dsys s w) [i] -> ibufs s !! i = Some b -> dirty b = false ->
  exists s', ideintr noise (set_hw (set_irq false (ctl_fail (hw s))) s) = Ret s' tt /\
    ibufs s' !! i = Some (finished b) /\ bdata (finished b) = bdata b /\
    iderw_resume chan i s' = Ret s' tt.
Proof.
  intros I Hb Hd. destruct (ii_ctl _ _ I b Hb) as (Hdr & _ & _). destruct I as [H1 (H2 & H2' & _) [H3 H3'] _ _ _ _ _ _]. cbn in *.
  set (s0 := set_hw (set_irq false (ctl_fail (hw s))) s).
  set (s1 := set_queue (qnext s) (qnext s i) (set_lock true s0)).
  set (s2 := wakeup_buf i (set_ibufs (alter finished i (ibufs s)) s1)).
  assert (Hw : idewait true s1 = Ret s1 (-1)).
  { unfold idewait, status. change (drive (hw s1)) with (drive (hw s)). cbn. by rewrite Hdr, H2'. }
  exists (set_lock false s2). split_and!.
  - unfold ideintr. rewrite (bind_ret _ _ s0 (set_lock true s0) tt) by (by apply acquire_free).
    rewrite (bind_ret get _ _ (set_lock true s0) (set_lock true s0)) by done.
    replace (idequeue (set_lock true s0)) with (Some i) by done.
    rewrite (bind_ret (modify _) _ _ s1 tt) by done.
    rewrite (bind_ret (the_buf i) _ s1 s1 b) by (unfold the_buf; by replace (ibufs s1 !! i) with (Some b) by done).
    rewrite (bind_ret (take_data noise i b) _ s1 s1 tt).
    2:{ unfold take_data. rewrite Hd. cbn [negb]. by rewrite (bind_ret _ _ _ _ _ Hw). }
    rewrite (bind_ret (on_ibuf i finished) _ s1 (set_ibufs (alter finished i (ibufs s)) s1) tt) by done.
    rewrite (bind_ret (modify _) _ _ s2 tt) by done. rewrite (bind_ret get _ _ s2 s2) by done.
    replace (idequeue s2) with (@None nat) by (by rewrite <- H3'). rewrite (bind_ret _ _ s2 s2 tt) by done. by apply release_held.
  - cbn. by rewrite list_lookup_alter_eq, Hb.
  - done.
  - rewrite (iderw_resume_eq chan i _ (finished b)); [by rewrite finished_done | | done]. cbn. by rewrite list_lookup_alter_eq, Hb.
Qed.

Lemma ide_error_ignored_witness :
  exists s', ideintr zeros (set_hw (set_irq false (ctl_fail (hw sample_drv1))) sample_drv1) = Ret s' tt /\
    iderw_resume sample_chan 0 s' = Ret s' tt.
Proof.
  assert (I : ide_inv (mk_dsys sample_drv1 [0%nat]) [0%nat]).
  { split; try (by vm_compute).
    - apply NoDup_singleton.
    - intros i ->%list_elem_of_singleton. eexists. split; [vm_compute; reflexivity|].
      split; [done | by vm_compute | split; [done | by eexists] | done].
    - apply NoDup_singleton.
    - intros b [= <-]. vm_compute. done. }
  destruct (ide_error_ignored zeros sample_chan sample_drv1 [0%nat] 0 (mk_buf 0 1 3 (mk_sleeplock false 1 7 0) 1 (fun _ => 0)) I)
    as (s' & E & _ & _ & Hr); [vm_compute; reflexivity | done |].
  by exists s'.
Defined.
