(* ===== verification/Fs.v ===== *)
(** The file system below directories (fs.c): the block allocator, inodes,
    and the content of files.

    The state is the inode cache, the superblock and the log of Log.v, through
    which every block goes: bread reads the cache's view of a block, an
    assignment to bp->data changes it, log_write adds the block to the current
    transaction (and may panic), brelse has no effect at this level (Bio.v).
    Pointers to inodes are indices in icache.inode.  The device switch is a
    parameter: its entries are set by the drivers. *)

From S2P Require Import Prelude Word Mem Spinlock Block Log.

Local Open Scope Z_scope.

(** ** On-disk layout (fs.h) *)

Definition ROOTINO : Z := 1.
Definition NDIRECT : Z := 12.
Definition NINDIRECT : Z := BSIZE / 4.
Definition MAXFILE : Z := NDIRECT + NINDIRECT.
Definition DINODE_SIZE : Z := 64.
Definition IPB : Z := BSIZE / DINODE_SIZE.
Definition BPB : Z := BSIZE * 8.

Definition T_DIR : Z := 1.
Definition T_FILE : Z := 2.
Definition T_DEV : Z := 3.

Record superblock := mk_superblock {
  sb_size : Z;
  sb_nblocks : Z;
  sb_ninodes : Z;
  sb_nlog : Z;
  sb_logstart : Z;
  sb_inodestart : Z;
  sb_bmapstart : Z;
}.

Definition IBLOCK (i : Z) (sb : superblock) : Z := i / IPB + sb_inodestart sb.
Definition BBLOCK (b : Z) (sb : superblock) : Z := b / BPB + sb_bmapstart sb.

(** struct inode (file.h) *)
Record inode := mk_inode {
  i_dev : Z;
  i_inum : Z;
  i_ref : Z;
  i_lock : sleeplock;
  i_valid : bool;
  i_type : Z;
  i_major : Z;
  i_minor : Z;
  i_nlink : Z;
  i_size : Z;
  i_addrs : list Z;                (* NDIRECT + 1 of them *)
}.

Record fs := mk_fs {
  ic_lock : bool;
  inodes : list inode;
  sb : superblock;
  fl : log;
}.

#[refine, export] Instance fs_lock : HasLock fs := {|
  get_lock := ic_lock;
  set_lock b s := mk_fs b (inodes s) (sb s) (fl s);
|}.
Proof. 1-2: done. by intros []. Defined.

Definition set_inodes (l : list inode) (s : fs) : fs := mk_fs (ic_lock s) l (sb s) (fl s).
Definition set_sb (b : superblock) (s : fs) : fs := mk_fs (ic_lock s) (inodes s) b (fl s).
Definition set_fl (l : log) (s : fs) : fs := mk_fs (ic_lock s) (inodes s) (sb s) l.
Definition on_inode (i : nat) (f : inode -> inode) (s : fs) : fs := set_inodes (alter f i (inodes s)) s.

Definition set_ref (v : Z) (x : inode) : inode :=
  mk_inode (i_dev x) (i_inum x) v (i_lock x) (i_valid x) (i_type x) (i_major x) (i_minor x) (i_nlink x)
    (i_size x) (i_addrs x).
Definition set_ilock (v : sleeplock) (x : inode) : inode :=
  mk_inode (i_dev x) (i_inum x) (i_ref x) v (i_valid x) (i_type x) (i_major x) (i_minor x) (i_nlink x)
    (i_size x) (i_addrs x).
Definition set_valid (v : bool) (x : inode) : inode :=
  mk_inode (i_dev x) (i_inum x) (i_ref x) (i_lock x) v (i_type x) (i_major x) (i_minor x) (i_nlink x)
    (i_size x) (i_addrs x).
Definition set_type (v : Z) (x : inode) : inode :=
  mk_inode (i_dev x) (i_inum x) (i_ref x) (i_lock x) (i_valid x) v (i_major x) (i_minor x) (i_nlink x)
    (i_size x) (i_addrs x).
Definition set_size (v : Z) (x : inode) : inode :=
  mk_inode (i_dev x) (i_inum x) (i_ref x) (i_lock x) (i_valid x) (i_type x) (i_major x) (i_minor x) (i_nlink x)
    v (i_addrs x).
Definition set_addrs (v : list Z) (x : inode) : inode :=
  mk_inode (i_dev x) (i_inum x) (i_ref x) (i_lock x) (i_valid x) (i_type x) (i_major x) (i_minor x) (i_nlink x)
    (i_size x) v.

(** ** Blocks *)

Definition vw (s : fs) : Z -> block := view (dv (fl s)).

Definition bread_ (b : Z) : M fs block := fun s => Ret s (blk_read b (dv (fl s))).

(** bp->data = x, for the buffer of block [b]. *)
Definition bset_ (b : Z) (x : block) : M fs unit := fun s =>
  Ret (set_fl (set_dv (blk_set b x (dv (fl s))) (fl s)) s) tt.

Definition lift_log {A} (m : M log A) : M fs A := fun s =>
  match m (fl s) with
  | Ret l a => Ret (set_fl l s) a
  | Panic e => Panic e
  | Wait c l => Wait c (set_fl l s)
  end.

Definition log_write_ (b : Z) : M fs unit := lift_log (log_write b).

(** readsb: the seven words at the start of block 1. *)
Definition readsb : M fs superblock :=
  bread_ 1 ≫= fun x =>
  mret (mk_superblock (load32 x 0) (load32 x 4) (load32 x 8) (load32 x 12) (load32 x 16)
                      (load32 x 20) (load32 x 24)).

Definition bzero (bno : Z) : M fs unit :=
  bread_ bno ≫= fun x =>
  bset_ bno (memset x 0 0 BSIZE) ≫= fun _ =>
  log_write_ bno.

(** The bit of block b + bi in a block of the bitmap. *)
Definition bit_mask (bi : Z) : Z := Z.shiftl 1 (bi mod 8).
Definition bit_used (x : block) (bi : Z) : bool := negb (Z.land (x (bi / 8)) (bit_mask bi) =? 0).
Definition mark_bit (x : block) (bi : Z) : block := upd x (bi / 8) (Z.lor (x (bi / 8)) (bit_mask bi)).
Definition clear_bit (x : block) (bi : Z) : block :=
  upd x (bi / 8) (Z.land (x (bi / 8)) (Z.lnot (bit_mask bi))).

(** The inner loop of balloc over [n] bits from [bi]. *)
Fixpoint find_free (n : nat) (bi : Z) (x : block) : option Z :=
  match n with
  | O => None
  | S n => if negb (bit_used x bi) then Some bi else find_free n (bi + 1) x
  end.

(** The outer loop over [n] bitmap blocks from block number [b]. *)
Fixpoint balloc_loop (n : nat) (b : Z) : M fs Z :=
  match n with
  | O => panic "balloc: out of blocks"
  | S n =>
      get ≫= fun s =>
      bread_ (BBLOCK b (sb s)) ≫= fun x =>
      match find_free (Z.to_nat (Z.min BPB (sb_size (sb s) - b))) 0 x with
      | Some bi =>
          bset_ (BBLOCK b (sb s)) (mark_bit x bi) ≫= fun _ =>
          log_write_ (BBLOCK b (sb s)) ≫= fun _ =>
          bzero (b + bi) ≫= fun _ => mret (b + bi)
      | None => balloc_loop n (b + BPB)
      end
  end.

Definition balloc : M fs Z := fun s =>
  balloc_loop (Z.to_nat ((sb_size (sb s) + BPB - 1) / BPB)) 0 s.

Definition bfree (b : Z) : M fs unit :=
  get ≫= fun s =>
  bread_ (BBLOCK b (sb s)) ≫= fun x =>
  let bi := b mod BPB in
  if negb (bit_used x bi) then panic "freeing free block"
  else
    bset_ (BBLOCK b (sb s)) (clear_bit x bi) ≫= fun _ =>
    log_write_ (BBLOCK b (sb s)).

(** ** Inodes *)

Definition load16 (m : mem) (a : Z) : Z := m a + 256 * m (a + 1).
Definition store16 (m : mem) (a v : Z) : mem := upd (upd m a (u8 v)) (a + 1) (u8 (Z.shiftr v 8)).

(** (struct dinode* )bp->data + inum%IPB, as an offset. *)
Definition dinode_off (inum : Z) : Z := (inum mod IPB) * DINODE_SIZE.

Fixpoint load_addrs (n : nat) (x : block) (a : Z) : list Z :=
  match n with O => [] | S n => load32 x a :: load_addrs n x (a + 4) end.
Fixpoint store_addrs (l : list Z) (x : block) (a : Z) : block :=
  match l with [] => x | v :: l => store_addrs l (store32 x a v) (a + 4) end.

(** The assignments of iupdate to *dip. *)
Definition store_dinode (x : block) (o : Z) (ip : inode) : block :=
  let x := store16 x o (i_type ip) in
  let x := store16 x (o + 2) (i_major ip) in
  let x := store16 x (o + 4) (i_minor ip) in
  let x := store16 x (o + 6) (i_nlink ip) in
  let x := store32 x (o + 8) (i_size ip) in
  store_addrs (i_addrs ip) x (o + 12).

(** The assignments of ilock from *dip. *)
Definition load_dinode (x : block) (o : Z) (ip : inode) : inode :=
  mk_inode (i_dev ip) (i_inum ip) (i_ref ip) (i_lock ip) (i_valid ip)
    (s16 (load16 x o)) (s16 (load16 x (o + 2))) (s16 (load16 x (o + 4))) (s16 (load16 x (o + 6)))
    (load32 x (o + 8)) (load_addrs 13 x (o + 12)).

Definition with_inode {A} (i : nat) (k : inode -> M fs A) : M fs A := fun s =>
  match inodes s !! i with Some ip => k ip s | None => Panic "no such inode" end.

Definition iupdate (i : nat) : M fs unit :=
  with_inode i (fun ip =>
  get ≫= fun s =>
  bread_ (IBLOCK (i_inum ip) (sb s)) ≫= fun x =>
  bset_ (IBLOCK (i_inum ip) (sb s)) (store_dinode x (dinode_off (i_inum ip)) ip) ≫= fun _ =>
  log_write_ (IBLOCK (i_inum ip) (sb s))).

(** The scan of iget: the cached entry, or the first free one. *)
Fixpoint iget_scan (dev_ inum : Z) (l : list inode) (i : nat) (empty : option nat) : nat + option nat :=
  match l with
  | [] => inr empty
  | ip :: l =>
      if (0 <? i_ref ip) && (i_dev ip =? dev_) && (i_inum ip =? inum) then inl i
      else iget_scan dev_ inum l (S i)
             (match empty with None => if i_ref ip =? 0 then Some i else None | Some e => Some e end)
  end.

Definition iget (dev_ inum : Z) : M fs nat :=
  acquire ≫= fun _ =>
  get ≫= fun s =>
  match iget_scan dev_ inum (inodes s) 0 None with
  | inl i => put (on_inode i (fun ip => set_ref (i_ref ip + 1) ip) s) ≫= fun _ => release ≫= fun _ => mret i
  | inr None => panic "iget: no inodes"
  | inr (Some i) =>
      put (on_inode i (fun ip => mk_inode dev_ inum 1 (i_lock ip) false (i_type ip) (i_major ip) (i_minor ip)
                                   (i_nlink ip) (i_size ip) (i_addrs ip)) s) ≫= fun _ =>
      release ≫= fun _ => mret i
  end.

Definition idup (i : nat) : M fs nat :=
  acquire ≫= fun _ =>
  with_inode i (fun _ => modify (on_inode i (fun ip => set_ref (i_ref ip + 1) ip))) ≫= fun _ =>
  release ≫= fun _ => mret i.

(** The scan of ialloc over [n] inode numbers from [inum]. *)
Fixpoint ialloc_loop (n : nat) (inum dev_ ty : Z) : M fs nat :=
  match n with
  | O => panic "ialloc: no inodes"
  | S n =>
      get ≫= fun s =>
      bread_ (IBLOCK inum (sb s)) ≫= fun x =>
      if load16 x (dinode_off inum) =? 0 then
        let x := memset x (dinode_off inum) 0 DINODE_SIZE in
        bset_ (IBLOCK inum (sb s)) (store16 x (dinode_off inum) ty) ≫= fun _ =>
        log_write_ (IBLOCK inum (sb s)) ≫= fun _ =>
        iget dev_ inum
      else ialloc_loop n (inum + 1) dev_ ty
  end.

Definition ialloc (dev_ ty : Z) : M fs nat := fun s =>
  ialloc_loop (Z.to_nat (sb_ninodes (sb s) - 1)) 1 dev_ ty s.

(** Inode [i]'s slot of ip->addrs. *)
Definition set_addr (i : nat) (k : Z) (v : Z) : M fs unit :=
  modify (on_inode i (fun ip => set_addrs (<[Z.to_nat k := v]> (i_addrs ip)) ip)).

Definition addr_of (ip : inode) (k : Z) : Z := nth (Z.to_nat k) (i_addrs ip) 0.

Definition bmap (i : nat) (bn : Z) : M fs Z :=
  with_inode i (fun ip =>
  if bn <? NDIRECT then
    if addr_of ip bn =? 0 then
      balloc ≫= fun addr => set_addr i bn addr ≫= fun _ => mret addr
    else mret (addr_of ip bn)
  else
    let bn := bn - NDIRECT in
    if bn <? NINDIRECT then
      (if addr_of ip NDIRECT =? 0 then
         balloc ≫= fun addr => set_addr i NDIRECT addr ≫= fun _ => mret addr
       else mret (addr_of ip NDIRECT)) ≫= fun addr =>
      bread_ addr ≫= fun a =>
      if load32 a (4 * bn) =? 0 then
        balloc ≫= fun addr' =>
        bread_ addr ≫= fun a =>
        bset_ addr (store32 a (4 * bn) addr') ≫= fun _ =>
        log_write_ addr ≫= fun _ => mret addr'
      else mret (load32 a (4 * bn))
    else panic "bmap: out of range").

(** The two loops of itrunc. *)
Fixpoint trunc_direct (n : nat) (k : Z) (i : nat) : M fs unit :=
  match n with
  | O => mret tt
  | S n =>
      with_inode i (fun ip =>
      (if addr_of ip k =? 0 then mret tt
       else bfree (addr_of ip k) ≫= fun _ => set_addr i k 0) ≫= fun _ =>
      trunc_direct n (k + 1) i)
  end.

Fixpoint trunc_indirect (n : nat) (j addr : Z) : M fs unit :=
  match n with
  | O => mret tt
  | S n =>
      bread_ addr ≫= fun a =>
      (if load32 a (4 * j) =? 0 then mret tt else bfree (load32 a (4 * j))) ≫= fun _ =>
      trunc_indirect n (j + 1) addr
  end.

Definition itrunc (i : nat) : M fs unit :=
  trunc_direct (Z.to_nat NDIRECT) 0 i ≫= fun _ =>
  with_inode i (fun ip =>
  (if addr_of ip NDIRECT =? 0 then mret tt
   else
     trunc_indirect (Z.to_nat NINDIRECT) 0 (addr_of ip NDIRECT) ≫= fun _ =>
     bfree (addr_of ip NDIRECT) ≫= fun _ =>
     set_addr i NDIRECT 0) ≫= fun _ =>
  modify (on_inode i (set_size 0)) ≫= fun _ =>
  iupdate i).

(** struct stat, and stati. *)
Record stat := mk_stat { st_type : Z; st_dev : Z; st_ino : Z; st_nlink : Z; st_size : Z }.

Definition stati (ip : inode) : stat :=
  mk_stat (i_type ip) (i_dev ip) (i_inum ip) (i_nlink ip) (i_size ip).

Section calls.
(** myproc()->pid, the addresses of the inodes' sleep locks, and the device
    switch: the functions the drivers put in devsw[major].read and .write, 0
    being [None]. *)
Context (mypid : Z) (lock_addr : nat -> Z).
Context (devsw_read : Z -> option (nat -> Z -> M fs (Z * list Z))).
Context (devsw_write : Z -> option (nat -> list Z -> Z -> M fs Z)).

Definition lift_lock {A} (i : nat) (m : M sleeplock A) : M fs A :=
  with_inode i (fun ip s =>
  match m (i_lock ip) with
  | Ret l a => Ret (on_inode i (set_ilock l) s) a
  | Panic e => Panic e
  | Wait c l => Wait c (on_inode i (set_ilock l) s)
  end).

Definition ilock (i : nat) : M fs unit :=
  with_inode i (fun ip =>
  if i_ref ip <? 1 then panic "ilock"
  else
    lift_lock i (acquiresleep (lock_addr i) mypid) ≫= fun _ =>
    with_inode i (fun ip =>
    if i_valid ip then mret tt
    else
      get ≫= fun s =>
      bread_ (IBLOCK (i_inum ip) (sb s)) ≫= fun x =>
      modify (on_inode i (fun ip => set_valid true (load_dinode x (dinode_off (i_inum ip)) ip))) ≫= fun _ =>
      with_inode i (fun ip => if i_type ip =? 0 then panic "ilock: no type" else mret tt))).

Definition iunlock (i : nat) : M fs unit :=
  with_inode i (fun ip =>
  lift_lock i (holdingsleep mypid) ≫= fun h : bool =>
  if negb h || (i_ref ip <? 1) then panic "iunlock"
  else lift_lock i releasesleep).

Definition iput (i : nat) : M fs unit :=
  lift_lock i (acquiresleep (lock_addr i) mypid) ≫= fun _ =>
  with_inode i (fun ip =>
  (if i_valid ip && (i_nlink ip =? 0) then
     acquire ≫= fun _ =>
     with_inode i (fun ip =>
     let r := i_ref ip in
     release ≫= fun _ =>
     if r =? 1 then
       itrunc i ≫= fun _ =>
       modify (on_inode i (set_type 0)) ≫= fun _ =>
       iupdate i ≫= fun _ =>
       modify (on_inode i (set_valid false))
     else mret tt)
   else mret tt) ≫= fun _ =>
  lift_lock i releasesleep ≫= fun _ =>
  acquire ≫= fun _ =>
  modify (on_inode i (fun ip => set_ref (i_ref ip - 1) ip)) ≫= fun _ =>
  release).

Definition iunlockput (i : nat) : M fs unit := iunlock i ≫= fun _ => iput i.

(** ** File content *)

(** The loop of readi; every round copies at least one byte, so n rounds are
    enough.  The bytes copied to dst are returned. *)
Fixpoint readi_loop (fuel : nat) (i : nat) (tot off n : Z) (dst : list Z) : M fs (list Z) :=
  if tot <? n then
    match fuel with
    | O => panic "fuel"
    | S fuel =>
        bmap i (off / BSIZE) ≫= fun b =>
        bread_ b ≫= fun x =>
        let m := Z.min (n - tot) (BSIZE - off mod BSIZE) in
        readi_loop fuel i (tot + m) (off + m) n (dst ++ bytes_at x (off mod BSIZE) (Z.to_nat m))
    end
  else mret dst.

Definition readi (i : nat) (off n : Z) : M fs (Z * list Z) :=
  with_inode i (fun ip =>
  if i_type ip =? T_DEV then
    if (i_major ip <? 0) || (NDEV <=? i_major ip) then mret (-1, [])
    else match devsw_read (i_major ip) with
         | None => mret (-1, [])
         | Some read => read i n
         end
  else if (i_size ip <? off) || (u32 (off + n) <? off) then mret (-1, [])
  else
    let n := if i_size ip <? off + n then i_size ip - off else n in
    readi_loop (Z.to_nat n) i 0 off n [] ≫= fun dst => mret (n, dst)).

(** memmove(bp->data + o, src, m), for the [m] bytes of [l]. *)
Fixpoint blit (x : block) (o : Z) (l : list Z) : block :=
  match l with [] => x | c :: l => blit (upd x o c) (o + 1) l end.

(** The loop of writei; the new off is returned. *)
Fixpoint writei_loop (fuel : nat) (i : nat) (tot off n : Z) (src : list Z) : M fs Z :=
  if tot <? n then
    match fuel with
    | O => panic "fuel"
    | S fuel =>
        bmap i (off / BSIZE) ≫= fun b =>
        bread_ b ≫= fun x =>
        let m := Z.min (n - tot) (BSIZE - off mod BSIZE) in
        bset_ b (blit x (off mod BSIZE) (take (Z.to_nat m) src)) ≫= fun _ =>
        log_write_ b ≫= fun _ =>
        writei_loop fuel i (tot + m) (off + m) n (drop (Z.to_nat m) src)
    end
  else mret off.

Definition writei (i : nat) (src : list Z) (off n : Z) : M fs Z :=
  with_inode i (fun ip =>
  if i_type ip =? T_DEV then
    if (i_major ip <? 0) || (NDEV <=? i_major ip) then mret (-1)
    else match devsw_write (i_major ip) with
         | None => mret (-1)
         | Some write => write i src n
         end
  else if (i_size ip <? off) || (u32 (off + n) <? off) then mret (-1)
  else if MAXFILE * BSIZE <? off + n then mret (-1)
  else
    writei_loop (Z.to_nat n) i 0 off n src ≫= fun off =>
    with_inode i (fun ip =>
    (if (0 <? n) && (i_size ip <? off) then
       modify (on_inode i (set_size off)) ≫= fun _ => iupdate i
     else mret tt) ≫= fun _ => mret n)).

End calls.

(** iinit: the inode cache of a boot, all references 0, and the superblock. *)
Definition iinit (s : fs) : outcome fs unit :=
  let s := mk_fs false (set_ilock initsleeplock <$> inodes s) (sb s) (fl s) in
  (readsb ≫= fun b => modify (set_sb b)) s.
