(* ===== verification/FsBlocks.v ===== *)
(** The block allocator of fs.c: the bitmap as a set of used blocks.

    [used s b] is the bit of block [b].  balloc takes the first free block,
    marks it and zeroes it; bfree clears the bit of a used block.  The number
    of free blocks is counted, so that clients can say how many allocations
    succeed; [room k] says that the transaction has space for [k] more blocks. *)

From S2P Require Import Prelude Word Mem Spinlock Block Log Fs.

Local Open Scope Z_scope.

(** ** Space in the log *)

Definition room (k : Z) (s : fs) : Prop :=
  lg_lock (fl s) = false /\ 1 <= outstanding (fl s) /\
  lh_n (fl s) + k <= LOGSIZE /\ lh_n (fl s) + k <= size (fl s) - 1.

Definition logged (b : Z) (s : fs) : fs := set_fl (set_lh (add_block b (lh (fl s))) (fl s)) s.

Lemma add_block_length b l : (length (add_block b l) <= S (length l))%nat.
Proof. unfold add_block. case_bool_decide; rewrite ?length_app; cbn; lia. Qed.

Lemma room_le k k' s : room k s -> k' <= k -> room k' s.
Proof. unfold room. intros (?&?&?&?) ?. split_and!; try done; lia. Qed.

Lemma log_write_room k b s :
  0 <= k -> room (k + 1) s -> log_write_ b s = Ret (logged b s) tt /\ room k (logged b s).
Proof.
  intros Hk (Hl & Ho & H1 & H2). unfold log_write_, lift_log.
  rewrite log_write_eq by (done || lia). split; [done|].
  pose proof (add_block_length b (lh (fl s))) as Ha. unfold room, logged, lh_n in *. cbn. split_and!; try done; lia.
Qed.

(** Setting a block does not touch the log. *)
Definition wrote (b : Z) (x : block) (s : fs) : fs :=
  set_fl (set_dv (blk_set b x (dv (fl s))) (fl s)) s.

Lemma vw_wrote b x s : vw (wrote b x s) = setb (vw s) b x.
Proof. done. Qed.
Lemma vw_logged b s : vw (logged b s) = vw s.
Proof. done. Qed.
Lemma room_wrote k b x s : room k (wrote b x s) <-> room k s.
Proof. done. Qed.

(** Read, modify, log: what every update of a block does. *)
Lemma set_and_log k b x s :
  0 <= k -> room (k + 1) s ->
  (bset_ b x ≫= fun _ => log_write_ b) s = Ret (logged b (wrote b x s)) tt /\ room k (logged b (wrote b x s)).
Proof. intros Hk Hr. apply (log_write_room k b (wrote b x s)); done. Qed.

(** What the updates inside a transaction do to the log and the disk: the disk
    waits for the commit, and every block whose content changes is logged. *)
Record tx (s s' : fs) : Prop := {
  tx_disk : disk (dv (fl s')) = disk (dv (fl s)) /\ hist (dv (fl s')) = hist (dv (fl s));
  tx_log : start (fl s') = start (fl s) /\ size (fl s') = size (fl s) /\ lg_lock (fl s') = lg_lock (fl s) /\
           outstanding (fl s') = outstanding (fl s) /\ committing (fl s') = committing (fl s);
  tx_nodup : NoDup (lh (fl s)) -> NoDup (lh (fl s'));
  tx_grows : forall b, b ∈ lh (fl s) -> b ∈ lh (fl s');
  tx_logged : forall b, b ∉ lh (fl s') -> vw s' b = vw s b;
}.

Lemma tx_refl s : tx s s.
Proof. by split. Qed.

Lemma tx_trans s1 s2 s3 : tx s1 s2 -> tx s2 s3 -> tx s1 s3.
Proof.
  intros [(H1 & H1') (H2 & H3 & H4 & H5 & H6) H7 H8 H9] [(J1 & J1') (J2 & J3 & J4 & J5 & J6) J7 J8 J9].
  split; [split; congruence | split_and!; congruence | auto | auto |].
  intros b Hb. rewrite J9 by done. apply H9. auto.
Qed.

Lemma elem_add_block b c l : c ∈ add_block b l <-> c ∈ l \/ c = b.
Proof.
  unfold add_block. case_bool_decide as H; [|by rewrite elem_of_app, list_elem_of_singleton].
  split; [by left | intros [Hc| ->]; done].
Qed.

Lemma tx_update b x s : tx s (logged b (wrote b x s)).
Proof.
  split; [done | done | | |]; change (lh (fl (logged b (wrote b x s)))) with (add_block b (lh (fl s))).
  - intros Hn. unfold add_block. case_bool_decide as Hb; [done|]. apply list.NoDup_app. split_and!; [done | | apply NoDup_singleton].
    intros c Hc ->%list_elem_of_singleton. done.
  - intros c Hc. apply elem_add_block. by left.
  - intros c Hc. rewrite elem_add_block in Hc. rewrite vw_logged, vw_wrote. apply setb_ne. intros ->. apply Hc. by right.
Qed.

(** [s'] differs from [s] in the blocks and the log only. *)
Definition same_icache (s s' : fs) : Prop :=
  ic_lock s' = ic_lock s /\ inodes s' = inodes s /\ sb s' = sb s.

Lemma same_icache_refl s : same_icache s s.
Proof. done. Qed.
Lemma same_icache_trans s1 s2 s3 : same_icache s1 s2 -> same_icache s2 s3 -> same_icache s1 s3.
Proof. intros (?&?&?) (?&?&?). split_and!; congruence. Qed.
Lemma same_icache_logged b x s : same_icache s (logged b (wrote b x s)).
Proof. done. Qed.

(** ** Bits *)

Lemma bit_mask_mask bi : bit_mask bi = mask (bi mod 8).
Proof.
  unfold bit_mask. pose proof (Z.mod_pos_bound bi 8 eq_refl) as Hm. rewrite mask_pow by lia.
  by rewrite Z.shiftl_1_l.
Qed.

Lemma bit_used_testbit x bi : bit_used x bi = Z.testbit (x (bi / 8)) (bi mod 8).
Proof.
  unfold bit_used. rewrite bit_mask_mask. apply bit_test_testbit.
  pose proof (Z.mod_pos_bound bi 8 eq_refl). lia.
Qed.

Lemma same_bit a b : a / 8 = b / 8 -> a mod 8 = b mod 8 -> a = b.
Proof. intros. rewrite (Z_div_mod_eq_full a 8), (Z_div_mod_eq_full b 8). congruence. Qed.

Lemma bit_used_mark x a b : bit_used (mark_bit x a) b = bit_used x b || (b =? a).
Proof.
  rewrite !bit_used_testbit. unfold mark_bit, upd. rewrite bit_mask_mask.
  pose proof (Z.mod_pos_bound a 8 eq_refl). pose proof (Z.mod_pos_bound b 8 eq_refl).
  destruct (Z.eqb_spec (b / 8) (a / 8)) as [E|E].
  - rewrite Z.lor_spec, testbit_mask, <- E by lia. f_equal.
    destruct (Z.eqb_spec b a) as [->|Hne]; [by apply Z.eqb_eq|]. apply Z.eqb_neq.
    intros Hm. apply Hne, same_bit; congruence.
  - destruct (Z.eqb_spec b a) as [->|Hne]; [done | by rewrite orb_false_r].
Qed.

Lemma bit_used_clear x a b : bit_used (clear_bit x a) b = bit_used x b && negb (b =? a).
Proof.
  rewrite !bit_used_testbit. unfold clear_bit, upd. rewrite bit_mask_mask.
  pose proof (Z.mod_pos_bound a 8 eq_refl). pose proof (Z.mod_pos_bound b 8 eq_refl).
  destruct (Z.eqb_spec (b / 8) (a / 8)) as [E|E].
  - rewrite Z.land_spec, Z.lnot_spec, testbit_mask, <- E by lia. f_equal. f_equal.
    destruct (Z.eqb_spec b a) as [->|Hne]; [by apply Z.eqb_eq|]. apply Z.eqb_neq.
    intros Hm. apply Hne, same_bit; congruence.
  - destruct (Z.eqb_spec b a) as [->|Hne]; [done | by rewrite andb_true_r].
Qed.

Definition used (s : fs) (b : Z) : bool := bit_used (vw s (BBLOCK b (sb s))) (b mod BPB).

(** Block [c] holds a part of the bitmap. *)
Definition is_bitmap (s : fs) (c : Z) : Prop :=
  exists b, 0 <= b < sb_size (sb s) /\ c = BBLOCK b (sb s).

(** The bitmap marks its own blocks, and block 0, as used. *)
Record bitmap_ok (s : fs) : Prop := {
  bo_size : 0 < sb_size (sb s) < 2 ^ 32;
  bo_zero : used s 0 = true;
  bo_self : forall c, is_bitmap s c -> 0 <= c < sb_size (sb s) -> used s c = true;
}.

Lemma BBLOCK_same a b sb : 0 <= a -> 0 <= b -> BBLOCK a sb = BBLOCK b sb -> a mod BPB = b mod BPB -> a = b.
Proof.
  unfold BBLOCK. intros Ha Hb H1 H2. rewrite (Z_div_mod_eq_full a BPB), (Z_div_mod_eq_full b BPB).
  f_equal; [f_equal; lia | done].
Qed.

(** ** balloc *)

Lemma find_free_spec n bi x :
  match find_free n bi x with
  | Some j => bi <= j < bi + Z.of_nat n /\ bit_used x j = false /\ forall k, bi <= k < j -> bit_used x k = true
  | None => forall k, bi <= k < bi + Z.of_nat n -> bit_used x k = true
  end.
Proof.
  revert bi. induction n as [|n IH]; intros bi; cbn [find_free]; [lia|].
  destruct (bit_used x bi) eqn:E; cbn [negb].
  - specialize (IH (bi + 1)). destruct find_free as [j|].
    + destruct IH as (Hj & Hf & Ha). split_and!; [lia | lia | done|]. intros k Hk.
      destruct (decide (k = bi)) as [->|]; [done | apply Ha; lia].
    + intros k Hk. destruct (decide (k = bi)) as [->|]; [done | apply IH; lia].
  - split_and!; [lia | lia | done | lia].
Qed.

(** The state in which balloc leaves the file system when it returns [c]. *)
Definition marked (c : Z) (s : fs) : fs :=
  let bb := BBLOCK c (sb s) in logged bb (wrote bb (mark_bit (vw s bb) (c mod BPB)) s).
Definition zeroed (c : Z) (s : fs) : fs := logged c (wrote c (memset (vw s c) 0 0 BSIZE) s).

Lemma bzero_eq k c s : 0 <= k -> room (k + 1) s -> bzero c s = Ret (zeroed c s) tt /\ room k (zeroed c s).
Proof. intros Hk Hr. by apply set_and_log. Qed.

Lemma bitmap_index q c :
  BPB * q <= c < BPB * q + BPB -> c / BPB = q /\ c mod BPB = c - BPB * q.
Proof.
  intros Hc. assert (Hq : c / BPB = q).
  { symmetry. apply (Z.div_unique c BPB q (c - BPB * q)); [left; lia | lia]. }
  split; [done|]. rewrite Z.mod_eq, Hq by done. done.
Qed.

Lemma used_in_block s q j :
  0 <= j < BPB -> used s (BPB * q + j) = bit_used (vw s (BBLOCK (BPB * q) (sb s))) j.
Proof.
  intros Hj. unfold used, BBLOCK. destruct (bitmap_index q (BPB * q + j)) as [-> ->]; [lia|].
  rewrite (Z.mul_comm BPB q), Z.div_mul by done. f_equal. lia.
Qed.

Lemma balloc_loop_spec n q k s :
  0 <= k -> room (k + 2) s -> sb_size (sb s) <= BPB * q + BPB * Z.of_nat n ->
  (exists c, BPB * q <= c < sb_size (sb s) /\ used s c = false /\
     (forall d, BPB * q <= d < c -> used s d = true) /\
     balloc_loop n (BPB * q) s = Ret (zeroed c (marked c s)) c /\ room k (zeroed c (marked c s))) \/
  ((forall d, BPB * q <= d < sb_size (sb s) -> used s d = true) /\
   balloc_loop n (BPB * q) s = Panic "balloc: out of blocks").
Proof.
  intros Hk Hr. revert q. induction n as [|n IH]; intros q Hn.
  { right. split; [lia | done]. }
  set (w := Z.min BPB (sb_size (sb s) - BPB * q)).
  set (x := vw s (BBLOCK (BPB * q) (sb s))).
  assert (E : balloc_loop (S n) (BPB * q) s =
    match find_free (Z.to_nat w) 0 x with
    | Some bi => (bset_ (BBLOCK (BPB * q) (sb s)) (mark_bit x bi) ≫= fun _ =>
        log_write_ (BBLOCK (BPB * q) (sb s)) ≫= fun _ => bzero (BPB * q + bi) ≫= fun _ => mret (BPB * q + bi)) s
    | None => balloc_loop n (BPB * q + BPB) s
    end).
  { unfold w, x. cbn [balloc_loop]. unfold get, bread_, mbind, M_bind, blk_read, vw. by destruct find_free. }
  rewrite E. clear E. pose proof (find_free_spec (Z.to_nat w) 0 x) as Hf.
  destruct find_free as [bi|].
  - left. destruct Hf as (Hbi & Hb & Hl). assert (Hw : 0 <= bi < w) by lia. unfold w in Hw.
    exists (BPB * q + bi). destruct (bitmap_index q (BPB * q + bi)) as [Hd Hm]; [lia|].
    assert (HB : BBLOCK (BPB * q + bi) (sb s) = BBLOCK (BPB * q) (sb s)).
    { unfold BBLOCK. by rewrite Hd, (Z.mul_comm BPB q), Z.div_mul. }
    destruct (set_and_log (k + 1) (BBLOCK (BPB * q) (sb s)) (mark_bit x bi) s) as [Hs Hr1]; [lia | eapply room_le; [done|lia]|].
    assert (Hmk : logged (BBLOCK (BPB * q) (sb s)) (wrote (BBLOCK (BPB * q) (sb s)) (mark_bit x bi) s) = marked (BPB * q + bi) s).
    { unfold marked. rewrite HB, Hm. unfold x. do 3 f_equal. lia. }
    rewrite Hmk in Hs, Hr1. destruct (bzero_eq k (BPB * q + bi) _ Hk Hr1) as [Hz Hr2].
    split_and!; [lia | lia | | | | done].
    + rewrite used_in_block by lia. done.
    + intros d Hd'. replace d with (BPB * q + (d - BPB * q)) by lia. rewrite used_in_block by lia. apply Hl. lia.
    + change ((bset_ (BBLOCK (BPB * q) (sb s)) (mark_bit x bi) ≫= fun _ => log_write_ (BBLOCK (BPB * q) (sb s)) ≫= fun _ =>
        bzero (BPB * q + bi) ≫= fun _ => mret (BPB * q + bi)) s) with
        (((bset_ (BBLOCK (BPB * q) (sb s)) (mark_bit x bi) ≫= fun _ => log_write_ (BBLOCK (BPB * q) (sb s))) ≫= fun _ =>
        bzero (BPB * q + bi) ≫= fun _ => mret (BPB * q + bi)) s).
      erewrite bind_ret by exact Hs. by erewrite bind_ret by exact Hz.
  - assert (Hu : forall d, BPB * q <= d < BPB * q + w -> used s d = true).
    { intros d Hd. assert (0 <= d - BPB * q < BPB) by lia.
      replace d with (BPB * q + (d - BPB * q)) by lia. rewrite used_in_block by lia. apply Hf. lia. }
    replace (BPB * q + BPB) with (BPB * (q + 1)) by lia.
    destruct (IH (q + 1)) as [(c & Hc & Hc2 & Hc3 & Hc4 & Hc5)|[Ha He]]; [lia | |].
    + assert (0 < BPB) by done. left. exists c. split_and!; try done; [lia | lia|]. intros d Hd.
      destruct (decide (d < BPB * q + w)); [apply Hu; lia|]. unfold w in *. apply Hc3. lia.
    + right. split; [|done]. intros d Hd. destruct (decide (d < BPB * q + w)); [apply Hu; lia|].
      unfold w in *. apply Ha. lia.
Qed.

(** The free blocks. *)
Definition free_blocks (s : fs) : list Z :=
  filter (fun b => used s b = false) (seqZ 0 (sb_size (sb s))).
Definition nfree (s : fs) : Z := Z.of_nat (length (free_blocks s)).

Lemma free_blocks_elem s b : b ∈ free_blocks s <-> used s b = false /\ 0 <= b < sb_size (sb s).
Proof. unfold free_blocks. rewrite list_elem_of_filter, elem_of_seqZ. naive_solver lia. Qed.

Lemma balloc_cases k s :
  0 <= k -> room (k + 2) s ->
  (exists c, 0 <= c < sb_size (sb s) /\ used s c = false /\ (forall d, 0 <= d < c -> used s d = true) /\
     balloc s = Ret (zeroed c (marked c s)) c /\ room k (zeroed c (marked c s))) \/
  (nfree s = 0 /\ balloc s = Panic "balloc: out of blocks").
Proof.
  intros Hk Hr.
  destruct (balloc_loop_spec (Z.to_nat ((sb_size (sb s) + BPB - 1) / BPB)) 0 k s) as [H|[Ha He]]; [done..| | |].
  - pose proof (Z_div_mod_eq_full (sb_size (sb s) + BPB - 1) BPB) as E.
    pose proof (Z.mod_pos_bound (sb_size (sb s) + BPB - 1) BPB eq_refl) as Hm.
    destruct (Z.leb_spec 0 ((sb_size (sb s) + BPB - 1) / BPB)); [rewrite Z2Nat.id by done; lia|].
    rewrite Z2Nat.nonpos by lia. assert (0 < BPB) by done. nia.
  - by left.
  - right. split; [|done]. unfold nfree. destruct (free_blocks s) as [|b l] eqn:E; [done|].
    assert (Hb : b ∈ free_blocks s) by (rewrite E; by left).
    apply free_blocks_elem in Hb as [Hu Hb]. rewrite Ha in Hu by lia. done.
Qed.

(** The block handed out is not a part of the bitmap, so zeroing it leaves the
    bitmap alone. *)
Lemma free_not_bitmap s c :
  bitmap_ok s -> 0 <= c < sb_size (sb s) -> used s c = false -> ~ is_bitmap s c.
Proof. intros Hok Hc Hu Hb. rewrite (bo_self s Hok) in Hu; done. Qed.

Lemma vw_marked c s d :
  vw (marked c s) d = if d =? BBLOCK c (sb s) then mark_bit (vw s (BBLOCK c (sb s))) (c mod BPB) else vw s d.
Proof. done. Qed.

Lemma vw_zeroed c s d : vw (zeroed c s) d = if d =? c then memset (vw s c) 0 0 BSIZE else vw s d.
Proof. done. Qed.

Lemma used_marked c s b : 0 <= b -> 0 <= c -> used (marked c s) b = used s b || (b =? c).
Proof.
  intros Hb Hc. unfold used. change (sb (marked c s)) with (sb s). rewrite vw_marked.
  destruct (Z.eqb_spec (BBLOCK b (sb s)) (BBLOCK c (sb s))) as [E|E].
  - rewrite <- E, bit_used_mark. f_equal. destruct (Z.eqb_spec b c) as [->|Hne]; [by apply Z.eqb_eq|].
    apply Z.eqb_neq. intros Hm. apply Hne. by eapply BBLOCK_same.
  - destruct (Z.eqb_spec b c) as [->|Hne]; [done | by rewrite orb_false_r].
Qed.

Lemma used_zeroed c s b : c <> BBLOCK b (sb s) -> used (zeroed c s) b = used s b.
Proof.
  intros Hc. unfold used. change (sb (zeroed c s)) with (sb s). rewrite vw_zeroed.
  destruct (Z.eqb_spec (BBLOCK b (sb s)) c); congruence.
Qed.

Lemma used_balloc c s b :
  bitmap_ok s -> 0 <= c < sb_size (sb s) -> used s c = false -> 0 <= b < sb_size (sb s) ->
  used (zeroed c (marked c s)) b = used s b || (b =? c).
Proof.
  intros Hok Hc Hu Hb. rewrite used_zeroed, used_marked; [done | lia | lia|].
  intros E. by apply (free_not_bitmap s c); [..|exists b].
Qed.

Lemma filter_ext_in (P Q : Z -> Prop) `{!forall x, Decision (P x), !forall x, Decision (Q x)} (l : list Z) :
  (forall x, x ∈ l -> (P x <-> Q x)) -> filter P l = filter Q l.
Proof.
  induction l as [|x l IH]; intros Hl; [done|]. rewrite !filter_cons, IH by (intros; apply Hl; by right).
  pose proof (Hl x ltac:(by left)). destruct (decide (P x)), (decide (Q x)); tauto.
Qed.

Lemma length_filter_drop (P Q : Z -> Prop) `{!forall x, Decision (P x), !forall x, Decision (Q x)} c l :
  NoDup l -> c ∈ l -> P c -> ~ Q c -> (forall x, x ∈ l -> x <> c -> (P x <-> Q x)) ->
  length (filter P l) = S (length (filter Q l)).
Proof.
  induction l as [|x l IH]; intros Hnd Hin HP HQ Hx; [set_solver|].
  apply list.NoDup_cons in Hnd as [Hnx Hnd]. rewrite !filter_cons.
  destruct (decide (x = c)) as [->|Hne].
  - rewrite decide_True, decide_False by done. cbn. f_equal. f_equal.
    apply filter_ext_in. intros y Hy. apply Hx; [by right|]. by intros ->.
  - assert (E : P x <-> Q x) by (apply Hx; [by left | done]).
    assert (IH' : length (filter P l) = S (length (filter Q l))).
    { apply IH; [done | | done | done |]. { apply elem_of_cons in Hin as [->|?]; done. }
      intros y Hy. apply Hx. by right. }
    destruct (decide (P x)), (decide (Q x)); cbn; try tauto; lia.
Qed.

Lemma nfree_pos s : 0 < nfree s <-> exists b, 0 <= b < sb_size (sb s) /\ used s b = false.
Proof.
  unfold nfree. split.
  - destruct (free_blocks s) as [|b l] eqn:E; [cbn; lia|]. intros _. exists b.
    assert (Hb : b ∈ free_blocks s) by (rewrite E; by left). apply free_blocks_elem in Hb. tauto.
  - intros (b & Hb & Hu). assert (Hin : b ∈ free_blocks s) by (by apply free_blocks_elem).
    destruct (free_blocks s); [set_solver | cbn; lia].
Qed.

Lemma nfree_balloc c s :
  bitmap_ok s -> 0 <= c < sb_size (sb s) -> used s c = false ->
  nfree (zeroed c (marked c s)) = nfree s - 1.
Proof.
  intros Hok Hc Hu. unfold nfree, free_blocks. change (sb (zeroed c (marked c s))) with (sb s).
  rewrite (length_filter_drop (fun b => used s b = false) (fun b => used (zeroed c (marked c s)) b = false) c).
  - lia.
  - apply NoDup_seqZ.
  - apply elem_of_seqZ. lia.
  - done.
  - rewrite used_balloc by done. rewrite Z.eqb_refl, orb_true_r. done.
  - intros b Hb Hne. apply elem_of_seqZ in Hb. rewrite used_balloc by (done || lia).
    destruct (Z.eqb_spec b c); [done|]. by rewrite orb_false_r.
Qed.

(** What a caller of balloc gets: [s'] is [s] with the free block [c] taken
    and zeroed. *)
Record allocated (s s' : fs) (c : Z) : Prop := {
  al_range : 0 < c < sb_size (sb s);
  al_free : used s c = false;
  al_bitmap : ~ is_bitmap s c;
  al_first : forall d, 0 <= d < c -> used s d = true;
  al_used : forall b, 0 <= b < sb_size (sb s) -> used s' b = used s b || (b =? c);
  al_zero : forall a, 0 <= a < BSIZE -> vw s' c a = 0;
  al_frame : forall b, b <> c -> ~ is_bitmap s b -> vw s' b = vw s b;
  al_icache : same_icache s s';
  al_nfree : nfree s' = nfree s - 1;
  al_ok : bitmap_ok s';
  al_tx : tx s s';
  al_lh : forall b, b ∈ lh (fl s') -> b ∈ lh (fl s) \/ b = c \/ is_bitmap s b;
}.

Lemma balloc_ok k s :
  0 <= k -> room (k + 2) s -> bitmap_ok s -> 0 < nfree s ->
  exists s' c, balloc s = Ret s' c /\ room k s' /\ allocated s s' c.
Proof.
  intros Hk Hr Hok Hf.
  destruct (balloc_cases k s Hk Hr) as [(c & Hc & Hu & Hl & He & Hr')|[Hz _]]; [|lia].
  exists (zeroed c (marked c s)), c. split_and!; [done..|].
  pose proof (free_not_bitmap s c Hok Hc Hu) as Hb.
  assert (H0 : c <> 0) by (intros ->; rewrite (bo_zero s Hok) in Hu; done).
  assert (Hused : forall b, 0 <= b < sb_size (sb s) ->
    used (zeroed c (marked c s)) b = used s b || (b =? c)) by (intros; by apply used_balloc).
  split; try done.
  - lia.
  - intros a Ha. rewrite vw_zeroed, Z.eqb_refl, memset_byte. unfold in_range.
    destruct (Z.leb_spec 0 a), (Z.ltb_spec a (0 + BSIZE)); cbn; done || lia.
  - intros b Hbc Hnb. rewrite vw_zeroed. destruct (Z.eqb_spec b c); [done|]. rewrite vw_marked.
    destruct (Z.eqb_spec b (BBLOCK c (sb s))) as [->|]; [|done]. destruct Hnb. by exists c.
  - by apply nfree_balloc.
  - split; [apply Hok | |].
    + rewrite Hused by lia. rewrite (bo_zero s Hok). done.
    + intros d Hd Hd2. rewrite Hused by done. rewrite (bo_self s Hok) by done. done.
  - eapply tx_trans; apply tx_update.
  - intros b Hb'. cbn in Hb'. rewrite !elem_add_block in Hb'. destruct Hb' as [[Hb'| ->]| ->]; [by left | right; right; by exists c | right; by left].
Qed.

(** C27 (functional): Inside a transaction with space for two blocks, balloc
    returns a block exactly when one is free.  The block is the first free
    one; it is marked used and zeroed, no other bit and no other block
    outside the bitmap changes.  With no free block balloc panics. *)
Theorem balloc_spec (s : fs) :
  room 2 s -> bitmap_ok s ->
  (0 < nfree s -> exists s' c, balloc s = Ret s' c /\ allocated s s' c) /\
  (nfree s = 0 -> balloc s = Panic "balloc: out of blocks").
Proof.
  intros Hr Hok. split.
  - intros Hf. destruct (balloc_ok 0 s) as (s' & c & He & _ & Ha); [done..|]. eauto.
  - intros Hz. destruct (balloc_cases 0 s ltac:(done) Hr) as [(c & Hc & Hu & _)|[_ He]]; [|done].
    assert (0 < nfree s) by (apply nfree_pos; eauto). lia.
Qed.

(** ** bfree *)

(** Bfree of a used block clears its bit and no other, in
    one block of the transaction; freeing a free block panics.  So a block
    that balloc returned can be freed exactly once, and then is free again. *)
Theorem bfree_spec (s : fs) (b : Z) :
  room 1 s -> 0 <= b -> 
  (used s b = true -> exists s', bfree b s = Ret s' tt /\ used s' b = false /\
     (forall c, 0 <= c -> c <> b -> used s' c = used s c) /\
     (forall c, c <> BBLOCK b (sb s) -> vw s' c = vw s c) /\ same_icache s s' /\
     bfree b s' = Panic "freeing free block") /\
  (used s b = false -> bfree b s = Panic "freeing free block").
Proof.
  intros Hr Hb. assert (Hpanic : forall s, used s b = false -> bfree b s = Panic "freeing free block").
  { intros s0 Hu. unfold bfree, get, bread_, mbind, M_bind. unfold used, vw in Hu. unfold blk_read. rewrite Hu. done. }
  split; [|apply Hpanic]. intros Hu.
  set (bb := BBLOCK b (sb s)). set (x := vw s bb).
  set (s' := logged bb (wrote bb (clear_bit x (b mod BPB)) s)).
  assert (Hused : forall c, 0 <= c -> used s' c = used s c && negb (c =? b)).
  { intros c Hc. unfold used. change (vw s') with (setb (vw s) bb (clear_bit x (b mod BPB))).
    change (sb s') with (sb s). unfold setb. destruct (Z.eqb_spec (BBLOCK c (sb s)) bb) as [E|E].
    - rewrite bit_used_clear. unfold x. rewrite <- E. do 2 f_equal.
      destruct (Z.eqb_spec c b) as [->|Hne]; [by apply Z.eqb_eq|]. apply Z.eqb_neq. intros Hm. apply Hne.
      by eapply BBLOCK_same.
    - destruct (Z.eqb_spec c b) as [->|Hne]; [done | by rewrite andb_true_r]. }
  exists s'. assert (Hbu : used s' b = false) by (rewrite Hused by done; by rewrite Z.eqb_refl, andb_false_r).
  split_and!; [| done | | | done | by apply Hpanic].
  - destruct (set_and_log 0 bb (clear_bit x (b mod BPB)) s) as [Hs _]; [lia | done|]. etrans; [|exact Hs].
    unfold bfree, get, bread_, mbind, M_bind. unfold used, vw in Hu. unfold blk_read. rewrite Hu. done.
  - intros c Hc Hne. rewrite Hused by done. destruct (Z.eqb_spec c b); [done | by rewrite andb_true_r].
  - intros c Hc. change (vw s' c) with (setb (vw s) bb (clear_bit x (b mod BPB)) c). by apply setb_ne.
Qed.

(** ** Witnesses *)

(** A disk of 40 blocks, blocks 0 to 32 used: block 32 is the bitmap. *)
Definition small_sb : superblock := mk_superblock 40 7 8 26 2 28 32.
Definition small_disk : Z -> block := fun b a => if b =? 32 then (if a <? 4 then 255 else if a =? 4 then 1 else 0) else 7.
Definition small_fs : fs := mk_fs false [] small_sb (mk_log false 2 26 1 false [] 0 (restart small_disk)).

Lemma small_room k : k <= 25 -> room k small_fs.
Proof. intros. unfold room, LOGSIZE, MAXOPBLOCKS, lh_n. cbn. lia. Qed.

Lemma small_bitmap_ok : bitmap_ok small_fs.
Proof.
  split; [cbn; lia | reflexivity|]. intros c (b & Hb & ->) _. cbn in Hb.
  replace (BBLOCK b (sb small_fs)) with 32; [reflexivity|]. unfold BBLOCK, BPB, BSIZE. cbn.
  rewrite Z.div_small; lia.
Qed.

Lemma balloc_spec_witness :
  exists s' c, balloc small_fs = Ret s' c /\ allocated small_fs s' c.
Proof. apply (balloc_spec small_fs); [apply small_room; lia | apply small_bitmap_ok | reflexivity]. Defined.

Lemma bfree_spec_witness :
  exists s', bfree 31 small_fs = Ret s' tt /\ used s' 31 = false.
Proof.
  destruct (bfree_spec small_fs 31 (small_room 1 ltac:(lia)) ltac:(lia)) as [H _].
  destruct (H eq_refl) as (s' & H1 & H2 & _). eauto.
Defined.
