(* ===== verification/FsInode.v ===== *)
(** Inodes (fs.c): the on-disk format, and the reference-counted cache.

    A dinode takes 64 bytes of its block; iupdate and ilock are inverse on
    it.  iget, idup and iput keep at most one entry of the cache per inode
    number, and never recycle one that is referenced. *)

From S2P Require Import Prelude Word Mem Spinlock Block Log Fs FsBlocks.

Local Open Scope Z_scope.

(** ** The on-disk format *)

Definition is_s16 (z : Z) : Prop := - 2 ^ 15 <= z < 2 ^ 15.

Lemma store16_out x d v a : a < d \/ d + 2 <= a -> store16 x d v a = x a.
Proof. intros H. unfold store16, upd. case_ifs; done || lia. Qed.

Lemma load16_store16_eq x a v : is_s16 v -> s16 (load16 (store16 x a v) a) = v.
Proof.
  intros Hv. unfold load16, store16. rewrite upd_ne, upd_eq, upd_eq by lia.
  unfold is_s16, u8, s16 in *. rewrite Z.shiftr_div_pow2 by lia.
  pose proof (Z_div_mod_eq_full v (2 ^ 8)). pose proof (Z.mod_pos_bound v (2 ^ 8) ltac:(lia)).
  pose proof (Z_div_mod_eq_full (v / 2 ^ 8) (2 ^ 8)). pose proof (Z.mod_pos_bound (v / 2 ^ 8) (2 ^ 8) ltac:(lia)).
  assert (- 2 ^ 7 <= v / 2 ^ 8 < 2 ^ 7) by lia.
  set (lo := v mod 2 ^ 8) in *. set (hi := (v / 2 ^ 8) mod 2 ^ 8) in *.
  assert (Hq : (v / 2 ^ 8) / 2 ^ 8 = 0 \/ (v / 2 ^ 8) / 2 ^ 8 = -1) by lia.
  destruct Hq as [Hq|Hq].
  - rewrite Z.mod_small by lia. lia.
  - replace (lo + 256 * hi + 2 ^ 15) with (v + 2 ^ 15 + 1 * 2 ^ 16) by lia.
    rewrite Z.mod_add, Z.mod_small by lia. lia.
Qed.

Lemma load16_ext x y a : (forall b, a <= b < a + 2 -> y b = x b) -> load16 y a = load16 x a.
Proof. intros H. unfold load16. rewrite !H by lia. done. Qed.

Lemma store_addrs_out l x d a :
  a < d \/ d + 4 * Z.of_nat (length l) <= a -> store_addrs l x d a = x a.
Proof.
  revert x d. induction l as [|v l IH]; intros x d Ha; cbn [store_addrs length] in *; [done|].
  rewrite IH, store32_out by lia. done.
Qed.

Lemma load_store_addrs l x d : Forall is_u32 l -> load_addrs (length l) (store_addrs l x d) d = l.
Proof.
  revert x d. induction l as [|v l IH]; intros x d Hl; cbn [store_addrs length load_addrs]; [done|].
  apply Forall_cons_1 in Hl as [Hv Hl]. rewrite IH by done. f_equal.
  rewrite <- (load32_store32_eq x d v Hv) at 2. apply load32_ext. intros b Hb. apply store_addrs_out. lia.
Qed.

Lemma load_addrs_ext n x y a :
  (forall b, a <= b < a + 4 * Z.of_nat n -> y b = x b) -> load_addrs n y a = load_addrs n x a.
Proof.
  revert a. induction n as [|n IH]; intros a H; cbn [load_addrs]; [done|]. f_equal.
  - apply load32_ext. intros. apply H. lia.
  - apply IH. intros. apply H. lia.
Qed.

(** The fields fit their on-disk width. *)
Record inode_wf (ip : inode) : Prop := {
  iw_type : is_s16 (i_type ip);
  iw_major : is_s16 (i_major ip);
  iw_minor : is_s16 (i_minor ip);
  iw_nlink : is_s16 (i_nlink ip);
  iw_size : is_u32 (i_size ip);
  iw_len : length (i_addrs ip) = 13%nat;
  iw_addrs : Forall is_u32 (i_addrs ip);
}.

(** [load_dinode] takes the on-disk fields from the block and the others from
    its last argument. *)
Definition same_cached (ip ip' : inode) : inode :=
  mk_inode (i_dev ip') (i_inum ip') (i_ref ip') (i_lock ip') (i_valid ip')
    (i_type ip) (i_major ip) (i_minor ip) (i_nlink ip) (i_size ip) (i_addrs ip).

Lemma load16_store16_ne x a b v : b + 2 <= a \/ a + 2 <= b -> load16 (store16 x b v) a = load16 x a.
Proof. intros H. apply load16_ext. intros c Hc. apply store16_out. lia. Qed.
Lemma load16_store32_ne x a b v : b + 4 <= a \/ a + 2 <= b -> load16 (store32 x b v) a = load16 x a.
Proof. intros H. apply load16_ext. intros c Hc. apply store32_out. lia. Qed.
Lemma load16_store_addrs l x a b : a + 2 <= b -> load16 (store_addrs l x b) a = load16 x a.
Proof. intros H. apply load16_ext. intros c Hc. apply store_addrs_out. lia. Qed.
Lemma load32_store_addrs l x a b : a + 4 <= b -> load32 (store_addrs l x b) a = load32 x a.
Proof. intros H. apply load32_ext. intros c Hc. apply store_addrs_out. lia. Qed.

Lemma load_store_dinode x o ip ip' : inode_wf ip -> load_dinode (store_dinode x o ip) o ip' = same_cached ip ip'.
Proof.
  intros [Ht Hma Hmi Hnl Hsz Hlen Had]. unfold load_dinode, store_dinode, same_cached. cbv zeta.
  rewrite !load16_store_addrs, !load16_store32_ne, load32_store_addrs, load32_store32_eq by (done || lia).
  rewrite <- Hlen, load_store_addrs by done.
  f_equal; rewrite ?load16_store16_ne by lia; by apply load16_store16_eq.
Qed.

Lemma store_dinode_out x o ip a :
  length (i_addrs ip) = 13%nat -> a < o \/ o + DINODE_SIZE <= a -> store_dinode x o ip a = x a.
Proof.
  intros Hl Ha. unfold store_dinode, DINODE_SIZE in *. cbv zeta.
  rewrite store_addrs_out, store32_out, !store16_out by (rewrite ?Hl; lia). done.
Qed.

(** Another dinode of the block is left alone. *)
Lemma load_dinode_other x o o' ip ip' :
  length (i_addrs ip) = 13%nat -> o' + DINODE_SIZE <= o \/ o + DINODE_SIZE <= o' ->
  load_dinode (store_dinode x o ip) o' ip' = load_dinode x o' ip'.
Proof.
  intros Hl Ho. unfold DINODE_SIZE in Ho. unfold load_dinode.
  rewrite (load_addrs_ext 13 x); [|intros; apply store_dinode_out; [done | unfold DINODE_SIZE; lia]].
  rewrite (load32_ext x); [|intros; apply store_dinode_out; [done | unfold DINODE_SIZE; lia]].
  f_equal; f_equal; apply load16_ext; intros; apply store_dinode_out; done || (unfold DINODE_SIZE; lia).
Qed.

Lemma dinode_off_apart i j sb :
  IBLOCK i sb = IBLOCK j sb -> i <> j ->
  dinode_off j + DINODE_SIZE <= dinode_off i \/ dinode_off i + DINODE_SIZE <= dinode_off j.
Proof.
  unfold IBLOCK, dinode_off. intros Hb Hne.
  assert (Hm : i mod IPB <> j mod IPB).
  { intros Hm. apply Hne. rewrite (Z_div_mod_eq_full i IPB), (Z_div_mod_eq_full j IPB). f_equal; [f_equal; lia | done]. }
  unfold DINODE_SIZE. lia.
Qed.

Lemma iupdate_eq k s i ip :
  inodes s !! i = Some ip -> 0 <= k -> room (k + 1) s ->
  let ib := IBLOCK (i_inum ip) (sb s) in
  let s' := logged ib (wrote ib (store_dinode (vw s ib) (dinode_off (i_inum ip)) ip) s) in
  iupdate i s = Ret s' tt /\ room k s'.
Proof.
  intros Hi Hk Hr ib s'. unfold iupdate, with_inode. rewrite Hi. by apply (set_and_log k ib).
Qed.

(** The inode [inum] as it stands on the disk, seen through the cache. *)
Definition dinode (s : fs) (inum : Z) (ip : inode) : inode :=
  load_dinode (vw s (IBLOCK inum (sb s))) (dinode_off inum) ip.

(** Iupdate writes all of the inode's on-disk fields: reading
    them back, as ilock does, gives the same inode; every other inode of the
    disk, in the same block or not, reads as before. *)
Theorem iupdate_roundtrip (s : fs) (i : nat) (ip : inode) :
  inodes s !! i = Some ip -> inode_wf ip -> room 1 s ->
  exists s', iupdate i s = Ret s' tt /\ same_icache s s' /\ dinode s' (i_inum ip) ip = ip /\
    (forall inum x, inum <> i_inum ip -> dinode s' inum x = dinode s inum x) /\
    (forall b, b <> IBLOCK (i_inum ip) (sb s) -> vw s' b = vw s b).
Proof.
  intros Hi Hwf Hr. destruct (iupdate_eq 0 s i ip) as [He _]; [done | lia | done|].
  eexists. split; [exact He|]. split_and!; [done| | |].
  - unfold dinode. cbn [sb logged wrote set_fl]. rewrite vw_logged, vw_wrote, setb_eq, load_store_dinode by done.
    by destruct ip.
  - intros inum x Hne. unfold dinode. cbn [sb logged wrote set_fl]. rewrite vw_logged, vw_wrote.
    destruct (decide (IBLOCK inum (sb s) = IBLOCK (i_inum ip) (sb s))) as [E|E]; [|by rewrite setb_ne].
    rewrite E, setb_eq, load_dinode_other; [done | apply Hwf | by apply (dinode_off_apart _ _ (sb s))].
  - intros b Hb. rewrite vw_logged, vw_wrote. by rewrite setb_ne.
Qed.

(** ** The inode cache *)

Definition is_entry (dev_ inum : Z) (ip : inode) : Prop := 0 < i_ref ip /\ i_dev ip = dev_ /\ i_inum ip = inum.

Record icache_ok (s : fs) : Prop := {
  ic_refs : forall i ip, inodes s !! i = Some ip -> 0 <= i_ref ip;
  ic_unique : forall i j ip jp, inodes s !! i = Some ip -> inodes s !! j = Some jp ->
    0 < i_ref ip -> is_entry (i_dev ip) (i_inum ip) jp -> i = j;
  ic_free : ic_lock s = false;
}.

Lemma iget_scan_spec dev_ inum l k e :
  match iget_scan dev_ inum l k e with
  | inl i => exists j ip, i = (k + j)%nat /\ l !! j = Some ip /\ is_entry dev_ inum ip
  | inr r => (forall j ip, l !! j = Some ip -> ~ is_entry dev_ inum ip) /\
      match r with
      | Some i => e = Some i \/ (e = None /\ exists j ip, i = (k + j)%nat /\ l !! j = Some ip /\ i_ref ip = 0)
      | None => e = None /\ forall j ip, l !! j = Some ip -> i_ref ip <> 0
      end
  end.
Proof.
  revert k e. induction l as [|ip l IH]; intros k e; cbn [iget_scan].
  { split; [done|]. destruct e; [by left | done]. }
  destruct ((0 <? i_ref ip) && (i_dev ip =? dev_) && (i_inum ip =? inum)) eqn:E; to_prop.
  { exists 0%nat, ip. split_and!; [lia | done..]. }
  assert (Hno : ~ is_entry dev_ inum ip) by (intros (?&?&?); lia).
  set (e' := match e with Some _ => _ | None => _ end). specialize (IH (S k) e').
  destruct (iget_scan dev_ inum l (S k) e') as [i|r].
  - destruct IH as (j & jp & -> & Hj & He). exists (S j), jp. split_and!; [lia | done..].
  - destruct IH as [Ha Hr]. split.
    { intros [|j] jp Hj; cbn in Hj; [by simplify_eq | by eapply Ha]. }
    unfold e' in Hr. destruct e as [e|], (i_ref ip =? 0) eqn:Ez; to_prop; destruct r as [i|].
    1,3: left; destruct Hr as [Hr|[Hr _]]; congruence.
    1-2: destruct Hr; done.
    + right. split; [done|]. destruct Hr as [Hr|[Hr _]]; [|done]. simplify_eq. exists 0%nat, ip. split_and!; [lia | done..].
    + destruct Hr; done.
    + right. split; [done|]. destruct Hr as [Hr|[_ (j & jp & -> & Hj & Hz)]]; [done|].
      exists (S j), jp. split_and!; [lia | done..].
    + split; [done|]. intros [|j] jp Hj; cbn in Hj; [by simplify_eq | by eapply Hr].
Qed.

(** Changing one entry keeps the cache well formed when the entry is then
    either unreferenced or the only one of its inode. *)
Lemma icache_ok_alter s i f ip :
  icache_ok s -> inodes s !! i = Some ip -> 0 <= i_ref (f ip) ->
  (0 < i_ref (f ip) -> forall j jp, j <> i -> inodes s !! j = Some jp -> ~ is_entry (i_dev (f ip)) (i_inum (f ip)) jp) ->
  icache_ok (on_inode i f s).
Proof.
  intros Hok Hi Hr Hu.
  assert (Hl : forall j jp, inodes (on_inode i f s) !! j = Some jp ->
    (j = i /\ jp = f ip) \/ (j <> i /\ inodes s !! j = Some jp)).
  { intros j jp Hj. cbn in Hj. destruct (decide (j = i)) as [->|Hne].
    - rewrite list_lookup_alter_eq, Hi in Hj. left. by simplify_eq/=.
    - rewrite list_lookup_alter_ne in Hj by done. by right. }
  split; [| |apply Hok].
  - intros j jp Hj. destruct (Hl j jp Hj) as [[-> ->]|[_ Hj']]; [done | by apply (ic_refs s Hok j)].
  - intros j1 j2 p1 p2 H1 H2 Hp He.
    destruct (Hl _ _ H1) as [[-> ->]|[Hn1 H1']], (Hl _ _ H2) as [[-> ->]|[Hn2 H2']]; [done | | |].
    + destruct (Hu Hp j2 p2 Hn2 H2' He).
    + destruct He as (Hrf & Hd & Hm). destruct (Hu Hrf j1 p1 Hn1 H1'). split_and!; [done | by rewrite Hd | by rewrite Hm].
    + by apply (ic_unique s Hok j1 j2 p1 p2).
Qed.

(** Iget returns the entry of the inode if it is cached, with
    one more reference, and otherwise takes an unreferenced entry for it; it
    panics exactly when the inode is not cached and every entry is
    referenced.  No other entry changes, and there is still at most one
    referenced entry per inode. *)
Theorem iget_spec (s : fs) (dev_ inum : Z) :
  icache_ok s ->
  match iget dev_ inum s with
  | Ret s' i =>
      icache_ok s' /\ fl s' = fl s /\ sb s' = sb s /\ (forall j, j <> i -> inodes s' !! j = inodes s !! j) /\
      exists ip ip', inodes s !! i = Some ip /\ inodes s' !! i = Some ip' /\ is_entry dev_ inum ip' /\
        ((is_entry dev_ inum ip /\ ip' = set_ref (i_ref ip + 1) ip) \/
         (i_ref ip = 0 /\ i_ref ip' = 1 /\ i_valid ip' = false /\
          forall j jp, inodes s !! j = Some jp -> ~ is_entry dev_ inum jp))
  | Panic msg => msg = "iget: no inodes" /\
      forall j jp, inodes s !! j = Some jp -> 0 < i_ref jp /\ ~ is_entry dev_ inum jp
  | Wait _ _ => False
  end.
Proof.
  intros Hok. pose proof (ic_free s Hok) as Hl. destruct s as [lk l b lg]. cbn in Hl. subst lk.
  set (s := mk_fs false l b lg) in *.
  pose proof (iget_scan_spec dev_ inum l 0 None) as Hs.
  unfold iget, acquire, get, mbind, M_bind. cbn -[iget_scan].
  destruct (iget_scan dev_ inum l 0 None) as [i|[i|]].
  - destruct Hs as (j & ip & -> & Hi & He). cbn.
    split_and!.
    + apply (icache_ok_alter s (0 + j) (fun ip => set_ref (i_ref ip + 1) ip) ip Hok Hi).
      * destruct He. cbn. lia.
      * intros _ j' jp Hne Hj Hj2. destruct He as (Hr & Hd & Hm). cbn in Hj2. apply Hne. symmetry.
        by apply (ic_unique s Hok _ _ ip jp).
    + done.
    + done.
    + intros j' Hne. by rewrite list_lookup_alter_ne.
    + exists ip, (set_ref (i_ref ip + 1) ip). rewrite list_lookup_alter_eq, Hi. split_and!; try done; [|by left].
      destruct He as (?&?&?). split_and!; cbn; done || lia.
  - destruct Hs as [Hno [Hs|(_ & j & ip & -> & Hi & Hz)]]; [done|]. cbn.
    split_and!.
    + eapply (icache_ok_alter s (0 + j) _ ip Hok Hi); [cbn; lia|].
      intros _ j' jp _ Hj. cbn. by apply (Hno j').
    + done.
    + done.
    + intros j' Hne. by rewrite list_lookup_alter_ne.
    + eexists ip, _. rewrite list_lookup_alter_eq, Hi. split_and!; try done. right. done.
  - destruct Hs as [Hno [_ Hs]]. cbn. split; [done|]. intros j jp Hj. split; [|by apply (Hno j)].
    pose proof (ic_refs s Hok j jp Hj). pose proof (Hs j jp Hj). lia.
Qed.

Section locks.
Context (mypid : Z) (lock_addr : nat -> Z).

Lemma lift_lock_eq {A} s i ip (m : M sleeplock A) :
  inodes s !! i = Some ip ->
  lift_lock i m s = match m (i_lock ip) with
                    | Ret l a => Ret (on_inode i (set_ilock l) s) a
                    | Panic e => Panic e
                    | Wait c l => Wait c (on_inode i (set_ilock l) s)
                    end.
Proof. unfold lift_lock, with_inode. by intros ->. Qed.

Lemma on_inode_lookup s i ip f : inodes s !! i = Some ip -> inodes (on_inode i f s) !! i = Some (f ip).
Proof. intros H. cbn. by rewrite list_lookup_alter_eq, H. Qed.

Lemma on_inode_ne s i j f : j <> i -> inodes (on_inode i f s) !! j = inodes s !! j.
Proof. intros H. cbn. by rewrite list_lookup_alter_ne. Qed.

(** The inode's sleep lock is free. *)
Definition unlocked (ip : inode) : Prop := sl_lk (i_lock ip) = false /\ sl_locked (i_lock ip) = 0.

(** Taking or dropping the sleep lock keeps the cache well formed. *)
Lemma icache_ok_ilock s i ip l :
  icache_ok s -> inodes s !! i = Some ip -> icache_ok (on_inode i (set_ilock l) s).
Proof.
  intros Hok Hi. apply (icache_ok_alter s i _ ip); [done | done | cbn; by apply (ic_refs s Hok i)|].
  intros Hp j jp Hne Hj He. apply Hne. symmetry. by apply (ic_unique s Hok i j ip jp).
Qed.

(** The middle part of iput, for an inode that is not freed. *)
Lemma iput_keep s i ip :
  ic_lock s = false -> inodes s !! i = Some ip ->
  i_valid ip = false \/ i_nlink ip <> 0 \/ 2 <= i_ref ip ->
  (if i_valid ip && (i_nlink ip =? 0)
   then acquire ≫= fun _ => with_inode i (fun ip0 => release ≫= fun _ =>
     if i_ref ip0 =? 1 then itrunc i ≫= fun _ => modify (on_inode i (set_type 0)) ≫= fun _ =>
       iupdate i ≫= fun _ => modify (on_inode i (set_valid false)) else mret tt)
   else mret tt) s = Ret s tt.
Proof.
  intros Hl Hi Hkeep. destruct (i_valid ip && (i_nlink ip =? 0)) eqn:E; [|done]. to_prop.
  assert (Ha : acquire s = Ret (set_lock true s) tt) by (by apply acquire_free).
  erewrite bind_ret by exact Ha. unfold with_inode. change (inodes (set_lock true s)) with (inodes s). rewrite Hi.
  erewrite bind_ret by (by apply release_held).
  destruct (Z.eqb_spec (i_ref ip) 1) as [E1|_].
  - destruct Hkeep as [Hk|[Hk|Hk]]; [congruence | done | lia].
  - destruct s. cbn in *. by subst.
Qed.

(** Iput drops one reference.  While the inode has links or
    other references, or was never read, nothing else changes: no block is
    written, the other entries stay, and the cache is well formed.  When the
    inode is locked by someone the call sleeps on the lock with nothing
    changed. *)
Theorem iput_spec (s : fs) (i : nat) (ip : inode) :
  icache_ok s -> inodes s !! i = Some ip -> 1 <= i_ref ip -> sl_lk (i_lock ip) = false ->
  i_valid ip = false \/ i_nlink ip <> 0 \/ 2 <= i_ref ip ->
  (sl_locked (i_lock ip) = 0 -> exists s' l,
     iput mypid lock_addr i s = Ret s' tt /\ fl s' = fl s /\ sb s' = sb s /\
     inodes s' !! i = Some (set_ref (i_ref ip - 1) (set_ilock l ip)) /\ sl_locked l = 0 /\
     (forall j, j <> i -> inodes s' !! j = inodes s !! j) /\ icache_ok s') /\
  (sl_locked (i_lock ip) <> 0 -> exists s', iput mypid lock_addr i s = Wait (On (lock_addr i)) s' /\
     inodes s' = inodes s).
Proof.
  intros Hok Hi Hr Hl Hkeep.
  assert (Hacq : forall s l, acquiresleep (lock_addr i) mypid (i_lock ip) = Ret l tt ->
    inodes s !! i = Some ip ->
    lift_lock i (acquiresleep (lock_addr i) mypid) s = Ret (on_inode i (set_ilock l) s) tt).
  { intros s0 l El Hi0. erewrite lift_lock_eq by done. by rewrite El. }
  rewrite acquiresleep_eq in Hacq by done. split; intros Hlk.
  - rewrite Hlk in Hacq. cbn in Hacq. set (l1 := mk_sleeplock false 1 mypid (sl_wakeups (i_lock ip))) in Hacq.
    unfold iput. erewrite bind_ret by (by apply Hacq).
    set (s1 := on_inode i (set_ilock l1) s).
    assert (Hi1 : inodes s1 !! i = Some (set_ilock l1 ip)) by (by apply on_inode_lookup).
    pose proof (ic_free s Hok) as Hfree.
    unfold with_inode at 1. rewrite Hi1.
    pose proof (iput_keep s1 i (set_ilock l1 ip) Hfree Hi1 Hkeep) as Hbody.
    erewrite bind_ret by exact Hbody.
    erewrite bind_ret by (rewrite (lift_lock_eq s1 i (set_ilock l1 ip)) by done; rewrite releasesleep_eq by done; reflexivity).
    set (l2 := mk_sleeplock false 0 0 _). set (s2 := on_inode i (set_ilock l2) s1).
    assert (Ha : acquire s2 = Ret (set_lock true s2) tt) by (by apply acquire_free).
    erewrite bind_ret by exact Ha. erewrite bind_ret by reflexivity. rewrite release_held by done.
    exists (on_inode i (fun ip => set_ref (i_ref ip - 1) ip) s2), l2.
    assert (Hi2 : inodes s2 !! i = Some (set_ilock l2 ip)) by (unfold s2; by rewrite (on_inode_lookup s1 i _ _ Hi1)).
    assert (Hs2 : forall j, j <> i -> inodes s2 !! j = inodes s !! j) by (intros; unfold s2, s1; by rewrite !on_inode_ne).
    assert (Hok2 : icache_ok s2).
    { apply (icache_ok_ilock s1 i (set_ilock l1 ip)); [|done]. by apply (icache_ok_ilock s i ip). }
    split_and!; try done.
    + assert (E : ic_lock s2 = false) by exact Hfree. revert E. generalize s2. intros [] E. cbn in *. by subst.
    + by rewrite (on_inode_lookup s2 i _ _ Hi2).
    + intros j Hj. rewrite on_inode_ne by done. by apply Hs2.
    + apply (icache_ok_alter s2 i _ _ Hok2 Hi2); [cbn; lia|]. intros _ j jp Hne Hj He. apply Hne. symmetry.
      apply (ic_unique s2 Hok2 i j _ jp Hi2 Hj); [cbn; lia | done].
  - eexists. unfold iput, mbind, M_bind. rewrite (lift_lock_eq s i ip) by done.
    rewrite acquiresleep_eq by done. destruct (Z.eqb_spec (sl_locked (i_lock ip)) 0); [done|].
    split; [done|]. cbn. apply list_eq. intros j. destruct (decide (j = i)) as [->|Hne].
    + rewrite list_lookup_alter_eq, Hi. cbn. by destruct ip.
    + by rewrite list_lookup_alter_ne.
Qed.

End locks.

(** ** Witnesses *)

Definition sample_inode : inode :=
  mk_inode 1 1 1 initsleeplock true T_DIR 0 0 1 1024 [34; 35; 0; 0; 0; 0; 0; 0; 0; 0; 0; 0; 0].
Definition empty_inode : inode :=
  mk_inode 0 0 0 initsleeplock false 0 0 0 0 0 (replicate 13 0).
Definition sample_fs : fs := mk_fs false [sample_inode; empty_inode] small_sb (fl small_fs).

Lemma sample_inode_wf : inode_wf sample_inode.
Proof.
  split; try (unfold is_s16, is_u32; cbn; lia); [done|].
  repeat (apply Forall_cons; [unfold is_u32; lia|]). done.
Qed.

Lemma sample_icache_ok : icache_ok sample_fs.
Proof.
  split; [| |done].
  - intros [|[|i]] ip Hi; cbn in Hi; simplify_eq; cbn; lia.
  - intros [|[|i]] [|[|j]] ip jp Hi Hj; cbn in *; simplify_eq; try done; intros Hr He; destruct He; cbn in *; lia.
Qed.

Lemma iupdate_roundtrip_witness :
  exists s', iupdate 0 sample_fs = Ret s' tt /\ dinode s' 1 sample_inode = sample_inode.
Proof.
  destruct (iupdate_roundtrip sample_fs 0 sample_inode eq_refl sample_inode_wf) as (s' & H1 & _ & H2 & _); [|by eauto].
  apply (small_room 1). lia.
Defined.

Lemma iget_spec_witness :
  match iget 1 7 sample_fs with Ret s' i => icache_ok s' | Panic _ => False | Wait _ _ => False end.
Proof.
  pose proof (iget_spec sample_fs 1 7 sample_icache_ok) as H.
  destruct (iget 1 7 sample_fs) as [s' i|m|c s'] eqn:E; [apply H | vm_compute in E; discriminate | done].
Defined.

Lemma iput_spec_witness :
  exists s' l, iput 3 (fun _ => 9) 0 sample_fs = Ret s' tt /\
    inodes s' !! 0%nat = Some (set_ref 0 (set_ilock l sample_inode)).
Proof.
  destruct (iput_spec 3 (fun _ => 9) sample_fs 0 sample_inode sample_icache_ok eq_refl) as [H _];
    [cbn; lia | done | right; left; done|].
  destruct (H eq_refl) as (s' & l & H1 & _ & _ & H2 & _). eauto.
Defined.
