(* ===== verification/FsData.v ===== *)
(** The content of files (fs.c): bmap, readi and writei.

    A file is a function from offsets to bytes, [file_byte].  [fblock s ip k]
    is the k-th block of the file (-1 being the indirect block); holes read
    as zero.  [file_ok] is the invariant of an inode in memory: its blocks are
    distinct, used in the bitmap, and none of them holds metadata. *)

From S2P Require Import Prelude Word Mem Spinlock Block Log Fs FsBlocks FsInode.

Local Open Scope Z_scope.

Definition fblock (s : fs) (ip : inode) (k : Z) : Z :=
  if k <? 0 then addr_of ip NDIRECT
  else if k <? NDIRECT then addr_of ip k
  else if addr_of ip NDIRECT =? 0 then 0
  else load32 (vw s (addr_of ip NDIRECT)) (4 * (k - NDIRECT)).

Definition file_byte (s : fs) (ip : inode) (o : Z) : Z :=
  if fblock s ip (o / BSIZE) =? 0 then 0 else vw s (fblock s ip (o / BSIZE)) (o mod BSIZE).

(** Slots of a file: its MAXFILE blocks, and the indirect block. *)
Definition is_slot (k : Z) : Prop := -1 <= k < MAXFILE.

Record file_ok (s : fs) (i : nat) (ip : inode) : Prop := {
  fo_inode : inodes s !! i = Some ip;
  fo_len : length (i_addrs ip) = 13%nat;
  fo_bitmap : bitmap_ok s;
  fo_iblock : 0 <= IBLOCK (i_inum ip) (sb s) < sb_size (sb s) /\ used s (IBLOCK (i_inum ip) (sb s)) = true /\
              ~ is_bitmap s (IBLOCK (i_inum ip) (sb s));
  fo_blocks : forall k, is_slot k -> fblock s ip k <> 0 ->
    0 < fblock s ip k < sb_size (sb s) /\ used s (fblock s ip k) = true /\
    ~ is_bitmap s (fblock s ip k) /\ fblock s ip k <> IBLOCK (i_inum ip) (sb s);
  fo_inj : forall k k', is_slot k -> is_slot k' -> fblock s ip k <> 0 ->
    fblock s ip k = fblock s ip k' -> k = k';
}.

(** No holes below the size. *)
Definition dense (s : fs) (ip : inode) : Prop :=
  forall bn, 0 <= bn -> bn * BSIZE < i_size ip -> fblock s ip bn <> 0.

Definition owns (s : fs) (ip : inode) (b : Z) : Prop := exists k, is_slot k /\ fblock s ip k = b.

(** The blocks that an operation on the file may log: the bitmap, the file's
    own blocks, and free blocks. *)
Definition touches (s : fs) (ip : inode) (b : Z) : Prop :=
  is_bitmap s b \/ 0 < b < sb_size (sb s) /\ (used s b = true -> owns s ip b).

(** What an operation on inode [i] leaves alone: the other inodes, the used
    blocks (which stay used), and every used block that is not the file's. *)
Record ext (s : fs) (i : nat) (ip : inode) (s' : fs) (ip' : inode) : Prop := {
  ex_sb : sb s' = sb s;
  ex_lock : ic_lock s' = ic_lock s;
  ex_ip : ip' = set_addrs (i_addrs ip') ip;
  ex_others : forall j, j <> i -> inodes s' !! j = inodes s !! j;
  ex_used : forall b, 0 <= b < sb_size (sb s) -> used s b = true -> used s' b = true;
  ex_owns : forall b, 0 <= b < sb_size (sb s) -> used s b = true -> owns s' ip' b -> owns s ip b;
  ex_kept : forall k, is_slot k -> fblock s ip k <> 0 -> fblock s' ip' k = fblock s ip k;
  ex_frame : forall b, 0 <= b < sb_size (sb s) -> used s b = true -> ~ is_bitmap s b -> ~ owns s ip b ->
    vw s' b = vw s b;
  ex_tx : tx s s';
  ex_lh : forall b, b ∈ lh (fl s') -> touches s ip b \/ b ∈ lh (fl s);
}.

Lemma set_addrs_id ip : set_addrs (i_addrs ip) ip = ip.
Proof. by destruct ip. Qed.

Lemma ext_refl s i ip : ext s i ip s ip.
Proof. split; try done; [by rewrite set_addrs_id | intros b Hb; by right]. Qed.

Lemma ext_trans s1 s2 s3 i ip1 ip2 ip3 :
  ext s1 i ip1 s2 ip2 -> ext s2 i ip2 s3 ip3 -> ext s1 i ip1 s3 ip3.
Proof.
  intros H1 H2. pose proof (ex_sb _ _ _ _ _ H1) as Hsb.
  assert (Hu : forall b, 0 <= b < sb_size (sb s1) -> used s1 b = true -> 0 <= b < sb_size (sb s2) /\ used s2 b = true).
  { intros b Hb Hub. rewrite Hsb. split; [done|]. by eapply (ex_used _ _ _ _ _ H1). }
  split.
  - rewrite (ex_sb _ _ _ _ _ H2). done.
  - rewrite (ex_lock _ _ _ _ _ H2). apply H1.
  - rewrite (ex_ip _ _ _ _ _ H2), (ex_ip _ _ _ _ _ H1). done.
  - intros j Hj. rewrite (ex_others _ _ _ _ _ H2) by done. by apply H1.
  - intros b Hb Hub. destruct (Hu b Hb Hub). by eapply (ex_used _ _ _ _ _ H2).
  - intros b Hb Hub Ho. destruct (Hu b Hb Hub). apply (ex_owns _ _ _ _ _ H1); [done..|].
    by apply (ex_owns _ _ _ _ _ H2).
  - intros k Hk Hne. pose proof (ex_kept _ _ _ _ _ H1 k Hk Hne) as E.
    rewrite (ex_kept _ _ _ _ _ H2) by congruence. done.
  - intros b Hb Hub Hbm Hno. destruct (Hu b Hb Hub) as [Hb2 Hu2].
    rewrite (ex_frame _ _ _ _ _ H2), (ex_frame _ _ _ _ _ H1); try done.
    + unfold is_bitmap in *. by rewrite Hsb.
    + intros Ho. by apply Hno, (ex_owns _ _ _ _ _ H1).
  - eapply tx_trans; [apply H1 | apply H2].
  - intros b Hb. destruct (ex_lh _ _ _ _ _ H2 b Hb) as [[Hbm|[Hr Ho]]|Hb2]; [left; left | left; right | by apply (ex_lh _ _ _ _ _ H1)].
    + unfold is_bitmap in *. by rewrite <- Hsb.
    + rewrite Hsb in Hr. split; [done|]. intros Hub. destruct (Hu b ltac:(lia) Hub) as [_ Hu2].
      apply (ex_owns _ _ _ _ _ H1); [lia | done | by apply Ho].
Qed.

Lemma slot_bn o : 0 <= o < MAXFILE * BSIZE -> is_slot (o / BSIZE) /\ 0 <= o / BSIZE < MAXFILE.
Proof.
  intros Ho. assert (0 <= o / BSIZE) by (apply Z.div_pos; [lia | done]).
  assert (o / BSIZE < MAXFILE) by (apply Z.div_lt_upper_bound; [done | lia]).
  unfold is_slot. lia.
Qed.

(** ** Allocating a block of the file *)

Lemma is_bitmap_sb s s' b : sb s' = sb s -> is_bitmap s' b <-> is_bitmap s b.
Proof. unfold is_bitmap. by intros ->. Qed.

Lemma bitmap_ok_same s s' :
  sb s' = sb s -> (forall b, 0 <= b < sb_size (sb s) -> used s' b = used s b) -> bitmap_ok s -> bitmap_ok s'.
Proof.
  intros Hsb Hu [Hsz Hz Hself]. split.
  - by rewrite Hsb.
  - rewrite Hu by lia. done.
  - intros c Hc Hr. rewrite Hsb in Hr. rewrite Hu by done. apply Hself; [|done]. by apply (is_bitmap_sb s s').
Qed.

Lemma nfree_same s s' :
  sb s' = sb s -> (forall b, 0 <= b < sb_size (sb s) -> used s' b = used s b) -> nfree s' = nfree s.
Proof.
  intros Hsb Hu. unfold nfree, free_blocks. rewrite Hsb. do 2 f_equal. apply filter_ext_in.
  intros b Hb. apply elem_of_seqZ in Hb. rewrite Hu by lia. done.
Qed.

(** The file's slot [k0] gets the block [c] that balloc returned: [s1] is the
    state after balloc, [s2] after the assignment to ip->addrs or to the
    indirect block. *)
Lemma assign_ok s s1 s2 i ip ip2 c k0 :
  file_ok s i ip -> allocated s s1 c -> is_slot k0 -> fblock s ip k0 = 0 ->
  sb s2 = sb s1 -> ic_lock s2 = ic_lock s1 ->
  (forall b, 0 <= b < sb_size (sb s) -> used s2 b = used s1 b) ->
  inodes s2 !! i = Some ip2 -> (forall j, j <> i -> inodes s2 !! j = inodes s1 !! j) ->
  ip2 = set_addrs (i_addrs ip2) ip -> length (i_addrs ip2) = 13%nat ->
  fblock s2 ip2 k0 = c -> (forall k, is_slot k -> k <> k0 -> fblock s2 ip2 k = fblock s ip k) ->
  (forall b, b <> fblock s ip (-1) -> vw s2 b = vw s1 b) ->
  tx s1 s2 -> (forall b, b ∈ lh (fl s2) -> b ∈ lh (fl s1) \/ b <> 0 /\ b = fblock s ip (-1)) ->
  file_ok s2 i ip2 /\ ext s i ip s2 ip2 /\ nfree s2 = nfree s - 1 /\
  (forall o, 0 <= o < MAXFILE * BSIZE -> file_byte s2 ip2 o = file_byte s ip o).
Proof.
  intros Hf Ha Hk0 Hz Hsb Hlk Hu Hi Hj Hip Hlen Hc Hk Hvw Htx Hlh.
  destruct (al_icache _ _ _ Ha) as (Hlk1 & Hin1 & Hsb1).
  pose proof (al_range _ _ _ Ha) as Hcr.
  assert (Hsbs : sb s2 = sb s) by congruence.
  assert (Hinum : i_inum ip2 = i_inum ip) by (by rewrite Hip).
  assert (Hused : forall b, 0 <= b < sb_size (sb s) -> used s b = true -> used s2 b = true).
  { intros b Hb Hub. rewrite Hu, (al_used _ _ _ Ha), Hub by done. done. }
  assert (Hnew : forall k, is_slot k -> fblock s ip k <> c).
  { intros k Hks Hc2. destruct (fo_blocks _ _ _ Hf k Hks) as (_ & Hus & _); [lia|].
    rewrite Hc2, (al_free _ _ _ Ha) in Hus. done. }
  assert (Hbm : bitmap_ok s2).
  { apply (bitmap_ok_same s1); [done | | apply Ha]. rewrite Hsb1. done. }
  destruct (fo_iblock _ _ _ Hf) as (Hib1 & Hib2 & Hib3).
  split_and!.
  - split; try done.
    + rewrite Hinum, Hsbs, (is_bitmap_sb s s2) by done. split_and!; try done; try lia. by apply Hused.
    + intros k Hks Hne. rewrite Hinum, Hsbs, (is_bitmap_sb s s2) by done.
      destruct (decide (k = k0)) as [->|Hkk].
      * rewrite Hc. split_and!; [lia | lia | | apply Ha |].
        -- rewrite Hu, (al_used _ _ _ Ha) by lia. by rewrite Z.eqb_refl, orb_true_r.
        -- intros ->. rewrite (al_free _ _ _ Ha) in Hib2. done.
      * rewrite Hk in * by done. destruct (fo_blocks _ _ _ Hf k Hks Hne) as (H1 & H2 & H3 & H4).
        split_and!; try done; try lia. apply Hused; [lia | done].
    + intros k k' Hks Hks' Hne He. destruct (decide (k = k0)) as [->|H1], (decide (k' = k0)) as [->|H2]; [done | | |].
      * rewrite Hc, Hk in He by done. destruct (Hnew k' Hks'). done.
      * rewrite Hc, Hk in He by done. destruct (Hnew k Hks). done.
      * rewrite !Hk in * by done. by apply (fo_inj _ _ _ Hf).
  - split; try done.
    + congruence.
    + intros j Hji. rewrite Hj by done. congruence.
    + intros b Hb Hub (k & Hks & Hkb). exists k. split; [done|]. rewrite <- Hkb.
      destruct (decide (k = k0)) as [->|]; [|by rewrite Hk].
      rewrite <- Hkb, Hc, (al_free _ _ _ Ha) in Hub. done.
    + intros k Hks Hne. apply Hk; [done|]. congruence.
    + intros b Hb Hub Hnb Hno. rewrite Hvw, (al_frame _ _ _ Ha); try done.
      * intros ->. rewrite (al_free _ _ _ Ha) in Hub. done.
      * intros ->. apply Hno. exists (-1). done.
    + eapply tx_trans; [apply Ha | done].
    + intros b Hb. destruct (Hlh b Hb) as [Hb1|[Hb0 ->]].
      * destruct (al_lh _ _ _ Ha b Hb1) as [Hb2|[->|Hb2]]; [by right | left; right | left; by left].
        split; [lia|]. rewrite (al_free _ _ _ Ha). done.
      * left. right. destruct (fo_blocks _ _ _ Hf (-1)) as (Hr & _); [done | done|]. split; [done|]. intros _. by exists (-1).
  - rewrite (nfree_same s1 s2), (al_nfree _ _ _ Ha); [done | done | by rewrite Hsb1].
  - intros o Ho. destruct (slot_bn o Ho) as [Hbs Hbn]. unfold file_byte.
    destruct (decide (o / BSIZE = k0)) as [E|E].
    + rewrite E, Hc, Hz. cbn. destruct (Z.eqb_spec c 0) as [|_]; [lia|].
      rewrite Hvw, (al_zero _ _ _ Ha); [done | apply Z.mod_pos_bound; done |].
      intros Hc2. apply (Hnew (-1)); [done | congruence].
    + rewrite Hk by done. destruct (Z.eqb_spec (fblock s ip (o / BSIZE)) 0) as [|Hne]; [done|].
      destruct (fo_blocks _ _ _ Hf _ Hbs Hne) as (H1 & H2 & H3 & H4).
      rewrite Hvw, (al_frame _ _ _ Ha); [done | by apply Hnew | done |].
      intros E2. apply (fo_inj _ _ _ Hf) in E2; [lia | done..].
Qed.

Lemma with_inode_eq {A} i ip (k : inode -> M fs A) s :
  inodes s !! i = Some ip -> with_inode i k s = k ip s.
Proof. unfold with_inode. by intros ->. Qed.

Lemma addr_of_insert ip j k v :
  length (i_addrs ip) = 13%nat -> 0 <= j <= NDIRECT -> 0 <= k ->
  addr_of (set_addrs (<[Z.to_nat j := v]> (i_addrs ip)) ip) k = if k =? j then v else addr_of ip k.
Proof.
  intros Hl Hj Hk. unfold addr_of. cbn [set_addrs i_addrs]. unfold NDIRECT in *.
  rewrite !nth_lookup. destruct (Z.eqb_spec k j) as [->|Hne].
  - rewrite list_lookup_insert_eq by lia. done.
  - rewrite list_lookup_insert_ne by lia. done.
Qed.

(** addrs[j] = balloc(dev), for a direct block or the indirect one. *)
Definition slot_of (j : Z) : Z := if j =? NDIRECT then -1 else j.

Ltac slots :=
  unfold slot_of, is_slot, MAXFILE, NINDIRECT, NDIRECT, BSIZE in *; change (512 / 4) with 128 in *.

Lemma alloc_addr k s i ip j :
  file_ok s i ip -> 0 <= j <= NDIRECT -> addr_of ip j = 0 -> 0 <= k -> room (k + 2) s -> 0 < nfree s ->
  exists s' ip', (balloc ≫= fun a => set_addr i j a ≫= fun _ => mret a) s = Ret s' (addr_of ip' j) /\
    file_ok s' i ip' /\ ext s i ip s' ip' /\ addr_of ip' j <> 0 /\ room k s' /\ nfree s' = nfree s - 1 /\
    (forall o, 0 <= o < MAXFILE * BSIZE -> file_byte s' ip' o = file_byte s ip o).
Proof.
  intros Hf Hj Hz Hk Hr Hn. pose proof (fo_len _ _ _ Hf) as Hlen.
  destruct (balloc_ok k s Hk Hr (fo_bitmap _ _ _ Hf) Hn) as (s1 & c & He & Hr1 & Ha).
  destruct (al_icache _ _ _ Ha) as (_ & Hin & _). pose proof (al_range _ _ _ Ha) as Hc.
  set (ip2 := set_addrs (<[Z.to_nat j := c]> (i_addrs ip)) ip).
  set (s2 := on_inode i (fun ip => set_addrs (<[Z.to_nat j := c]> (i_addrs ip)) ip) s1).
  assert (Hadd : forall k, 0 <= k -> addr_of ip2 k = if k =? j then c else addr_of ip k)
    by (intros; by apply addr_of_insert).
  assert (Hj2 : addr_of ip2 j = c) by (rewrite Hadd, Z.eqb_refl by lia; done).
  assert (Hi2 : inodes s2 !! i = Some ip2).
  { cbn. rewrite Hin. rewrite list_lookup_alter_eq, (fo_inode _ _ _ Hf). done. }
  exists s2, ip2. rewrite Hj2.
  destruct (assign_ok s s1 s2 i ip ip2 c (slot_of j)) as (Hf2 & Hext & Hn2 & Hb); try done.
  - slots. case_ifs; lia.
  - unfold fblock, slot_of, NDIRECT in *. case_ifs; try lia; congruence.
  - intros j' Hne. cbn. by rewrite list_lookup_alter_ne.
  - cbn. by rewrite length_insert.
  - unfold fblock, slot_of. destruct (Z.eqb_spec j NDIRECT) as [E|Hne]; [by rewrite <- E|].
    destruct (Z.ltb_spec j 0); [lia|]. destruct (Z.ltb_spec j NDIRECT); [done | lia].
  - intros k' Hk' Hne. unfold fblock. slots.
    change (vw s2) with (vw s1). rewrite (Hadd 12) by lia.
    destruct (Z.ltb_spec k' 0).
    { destruct (Z.eqb_spec j 12), (Z.eqb_spec 12 j); done || lia. }
    destruct (Z.ltb_spec k' 12).
    { rewrite Hadd by lia. destruct (Z.eqb_spec j 12), (Z.eqb_spec k' j); done || lia. }
    destruct (Z.eqb_spec 12 j) as [<-|Hj12].
    + rewrite Hz. destruct (Z.eqb_spec c 0); [lia|]. cbn [Z.eqb]. apply load32_zero. intros b Hb.
      apply (al_zero _ _ _ Ha). unfold BSIZE. lia.
    + destruct (Z.eqb_spec (addr_of ip 12) 0) as [|H12]; [done|].
      assert (Hs : is_slot (-1)) by done. destruct (fo_blocks _ _ _ Hf (-1) Hs H12) as (H1 & H2 & H3 & _).
      change (fblock s ip (-1)) with (addr_of ip 12) in *.
      rewrite (al_frame _ _ _ Ha); [done | | done]. intros E. rewrite E, (al_free _ _ _ Ha) in H2. done.
  - intros b Hb. by left.
  - split_and!; try done; [|lia]. erewrite bind_ret by exact He. done.
Qed.

Lemma used_update b x s c :
  ~ is_bitmap s b -> 0 <= c < sb_size (sb s) -> used (logged b (wrote b x s)) c = used s c.
Proof.
  intros Hb Hc. unfold used. rewrite vw_logged, vw_wrote. change (sb (logged b (wrote b x s))) with (sb s).
  rewrite setb_ne; [done|]. intros E. apply Hb. by exists c.
Qed.

(** a[bn] = balloc(dev), in the indirect block. *)
Lemma alloc_entry k s i ip bn :
  file_ok s i ip -> NDIRECT <= bn < MAXFILE -> addr_of ip NDIRECT <> 0 -> fblock s ip bn = 0 ->
  0 <= k -> room (k + 3) s -> 0 < nfree s ->
  exists s', (balloc ≫= fun a' => bread_ (addr_of ip NDIRECT) ≫= fun a =>
      bset_ (addr_of ip NDIRECT) (store32 a (4 * (bn - NDIRECT)) a') ≫= fun _ =>
      log_write_ (addr_of ip NDIRECT) ≫= fun _ => mret a') s = Ret s' (fblock s' ip bn) /\
    file_ok s' i ip /\ ext s i ip s' ip /\ fblock s' ip bn <> 0 /\ room k s' /\ nfree s' = nfree s - 1 /\
    (forall o, 0 <= o < MAXFILE * BSIZE -> file_byte s' ip o = file_byte s ip o).
Proof.
  intros Hf Hbn Hind Hz Hk Hr Hn. set (a := addr_of ip NDIRECT) in *.
  destruct (balloc_ok (k + 1) s) as (s1 & c & He & Hr1 & Ha);
    [lia | eapply room_le; [done | lia] | apply Hf | done |].
  destruct (al_icache _ _ _ Ha) as (_ & Hin & Hsb1). pose proof (al_range _ _ _ Ha) as Hc.
  destruct (fo_blocks _ _ _ Hf (-1)) as (Har & Hau & Hab & _); [done..|].
  change (fblock s ip (-1)) with a in *.
  assert (Hac : a <> c) by (intros E; rewrite E, (al_free _ _ _ Ha) in Hau; done).
  assert (Hva : vw s1 a = vw s a) by (by apply (al_frame _ _ _ Ha)).
  set (x := store32 (vw s1 a) (4 * (bn - NDIRECT)) c). set (s2 := logged a (wrote a x s1)).
  assert (Hv2 : forall b, vw s2 b = if b =? a then x else vw s1 b) by done.
  assert (Hfb : forall k, is_slot k -> fblock s2 ip k = if k =? bn then c else fblock s ip k).
  { intros k' Hk'. unfold fblock. fold a. rewrite Hv2, Z.eqb_refl. unfold x. slots.
    destruct (Z.ltb_spec k' 0), (Z.ltb_spec k' 12), (Z.eqb_spec k' bn) as [->|Hne]; try lia; try done.
    - destruct (Z.eqb_spec a 0); [done|]. apply load32_store32_eq. pose proof (bo_size s (fo_bitmap _ _ _ Hf)).
      unfold is_u32. lia.
    - destruct (Z.eqb_spec a 0); [done|]. rewrite load32_store32_ne by lia. by rewrite Hva. }
  destruct (log_write_room k a (wrote a x s1) Hk Hr1) as [Hlw Hr2].
  assert (Hbs : is_slot bn) by (slots; lia).
  assert (Hcb : fblock s2 ip bn = c) by (rewrite Hfb, Z.eqb_refl by done; done).
  exists s2. rewrite Hcb.
  destruct (assign_ok s s1 s2 i ip ip c bn) as (Hf2 & Hext & Hn2 & Hb); try done.
  - intros b Hb. apply used_update; [|by rewrite Hsb1]. by rewrite (is_bitmap_sb s s1).
  - cbn. rewrite Hin. apply Hf.
  - by rewrite set_addrs_id.
  - apply Hf.
  - intros k' Hk' Hne. rewrite Hfb by done. by destruct (Z.eqb_spec k' bn).
  - intros b Hb. rewrite Hv2. by destruct (Z.eqb_spec b a).
  - apply tx_update.
  - intros b Hb. change (lh (fl s2)) with (add_block a (lh (fl s1))) in Hb. apply elem_add_block in Hb as [Hb| ->]; [by left | by right].
  - split_and!; try done; [|lia]. erewrite bind_ret by exact He.
    change ((log_write_ a ≫= fun _ => mret c) (wrote a x s1) = Ret s2 c).
    erewrite bind_ret by exact Hlw. done.
Qed.

(** bmap, with the blocks it may have to allocate. *)
Lemma bmap_ok k s i ip bn :
  file_ok s i ip -> 0 <= bn < MAXFILE -> 0 <= k -> room (k + 5) s -> 2 <= nfree s ->
  exists s' ip', bmap i bn s = Ret s' (fblock s' ip' bn) /\
    file_ok s' i ip' /\ ext s i ip s' ip' /\ fblock s' ip' bn <> 0 /\ room k s' /\ nfree s - 2 <= nfree s' /\
    (forall o, 0 <= o < MAXFILE * BSIZE -> file_byte s' ip' o = file_byte s ip o).
Proof.
  intros Hf Hbn Hk Hr Hn. unfold bmap. rewrite (with_inode_eq i ip) by apply Hf.
  assert (Hext : ext s i ip s ip) by apply ext_refl.
  destruct (Z.ltb_spec bn NDIRECT) as [Hd|Hd].
  - assert (Hfb : forall s ip, fblock s ip bn = addr_of ip bn).
    { intros. unfold fblock. destruct (Z.ltb_spec bn 0), (Z.ltb_spec bn NDIRECT); lia || done. }
    destruct (Z.eqb_spec (addr_of ip bn) 0) as [Hz|Hz].
    + destruct (alloc_addr k s i ip bn) as (s' & ip' & He & Hf' & He' & Hne & Hr' & Hn' & Hb); try done;
        [lia | eapply room_le; [done|lia] | lia |].
      exists s', ip'. rewrite Hfb. split_and!; try done. lia.
    + exists s, ip. rewrite Hfb. split_and!; try done; [eapply room_le; [done|lia] | lia].
  - destruct (Z.ltb_spec (bn - NDIRECT) NINDIRECT) as [Hi|Hi]; [|slots; lia].
    assert (H1 : exists s1 ip1, (if addr_of ip NDIRECT =? 0
        then balloc ≫= fun addr => set_addr i NDIRECT addr ≫= fun _ => mret addr
        else mret (addr_of ip NDIRECT)) s = Ret s1 (addr_of ip1 NDIRECT) /\
      file_ok s1 i ip1 /\ ext s i ip s1 ip1 /\ addr_of ip1 NDIRECT <> 0 /\ room (k + 3) s1 /\ nfree s - 1 <= nfree s1 /\
      (forall o, 0 <= o < MAXFILE * BSIZE -> file_byte s1 ip1 o = file_byte s ip o)).
    { destruct (Z.eqb_spec (addr_of ip NDIRECT) 0) as [Hz|Hz].
      - destruct (alloc_addr (k + 3) s i ip NDIRECT) as (s' & ip' & He & Hf' & He' & Hne & Hr' & Hn' & Hb); try done;
          [lia | eapply room_le; [done|lia] | lia |].
        exists s', ip'. split_and!; try done. lia.
      - exists s, ip. split_and!; try done; [eapply room_le; [done|lia] | lia]. }
    destruct H1 as (s1 & ip1 & He1 & Hf1 & Hx1 & Hne1 & Hr1 & Hn1 & Hb1). erewrite bind_ret by exact He1.
    set (a := addr_of ip1 NDIRECT) in *.
    assert (Hfb : forall s, fblock s ip1 bn = load32 (vw s a) (4 * (bn - NDIRECT))).
    { intros s0. unfold fblock. fold a. destruct (Z.ltb_spec bn 0); [lia|]. destruct (Z.ltb_spec bn NDIRECT); [lia|].
      destruct (Z.eqb_spec a 0); done. }
    erewrite bind_ret by reflexivity. change (blk_read a (dv (fl s1))) with (vw s1 a). rewrite <- Hfb.
    destruct (Z.eqb_spec (fblock s1 ip1 bn) 0) as [Hz|Hz].
    + destruct (alloc_entry k s1 i ip1 bn) as (s2 & He2 & Hf2 & Hx2 & Hne2 & Hr2 & Hn2 & Hb2); try done; [lia | lia |].
      exists s2, ip1. split_and!; try done.
      * by eapply ext_trans.
      * lia.
      * intros o Ho. rewrite Hb2 by done. by apply Hb1.
    + exists s1, ip1. split_and!; try done; [eapply room_le; [done|lia] | lia].
Qed.

(** ** readi *)

Lemma bmap_mapped s i ip bn :
  inodes s !! i = Some ip -> 0 <= bn < MAXFILE -> fblock s ip bn <> 0 -> bmap i bn s = Ret s (fblock s ip bn).
Proof.
  intros Hi Hbn Hne. unfold bmap. rewrite (with_inode_eq i ip) by done. revert Hne. unfold fblock.
  destruct (Z.ltb_spec bn 0); [lia|]. destruct (Z.ltb_spec bn NDIRECT).
  - destruct (Z.eqb_spec (addr_of ip bn) 0); done.
  - destruct (Z.ltb_spec (bn - NDIRECT) NINDIRECT); [|slots; lia].
    destruct (Z.eqb_spec (addr_of ip NDIRECT) 0); [done|]. intros Hne.
    unfold bread_, mret, M_ret, mbind, M_bind, blk_read. fold (vw s).
    destruct (Z.eqb_spec (load32 (vw s (addr_of ip NDIRECT)) (4 * (bn - NDIRECT))) 0); done.
Qed.

Lemma same_block off d : 0 <= d -> off mod BSIZE + d < BSIZE ->
  (off + d) / BSIZE = off / BSIZE /\ (off + d) mod BSIZE = off mod BSIZE + d.
Proof.
  intros Hd Hlt. pose proof (Z_div_mod_eq_full off BSIZE) as E.
  pose proof (Z.mod_pos_bound off BSIZE eq_refl) as Hm.
  assert (H : (off + d) / BSIZE = off / BSIZE).
  { symmetry. apply (Z.div_unique _ _ _ (off mod BSIZE + d)); [left; lia | lia]. }
  split; [done|]. rewrite Z.mod_eq, H by done. lia.
Qed.

Lemma bytes_at_file s ip off m :
  0 <= m -> off mod BSIZE + m <= BSIZE -> fblock s ip (off / BSIZE) <> 0 ->
  bytes_at (vw s (fblock s ip (off / BSIZE))) (off mod BSIZE) (Z.to_nat m) = map (file_byte s ip) (seqZ off m).
Proof.
  intros Hm Hle Hne. unfold bytes_at, seqZ. rewrite <- list_fmap_compose.
  apply map_ext_in. intros j Hj. apply in_seq in Hj. cbn. unfold file_byte.
  destruct (same_block off (Z.of_nat j)) as [Hd Hmod]; [lia | lia|].
  rewrite (Z.add_comm (Z.of_nat j)), Hd, Hmod. destruct (Z.eqb_spec (fblock s ip (off / BSIZE)) 0); done.
Qed.

Lemma seqZ_split off m n : 0 <= m <= n -> seqZ off n = seqZ off m ++ seqZ (off + m) (n - m).
Proof. intros H. rewrite <- seqZ_app by lia. f_equal. lia. Qed.

(** A round of the loops of readi and writei stays inside one block. *)
Lemma chunk off len :
  0 <= off -> 0 < len ->
  let m := Z.min len (BSIZE - off mod BSIZE) in
  0 < m /\ m <= len /\ off mod BSIZE + m <= BSIZE /\
  (m < len -> (off + m) mod BSIZE = 0 /\ m = BSIZE - off mod BSIZE).
Proof.
  intros Ho Hl m. pose proof (Z.mod_pos_bound off BSIZE eq_refl) as Hm. unfold m. split_and!; try lia.
  intros Hlt. assert (E : Z.min len (BSIZE - off mod BSIZE) = BSIZE - off mod BSIZE) by lia. rewrite E. split; [|done].
  replace (off + (BSIZE - off mod BSIZE)) with ((off / BSIZE + 1) * BSIZE); [by apply Z.mod_mul|].
  pose proof (Z_div_mod_eq_full off BSIZE). lia.
Qed.

Lemma readi_loop_ok fuel s i ip tot off n dst :
  inodes s !! i = Some ip -> 0 <= off -> n - tot <= Z.of_nat fuel -> off + (n - tot) <= MAXFILE * BSIZE ->
  (forall o, off <= o < off + (n - tot) -> fblock s ip (o / BSIZE) <> 0) ->
  readi_loop fuel i tot off n dst s = Ret s (dst ++ map (file_byte s ip) (seqZ off (n - tot))).
Proof.
  intros Hi. revert tot off dst. induction fuel as [|fuel IH]; intros tot off dst Ho Hf Hmax Hmap;
    cbn [readi_loop]; (destruct (Z.ltb_spec tot n); [|by rewrite seqZ_nil, app_nil_r by lia]); [lia|].
  destruct (chunk off (n - tot)) as (Hm0 & Hm1 & Hm2 & _); [done | lia|].
  set (m := Z.min (n - tot) (BSIZE - off mod BSIZE)) in *.
  assert (Hne : fblock s ip (off / BSIZE) <> 0) by (apply Hmap; lia).
  erewrite bind_ret by (apply (bmap_mapped s i ip); [done | apply slot_bn; lia | done]).
  erewrite bind_ret by reflexivity. cbv zeta. fold m.
  change (blk_read (fblock s ip (off / BSIZE)) (dv (fl s))) with (vw s (fblock s ip (off / BSIZE))).
  rewrite bytes_at_file by (done || lia). rewrite IH; [|lia | lia | lia |].
  - f_equal. rewrite (seqZ_split off m (n - tot)), map_app, app_assoc by lia. do 3 f_equal. lia.
  - intros o Hoo. apply Hmap. lia.
Qed.

(** The length readi returns, and its errors. *)
Definition clip (ip : inode) (off n : Z) : Z := if i_size ip <? off + n then i_size ip - off else n.

Section content.
Context (devsw_read : Z -> option (nat -> Z -> M fs (Z * list Z))).
Context (devsw_write : Z -> option (nat -> list Z -> Z -> M fs Z)).

Lemma readi_ok s i ip off n :
  inodes s !! i = Some ip -> i_type ip <> T_DEV -> dense s ip -> i_size ip <= MAXFILE * BSIZE ->
  0 <= off <= i_size ip -> 0 <= n -> off + n < 2 ^ 32 ->
  readi devsw_read i off n s =
    Ret s (clip ip off n, map (file_byte s ip) (seqZ off (clip ip off n))).
Proof.
  intros Hi Ht Hd Hsz Ho Hn Hov. unfold readi. rewrite (with_inode_eq i ip) by done.
  destruct (Z.eqb_spec (i_type ip) T_DEV); [done|]. destruct (Z.ltb_spec (i_size ip) off); [lia|].
  rewrite u32_small by (unfold is_u32; lia). destruct (Z.ltb_spec (off + n) off); [lia|]. cbn [orb].
  fold (clip ip off n).
  assert (Hc : 0 <= clip ip off n /\ off + clip ip off n <= i_size ip).
  { unfold clip. destruct (Z.ltb_spec (i_size ip) (off + n)); lia. }
  erewrite bind_ret; [done|]. rewrite readi_loop_ok with (ip := ip); [| done | lia | lia | lia |].
  - rewrite Z.sub_0_r. done.
  - intros o Hoo. pose proof (Z_div_mod_eq_full o BSIZE). pose proof (Z.mod_pos_bound o BSIZE eq_refl).
    apply Hd; [apply Z.div_pos; [lia | done] | lia].
Qed.

(** ** writei *)

Lemma blit_spec l x o a :
  blit x o l a = if in_range o (Z.of_nat (length l)) a then char_at l (a - o) else x a.
Proof.
  revert x o. induction l as [|c l IH]; intros x o; cbn [blit length].
  { unfold in_range. case_ifs; done || lia. }
  rewrite IH. unfold in_range, upd.
  destruct (Z.eqb_spec a o) as [->|Hne].
  - replace (o - o) with 0 by lia. case_ifs; try lia; done.
  - destruct ((o + 1 <=? a) && (a <? o + 1 + Z.of_nat (length l))) eqn:E; to_prop.
    + destruct ((o <=? a) && (a <? o + Z.of_nat (S (length l)))) eqn:E2; to_prop; [|lia].
      rewrite char_at_cons by lia. f_equal. lia.
    + destruct ((o <=? a) && (a <? o + Z.of_nat (S (length l)))) eqn:E2; to_prop; [lia | done].
Qed.

(** Writing one block of the file. *)
Lemma write_block s i ip bn x :
  file_ok s i ip -> 0 <= bn < MAXFILE -> fblock s ip bn <> 0 ->
  let s' := logged (fblock s ip bn) (wrote (fblock s ip bn) x s) in
  file_ok s' i ip /\ ext s i ip s' ip /\ nfree s' = nfree s /\
  (forall o, 0 <= o < MAXFILE * BSIZE ->
     file_byte s' ip o = if o / BSIZE =? bn then x (o mod BSIZE) else file_byte s ip o).
Proof.
  intros Hf Hbn Hne s'. set (b := fblock s ip bn) in *.
  assert (Hbs : is_slot bn) by (unfold is_slot; lia).
  destruct (fo_blocks _ _ _ Hf bn Hbs Hne) as (Hr & Hu & Hb & Hib). fold b in Hr, Hu, Hb, Hib.
  assert (Hv : forall c, vw s' c = if c =? b then x else vw s c) by done.
  assert (Hused : forall c, 0 <= c < sb_size (sb s) -> used s' c = used s c) by (intros; by apply used_update).
  assert (Hind : addr_of ip NDIRECT <> b).
  { intros E. apply (fo_inj _ _ _ Hf (-1) bn) in E; [lia | done | done |].
    change (fblock s ip (-1)) with (addr_of ip NDIRECT). congruence. }
  assert (Hfb : forall k, fblock s' ip k = fblock s ip k).
  { intros k. unfold fblock. rewrite Hv. by destruct (Z.eqb_spec (addr_of ip NDIRECT) b). }
  destruct (fo_iblock _ _ _ Hf) as (Hib1 & Hib2 & Hib3).
  split_and!.
  - split.
    + apply Hf.
    + apply Hf.
    + apply (bitmap_ok_same s); [done | done | apply Hf].
    + change (sb s') with (sb s). rewrite Hused, (is_bitmap_sb s s') by done. done.
    + intros k Hk. rewrite Hfb. intros Hk0. destruct (fo_blocks _ _ _ Hf k Hk Hk0) as (H1 & H2 & H3 & H4).
      change (sb s') with (sb s). rewrite Hused, (is_bitmap_sb s s') by (done || lia). done.
    + intros k k' Hk Hk'. rewrite !Hfb. by apply Hf.
  - split; try done.
    + by rewrite set_addrs_id.
    + intros c Hc Huc. by rewrite Hused.
    + intros c Hc Huc (k & Hk & E). exists k. by rewrite <- Hfb.
    + intros c Hc Huc Hnb Hno. rewrite Hv. destruct (Z.eqb_spec c b) as [->|]; [|done].
      destruct Hno. by exists bn.
    + apply tx_update.
    + intros c Hc. change (lh (fl s')) with (add_block b (lh (fl s))) in Hc. apply elem_add_block in Hc as [Hc| ->]; [by right|].
      left. right. split; [done|]. intros _. by exists bn.
  - by apply nfree_same.
  - intros o Ho. destruct (slot_bn o Ho) as [Hos _]. unfold file_byte. rewrite Hfb, Hv.
    destruct (Z.eqb_spec (o / BSIZE) bn) as [->|Hob].
    + fold b. destruct (Z.eqb_spec b 0); [done|]. by rewrite Z.eqb_refl.
    + destruct (Z.eqb_spec (fblock s ip (o / BSIZE)) 0) as [|Hn0]; [done|].
      destruct (Z.eqb_spec (fblock s ip (o / BSIZE)) b) as [E|]; [|done].
      apply (fo_inj _ _ _ Hf) in E; done.
Qed.

(** The bytes of a file after [l] is written at [off]. *)
Definition overwrite (f : Z -> Z) (off n : Z) (l : list Z) (o : Z) : Z :=
  if in_range off n o then char_at l (o - off) else f o.

Lemma char_at_drop k l j : 0 <= k -> 0 <= j -> char_at (drop (Z.to_nat k) l) j = char_at l (k + j).
Proof.
  intros Hk Hj. unfold char_at. rewrite !nth_lookup, lookup_drop. do 2 f_equal. lia.
Qed.

Lemma char_at_take k l j : 0 <= j < k -> char_at (take (Z.to_nat k) l) j = char_at l j.
Proof.
  intros Hj. unfold char_at. rewrite !nth_lookup, lookup_take_lt by lia. done.
Qed.

Lemma block_of o off m : 0 <= o -> 0 <= off -> off mod BSIZE + m <= BSIZE ->
  off <= o < off + m -> o / BSIZE = off / BSIZE /\ o mod BSIZE = off mod BSIZE + (o - off).
Proof.
  intros Ho Hoff Hm Hr. destruct (same_block off (o - off)) as [H1 H2]; [lia | lia|].
  replace (off + (o - off)) with o in * by lia. done.
Qed.

(** One round of the loop on the bytes of the file. *)
Lemma chunk_bytes f x off m l o :
  0 <= off -> 0 <= o -> 0 < m -> off mod BSIZE + m <= BSIZE -> m <= Z.of_nat (length l) ->
  (forall o, 0 <= o -> o / BSIZE = off / BSIZE -> x (o mod BSIZE) = f o) ->
  (if o / BSIZE =? off / BSIZE then blit x (off mod BSIZE) (take (Z.to_nat m) l) (o mod BSIZE) else f o) =
  overwrite f off m l o.
Proof.
  intros Hoff Ho Hm Hmb Hl Hx. unfold overwrite.
  assert (Hin : in_range off m o = true -> o / BSIZE = off / BSIZE /\ o mod BSIZE = off mod BSIZE + (o - off)).
  { intros E. unfold in_range in E. to_prop. apply (block_of o off m); done || lia. }
  destruct (Z.eqb_spec (o / BSIZE) (off / BSIZE)) as [E|E].
  - rewrite blit_spec, length_take, Nat.min_l, Z2Nat.id by lia.
    assert (Hoo : o = off + (o mod BSIZE - off mod BSIZE)).
    { rewrite (Z_div_mod_eq_full o BSIZE) at 1. rewrite (Z_div_mod_eq_full off BSIZE) at 1. rewrite E. lia. }
    assert (Hir : in_range (off mod BSIZE) m (o mod BSIZE) = in_range off m o).
    { unfold in_range. apply eq_true_iff_eq. rewrite !andb_true_iff, !Z.leb_le, !Z.ltb_lt. lia. }
    rewrite Hir. destruct (in_range off m o) eqn:Er; [|by apply Hx].
    unfold in_range in Hir. rewrite char_at_take; [f_equal; lia|]. symmetry in Hir. to_prop. lia.
  - destruct (in_range off m o) eqn:Er; [|done]. destruct E. apply (Hin eq_refl).
Qed.

Lemma overwrite_app f off m n l o :
  0 <= m <= n -> overwrite (overwrite f off m l) (off + m) (n - m) (drop (Z.to_nat m) l) o = overwrite f off n l o.
Proof.
  intros Hm. unfold overwrite, in_range.
  destruct (Z.leb_spec (off + m) o), (Z.ltb_spec o (off + m + (n - m))), (Z.leb_spec off o),
    (Z.ltb_spec o (off + m)), (Z.ltb_spec o (off + n)); cbn; try lia; try done.
  rewrite char_at_drop by lia. f_equal. lia.
Qed.

Lemma overwrite_ext f g off n l o : (f o = g o) -> overwrite f off n l o = overwrite g off n l o.
Proof. unfold overwrite. intros ->. done. Qed.

(** One round of the loop of writei, on [m] bytes of one block. *)
Lemma writei_round k s i ip off m src :
  file_ok s i ip -> 0 <= off -> off + m <= MAXFILE * BSIZE -> 0 < m -> off mod BSIZE + m <= BSIZE ->
  m <= Z.of_nat (length src) -> 0 <= k -> room (k + 6) s -> 2 <= nfree s ->
  exists s1 b s2 ip1, bmap i (off / BSIZE) s = Ret s1 b /\
    log_write_ b (wrote b (blit (vw s1 b) (off mod BSIZE) (take (Z.to_nat m) src)) s1) = Ret s2 tt /\
    file_ok s2 i ip1 /\ ext s i ip s2 ip1 /\ room k s2 /\ nfree s - 2 <= nfree s2 /\
    fblock s2 ip1 (off / BSIZE) <> 0 /\ (fblock s ip (off / BSIZE) <> 0 -> ip1 = ip) /\
    (forall o, 0 <= o < MAXFILE * BSIZE -> file_byte s2 ip1 o = overwrite (file_byte s ip) off m src o).
Proof.
  intros Hf Hoff Hmax Hm Hmb Hl Hk Hr Hfree.
  assert (Hbn : 0 <= off / BSIZE < MAXFILE) by (apply slot_bn; lia).
  destruct (bmap_ok (k + 1) s i ip (off / BSIZE)) as (s1 & ip1 & He1 & Hf1 & Hx1 & Hne1 & Hr1 & Hn1 & Hb1);
    [done | done | lia | eapply room_le; [done|lia] | lia |].
  set (b := fblock s1 ip1 (off / BSIZE)) in *.
  set (x := blit (vw s1 b) (off mod BSIZE) (take (Z.to_nat m) src)).
  destruct (write_block s1 i ip1 (off / BSIZE) x Hf1 Hbn Hne1) as (Hf2 & Hx2 & Hn2 & Hb2). fold b in Hf2, Hx2, Hn2, Hb2.
  destruct (log_write_room k b (wrote b x s1) Hk Hr1) as [Hlw Hr2].
  exists s1, b, (logged b (wrote b x s1)), ip1. split_and!; try done.
  - by eapply ext_trans.
  - lia.
  - rewrite (ex_kept _ _ _ _ _ Hx2); [done | unfold is_slot; lia | done].
  - intros Hne. rewrite (bmap_mapped s i ip) in He1 by (done || apply Hf). assert (Es : s1 = s) by congruence.
    pose proof (fo_inode _ _ _ Hf1) as E1. rewrite Es, (fo_inode _ _ _ Hf) in E1. congruence.
  - intros o Ho. rewrite Hb2 by done. unfold x. rewrite (chunk_bytes (file_byte s1 ip1)); try done; try lia.
    + apply overwrite_ext. by apply Hb1.
    + intros o' _ E. unfold file_byte. rewrite E. fold b. by destruct (Z.eqb_spec b 0).
Qed.

(** A call that writes [len] bytes at [off] touches at most [nb] blocks. *)
Definition spans (off len nb : Z) : Prop := len <= 0 \/ off mod BSIZE + len <= nb * BSIZE.

Lemma spans_next off len nb :
  0 <= off -> 0 < len -> 0 <= nb -> spans off len nb ->
  let m := Z.min len (BSIZE - off mod BSIZE) in 1 <= nb /\ spans (off + m) (len - m) (nb - 1).
Proof.
  intros Ho Hl Hnb Hsp m. destruct (chunk off len Ho Hl) as (Hm0 & Hm1 & Hm2 & Hm3). fold m in Hm0, Hm1, Hm2, Hm3.
  pose proof (Z.mod_pos_bound off BSIZE eq_refl) as Hmod. assert (HB : 0 < BSIZE) by done.
  destruct Hsp as [|Hsp]; [lia|]. split; [nia|].
  destruct (decide (m < len)) as [Hlt|]; [right | left; lia]. destruct (Hm3 Hlt) as [-> ->]. lia.
Qed.

Lemma writei_loop_ok fuel nb k s i ip tot off n src :
  file_ok s i ip -> 0 <= off -> 0 <= n - tot <= Z.of_nat fuel -> off + (n - tot) <= MAXFILE * BSIZE ->
  n - tot <= Z.of_nat (length src) -> 0 <= nb -> spans off (n - tot) nb ->
  0 <= k -> room (k + 6 * nb) s -> 2 * nb <= nfree s ->
  exists s' ip', writei_loop fuel i tot off n src s = Ret s' (off + (n - tot)) /\
    file_ok s' i ip' /\ ext s i ip s' ip' /\ room k s' /\
    (forall o, 0 <= o < MAXFILE * BSIZE -> file_byte s' ip' o = overwrite (file_byte s ip) off (n - tot) src o) /\
    (forall o, off <= o < off + (n - tot) -> fblock s' ip' (o / BSIZE) <> 0) /\
    ((forall o, off <= o < off + (n - tot) -> fblock s ip (o / BSIZE) <> 0) -> ip' = ip).
Proof.
  revert nb s ip tot off src. induction fuel as [|fuel IH];
    intros nb s ip tot off src Hf Hoff Hn Hmax Hsrc Hnb Hsp Hk Hr Hfree; cbn [writei_loop];
    (destruct (Z.ltb_spec tot n) as [Hlt|Hge]; [|exists s, ip; replace (n - tot) with 0 by lia;
      split_and!; try done; [by rewrite Z.add_0_r | apply ext_refl | eapply room_le; [done|lia] |
      intros o Ho; unfold overwrite, in_range; case_ifs; done || lia | lia]]); [lia|].
  destruct (chunk off (n - tot)) as (Hm0 & Hm1 & Hm2 & _); [done | lia|].
  destruct (spans_next off (n - tot) nb) as [Hnb1 Hsp1]; [done | lia | done | done |].
  set (m := Z.min (n - tot) (BSIZE - off mod BSIZE)) in *.
  destruct (writei_round (k + 6 * (nb - 1)) s i ip off m src)
    as (s1 & b & s2 & ip1 & He1 & He2 & Hf2 & Hx2 & Hr2 & Hn2 & Hne2 & Hs2 & Hb2);
    [done | done | lia | done | done | lia | lia | eapply room_le; [done|lia] | lia |].
  erewrite bind_ret by exact He1. erewrite bind_ret by reflexivity. erewrite bind_ret by reflexivity.
  erewrite bind_ret by exact He2. fold m.
  destruct (IH (nb - 1) s2 ip1 (tot + m) (off + m) (drop (Z.to_nat m) src))
    as (s' & ip' & He' & Hf' & Hx' & Hr' & Hb' & Hm' & Hs'); try done; try lia.
  { rewrite length_drop. lia. }
  { by replace (n - (tot + m)) with (n - tot - m) by lia. }
  exists s', ip'. replace (off + m + (n - (tot + m))) with (off + (n - tot)) in * by lia.
  replace (n - (tot + m)) with (n - tot - m) in * by lia.
  assert (Hblk : forall o, off <= o < off + m -> o / BSIZE = off / BSIZE)
    by (intros o Ho; apply (block_of o off m); done || lia).
  split_and!; try done.
  - by eapply ext_trans.
  - intros o Ho. rewrite Hb', (overwrite_ext _ _ _ _ _ _ (Hb2 o Ho)) by done. by rewrite overwrite_app by lia.
  - intros o Ho. destruct (decide (o < off + m)); [|apply Hm'; lia]. rewrite Hblk by lia.
    rewrite (ex_kept _ _ _ _ _ Hx'); [done | | done]. destruct (slot_bn off); [lia|]. done.
  - intros Hall. assert (E1 : ip1 = ip) by (apply Hs2, Hall; lia). rewrite <- E1. apply Hs'. intros o Ho.
    rewrite E1. destruct (slot_bn o) as [Hos _]; [lia|].
    pose proof (ex_kept _ _ _ _ _ Hx2 (o / BSIZE) Hos) as Hk2. rewrite E1 in Hk2. rewrite Hk2; apply Hall; lia.
Qed.

(** Writing a block that is neither the file's nor the bitmap's. *)
Lemma other_block s i ip b x :
  file_ok s i ip -> b <> 0 -> ~ is_bitmap s b -> ~ owns s ip b ->
  let s' := logged b (wrote b x s) in
  file_ok s' i ip /\ (forall k, is_slot k -> fblock s' ip k = fblock s ip k) /\
  (forall o, 0 <= o < MAXFILE * BSIZE -> file_byte s' ip o = file_byte s ip o).
Proof.
  intros Hf Hb0 Hb Hno s'.
  assert (Hv : forall c, vw s' c = if c =? b then x else vw s c) by done.
  assert (Hused : forall c, 0 <= c < sb_size (sb s) -> used s' c = used s c) by (intros; by apply used_update).
  assert (Hown : forall k, is_slot k -> (fblock s ip k =? b) = false).
  { intros k Hk. apply Z.eqb_neq. intros E. apply Hno. by exists k. }
  assert (Hfb : forall k, fblock s' ip k = fblock s ip k).
  { intros k. unfold fblock. rewrite Hv.
    pose proof (Hown (-1) ltac:(done)) as E. change (fblock s ip (-1)) with (addr_of ip NDIRECT) in E. by rewrite E. }
  destruct (fo_iblock _ _ _ Hf) as (Hib1 & Hib2 & Hib3).
  split_and!; [|by intros|].
  - split; try apply Hf.
    + apply (bitmap_ok_same s); [done | done | apply Hf].
    + change (sb s') with (sb s). rewrite Hused, (is_bitmap_sb s s') by done. done.
    + intros k Hk. rewrite Hfb. intros Hk0. destruct (fo_blocks _ _ _ Hf k Hk Hk0) as (H1 & H2 & H3 & H4).
      change (sb s') with (sb s). rewrite Hused, (is_bitmap_sb s s') by (done || lia). done.
    + intros k k' Hk Hk'. rewrite !Hfb. by apply Hf.
  - intros o Ho. destruct (slot_bn o Ho) as [Hos _]. unfold file_byte. rewrite Hfb, Hv, Hown by done. done.
Qed.

Lemma iblock_other s i ip : file_ok s i ip ->
  IBLOCK (i_inum ip) (sb s) <> 0 -> ~ owns s ip (IBLOCK (i_inum ip) (sb s)).
Proof.
  intros Hf Hne (k & Hk & E). destruct (fo_blocks _ _ _ Hf k Hk) as (_ & _ & _ & H); [congruence | done].
Qed.

Lemma file_ok_size s i ip v : file_ok s i ip -> file_ok (on_inode i (set_size v) s) i (set_size v ip).
Proof.
  intros Hf. split; try apply Hf; [by apply on_inode_lookup, Hf|].
  apply (bitmap_ok_same s); [done | done | apply Hf].
Qed.

Lemma file_wf s i ip : file_ok s i ip -> Forall is_u32 (i_addrs ip).
Proof.
  intros Hf. apply Forall_lookup. intros j a Hj. pose proof (lookup_lt_Some _ _ _ Hj) as Hl.
  rewrite (fo_len _ _ _ Hf) in Hl. pose proof (bo_size s (fo_bitmap _ _ _ Hf)).
  assert (Ha : addr_of ip (Z.of_nat j) = a) by (unfold addr_of; rewrite Nat2Z.id, nth_lookup, Hj; done).
  assert (Hs : is_slot (slot_of (Z.of_nat j))) by (slots; case_ifs; lia).
  assert (Hfa : fblock s ip (slot_of (Z.of_nat j)) = a).
  { rewrite <- Ha. unfold slot_of, fblock. destruct (Z.eqb_spec (Z.of_nat j) NDIRECT) as [->|]; [done|].
    unfold NDIRECT in *. destruct (Z.ltb_spec (Z.of_nat j) 0); [lia|]. destruct (Z.ltb_spec (Z.of_nat j) 12); [done | lia]. }
  unfold is_u32. destruct (decide (a = 0)) as [->|]; [lia|].
  destruct (fo_blocks _ _ _ Hf _ Hs) as (Hr & _); [by rewrite Hfa|]. rewrite Hfa in Hr. lia.
Qed.

(** The disk's copy of the inode is up to date. *)
Definition synced (s : fs) (ip : inode) : Prop := dinode s (i_inum ip) ip = ip.

(** Everything a caller of writei relies on. *)
Record file_inv (s : fs) (i : nat) (ip : inode) : Prop := {
  fi_ok : file_ok s i ip;
  fi_wf : inode_wf ip;
  fi_dense : dense s ip;
  fi_synced : synced s ip;
  fi_type : i_type ip <> T_DEV;
  fi_size : i_size ip <= MAXFILE * BSIZE;
  fi_iblock : IBLOCK (i_inum ip) (sb s) <> 0;
}.

(** What writei leaves alone outside of the file. *)
Definition frame (s : fs) (i : nat) (ip : inode) (s' : fs) : Prop :=
  sb s' = sb s /\ ic_lock s' = ic_lock s /\ (forall j, j <> i -> inodes s' !! j = inodes s !! j) /\
  forall b, 0 <= b < sb_size (sb s) -> used s b = true -> ~ is_bitmap s b -> ~ owns s ip b ->
    b <> IBLOCK (i_inum ip) (sb s) -> used s' b = true /\ vw s' b = vw s b.

Lemma ext_frame s i ip s' ip' : ext s i ip s' ip' -> frame s i ip s'.
Proof.
  intros Hx. split_and!; try apply Hx. intros b Hb Hu Hnb Hno _. split; by apply Hx.
Qed.

(** What writei does to the transaction. *)
Record transacted (s : fs) (ip : inode) (s' : fs) (ip' : inode) : Prop := {
  tr_tx : tx s s';
  tr_lh : forall b, b ∈ lh (fl s') -> touches s ip b \/ b = IBLOCK (i_inum ip) (sb s) \/ b ∈ lh (fl s);
  tr_owns : forall b, 0 <= b < sb_size (sb s) -> used s b = true -> owns s' ip' b -> owns s ip b;
  tr_room : room 0 s';
}.

Lemma ext_transacted s i ip s' ip' : ext s i ip s' ip' -> room 0 s' -> transacted s ip s' ip'.
Proof.
  intros Hx Hr. split; [apply Hx | | apply Hx | done].
  intros b Hb. destruct (ex_lh _ _ _ _ _ Hx b Hb); auto.
Qed.

(** The end of writei when the file grows to [e]. *)
Lemma grow_ok s i ip e :
  file_ok s i ip -> inode_wf ip -> IBLOCK (i_inum ip) (sb s) <> 0 -> is_u32 e -> room 1 s ->
  exists s', (modify (on_inode i (set_size e)) ≫= fun _ => iupdate i) s = Ret s' tt /\
    file_ok s' i (set_size e ip) /\ synced s' (set_size e ip) /\ frame s i ip s' /\
    (forall k, is_slot k -> fblock s' (set_size e ip) k = fblock s ip k) /\
    (forall o, 0 <= o < MAXFILE * BSIZE -> file_byte s' (set_size e ip) o = file_byte s ip o) /\
    tx s s' /\ (forall b, b ∈ lh (fl s') -> b = IBLOCK (i_inum ip) (sb s) \/ b ∈ lh (fl s)) /\ room 0 s'.
Proof.
  intros Hf Hwf Hib He Hr. set (ip1 := set_size e ip). set (s1 := on_inode i (set_size e) s).
  assert (Hf1 : file_ok s1 i ip1) by (by apply file_ok_size).
  destruct (iupdate_eq 0 s1 i ip1) as [Hu Hr']; [apply Hf1 | lia | done|]. cbv zeta in Hu, Hr'.
  set (ib := IBLOCK (i_inum ip1) (sb s1)) in *. destruct (fo_iblock _ _ _ Hf1) as (Hib1 & Hib2 & Hib3).
  fold ib in Hib1, Hib2, Hib3. set (x := store_dinode _ _ _) in *.
  destruct (other_block s1 i ip1 ib x) as (Hf2 & Hk2 & Hb2); [done | done | done | by apply (iblock_other s1 i)|].
  eexists. split; [erewrite bind_ret by reflexivity; exact Hu|]. split_and!; try done.
  - unfold synced, dinode. change (i_inum ip1) with (i_inum ip). change (sb (logged ib (wrote ib x s1))) with (sb s).
    fold ib. rewrite vw_logged, vw_wrote, setb_eq. unfold x. rewrite load_store_dinode; [by destruct ip|].
    destruct Hwf. split; done.
  - split_and!; [done | done | intros j Hj; by apply on_inode_ne|]. intros b Hb Hub Hnb Hno Hne. split.
    + rewrite used_update; [done | done | done].
    + rewrite vw_logged, vw_wrote, setb_ne by done. done.
  - apply (tx_trans s s1); [by split | apply tx_update].
  - intros b Hb. change (lh (fl (logged ib (wrote ib x s1)))) with (add_block ib (lh (fl s))) in Hb. apply elem_add_block in Hb as [Hb| ->]; [by right | by left].
Qed.

Lemma writei_ok nb s i ip src off n :
  file_inv s i ip -> 0 <= off <= i_size ip -> 0 <= n <= Z.of_nat (length src) -> off + n <= MAXFILE * BSIZE ->
  0 <= nb -> spans off n nb -> room (6 * nb + 1) s -> 2 * nb <= nfree s ->
  exists s' ip', writei devsw_write i src off n s = Ret s' n /\ file_inv s' i ip' /\
    i_size ip' = Z.max (i_size ip) (off + n) /\ i_inum ip' = i_inum ip /\ i_type ip' = i_type ip /\
    i_nlink ip' = i_nlink ip /\ i_ref ip' = i_ref ip /\ i_lock ip' = i_lock ip /\ i_dev ip' = i_dev ip /\
    frame s i ip s' /\
    (forall o, 0 <= o < MAXFILE * BSIZE -> file_byte s' ip' o = overwrite (file_byte s ip) off n src o) /\
    transacted s ip s' ip'.
Proof.
  intros [Hf Hwf Hd Hsy Hty Hsz Hib] Hoff Hn Hmax Hnb Hsp Hr Hfree.
  unfold writei. rewrite (with_inode_eq i ip) by apply Hf. assert (HB : BSIZE = 512) by done.
  assert (HM : MAXFILE * BSIZE = 71680) by done.
  destruct (Z.eqb_spec (i_type ip) T_DEV); [done|]. destruct (Z.ltb_spec (i_size ip) off); [lia|].
  rewrite u32_small by (unfold is_u32; lia). destruct (Z.ltb_spec (off + n) off); [lia|]. cbn [orb].
  destruct (Z.ltb_spec (MAXFILE * BSIZE) (off + n)); [lia|].
  destruct (writei_loop_ok (Z.to_nat n) nb 1 s i ip 0 off n src)
    as (s1 & ip1 & He1 & Hf1 & Hx1 & Hr1 & Hb1 & Hm1 & Hs1); rewrite ?Z.sub_0_r in *; try done; try lia;
    [eapply room_le; [done | lia]|].
  pose proof (ex_ip _ _ _ _ _ Hx1) as Hip1. pose proof (ex_sb _ _ _ _ _ Hx1) as Hsb1.
  destruct (fo_iblock _ _ _ Hf) as (Hib1 & Hib2 & Hib3).
  assert (Hwf1 : inode_wf ip1).
  { destruct Hwf. rewrite Hip1. split; try done; [apply Hf1 | exact (file_wf _ _ _ Hf1)]. }
  assert (Hsz1 : i_size ip1 = i_size ip) by (by rewrite Hip1).
  assert (Hin1 : i_inum ip1 = i_inum ip) by (by rewrite Hip1).
  assert (Hfld : i_type ip1 = i_type ip /\ i_nlink ip1 = i_nlink ip /\ i_ref ip1 = i_ref ip /\
    i_lock ip1 = i_lock ip /\ i_dev ip1 = i_dev ip) by (rewrite Hip1; done). destruct Hfld as (Ht1 & Hnl1 & Hrf1 & Hlk1 & Hdv1).
  assert (Hdense : forall bn, 0 <= bn -> bn * BSIZE < Z.max (i_size ip) (off + n) -> fblock s1 ip1 bn <> 0).
  { intros bn Hbn Hlt. destruct (decide (bn * BSIZE < i_size ip)) as [Hlt'|].
    - rewrite (ex_kept _ _ _ _ _ Hx1); [by apply Hd | | by apply Hd]. slots. lia.
    - replace bn with (bn * BSIZE / BSIZE) by (by rewrite Z.div_mul). apply Hm1. lia. }
  erewrite bind_ret by exact He1. rewrite (with_inode_eq i ip1) by apply Hf1.
  destruct ((0 <? n) && (i_size ip1 <? off + n)) eqn:Eg; to_prop.
  - destruct (grow_ok s1 i ip1 (off + n)) as (s2 & He2 & Hf2 & Hsy2 & Hfr2 & Hk2 & Hb2 & Htx2 & Hlh2 & Hr2); try done.
    { by rewrite Hin1, Hsb1. } { unfold is_u32. lia. }
    erewrite bind_ret by exact He2. exists s2, (set_size (off + n) ip1).
    assert (Hinv : file_inv s2 i (set_size (off + n) ip1)).
    { split; try done.
      - destruct Hwf1. split; try done. unfold is_u32. cbn. lia.
      - intros bn Hbn Hlt. cbn in Hlt. rewrite Hk2 by (slots; lia). apply Hdense; lia.
      - cbn. by rewrite Ht1.
      - destruct Hfr2 as (E & _). cbn. by rewrite Hin1, E, Hsb1. }
    split_and!; try done; [cbn; lia | | |].
    + destruct (ext_frame _ _ _ _ _ Hx1) as (Ha1 & Ha2 & Ha3 & Ha4). destruct Hfr2 as (Hc1 & Hc2 & Hc3 & Hc4).
      split_and!; [congruence | congruence | intros j Hj; rewrite Hc3 by done; by apply Ha3|].
      intros b Hb Hub Hnb' Hno Hne. destruct (Ha4 b Hb Hub Hnb' Hno Hne) as [Hu1 Hv1].
      rewrite <- Hv1. apply Hc4; [by rewrite Hsb1 | done | by rewrite (is_bitmap_sb s) | | by rewrite Hin1, Hsb1].
      intros Ho. by apply Hno, (ex_owns _ _ _ _ _ Hx1).
    + intros o Ho. rewrite Hb2 by done. by apply Hb1.
    + split; [by eapply tx_trans; [apply Hx1|] | | | done].
      * intros b Hb. destruct (Hlh2 b Hb) as [->|Hb']; [right; left; by rewrite Hin1, Hsb1|].
        destruct (ex_lh _ _ _ _ _ Hx1 b Hb'); auto.
      * intros b Hb Hub (k & Hk & E). apply (ex_owns _ _ _ _ _ Hx1); [done | done|]. exists k. split; [done|]. by rewrite <- Hk2.
  - assert (Hgr : off + n <= i_size ip).
    { destruct Eg as [Eg|Eg]; to_prop; lia. }
    assert (E1 : ip1 = ip).
    { apply Hs1. intros o Ho. apply Hd; [apply Z.div_pos; lia|].
      pose proof (Z_div_mod_eq_full o BSIZE). pose proof (Z.mod_pos_bound o BSIZE eq_refl). lia. }
    exists s1, ip1. split_and!; try done; [|lia | by eapply ext_frame | eapply ext_transacted; [done | eapply room_le; [done | lia]]].
    split; try done.
    + intros bn Hbn Hlt. apply Hdense; lia.
    + rewrite E1. unfold synced, dinode. rewrite Hsb1, (ex_frame _ _ _ _ _ Hx1); [done.. | by apply (iblock_other s i)].
    + by rewrite Ht1.
    + lia.
    + by rewrite Hin1, Hsb1.
Qed.

(** C26 (functional): Readi of a file without holes returns the bytes of the
    file from [off] on, as many as the caller asked for and the size leaves,
    and changes nothing; an offset beyond the size, or a range that wraps
    around, gives -1. *)
Theorem readi_spec (s : fs) (i : nat) (ip : inode) (off n : Z) :
  inodes s !! i = Some ip -> i_type ip <> T_DEV -> dense s ip -> i_size ip <= MAXFILE * BSIZE ->
  is_u32 off -> is_u32 n ->
  readi devsw_read i off n s =
    if (i_size ip <? off) || (2 ^ 32 <=? off + n) then Ret s (-1, [])
    else Ret s (Z.min n (i_size ip - off), map (file_byte s ip) (seqZ off (Z.min n (i_size ip - off)))).
Proof.
  intros Hi Ht Hd Hsz Hoff Hn. unfold is_u32 in *.
  destruct ((i_size ip <? off) || (2 ^ 32 <=? off + n)) eqn:E; to_prop.
  - unfold readi. rewrite (with_inode_eq i ip) by done. destruct (Z.eqb_spec (i_type ip) T_DEV); [done|].
    destruct E as [E|E]; to_prop; [by rewrite (proj2 (Z.ltb_lt _ _) E)|].
    assert (Hw : u32 (off + n) = off + n - 2 ^ 32).
    { unfold u32. symmetry. apply (Z.mod_unique _ _ 1); [left; lia | lia]. }
    rewrite Hw. destruct (Z.ltb_spec (off + n - 2 ^ 32) off); [by rewrite orb_true_r | lia].
  - rewrite (readi_ok s i ip off n) by (done || lia). unfold clip.
    destruct (Z.ltb_spec (i_size ip) (off + n)); [rewrite Z.min_r by lia | rewrite Z.min_l by lia]; done.
Qed.


Lemma map_overwrite f off n l :
  0 <= n <= Z.of_nat (length l) -> map (overwrite f off n l) (seqZ off n) = take (Z.to_nat n) l.
Proof.
  intros Hn. apply list_eq. intros j. rewrite list_lookup_fmap.
  destruct (decide (j < Z.to_nat n)%nat) as [Hj|Hj].
  - rewrite lookup_seqZ_lt by lia. cbn. rewrite lookup_take_lt by done. unfold overwrite, in_range.
    destruct (Z.leb_spec off (off + Z.of_nat j)), (Z.ltb_spec (off + Z.of_nat j) (off + n)); try lia. cbn.
    unfold char_at. replace (Z.to_nat (off + Z.of_nat j - off)) with j by lia.
    destruct (lookup_lt_is_Some_2 l j ltac:(lia)) as [v Hv]. by rewrite nth_lookup, Hv.
  - rewrite lookup_seqZ_ge by lia. rewrite lookup_take_ge by lia. done.
Qed.

(** Reading back a range just written gives the bytes
    written. *)
Theorem writei_readi_roundtrip (nb : Z) (s : fs) (i : nat) (ip : inode) (src : list Z) (off n : Z) :
  file_inv s i ip -> 0 <= off <= i_size ip -> 0 <= n <= Z.of_nat (length src) -> off + n <= MAXFILE * BSIZE ->
  0 <= nb -> spans off n nb -> room (6 * nb + 1) s -> 2 * nb <= nfree s ->
  exists s', writei devsw_write i src off n s = Ret s' n /\
    readi devsw_read i off n s' = Ret s' (n, take (Z.to_nat n) src).
Proof.
  intros Hf Hoff Hn Hmax Hnb Hsp Hr Hfree.
  destruct (writei_ok nb s i ip src off n) as (s' & ip' & H1 & H2 & H3 & _ & _ & _ & _ & _ & _ & _ & H5 & _); try done.
  exists s'. split; [done|]. assert (HM : MAXFILE * BSIZE = 71680) by done.
  rewrite (readi_ok s' i ip' off n); [|apply H2 | apply H2 | apply H2 | apply H2 | lia | lia | lia].
  assert (Hc : clip ip' off n = n) by (unfold clip; destruct (Z.ltb_spec (i_size ip') (off + n)); lia).
  rewrite Hc. do 2 f_equal. rewrite <- (map_overwrite (file_byte s ip) off n src) by done.
  apply map_ext_in. intros o Ho. apply list_elem_of_In, elem_of_seqZ in Ho. apply H5. lia.
Qed.

End content.

(** ** Witnesses: a file of 1024 bytes in blocks 34 and 35; the log is empty *)

Definition data_disk : Z -> block := fun b a =>
  if b =? 32 then (if a <? 4 then 255 else if a =? 4 then 13 else 0)
  else if b =? 28 then store_dinode (fun _ => 0) 64 sample_inode a
  else if b =? 2 then 0 else b.
Definition data_fs : fs :=
  mk_fs false [sample_inode; empty_inode] small_sb (mk_log false 2 26 1 false [] 0 (restart data_disk)).

Lemma data_room k : k <= 25 -> room k data_fs.
Proof. intros. unfold room, LOGSIZE, MAXOPBLOCKS, lh_n. cbn. lia. Qed.

Lemma data_bitmap b : is_bitmap data_fs b -> b = 32.
Proof.
  intros (c & Hc & ->). cbn in Hc. unfold BBLOCK, BPB, BSIZE. cbn. rewrite Z.div_small; lia.
Qed.

Lemma data_bitmap_ok : bitmap_ok data_fs.
Proof. split; [cbn; lia | reflexivity|]. intros c Hc _. by rewrite (data_bitmap c Hc). Qed.

Lemma data_fblock k :
  fblock data_fs sample_inode k = if k =? 0 then 34 else if k =? 1 then 35 else 0.
Proof.
  unfold fblock. change (addr_of sample_inode NDIRECT) with 0. unfold NDIRECT. cbn [Z.eqb].
  destruct (Z.ltb_spec k 0), (Z.eqb_spec k 0), (Z.eqb_spec k 1); try lia; subst; try done.
  destruct (Z.ltb_spec k 12); [|done].
  assert (Hk : k ∈ seqZ 2 10) by (apply elem_of_seqZ; lia). vm_compute in Hk.
  repeat (apply elem_of_cons in Hk as [->|Hk]; [done|]). by apply elem_of_nil in Hk.
Qed.

Lemma data_inv : file_inv data_fs 0 sample_inode.
Proof.
  split; [split | | | | | |]; try done.
  - apply data_bitmap_ok.
  - split_and!; [done | done | done |]. intros H. by apply data_bitmap in H.
  - intros k Hk. rewrite data_fblock.
    destruct (Z.eqb_spec k 0), (Z.eqb_spec k 1); intros Hne; try done; (split_and!; [lia | done | done | | done]);
      intros H; by apply data_bitmap in H.
  - intros k k' Hk Hk'. rewrite !data_fblock. case_ifs; done || lia.
  - apply sample_inode_wf.
  - intros bn Hbn Hlt. unfold BSIZE in Hlt. cbn in Hlt. rewrite data_fblock. case_ifs; lia.
Qed.

Definition no_read : Z -> option (nat -> Z -> M fs (Z * list Z)) := fun _ => None.
Definition no_write : Z -> option (nat -> list Z -> Z -> M fs Z) := fun _ => None.

Lemma readi_spec_witness :
  readi no_read 0 510 4 data_fs = Ret data_fs (4, [34; 34; 35; 35]).
Proof.
  rewrite (readi_spec no_read data_fs 0 sample_inode 510 4);
    [reflexivity | done | done | apply data_inv | done | unfold is_u32; lia | unfold is_u32; lia].
Defined.


Lemma writei_readi_roundtrip_witness :
  exists s', writei no_write 0 [1; 2; 3; 4] 1022 4 data_fs = Ret s' 4 /\
    readi no_read 0 1022 4 s' = Ret s' (4, [1; 2; 3; 4]).
Proof.
  apply (writei_readi_roundtrip no_read no_write 2 data_fs 0 sample_inode [1; 2; 3; 4] 1022 4 data_inv);
    [cbn; lia | cbn; lia | done | lia | right; done | apply data_room; lia | done].
Defined.
