(* ===== verification/FsCrash.v ===== *)
(** Files across crashes: writei in a transaction of its own, composed with the
    commit of the log and with recovery. *)

From S2P Require Import Prelude Word Mem Spinlock Block Log Fs FsBlocks FsInode FsData.

Local Open Scope Z_scope.

(** The state after begin_op of the only transaction: the log is empty, and the
    cache agrees with the disk outside of the log area. *)
Record quiet (st sz : Z) (s : fs) : Prop := {
  qt_log : start (fl s) = st /\ size (fl s) = sz /\ outstanding (fl s) = 1 /\ committing (fl s) = false;
  qt_empty : lh (fl s) = [] /\ header (disk (dv (fl s)) st) = [] /\ hist (dv (fl s)) = [];
  qt_clean : forall b, ~ log_area st sz b -> vw s b = disk (dv (fl s)) b;
}.

(** The layout: the log area is marked used and holds no bitmap block, no block
    of the file and not its inode; the bitmap is inside the file system. *)
Record log_apart (st sz : Z) (s : fs) (ip : inode) : Prop := {
  la_area : forall b, log_area st sz b -> 0 <= b < sb_size (sb s) /\ used s b = true;
  la_bitmap : forall b, is_bitmap s b -> ~ log_area st sz b /\ 0 <= b < sb_size (sb s);
  la_file : forall b, owns s ip b -> b <> 0 -> ~ log_area st sz b;
  la_inode : ~ log_area st sz (IBLOCK (i_inum ip) (sb s));
  la_start : 0 < st;
}.

(** The machine restarted on disk [d]. *)
Definition rebooted (d : Z -> block) (s : fs) : fs := set_fl (set_dv (restart d) (fl s)) s.

Lemma rebooted_vw d s : vw (rebooted d s) = d.
Proof. done. Qed.

Section reboot.
Context (s : fs) (i : nat) (ip : inode) (d : Z -> block) (Hf : file_ok s i ip).
Context (Hd : forall b, owns s ip b -> b <> 0 -> d b = vw s b).

Lemma rebooted_fblock k : fblock (rebooted d s) ip k = fblock s ip k.
Proof.
  unfold fblock. rewrite rebooted_vw. destruct (Z.eqb_spec (addr_of ip NDIRECT) 0) as [|Hne]; [done|].
  rewrite Hd; [done | exists (-1); done | done].
Qed.

(** A file whose blocks are on the disk reads the same. *)
Lemma rebooted_file o : 0 <= o < MAXFILE * BSIZE -> file_byte (rebooted d s) ip o = file_byte s ip o.
Proof.
  intros Ho. destruct (slot_bn o Ho) as [Hs _]. unfold file_byte. rewrite rebooted_fblock, rebooted_vw.
  destruct (Z.eqb_spec (fblock s ip (o / BSIZE)) 0) as [|Hne]; [done|]. rewrite Hd; [done | by exists (o / BSIZE) | done].
Qed.

End reboot.

Section crash.
Context (st sz : Z) (Hsz : 0 < sz).

(** The blocks that a transaction of writei logs can be committed. *)
Lemma transacted_lh_ok s i ip s' ip' :
  file_ok s i ip -> quiet st sz s -> log_apart st sz s ip -> transacted s ip s' ip' -> lh_ok st sz (lh (fl s')).
Proof.
  intros Hf Hq Ha Ht. destruct (qt_log _ _ _ Hq) as (Hst & Hs & _). destruct (qt_empty _ _ _ Hq) as (Hlh & _).
  destruct (tx_log _ _ (tr_tx _ _ _ _ Ht)) as (_ & Hs' & _). destruct (tr_room _ _ _ _ Ht) as (_ & _ & Hr1 & Hr2).
  pose proof (bo_size s (fo_bitmap _ _ _ Hf)) as Hbs. unfold lh_n in *. split.
  - apply (tx_nodup _ _ (tr_tx _ _ _ _ Ht)). rewrite Hlh. constructor.
  - apply list.Forall_forall. intros b Hb. destruct (tr_lh _ _ _ _ Ht b Hb) as [[Hbm|[Hbr Ho]]|[->|Hb']].
    + destruct (la_bitmap _ _ _ _ Ha b Hbm) as [H1 H2]. split; [done|]. unfold is_u32. lia.
    + split; [|unfold is_u32; lia]. intros Hla. destruct (la_area _ _ _ _ Ha b Hla) as [_ Hu].
      apply (la_file _ _ _ _ Ha b); [by apply Ho | lia | done].
    + split; [by apply (la_inode _ _ _ _ Ha)|]. destruct (fo_iblock _ _ _ Hf) as (H1 & _). unfold is_u32. lia.
    + rewrite Hlh in Hb'. by apply elem_of_nil in Hb'.
  - lia.
  - lia.
Qed.

(** C3 (safety): a write to a file is atomic across crashes.  Take a writei in a
    transaction of its own and its end_op, stop the machine after any write to
    the disk, and again after any write of any number of recoveries: when a
    recovery completes, the file has its old inode and content, or the new
    ones, with exactly the bytes written. *)
Theorem write_crash_atomic (devsw_write : Z -> option (nat -> list Z -> Z -> M fs Z))
  (nb : Z) (s : fs) (i : nat) (ip : inode) (src : list Z) (off n : Z) :
  file_inv s i ip -> quiet st sz s -> log_apart st sz s ip ->
  0 <= off <= i_size ip -> 0 <= n <= Z.of_nat (length src) -> off + n <= MAXFILE * BSIZE ->
  0 <= nb -> spans off n nb -> room (6 * nb + 1) s -> 2 * nb <= nfree s ->
  exists s' ip' s'', writei devsw_write i src off n s = Ret s' n /\ lift_log end_op s' = Ret s'' tt /\
    i_size ip' = Z.max (i_size ip) (off + n) /\
    forall x x', x ∈ disk (dv (fl s)) :: hist (dv (fl s'')) -> steps (crash_again st sz) x x' ->
      let d := disk (dv (initlog st sz x')) in
      (synced (rebooted d s) ip /\
       forall o, 0 <= o < MAXFILE * BSIZE -> file_byte (rebooted d s) ip o = file_byte s ip o) \/
      (synced (rebooted d s') ip' /\
       forall o, 0 <= o < MAXFILE * BSIZE ->
         file_byte (rebooted d s') ip' o = if (off <=? o) && (o <? off + n) then nth (Z.to_nat (o - off)) src 0
                                           else file_byte s ip o).
Proof.
  intros Hf Hq Ha Hoff Hn Hmax Hnb Hsp Hr Hfree. pose proof (fi_ok _ _ _ Hf) as Hok.
  destruct (writei_ok devsw_write nb s i ip src off n) as (s' & ip' & Hw & Hf' & Hsize & Hinum & _ & _ & _ & _ & _ & Hfr & Hb & Ht); try done.
  destruct (qt_log _ _ _ Hq) as (Hst & Hs & Ho & Hc). destruct (qt_empty _ _ _ Hq) as (Hlh & Hhd & Hhist).
  destruct (tx_log _ _ (tr_tx _ _ _ _ Ht)) as (Hst' & Hs' & _ & Ho' & Hc'). destruct (tx_disk _ _ (tr_tx _ _ _ _ Ht)) as [Hdk Hhs].
  destruct (tr_room _ _ _ _ Ht) as (Hlk & _). pose proof (transacted_lh_ok s i ip s' ip' Hok Hq Ha Ht) as Hlo.
  destruct (end_op_cases (fl s')) as (l2 & Ee & _ & _ & _ & _ & _ & Hd2); [done | congruence|].
  rewrite Ho', Ho in Hd2. destruct Hd2 as [_ Hd2].
  exists s', ip', (set_fl l2 s'). split_and!; [done | unfold lift_log; by rewrite Ee | done|].
  intros x x' Hx Hsteps d. change (fl (set_fl l2 s')) with l2 in Hx. rewrite Hd2 in Hx.
  destruct (commit_crash_cases st sz Hsz (fl s') x x') as [Hrec|Hrec]; rewrite ?Hdk, ?Hhs; try done; try congruence.
  - left. destruct (initlog_recovers st sz Hsz _ _ Hrec) as (_ & _ & _ & HR). fold d in HR. rewrite Hdk in HR.
    assert (Hd : forall b, ~ log_area st sz b -> d b = vw s b) by (intros b Hb'; rewrite HR, (qt_clean _ _ _ Hq); done).
    split.
    + unfold synced, dinode. rewrite rebooted_vw. change (sb (rebooted d s)) with (sb s). rewrite Hd by (by apply (la_inode _ _ _ _ Ha)). apply Hf.
    + intros o Hoo. apply (rebooted_file s ip d); [|done]. intros b Hob Hb0. apply Hd. by apply (la_file _ _ _ _ Ha).
  - right. destruct (initlog_recovers st sz Hsz _ _ Hrec) as (_ & _ & _ & HR). fold d in HR.
    assert (Hd : forall b, ~ log_area st sz b -> d b = vw s' b).
    { intros b Hb'. rewrite HR by done. unfold committed. rewrite Hdk. case_bool_decide as Hin; [done|].
      rewrite (tx_logged _ _ (tr_tx _ _ _ _ Ht)), (qt_clean _ _ _ Hq); done. }
    destruct Hfr as (Hsb & _). split.
    + unfold synced, dinode. rewrite rebooted_vw. change (sb (rebooted d s')) with (sb s').
      rewrite Hd; [apply Hf'|]. rewrite Hinum, Hsb. by apply (la_inode _ _ _ _ Ha).
    + intros o Hoo. rewrite (rebooted_file s' ip' d); [by apply Hb | | done]. intros b Hob Hb0. apply Hd. intros Hla.
      destruct (la_area _ _ _ _ Ha b Hla) as [Hbr Hu]. apply (la_file _ _ _ _ Ha b); [|done|done].
      by apply (tr_owns _ _ _ _ Ht).
Qed.

End crash.

Lemma data_quiet : quiet 2 26 data_fs.
Proof. by split. Qed.

Lemma data_apart : log_apart 2 26 data_fs sample_inode.
Proof.
  split; try done.
  - intros b Hb. unfold log_area in Hb. split; [cbn; lia|].
    assert (Hin : b ∈ seqZ 2 26) by (apply elem_of_seqZ; lia). vm_compute in Hin.
    repeat (apply elem_of_cons in Hin as [->|Hin]; [reflexivity|]). by apply elem_of_nil in Hin.
  - intros b ->%data_bitmap. unfold log_area. cbn. lia.
  - intros b (k & _ & <-). rewrite data_fblock. unfold log_area. destruct (k =? 0), (k =? 1); lia.
  - unfold log_area. change (IBLOCK (i_inum sample_inode) (sb data_fs)) with 28. lia.
Qed.

(** Four bytes over the end of the file of 1024 bytes. *)
Lemma write_crash_atomic_witness :
  exists s' s'', writei no_write 0 [1; 2; 3; 4] 1022 4 data_fs = Ret s' 4 /\ lift_log end_op s' = Ret s'' tt.
Proof.
  destruct (write_crash_atomic 2 26 eq_refl no_write 2 data_fs 0 sample_inode [1; 2; 3; 4] 1022 4 data_inv data_quiet data_apart)
    as (s' & ip' & s'' & H1 & H2 & _); [cbn; lia | cbn; lia | done | lia | right; done | apply data_room; lia | done |].
  exists s', s''. exact (conj H1 H2).
Defined.
