(* ===== verification/Dir.v ===== *)
(** Directories and path names (fs.c).

    A directory is a file of 16-byte entries; [dent] is the k-th one.
    dirlookup and dirlink are readi and writei on it, and are shown to search
    and extend the list of entries.  A path is the list of its characters
    before the NUL; skipelem splits it into elements.  The strings of a call
    and the struct dirent on the stack stand in one memory, [stack]. *)

From S2P Require Import Prelude Word Mem Spinlock Block Log Fs FsBlocks FsInode FsData.

Local Open Scope Z_scope.

Definition DIRSIZ : Z := 14.
Definition DIRENT_SIZE : Z := 16.
Definition slash : Z := 47.

(** The caller's name at 0, and struct dirent de at 256: de.inum, then
    de.name. *)
Definition stack (name de : list Z) : mem := fun a =>
  if a <? 256 then char_at name a else char_at de (a - 256).
Definition at_de : Z := 256.
Definition at_de_name : Z := 258.

Definition namecmp (m : mem) (s t : Z) : Z := strncmp m s t DIRSIZ.

(** ** Paths *)

Fixpoint skip_slashes (path : list Z) : list Z :=
  match path with
  | c :: path' => if c =? slash then skip_slashes path' else path
  | [] => []
  end.

(** The loop that passes the characters before the next slash or the end:
    the characters passed, and the rest. *)
Fixpoint span_elem (path : list Z) : list Z * list Z :=
  match path with
  | c :: path' => if c =? slash then ([], path) else let (e, r) := span_elem path' in (c :: e, r)
  | [] => ([], [])
  end.

(** The element copied to name (at most DIRSIZ characters), and the path
    that is returned. *)
Definition skipelem (path : list Z) : option (list Z * list Z) :=
  match skip_slashes path with
  | [] => None
  | p => let (e, r) := span_elem p in Some (take (Z.to_nat DIRSIZ) e, skip_slashes r)
  end.

Section dir.
Context (mypid : Z) (lock_addr : nat -> Z).
Context (devsw_read : Z -> option (nat -> Z -> M fs (Z * list Z))).
Context (devsw_write : Z -> option (nat -> list Z -> Z -> M fs Z)).

(** The loop of dirlookup from [off] on. *)
Fixpoint dirlookup_loop (fuel : nat) (dp : nat) (name : list Z) (off : Z) : M fs (option (nat * Z)) :=
  with_inode dp (fun ip =>
  if off <? i_size ip then
    match fuel with
    | O => panic "fuel"
    | S fuel =>
        readi devsw_read dp off DIRENT_SIZE ≫= fun r =>
        if negb (r.1 =? DIRENT_SIZE) then panic "dirlookup read"
        else
          let m := stack name r.2 in
          if load16 m at_de =? 0 then dirlookup_loop fuel dp name (off + DIRENT_SIZE)
          else if namecmp m 0 at_de_name =? 0 then
            iget (i_dev ip) (load16 m at_de) ≫= fun j => mret (Some (j, off))
          else dirlookup_loop fuel dp name (off + DIRENT_SIZE)
    end
  else mret None).

(** Every round passes 16 bytes, so this many rounds are enough. *)
Definition dir_fuel (ip : inode) : nat := S (Z.to_nat (i_size ip / DIRENT_SIZE)).

(** The inode found, and *poff. *)
Definition dirlookup (dp : nat) (name : list Z) : M fs (option (nat * Z)) :=
  with_inode dp (fun ip =>
  if negb (i_type ip =? T_DIR) then panic "dirlookup not DIR"
  else dirlookup_loop (dir_fuel ip) dp name 0).

(** The search of dirlink for an empty entry: its offset, and de. *)
Fixpoint dirlink_loop (fuel : nat) (dp : nat) (off : Z) (de : list Z) : M fs (Z * list Z) :=
  with_inode dp (fun ip =>
  if off <? i_size ip then
    match fuel with
    | O => panic "fuel"
    | S fuel =>
        readi devsw_read dp off DIRENT_SIZE ≫= fun r =>
        if negb (r.1 =? DIRENT_SIZE) then panic "dirlink read"
        else if load16 (stack [] r.2) at_de =? 0 then mret (off, r.2)
        else dirlink_loop fuel dp (off + DIRENT_SIZE) r.2
    end
  else mret (off, de)).

(** [de0] is the content of the uninitialised struct dirent. *)
Definition dirlink (de0 : list Z) (dp : nat) (name : list Z) (inum : Z) : M fs Z :=
  dirlookup dp name ≫= fun r =>
  match r with
  | Some (ip, _) => iput mypid lock_addr ip ≫= fun _ => mret (-1)
  | None =>
      with_inode dp (fun ip => dirlink_loop (dir_fuel ip) dp 0 de0) ≫= fun od =>
      let m := strncpy (stack name od.2) at_de_name 0 DIRSIZ in
      let m := store16 m at_de inum in
      writei devsw_write dp (bytes_at m at_de (Z.to_nat DIRENT_SIZE)) od.1 DIRENT_SIZE ≫= fun w =>
      if negb (w =? DIRENT_SIZE) then panic "dirlink" else mret 0
  end.

(** The loop of namex; [name] is the content of the caller's buffer.  Each
    round consumes a character, so length path + 1 rounds are enough. *)
Fixpoint namex_loop (fuel : nat) (ip : nat) (path : list Z) (nameiparent : bool) (name : list Z) :
    M fs (option nat * list Z) :=
  match skipelem path with
  | Some (name, path) =>
      match fuel with
      | O => panic "fuel"
      | S fuel =>
          ilock mypid lock_addr ip ≫= fun _ =>
          with_inode ip (fun x =>
          if negb (i_type x =? T_DIR) then iunlockput mypid lock_addr ip ≫= fun _ => mret (None, name)
          else if nameiparent && bool_decide (path = []) then
            iunlock mypid ip ≫= fun _ => mret (Some ip, name)
          else
            dirlookup ip name ≫= fun r =>
            match r with
            | None => iunlockput mypid lock_addr ip ≫= fun _ => mret (None, name)
            | Some (next, _) =>
                iunlockput mypid lock_addr ip ≫= fun _ =>
                namex_loop fuel next path nameiparent name
            end)
      end
  | None =>
      if nameiparent then iput mypid lock_addr ip ≫= fun _ => mret (None, name)
      else mret (Some ip, name)
  end.

(** [cwd] is myproc()->cwd. *)
Definition namex (cwd : nat) (path : list Z) (nameiparent : bool) (name : list Z) : M fs (option nat * list Z) :=
  (if bool_decide (head path = Some slash) then iget ROOTDEV ROOTINO else idup cwd) ≫= fun ip =>
  namex_loop (S (length path)) ip path nameiparent name.

Definition namei (cwd : nat) (path : list Z) : M fs (option nat) :=
  namex cwd path false [] ≫= fun r => mret r.1.

Definition nameiparent (cwd : nat) (path name : list Z) : M fs (option nat * list Z) :=
  namex cwd path true name.

End dir.

(** ** Path elements *)

(** The elements of a path: its maximal runs of characters other than '/'. *)
Fixpoint elems (path : list Z) (cur : list Z) : list (list Z) :=
  match path with
  | [] => if bool_decide (cur = []) then [] else [cur]
  | c :: path =>
      if c =? slash then (if bool_decide (cur = []) then [] else [cur]) ++ elems path []
      else elems path (cur ++ [c])
  end.

Lemma elems_skip path : elems (skip_slashes path) [] = elems path [].
Proof.
  induction path as [|c path IH]; [done|]. cbn [skip_slashes elems]. destruct (Z.eqb_spec c slash) as [->|Hne]; [done|].
  cbn [elems]. destruct (Z.eqb_spec c slash); done.
Qed.

Lemma elems_span path cur :
  elems path cur =
    (if bool_decide (cur ++ (span_elem path).1 = []) then [] else [cur ++ (span_elem path).1]) ++
    elems (span_elem path).2 [].
Proof.
  revert cur. induction path as [|c path IH]; intros cur; cbn [span_elem elems].
  { cbn. rewrite !app_nil_r. done. }
  destruct (Z.eqb_spec c slash) as [->|Hne].
  - cbn [fst snd]. rewrite app_nil_r. cbn [elems]. done.
  - rewrite IH. destruct (span_elem path) as [e r]. cbn [fst snd]. rewrite <- app_assoc. done.
Qed.

Lemma span_length path : (length (span_elem path).2 <= length path)%nat.
Proof.
  induction path as [|c path IH]; cbn [span_elem]; [done|]. destruct (c =? slash); [done|].
  destruct (span_elem path) as [e r]. cbn in *. lia.
Qed.

Lemma skip_length path : (length (skip_slashes path) <= length path)%nat.
Proof. induction path as [|c path IH]; cbn; [done|]. case_if; cbn; lia. Qed.

Lemma skip_head path : head (skip_slashes path) <> Some slash.
Proof.
  induction path as [|c path IH]; cbn; [done|]. destruct (Z.eqb_spec c slash) as [|Hne]; [done|]. cbn. congruence.
Qed.

(** Skipelem returns 0 exactly when the path has no element
    left.  Otherwise it copies the first element, cut to DIRSIZ characters,
    and returns a shorter path without leading slashes that has the remaining
    elements. *)
Theorem skipelem_spec (path : list Z) :
  match skipelem path with
  | None => elems path [] = []
  | Some (name, rest) =>
      exists e es, elems path [] = e :: es /\ e <> [] /\ name = take 14 e /\ elems rest [] = es /\
        (length rest < length path)%nat /\ head rest <> Some slash
  end.
Proof.
  unfold skipelem. rewrite <- elems_skip. pose proof (skip_length path) as Hl. pose proof (skip_head path) as Hh.
  destruct (skip_slashes path) as [|c p] eqn:E; [done|].
  rewrite elems_span. cbn in Hh. cbn [span_elem]. destruct (Z.eqb_spec c slash) as [->|Hne]; [done|].
  pose proof (span_length p) as Hs. destruct (span_elem p) as [e r] eqn:Es. cbn [fst snd app] in *.
  exists (c :: e), (elems r []). rewrite elems_skip. pose proof (skip_length r). split_and!; try done.
  - cbn in *. lia.
  - apply skip_head.
Qed.

(** The examples in the comment of skipelem: "a/bb/c", "///a//bb", "a", and
    the empty path. *)
Lemma skipelem_examples :
  skipelem [97; 47; 98; 98; 47; 99] = Some ([97], [98; 98; 47; 99]) /\
  skipelem [47; 47; 47; 97; 47; 47; 98; 98] = Some ([97], [98; 98]) /\
  skipelem [97] = Some ([97], []) /\ skipelem [] = None /\ skipelem [47; 47; 47; 47] = None.
Proof. done. Qed.

(** ** The entries of a directory *)

Definition e_inum (s : fs) (ip : inode) (k : Z) : Z :=
  file_byte s ip (DIRENT_SIZE * k) + 256 * file_byte s ip (DIRENT_SIZE * k + 1).

(** The characters before the first NUL. *)
Fixpoint cname (l : list Z) : list Z :=
  match l with [] => [] | c :: l => if c =? 0 then [] else c :: cname l end.

Definition e_name (s : fs) (ip : inode) (k : Z) : list Z :=
  cname (map (file_byte s ip) (seqZ (DIRENT_SIZE * k + 2) DIRSIZ)).

Definition is_char (c : Z) : Prop := 0 < c < 256.

(** The first entry in use of that name, from entry [k] on. *)
Fixpoint find_entry (n : nat) (s : fs) (ip : inode) (name : list Z) (k : Z) : option Z :=
  match n with
  | O => None
  | S n =>
      if negb (e_inum s ip k =? 0) && bool_decide (e_name s ip k = take 14 name) then Some k
      else find_entry n s ip name (k + 1)
  end.

(** A directory in the cache: a file of whole entries. *)
Record dir_ok (s : fs) (dp : nat) (ip : inode) : Prop := {
  do_inode : inodes s !! dp = Some ip;
  do_type : i_type ip = T_DIR;
  do_dense : dense s ip;
  do_size : 0 <= i_size ip <= MAXFILE * BSIZE;
  do_whole : i_size ip mod DIRENT_SIZE = 0;
  do_bytes : forall o, 0 <= o < i_size ip -> 0 <= file_byte s ip o < 256;
}.

Definition nent (ip : inode) : Z := i_size ip / DIRENT_SIZE.

Lemma nent_size s dp ip : dir_ok s dp ip -> i_size ip = DIRENT_SIZE * nent ip.
Proof. intros Hd. pose proof (do_whole _ _ _ Hd). unfold nent. pose proof (Z_div_mod_eq_full (i_size ip) DIRENT_SIZE). lia. Qed.

Lemma cname_chars l : Forall (fun c => 0 <= c < 256) l -> Forall is_char (cname l).
Proof.
  induction l as [|c l IH]; intros H; cbn [cname]; [constructor|]. apply Forall_cons_1 in H as [Hc H].
  destruct (Z.eqb_spec c 0); [constructor|]. constructor; [unfold is_char; lia | by apply IH].
Qed.

Lemma cname_length l : (length (cname l) <= length l)%nat.
Proof. induction l as [|c l IH]; cbn; [done|]. case_if; cbn; lia. Qed.

(** A string of characters followed by a zero byte. *)
Lemma cstr_intro m s l :
  Forall is_char l -> (forall j, 0 <= j < Z.of_nat (length l) -> m (s + j) = char_at l j) ->
  m (s + Z.of_nat (length l)) = 0 -> cstr m s l.
Proof.
  revert s. induction l as [|c l IH]; intros s Hl Hm Hz; cbn [cstr length] in *.
  { by rewrite Z.add_0_r in Hz. }
  apply Forall_cons_1 in Hl as [Hc Hl]. pose proof (Hm 0 ltac:(lia)) as H0. rewrite Z.add_0_r in H0.
  split_and!; try apply Hc; [done|]. apply IH; [done | |].
  - intros j Hj. replace (s + 1 + j) with (s + (j + 1)) by lia. rewrite Hm, char_at_cons by lia. f_equal. lia.
  - rewrite <- Hz. f_equal. lia.
Qed.

Lemma char_at_end l j : Z.of_nat (length l) <= j -> char_at l j = 0.
Proof. intros H. unfold char_at. apply nth_overflow. lia. Qed.

(** The bytes of [l] up to its first NUL, wherever [l] stands with a zero
    byte after it. *)
Lemma cstr_cname m s l :
  Forall (fun c => 0 <= c < 256) l -> (forall j, 0 <= j <= Z.of_nat (length l) -> m (s + j) = char_at l j) ->
  cstr m s (cname l).
Proof.
  revert s. induction l as [|c l IH]; intros s Hl Hm; cbn [cname].
  { cbn. pose proof (Hm 0 ltac:(cbn; lia)) as H. by rewrite Z.add_0_r in H. }
  apply Forall_cons_1 in Hl as [Hc Hl]. pose proof (Hm 0 ltac:(lia)) as H0. rewrite Z.add_0_r in H0.
  change (char_at (c :: l) 0) with c in H0.
  destruct (Z.eqb_spec c 0) as [->|Hne]; cbn [cstr]; [done|]. split_and!; [lia | lia | done|].
  apply IH; [done|]. intros j Hj. replace (s + 1 + j) with (s + (j + 1)) by lia.
  rewrite Hm, char_at_cons by (cbn [length]; lia). f_equal. lia.
Qed.

Lemma stack_name name de : Forall is_char name -> (length name < 256)%nat -> cstr (stack name de) 0 name.
Proof.
  intros Hn Hl. apply cstr_intro; [done | |].
  - intros j Hj. unfold stack. destruct (Z.ltb_spec (0 + j) 256); [done | lia].
  - unfold stack. destruct (Z.ltb_spec (0 + Z.of_nat (length name)) 256); [|lia]. apply char_at_end. lia.
Qed.

Lemma stack_de name de j : 0 <= j -> stack name de (256 + j) = char_at de j.
Proof. intros Hj. unfold stack. destruct (Z.ltb_spec (256 + j) 256); [lia|]. f_equal. lia. Qed.

Section entries.
Context (s : fs) (dp : nat) (ip : inode) (Hd : dir_ok s dp ip).

(** What readi delivers for entry [k]. *)
Definition entry (k : Z) : list Z := map (file_byte s ip) (seqZ (DIRENT_SIZE * k) DIRENT_SIZE).

Lemma entry_char k j : 0 <= j -> char_at (entry k) j = if j <? DIRENT_SIZE then file_byte s ip (DIRENT_SIZE * k + j) else 0.
Proof.
  intros Hj. unfold entry. destruct (Z.ltb_spec j DIRENT_SIZE).
  - unfold char_at. rewrite nth_lookup, list_lookup_fmap, lookup_seqZ_lt by lia. cbn. f_equal. lia.
  - apply char_at_end. rewrite length_map, length_seqZ. lia.
Qed.

Lemma entry_inum name k : load16 (stack name (entry k)) at_de = e_inum s ip k.
Proof.
  unfold load16, at_de, e_inum. replace 256 with (256 + 0) at 1 by lia. rewrite !stack_de, !entry_char by lia. cbn.
  by rewrite Z.add_0_r.
Qed.

Lemma entry_name k m :
  0 <= k < nent ip -> (forall j, 0 <= j -> m (256 + j) = char_at (entry k) j) -> cstr m at_de_name (e_name s ip k).
Proof.
  intros Hk Hm. pose proof (nent_size _ _ _ Hd) as Hs. unfold DIRENT_SIZE in Hs. unfold e_name. apply cstr_cname.
  - apply Forall_lookup. intros i x Hx. apply list_lookup_fmap_Some in Hx as (o & -> & Ho). apply Hd.
    apply lookup_seqZ in Ho. unfold DIRENT_SIZE, DIRSIZ in *. lia.
  - rewrite length_map, length_seqZ. intros j Hj. unfold at_de_name. replace (258 + j) with (256 + (j + 2)) by lia.
    rewrite Hm, entry_char by lia. unfold DIRENT_SIZE, DIRSIZ in *. destruct (Z.ltb_spec (j + 2) 16).
    + unfold char_at. rewrite nth_lookup, list_lookup_fmap, lookup_seqZ_lt by lia. cbn. f_equal. lia.
    + rewrite char_at_end; [done|]. rewrite length_map, length_seqZ. lia.
Qed.

Lemma e_name_length k : (length (e_name s ip k) <= 14)%nat.
Proof. unfold e_name. etrans; [apply cname_length|]. rewrite length_map, length_seqZ. done. Qed.

Lemma namecmp_entry name k :
  0 <= k < nent ip -> Forall is_char name -> (length name < 256)%nat ->
  (namecmp (stack name (entry k)) 0 at_de_name =? 0) = bool_decide (e_name s ip k = take 14 name).
Proof.
  intros Hk Hn Hl. apply eq_true_iff_eq. rewrite Z.eqb_eq, bool_decide_eq_true.
  unfold namecmp, strncmp. rewrite (strncmp_loop_spec _ _ _ _ name (e_name s ip k)).
  - change (Z.to_nat DIRSIZ) with 14%nat. rewrite (take_ge (e_name s ip k)) by apply e_name_length.
    split; by intros ->.
  - by apply stack_name.
  - apply entry_name; [done|]. intros j Hj. by apply stack_de.
Qed.

Context (devsw_read : Z -> option (nat -> Z -> M fs (Z * list Z))).

Lemma read_entry k :
  0 <= k < nent ip -> readi devsw_read dp (DIRENT_SIZE * k) DIRENT_SIZE s = Ret s (DIRENT_SIZE, entry k).
Proof.
  intros Hk. pose proof (nent_size _ _ _ Hd) as Hs. pose proof (do_size _ _ _ Hd) as Hz.
  assert (HM : MAXFILE * BSIZE = 71680) by done. unfold DIRENT_SIZE in *.
  rewrite (readi_ok devsw_read s dp ip); [|apply Hd | | apply Hd | lia | lia | lia | lia].
  - unfold clip, entry. destruct (Z.ltb_spec (i_size ip) (16 * k + 16)); [lia | done].
  - rewrite (do_type _ _ _ Hd). done.
Qed.

Lemma dirlookup_loop_ok n k name :
  Forall is_char name -> (length name < 256)%nat -> 0 <= k -> k + Z.of_nat n = nent ip ->
  dirlookup_loop devsw_read (S n) dp name (DIRENT_SIZE * k) s =
    match find_entry n s ip name k with
    | Some k' => (iget (i_dev ip) (e_inum s ip k') ≫= fun j => mret (Some (j, DIRENT_SIZE * k'))) s
    | None => Ret s None
    end.
Proof.
  intros Hn Hl. pose proof (nent_size _ _ _ Hd) as Hs. revert k. induction n as [|n IH]; intros k Hk Hkn.
  - cbn [dirlookup_loop find_entry]. rewrite (with_inode_eq dp ip) by apply Hd.
    unfold DIRENT_SIZE in *. destruct (Z.ltb_spec (16 * k) (i_size ip)); [lia | done].
  - remember (S n) as n' eqn:En. cbn [dirlookup_loop]. rewrite (with_inode_eq dp ip) by apply Hd.
    destruct (Z.ltb_spec (DIRENT_SIZE * k) (i_size ip)); [|unfold DIRENT_SIZE in *; lia].
    erewrite bind_ret by (apply read_entry; lia). cbn [fst snd]. rewrite Z.eqb_refl. cbn [negb]. cbv zeta.
    rewrite entry_inum, namecmp_entry by (done || lia). subst n'. cbn [find_entry].
    replace (DIRENT_SIZE * k + DIRENT_SIZE) with (DIRENT_SIZE * (k + 1)) by lia.
    destruct (e_inum s ip k =? 0); cbn [negb andb]; [rewrite IH by lia; done|].
    destruct (bool_decide _); [done|]. rewrite IH by lia. done.
Qed.

Lemma dirlookup_ok name :
  Forall is_char name -> (length name < 256)%nat ->
  dirlookup devsw_read dp name s =
    match find_entry (Z.to_nat (nent ip)) s ip name 0 with
    | Some k => (iget (i_dev ip) (e_inum s ip k) ≫= fun j => mret (Some (j, DIRENT_SIZE * k))) s
    | None => Ret s None
    end.
Proof.
  intros Hn Hl. unfold dirlookup. rewrite (with_inode_eq dp ip) by apply Hd. rewrite (do_type _ _ _ Hd). cbn [negb Z.eqb].
  rewrite <- (dirlookup_loop_ok (Z.to_nat (nent ip)) 0 name); try done.
  pose proof (nent_size _ _ _ Hd). pose proof (do_size _ _ _ Hd). unfold DIRENT_SIZE in *. lia.
Qed.

Lemma find_entry_spec n name k :
  match find_entry n s ip name k with
  | Some k' => k <= k' < k + Z.of_nat n /\ e_inum s ip k' <> 0 /\ e_name s ip k' = take 14 name /\
      (forall j, k <= j < k' -> e_inum s ip j = 0 \/ e_name s ip j <> take 14 name)
  | None => forall j, k <= j < k + Z.of_nat n -> e_inum s ip j = 0 \/ e_name s ip j <> take 14 name
  end.
Proof.
  revert k. induction n as [|n IH]; intros k; cbn [find_entry]; [lia|].
  destruct (negb (e_inum s ip k =? 0) && bool_decide (e_name s ip k = take 14 name)) eqn:E.
  - apply andb_true_iff in E as [E1 E2]. apply negb_true_iff in E1. to_prop. split_and!; try done; lia.
  - assert (Hk : e_inum s ip k = 0 \/ e_name s ip k <> take 14 name).
    { apply andb_false_iff in E as [E|E]; [apply negb_false_iff in E|]; to_prop; [by left | by right]. }
    specialize (IH (k + 1)). destruct (find_entry n s ip name (k + 1)) as [k'|].
    + destruct IH as (H1 & H2 & H3 & H4). split_and!; try done; try lia. intros j Hj.
      destruct (decide (j = k)) as [->|]; [done | apply H4; lia].
    + intros j Hj. destruct (decide (j = k)) as [->|]; [done | apply IH; lia].
Qed.

(** The offset dirlink writes to. *)
Fixpoint find_empty (n : nat) (k : Z) : Z :=
  match n with
  | O => k
  | S n => if e_inum s ip k =? 0 then k else find_empty n (k + 1)
  end.

Lemma find_empty_spec n k :
  k <= find_empty n k <= k + Z.of_nat n /\
  (find_empty n k < k + Z.of_nat n -> e_inum s ip (find_empty n k) = 0).
Proof.
  revert k. induction n as [|n IH]; intros k; cbn [find_empty]; [lia|].
  destruct (Z.eqb_spec (e_inum s ip k) 0); [lia|]. destruct (IH (k + 1)) as [H1 H2]. split; [lia|]. intros. apply H2. lia.
Qed.

Lemma dirlink_loop_ok n k de :
  0 <= k -> k + Z.of_nat n = nent ip ->
  exists de', dirlink_loop devsw_read (S n) dp (DIRENT_SIZE * k) de s = Ret s (DIRENT_SIZE * find_empty n k, de').
Proof.
  pose proof (nent_size _ _ _ Hd) as Hs. revert k de. induction n as [|n IH]; intros k de Hk Hkn.
  - cbn [dirlink_loop find_empty]. rewrite (with_inode_eq dp ip) by apply Hd. exists de.
    unfold DIRENT_SIZE in *. destruct (Z.ltb_spec (16 * k) (i_size ip)); [lia | done].
  - remember (S n) as n' eqn:En. cbn [dirlink_loop]. rewrite (with_inode_eq dp ip) by apply Hd.
    destruct (Z.ltb_spec (DIRENT_SIZE * k) (i_size ip)); [|unfold DIRENT_SIZE in *; lia].
    erewrite bind_ret by (apply read_entry; lia). cbn [fst snd]. rewrite Z.eqb_refl. cbn [negb].
    rewrite entry_inum. subst n'. cbn [find_empty]. destruct (e_inum s ip k =? 0); [by eexists|].
    replace (DIRENT_SIZE * k + DIRENT_SIZE) with (DIRENT_SIZE * (k + 1)) by lia. apply IH; lia.
Qed.

End entries.

(** The struct dirent that dirlink writes. *)
Definition new_dirent (name de : list Z) (inum : Z) : list Z :=
  bytes_at (store16 (strncpy (stack name de) at_de_name 0 DIRSIZ) at_de inum) at_de (Z.to_nat DIRENT_SIZE).

Lemma new_dirent_char name de inum j :
  Forall is_char name -> (length name < 256)%nat -> 0 <= j < DIRENT_SIZE ->
  char_at (new_dirent name de inum) j =
    if j =? 0 then u8 inum else if j =? 1 then u8 (Z.shiftr inum 8) else char_at name (j - 2).
Proof.
  intros Hn Hl Hj. unfold new_dirent, bytes_at, char_at. unfold DIRENT_SIZE in Hj.
  rewrite nth_lookup, list_lookup_fmap, lookup_seq_lt by (unfold DIRENT_SIZE; lia). cbn [default fmap option_fmap option_map].
  replace (at_de + Z.of_nat (0 + Z.to_nat j)) with (256 + j) by (unfold at_de; lia).
  unfold store16, upd, at_de. rewrite (strncpy_spec _ _ _ _ name);
    [|by apply stack_name | unfold at_de_name; lia | done].
  unfold in_range, at_de_name, DIRSIZ.
  destruct (Z.eqb_spec (256 + j) (256 + 1)), (Z.eqb_spec (256 + j) 256), (Z.eqb_spec j 0), (Z.eqb_spec j 1); try lia; try done.
  destruct (Z.leb_spec 258 (256 + j)), (Z.ltb_spec (256 + j) (258 + 14)); try lia. cbn. unfold char_at. do 2 f_equal. lia.
Qed.

Lemma cname_pad name n :
  Forall is_char name -> cname (map (fun j => char_at name (Z.of_nat j)) (seq 0 n)) = take n name.
Proof.
  revert n. induction name as [|c name IH]; intros n Hn.
  - rewrite take_nil. destruct n; done.
  - apply Forall_cons_1 in Hn as [Hc Hn]. destruct n as [|n]; [done|]. cbn [seq map cname take].
    change (char_at (c :: name) (Z.of_nat 0)) with c. unfold is_char in Hc. destruct (Z.eqb_spec c 0); [lia|]. f_equal.
    rewrite <- (IH n Hn). f_equal. rewrite <- seq_shift, map_map. apply map_ext. intros j.
    rewrite char_at_cons by lia. f_equal. lia.
Qed.

Record dir_inv (s : fs) (dp : nat) (ip : inode) : Prop := {
  di_file : file_inv s dp ip;
  di_dir : dir_ok s dp ip;
}.

Lemma e_inum_ext s s' ip ip' k :
  (forall j, 0 <= j < DIRENT_SIZE -> file_byte s' ip' (DIRENT_SIZE * k + j) = file_byte s ip (DIRENT_SIZE * k + j)) ->
  e_inum s' ip' k = e_inum s ip k /\ e_name s' ip' k = e_name s ip k.
Proof.
  intros H. unfold e_inum, e_name. split.
  - pose proof (H 0 ltac:(done)) as H0. rewrite Z.add_0_r in H0. rewrite H0, (H 1) by done. done.
  - f_equal. apply map_ext_in. intros o Ho. apply list_elem_of_In, elem_of_seqZ in Ho. unfold DIRENT_SIZE, DIRSIZ in *.
    replace o with (16 * k + (o - 16 * k)) by lia. apply H. lia.
Qed.

(** An entry whose bytes are a new struct dirent. *)
Lemma new_entry s ip k name de inum :
  Forall is_char name -> (length name < 256)%nat -> 0 < inum < 2 ^ 16 ->
  (forall j, 0 <= j < DIRENT_SIZE -> file_byte s ip (DIRENT_SIZE * k + j) = char_at (new_dirent name de inum) j) ->
  e_inum s ip k = inum /\ e_name s ip k = take 14 name.
Proof.
  intros Hn Hl Hi H. split.
  - unfold e_inum. pose proof (H 0 ltac:(done)) as H0. rewrite Z.add_0_r in H0. rewrite H0, (H 1) by done.
    rewrite !new_dirent_char by done. cbn. unfold u8. rewrite Z.shiftr_div_pow2 by lia.
    rewrite (Z.mod_small (inum / 2 ^ 8)) by (split; [apply Z.div_pos; lia | apply Z.div_lt_upper_bound; lia]).
    pose proof (Z_div_mod_eq_full inum (2 ^ 8)). lia.
  - unfold e_name. rewrite <- (cname_pad name 14) by done. apply (f_equal cname). unfold seqZ. rewrite <- list_fmap_compose.
    apply map_ext_in. intros j Hj. apply in_seq in Hj. cbn.
    replace (Z.of_nat j + (DIRENT_SIZE * k + 2)) with (DIRENT_SIZE * k + (Z.of_nat j + 2)) by lia.
    change (Z.to_nat DIRSIZ) with 14%nat in Hj. unfold DIRENT_SIZE in *. rewrite H, new_dirent_char by (done || unfold DIRENT_SIZE; lia).
    destruct (Z.eqb_spec (Z.of_nat j + 2) 0), (Z.eqb_spec (Z.of_nat j + 2) 1); try lia. f_equal. lia.
Qed.

Section link.
Context (mypid : Z) (lock_addr : nat -> Z).
Context (devsw_read : Z -> option (nat -> Z -> M fs (Z * list Z))).
Context (devsw_write : Z -> option (nat -> list Z -> Z -> M fs Z)).
Context (s : fs) (dp : nat) (ip : inode) (Hd : dir_inv s dp ip).
Context (name : list Z) (Hn : Forall is_char name) (Hl : (length name < 256)%nat).

Lemma dirlink_ok de0 inum :
  find_entry (Z.to_nat (nent ip)) s ip name 0 = None -> 0 < inum < 2 ^ 16 ->
  i_size ip + DIRENT_SIZE <= MAXFILE * BSIZE -> room 7 s -> 2 <= nfree s ->
  let k := find_empty s ip (Z.to_nat (nent ip)) 0 in
  exists s' ip', dirlink mypid lock_addr devsw_read devsw_write de0 dp name inum s = Ret s' 0 /\
    dir_inv s' dp ip' /\ i_dev ip' = i_dev ip /\ nent ip' = Z.max (nent ip) (k + 1) /\ frame s dp ip s' /\
    e_inum s' ip' k = inum /\ e_name s' ip' k = take 14 name /\
    (forall k', 0 <= k' < nent ip -> k' <> k -> e_inum s' ip' k' = e_inum s ip k' /\ e_name s' ip' k' = e_name s ip k').
Proof.
  intros Hf Hi Hmax Hr Hfree k. destruct Hd as [Hfi Hdo]. pose proof (nent_size _ _ _ Hdo) as Hs.
  pose proof (do_size _ _ _ Hdo) as Hsz. assert (HM : MAXFILE * BSIZE = 71680) by done.
  assert (Hnp : 0 <= nent ip) by (unfold DIRENT_SIZE in *; lia).
  destruct (find_empty_spec s ip (Z.to_nat (nent ip)) 0) as [Hk _]. fold k in Hk. rewrite Z2Nat.id in Hk by done.
  unfold dirlink. erewrite bind_ret by (rewrite (dirlookup_ok s dp ip Hdo) by done; rewrite Hf; reflexivity).
  destruct (dirlink_loop_ok s dp ip Hdo devsw_read (Z.to_nat (nent ip)) 0 de0) as [de' He]; [done | lia|]. fold k in He.
  rewrite Z.mul_0_r in He. erewrite bind_ret by (rewrite (with_inode_eq dp ip) by apply Hdo; exact He).
  cbn [fst snd]. cbv zeta. fold (new_dirent name de' inum).
  assert (Hlen : Z.of_nat (length (new_dirent name de' inum)) = DIRENT_SIZE).
  { unfold new_dirent, bytes_at. by rewrite length_map, length_seq. }
  unfold DIRENT_SIZE in *.
  destruct (writei_ok devsw_write 1 s dp ip (new_dirent name de' inum) (16 * k) 16)
    as (s' & ip' & Hw & Hfi' & Hsz' & _ & Hty & _ & _ & _ & Hdv & Hfr & Hb & _); try done; try lia.
  { right. assert (16 * k mod BSIZE = 16 * (k mod 32)) by (change BSIZE with (16 * 32); by rewrite Z.mul_mod_distr_l).
    pose proof (Z.mod_pos_bound k 32 eq_refl). unfold BSIZE in *. lia. }
  erewrite bind_ret by exact Hw. exists s', ip'. cbn [Z.eqb negb].
  assert (Hnent : nent ip' = Z.max (nent ip) (k + 1)).
  { unfold nent at 1. rewrite Hsz'. symmetry. apply (Z.div_unique _ _ _ 0); unfold DIRENT_SIZE; lia. }
  assert (Hin : forall j, 0 <= j < DIRENT_SIZE -> file_byte s' ip' (DIRENT_SIZE * k + j) = char_at (new_dirent name de' inum) j).
  { unfold DIRENT_SIZE. intros j Hj. rewrite Hb by lia. unfold overwrite, in_range.
    destruct (Z.leb_spec (16 * k) (16 * k + j)), (Z.ltb_spec (16 * k + j) (16 * k + 16)); try lia. cbn. f_equal. lia. }
  assert (Hout : forall o, 0 <= o < MAXFILE * BSIZE -> o < 16 * k \/ 16 * k + 16 <= o -> file_byte s' ip' o = file_byte s ip o).
  { intros o Ho Hor. rewrite Hb by done. unfold overwrite, in_range. case_ifs; done || lia. }
  destruct (new_entry s' ip' k name de' inum Hn Hl Hi Hin) as [Hei Hen].
  split_and!; try assumption; [reflexivity | |].
  - split; [assumption|]. split.
    + apply (fi_ok _ _ _ Hfi').
    + rewrite Hty. apply Hdo.
    + apply Hfi'.
    + lia.
    + rewrite Hsz'. replace (Z.max (i_size ip) (16 * k + 16)) with (Z.max (nent ip) (k + 1) * DIRENT_SIZE)
        by (unfold DIRENT_SIZE; lia). by apply Z.mod_mul.
    + intros o Ho. destruct (decide (16 * k <= o < 16 * k + 16)) as [Hr2|Hr2].
      * replace o with (DIRENT_SIZE * k + (o - 16 * k)) by (unfold DIRENT_SIZE; lia).
        rewrite Hin, new_dirent_char by (done || unfold DIRENT_SIZE; lia). case_ifs; try apply u8_range.
        unfold char_at. rewrite nth_lookup. destruct (name !! Z.to_nat (o - 16 * k - 2)) as [c|] eqn:Ec; cbn; [|lia].
        rewrite Forall_lookup in Hn. pose proof (Hn _ _ Ec) as Hc. unfold is_char in Hc. lia.
      * rewrite Hout by lia. apply Hdo. lia.
  - intros k' Hk' Hne. apply e_inum_ext. unfold DIRENT_SIZE. intros j Hj. apply Hout; lia.
Qed.

(** Dirlookup returns the inode of the first entry in use
    with that name (compared on DIRSIZ characters) together with the entry's
    offset, through iget; when no entry in use has the name it returns 0 and
    changes nothing. *)
Theorem dirlookup_spec :
  (exists k, 0 <= k < nent ip /\ e_inum s ip k <> 0 /\ e_name s ip k = take 14 name /\
     (forall j, 0 <= j < k -> e_inum s ip j = 0 \/ e_name s ip j <> take 14 name) /\
     dirlookup devsw_read dp name s =
       (iget (i_dev ip) (e_inum s ip k) ≫= fun j => mret (Some (j, DIRENT_SIZE * k))) s) \/
  ((forall j, 0 <= j < nent ip -> e_inum s ip j = 0 \/ e_name s ip j <> take 14 name) /\
   dirlookup devsw_read dp name s = Ret s None).
Proof.
  destruct Hd as [_ Hdo]. rewrite (dirlookup_ok s dp ip Hdo devsw_read name Hn Hl).
  pose proof (nent_size _ _ _ Hdo). pose proof (do_size _ _ _ Hdo).
  assert (Hnp : 0 <= nent ip) by (unfold DIRENT_SIZE in *; lia).
  pose proof (find_entry_spec s ip (Z.to_nat (nent ip)) name 0) as Hs. rewrite Z2Nat.id in Hs by done.
  destruct find_entry as [k|]; [left; exists k | by right]. destruct Hs as (H1 & H2 & H3 & H4). done.
Qed.


End link.

(** ** Witnesses: the file of [data_fs] read as a directory *)

Lemma data_dir : dir_inv data_fs 0 sample_inode.
Proof.
  split; [apply data_inv|]. split; try done; [apply data_inv|].
  intros o Ho. cbn in Ho. unfold file_byte. rewrite data_fblock.
  assert (Hq : o / BSIZE = 0 \/ o / BSIZE = 1).
  { assert (0 <= o / BSIZE) by (apply Z.div_pos; [lia | done]).
    assert (o / BSIZE < 2) by (apply Z.div_lt_upper_bound; [done | unfold BSIZE; lia]). lia. }
  destruct Hq as [-> | ->]; cbn; lia.
Qed.

Lemma char_a : Forall is_char [97].
Proof. constructor; [unfold is_char; lia | constructor]. Qed.

Lemma dirlookup_spec_witness : dirlookup no_read 0 [97] data_fs = Ret data_fs None.
Proof.
  destruct (dirlookup_spec no_read data_fs 0 sample_inode data_dir [97] char_a ltac:(cbn; lia))
    as [(k & Hk & Hi & Hn & _)|[_ H]]; [|exact H]. exfalso.
  assert (Hin : k ∈ seqZ 0 64) by (apply elem_of_seqZ; change (nent sample_inode) with 64 in Hk; lia).
  assert (Hall : forallb (fun k => negb (bool_decide (e_name data_fs sample_inode k = [97]))) (seqZ 0 64) = true)
    by (vm_compute; reflexivity).
  rewrite forallb_forall in Hall. specialize (Hall k (proj1 (list_elem_of_In _ _) Hin)).
  rewrite bool_decide_eq_true_2 in Hall by exact Hn. discriminate.
Defined.


(** A walk of namex: "/", then a name of the directory; and a name that is
    not there. *)
Lemma namei_examples :
  (exists s, namei 3 (fun _ => 9) no_read 0 [47] data_fs = Ret s (Some 0%nat)) /\
  (exists s, namei 3 (fun _ => 9) no_read 0 (47 :: replicate 14 34) data_fs = Ret s (Some 1%nat)) /\
  (exists s, namei 3 (fun _ => 9) no_read 0 [47; 97] data_fs = Ret s None) /\
  (exists s, nameiparent 3 (fun _ => 9) no_read 0 [47; 97; 47] [] data_fs = Ret s (Some 0%nat, [97])).
Proof. split_and!; eexists; vm_compute; reflexivity. Qed.
