(* ===== verification/Mkfs.v ===== *)
(** The disk image builder (mkfs.c), and the file system it hands to the
    kernel.

    The image is a file of the host, a sequence of sectors that wsect extends;
    a failed assert and exit(1) are [Panic].  The input files are given by
    their names and by what successive reads of 512 bytes deliver.  The host is
    little-endian and its file operations on the image succeed.

    The kernel's own definitions (Fs.v, Dir.v) read the image: they say what
    the files of the image are. *)

From S2P Require Import Prelude Word Mem Spinlock Block Log Fs FsBlocks FsInode FsData Dir.

Local Open Scope Z_scope.

Definition NINODES : Z := 200.
Definition nbitmap : Z := FSSIZE / (BSIZE * 8) + 1.
Definition ninodeblocks : Z := NINODES / IPB + 1.
Definition nlog : Z := LOGSIZE.
Definition nmeta : Z := 2 + nlog + ninodeblocks + nbitmap.
Definition nblocks : Z := FSSIZE - nmeta.

(** The bytes a[0], a[1], ... of the result, read in the order of the host. *)
Definition xshort (x : Z) : Z := load16 (store16 (fun _ => 0) 0 x) 0.
Definition xint (x : Z) : Z := load32 (store32 (fun _ => 0) 0 x) 0.

Definition mkfs_sb : superblock :=
  mk_superblock (xint FSSIZE) (xint nblocks) (xint NINODES) (xint nlog) (xint 2) (xint (2 + nlog))
    (xint (2 + nlog + ninodeblocks)).

(** The global variables, and the image: its sectors and their number. *)
Record mkfs := mk_mkfs {
  img : Z -> block;
  nsect : Z;
  freeinode : Z;
  freeblock : Z;
}.

Definition set_img (d : Z -> block) (n : Z) (m : mkfs) : mkfs := mk_mkfs d n (freeinode m) (freeblock m).

(** The sector at the file offset sec * BSIZE. *)
Definition sector (sec : Z) : Z := u32 (sec * BSIZE) / BSIZE.

Definition wsect (sec : Z) (buf : block) : M mkfs unit :=
  modify (fun m => set_img (setb (img m) (sector sec) buf) (Z.max (nsect m) (sector sec + 1)) m).

Definition rsect (sec : Z) : M mkfs block :=
  get ≫= fun m => if sector sec <? nsect m then mret (img m (sector sec)) else panic "read".

(** struct dinode din after bzero; of struct inode only the fields of struct
    dinode are used here. *)
Definition no_inode : inode := mk_inode 0 0 0 initsleeplock false 0 0 0 0 0 (replicate 13 0).

Definition winode (inum : Z) (ip : inode) : M mkfs unit :=
  let bn := IBLOCK inum mkfs_sb in
  rsect bn ≫= fun buf => wsect bn (store_dinode buf (dinode_off inum) ip).

Definition rinode (inum : Z) : M mkfs inode :=
  let bn := IBLOCK inum mkfs_sb in
  rsect bn ≫= fun buf => mret (load_dinode buf (dinode_off inum) no_inode).

Definition new_dinode (type : Z) : inode :=
  mk_inode 0 0 0 initsleeplock false (s16 (xshort type)) 0 0 (s16 (xshort 1)) (xint 0) (replicate 13 0).

Definition ialloc (type : Z) : M mkfs Z :=
  get ≫= fun m =>
  let inum := freeinode m in
  put (mk_mkfs (img m) (nsect m) (u32 (inum + 1)) (freeblock m)) ≫= fun _ =>
  winode inum (new_dinode type) ≫= fun _ => mret inum.

(** The loop of balloc over the bits below [n]. *)
Fixpoint mark_bits (n : nat) (buf : block) : block :=
  match n with O => buf | S n => mark_bit (mark_bits n buf) (Z.of_nat n) end.

Definition balloc (used : Z) : M mkfs unit :=
  if negb (used <? BSIZE * 8) then panic "assert used < BSIZE*8"
  else wsect (sb_bmapstart mkfs_sb) (mark_bits (Z.to_nat used) (fun _ => 0)).

(** freeblock++ *)
Definition next_block : M mkfs Z :=
  get ≫= fun m =>
  put (mk_mkfs (img m) (nsect m) (freeinode m) (u32 (freeblock m + 1))) ≫= fun _ => mret (freeblock m).

(** din.addrs[k], allocated when it is 0. *)
Definition fill_addr (k : Z) (din : inode) : M mkfs inode :=
  if xint (addr_of din k) =? 0 then
    next_block ≫= fun b => mret (set_addrs (<[Z.to_nat k := xint b]> (i_addrs din)) din)
  else mret din.

(** The branch of iappend for the blocks of the indirect block. *)
Definition indirect_block (fbn : Z) (din : inode) : M mkfs (inode * Z) :=
  rsect (xint (addr_of din NDIRECT)) ≫= fun indirect =>
  (if load32 indirect (4 * (fbn - NDIRECT)) =? 0 then
     next_block ≫= fun b =>
     let indirect := store32 indirect (4 * (fbn - NDIRECT)) (xint b) in
     wsect (xint (addr_of din NDIRECT)) indirect ≫= fun _ => mret indirect
   else mret indirect) ≫= fun indirect =>
  mret (din, xint (load32 indirect (4 * (fbn - NDIRECT)))).

(** The block of the file's block number [fbn]: din, and x. *)
Definition find_block (fbn : Z) (din : inode) : M mkfs (inode * Z) :=
  if fbn <? NDIRECT then
    fill_addr fbn din ≫= fun din => mret (din, xint (addr_of din fbn))
  else
    fill_addr NDIRECT din ≫= fun din => indirect_block fbn din.

(** The loop of iappend; every round appends a byte, so n rounds are enough. *)
Fixpoint iappend_loop (fuel : nat) (p : list Z) (off n : Z) (din : inode) : M mkfs (inode * Z) :=
  if 0 <? n then
    match fuel with
    | O => panic "fuel"
    | S fuel =>
        let fbn := off / BSIZE in
        if negb (fbn <? MAXFILE) then panic "assert fbn < MAXFILE"
        else
          find_block fbn din ≫= fun dx =>
          let n1 := Z.min n (u32 ((fbn + 1) * BSIZE - off)) in
          rsect dx.2 ≫= fun buf =>
          wsect dx.2 (blit buf (off - fbn * BSIZE) (take (Z.to_nat n1) p)) ≫= fun _ =>
          iappend_loop fuel (drop (Z.to_nat n1) p) (u32 (off + n1)) (n - n1) dx.1
    end
  else mret (din, off).

Definition iappend (inum : Z) (p : list Z) (n : Z) : M mkfs unit :=
  rinode inum ≫= fun din =>
  iappend_loop (Z.to_nat n) p (xint (i_size din)) n din ≫= fun r =>
  winode inum (set_size (xint r.2) r.1).

(** struct dirent de, zeroed, with its number and its name. *)
Definition dirent (inum : Z) (name : list Z) : list Z := new_dirent name (replicate 16 0) (xshort inum).

(** for(i = 0; i < FSSIZE; i++) wsect(i, zeroes), from [i] on. *)
Fixpoint wipe (n : nat) (i : Z) : M mkfs unit :=
  match n with O => mret tt | S n => wsect i (fun _ => 0) ≫= fun _ => wipe n (i + 1) end.

Definition sb_block : block :=
  store_addrs [sb_size mkfs_sb; sb_nblocks mkfs_sb; sb_ninodes mkfs_sb; sb_nlog mkfs_sb; sb_logstart mkfs_sb;
               sb_inodestart mkfs_sb; sb_bmapstart mkfs_sb] (fun _ => 0) 0.

(** A file of the host: its name, and what the reads deliver; [None] when open
    fails. *)
Record hostfile := mk_hostfile { hname : list Z; hdata : option (list (list Z)) }.

Definition underscore : Z := 95.

(** The name in the file system: a leading _ is skipped. *)
Definition fs_name (name : list Z) : list Z :=
  match name with c :: l => if c =? underscore then l else name | [] => [] end.

(** while((cc = read(fd, buf, sizeof(buf))) > 0) iappend(inum, buf, cc); *)
Fixpoint copy_file (inum : Z) (reads : list (list Z)) : M mkfs unit :=
  match reads with
  | [] => mret tt
  | buf :: reads =>
      if 0 <? Z.of_nat (length buf) then
        iappend inum buf (Z.of_nat (length buf)) ≫= fun _ => copy_file inum reads
      else mret tt
  end.

Definition add_file (rootino : Z) (f : hostfile) : M mkfs unit :=
  if existsb (fun c => c =? slash) (hname f) then panic "assert index(argv[i], '/') == 0"
  else
    match hdata f with
    | None => panic "open"
    | Some reads =>
        ialloc T_FILE ≫= fun inum =>
        iappend rootino (dirent inum (fs_name (hname f))) DIRENT_SIZE ≫= fun _ =>
        copy_file inum reads
    end.

Fixpoint add_files (rootino : Z) (files : list hostfile) : M mkfs unit :=
  match files with
  | [] => mret tt
  | f :: files => add_file rootino f ≫= fun _ => add_files rootino files
  end.

Definition dot_name : list Z := [46].
Definition dotdot_name : list Z := [46; 46].

(** off = ((off/BSIZE) + 1) * BSIZE *)
Definition round_size (off : Z) : Z := u32 ((off / BSIZE + 1) * BSIZE).

(** main, with the files named by argv[2], argv[3], ... *)
Definition main (files : list hostfile) : M mkfs unit :=
  wipe (Z.to_nat FSSIZE) 0 ≫= fun _ =>
  wsect 1 sb_block ≫= fun _ =>
  ialloc T_DIR ≫= fun rootino =>
  if negb (rootino =? ROOTINO) then panic "assert rootino == ROOTINO"
  else
    iappend rootino (dirent rootino dot_name) DIRENT_SIZE ≫= fun _ =>
    iappend rootino (dirent rootino dotdot_name) DIRENT_SIZE ≫= fun _ =>
    add_files rootino files ≫= fun _ =>
    rinode rootino ≫= fun din =>
    winode rootino (set_size (xint (round_size (xint (i_size din)))) din) ≫= fun _ =>
    get ≫= fun m => balloc (freeblock m).

(** The image file after open with O_TRUNC, and the initial variables. *)
Definition new_image : mkfs := mk_mkfs (fun _ _ => 0) 0 1 nmeta.

(** ** Words and sectors *)

Lemma xint_id x : is_u32 x -> xint x = x.
Proof. apply load32_store32_eq. Qed.

Lemma sector_id x : 0 <= x < 2 ^ 23 -> sector x = x.
Proof.
  intros H. unfold sector, BSIZE. rewrite u32_small by (unfold is_u32; lia). by apply Z.div_mul.
Qed.

Lemma nmeta_val : nmeta = 59.
Proof. done. Qed.

(** ** The files of an image *)

(** The kernel's view of image [d], with the inodes [l] in its cache, after
    iinit and initlog. *)
Definition booted (d : Z -> block) (l : list inode) : fs :=
  mk_fs false l mkfs_sb (mk_log false 2 nlog 0 false [] 0 (restart d)).

Abbreviation mnt d := (booted d []).

Lemma fblock_ext d d' ip k :
  (addr_of ip NDIRECT <> 0 -> d' (addr_of ip NDIRECT) = d (addr_of ip NDIRECT)) ->
  fblock (mnt d') ip k = fblock (mnt d) ip k.
Proof.
  intros H. unfold fblock, vw. cbn [booted fl dv restart view].
  case_if; [done|]. case_if; [done|]. case_if; [done|]. to_prop. by rewrite H.
Qed.

Lemma fblock_addrs d ip ip' k : i_addrs ip' = i_addrs ip -> fblock (mnt d) ip' k = fblock (mnt d) ip k.
Proof. intros H. unfold fblock, addr_of. by rewrite H. Qed.

Lemma fblock_indirect d ip : fblock (mnt d) ip (-1) = addr_of ip NDIRECT.
Proof. done. Qed.

Lemma file_byte_eq d ip o :
  file_byte (mnt d) ip o = if fblock (mnt d) ip (o / BSIZE) =? 0 then 0 else d (fblock (mnt d) ip (o / BSIZE)) (o mod BSIZE).
Proof. done. Qed.

(** The inodes [I] in memory have the contents [C]: their blocks are distinct
    ones of the blocks allocated so far, and the blocks to come are zero. *)
Record base (d : Z -> block) (fb : Z) (I : list inode) (C : list (list Z)) : Prop := {
  bs_wf : forall a ip, I !! a = Some ip -> inode_wf ip;
  bs_len : length I = length C;
  bs_fb : nmeta <= fb <= FSSIZE;
  bs_range : forall a ip k, I !! a = Some ip -> is_slot k -> fblock (mnt d) ip k <> 0 ->
    nmeta <= fblock (mnt d) ip k < fb;
  bs_inj : forall a a' ip ip' k k', I !! a = Some ip -> I !! a' = Some ip' -> is_slot k -> is_slot k' ->
    fblock (mnt d) ip k <> 0 -> fblock (mnt d) ip k = fblock (mnt d) ip' k' -> a = a' /\ k = k';
  bs_bytes : forall a ip c o, I !! a = Some ip -> C !! a = Some c -> 0 <= o < MAXFILE * BSIZE ->
    file_byte (mnt d) ip o = char_at c o;
  bs_fresh : forall b x, fb <= b -> d b x = 0;
}.

Lemma is_slot_indirect : is_slot (-1).
Proof. done. Qed.

(** Slot [k0] of inode [a] gets the next block. *)
Section assign.
Context (d d' : Z -> block) (fb : Z) (I : list inode) (C : list (list Z)) (a : nat) (ip ip' : inode) (k0 : Z).
Context (Hb : base d fb I C) (Ha : I !! a = Some ip) (Hk0 : is_slot k0) (Hz : fblock (mnt d) ip k0 = 0).
Context (Hroom : fb < FSSIZE) (Hwf : inode_wf ip').
Context (Hs : forall k, is_slot k -> fblock (mnt d') ip' k = if k =? k0 then fb else fblock (mnt d) ip k).
Context (Hd : forall b, b <> fblock (mnt d) ip (-1) -> d' b = d b).

Lemma assign_others a1 ip1 k : a1 <> a -> I !! a1 = Some ip1 -> fblock (mnt d') ip1 k = fblock (mnt d) ip1 k.
Proof.
  intros Hne H1. apply fblock_ext. intros Hi. apply Hd. intros E.
  destruct (bs_inj _ _ _ _ Hb a1 a ip1 ip (-1) (-1)); done.
Qed.

Lemma assign_slots a1 ip1 :
  <[a := ip']> I !! a1 = Some ip1 -> exists ip0, I !! a1 = Some ip0 /\
    forall k, is_slot k -> fblock (mnt d') ip1 k = if bool_decide (a1 = a) && (k =? k0) then fb else fblock (mnt d) ip0 k.
Proof.
  intros [(-> & ->)|[Hne H1]]%lookup_insert_cases.
  - exists ip. split; [done|]. intros k Hk. rewrite bool_decide_eq_true_2, Hs by done. done.
  - exists ip1. split; [done|]. intros k Hk. rewrite bool_decide_eq_false_2 by done. by apply (assign_others a1).
Qed.

Lemma base_assign : base d' (fb + 1) (<[a := ip']> I) C.
Proof.
  pose proof (bs_fb _ _ _ _ Hb) as Hfb. split.
  - intros a1 ip1 [(-> & ->)|[_ H1]]%lookup_insert_cases; [done | by eapply (bs_wf _ _ _ _ Hb)].
  - rewrite length_insert. apply Hb.
  - lia.
  - intros a1 ip1 k (ip0 & H0 & E)%assign_slots Hk. rewrite E by done. case_if; [lia|].
    intros Hne. pose proof (bs_range _ _ _ _ Hb a1 ip0 k H0 Hk Hne). lia.
  - intros a1 a2 ip1 ip2 k1 k2 (p1 & H1 & E1)%assign_slots (p2 & H2 & E2)%assign_slots Hk1 Hk2. rewrite E1, E2 by done.
    destruct (bool_decide (a1 = a) && (k1 =? k0)) eqn:B1, (bool_decide (a2 = a) && (k2 =? k0)) eqn:B2; to_prop; intros Hne E.
    + intuition congruence.
    + pose proof (bs_range _ _ _ _ Hb a2 p2 k2 H2 Hk2 ltac:(congruence)). lia.
    + pose proof (bs_range _ _ _ _ Hb a1 p1 k1 H1 Hk1 ltac:(congruence)). lia.
    + by eapply (bs_inj _ _ _ _ Hb).
  - intros a1 ip1 c o (p1 & H1 & E1)%assign_slots Hc Ho. destruct (slot_bn o Ho) as [Hk _].
    rewrite <- (bs_bytes _ _ _ _ Hb a1 p1 c o H1 Hc Ho), !file_byte_eq, E1 by done.
    destruct (bool_decide (a1 = a) && (o / BSIZE =? k0)) eqn:B1; to_prop.
    + assert (p1 = ip) as -> by congruence. rewrite H0, Hz. cbn [Z.eqb]. case_if; [done|].
      assert (fb <> fblock (mnt d) ip (-1)) as Hx.
      { intros E. pose proof (bs_range _ _ _ _ Hb a ip (-1) Ha is_slot_indirect). pose proof nmeta_val. lia. }
      rewrite Hd by done. apply (bs_fresh _ _ _ _ Hb). lia.
    + case_if; [done|]. to_prop. rewrite Hd; [done|]. intros E.
      destruct (bs_inj _ _ _ _ Hb a1 a p1 ip (o / BSIZE) (-1)) as [_ Hm]; try done.
      assert (0 <= o / BSIZE) by (apply Z.div_pos; [lia | done]). lia.
  - intros b x Hx. rewrite Hd.
    + apply (bs_fresh _ _ _ _ Hb). lia.
    + intros ->. destruct (decide (fblock (mnt d) ip (-1) = 0)) as [E0|E0].
      * rewrite E0 in Hx. pose proof nmeta_val. lia.
      * pose proof (bs_range _ _ _ _ Hb a ip (-1) Ha is_slot_indirect E0). lia.
Qed.

End assign.

Lemma char_at_app c l o :
  0 <= o -> char_at (c ++ l) o = if o <? Z.of_nat (length c) then char_at c o else char_at l (o - Z.of_nat (length c)).
Proof.
  intros Ho. unfold char_at. destruct (Z.ltb_spec o (Z.of_nat (length c))).
  - by rewrite app_nth1 by lia.
  - rewrite app_nth2 by lia. f_equal. lia.
Qed.

Lemma char_at_over l o : Z.of_nat (length l) <= o -> char_at l o = 0.
Proof. intros. unfold char_at. apply nth_overflow. lia. Qed.

(** The next bytes of file [a] are written to its last block. *)
Lemma base_write d fb I C a ip c l off x :
  base d fb I C -> I !! a = Some ip -> C !! a = Some c -> off = Z.of_nat (length c) -> off < MAXFILE * BSIZE ->
  x = fblock (mnt d) ip (off / BSIZE) -> x <> 0 -> off mod BSIZE + Z.of_nat (length l) <= BSIZE ->
  let d' := setb d x (blit (d x) (off mod BSIZE) l) in
  base d' fb I (<[a := c ++ l]> C) /\
  forall a1 ip1 k, I !! a1 = Some ip1 -> fblock (mnt d') ip1 k = fblock (mnt d) ip1 k.
Proof.
  intros Hb Ha Hc Hoff Hmax Hx Hx0 Hl d'. destruct (slot_bn off) as [Hk0 Hbn]; [lia|].
  assert (Hf : forall a1 ip1 k, I !! a1 = Some ip1 -> fblock (mnt d') ip1 k = fblock (mnt d) ip1 k).
  { intros a1 ip1 k H1. apply fblock_ext. intros Hne. apply setb_ne. intros E.
    destruct (bs_inj _ _ _ _ Hb a1 a ip1 ip (-1) (off / BSIZE)) as [_ Hm]; try done; [by rewrite fblock_indirect, E | lia]. }
  split; [|done]. split; try apply Hb.
  - rewrite length_insert. apply Hb.
  - intros a1 ip1 k H1 Hk. rewrite (Hf a1) by done. by apply (bs_range _ _ _ _ Hb a1).
  - intros a1 a2 ip1 ip2 k1 k2 H1 H2 Hk1 Hk2. rewrite (Hf a1), (Hf a2) by done. by apply (bs_inj _ _ _ _ Hb).
  - intros a1 ip1 c1 o H1 Hc1 Ho. destruct (slot_bn o Ho) as [Hk _].
    rewrite file_byte_eq, (Hf a1) by done. pose proof (Z_div_mod_eq_full o BSIZE). pose proof (Z_div_mod_eq_full off BSIZE).
    pose proof (Z.mod_pos_bound o BSIZE eq_refl). pose proof (Z.mod_pos_bound off BSIZE eq_refl).
    assert (Hold : forall c0, C !! a1 = Some c0 -> (a1 = a -> o / BSIZE <> off / BSIZE) ->
      (if fblock (mnt d) ip1 (o / BSIZE) =? 0 then 0 else d' (fblock (mnt d) ip1 (o / BSIZE)) (o mod BSIZE)) = char_at c0 o).
    { intros c0 Hc0 Hne. rewrite <- (bs_bytes _ _ _ _ Hb a1 ip1 c0 o H1 Hc0 Ho), file_byte_eq. case_if; [done|]. to_prop.
      unfold d'. rewrite setb_ne; [done|]. intros E.
      destruct (bs_inj _ _ _ _ Hb a1 a ip1 ip (o / BSIZE) (off / BSIZE)); try done; [congruence | by apply Hne]. }
    apply lookup_insert_cases in Hc1 as [[-> ->]|[Hne Hc1]]; [|by apply Hold].
    assert (ip1 = ip) as -> by congruence. destruct (decide (o / BSIZE = off / BSIZE)) as [E|E].
    + rewrite E, <- Hx. destruct (Z.eqb_spec x 0); [done|]. unfold d'. rewrite setb_eq, blit_spec, char_at_app by lia.
      pose proof (bs_bytes _ _ _ _ Hb a ip c o Ha Hc Ho) as Hb0. rewrite file_byte_eq, E, <- Hx in Hb0.
      destruct (Z.eqb_spec x 0); [done|]. unfold in_range.
      destruct (Z.leb_spec (off mod BSIZE) (o mod BSIZE)), (Z.ltb_spec (o mod BSIZE) (off mod BSIZE + Z.of_nat (length l))),
        (Z.ltb_spec o (Z.of_nat (length c))); cbn [andb]; try nia; try done.
      * f_equal. nia.
      * rewrite Hb0, !char_at_over by nia. done.
    + rewrite Hold with (c0 := c) by done. rewrite char_at_app by lia. case_if; [done|]. to_prop. rewrite !char_at_over by nia. done.
  - intros b y Hy. unfold d'. rewrite setb_ne; [by apply Hb|].
    pose proof (bs_range _ _ _ _ Hb a ip (off / BSIZE) Ha Hk0). intros ->. rewrite Hx in *. lia.
Qed.

(** From the state [m] with inode [ip] to [m'] with [ip'], inode [a] has got
    blocks for the slots [new], and nothing else has changed. *)
Record got (I : list inode) (C : list (list Z)) (a : nat) (new : list Z) (m : mkfs) (ip : inode) (m' : mkfs) (ip' : inode) : Prop := {
  gt_base : base (img m') (freeblock m') (<[a := ip']> I) C;
  gt_fb : freeblock m' = freeblock m + Z.of_nat (length new);
  gt_vars : nsect m' = nsect m /\ freeinode m' = freeinode m;
  gt_ip : ip' = set_addrs (i_addrs ip') ip;
  gt_kept : forall k, is_slot k -> fblock (mnt (img m)) ip k <> 0 -> fblock (mnt (img m')) ip' k = fblock (mnt (img m)) ip k;
  gt_new : forall k, is_slot k -> fblock (mnt (img m')) ip' k <> 0 <-> fblock (mnt (img m)) ip k <> 0 \/ k ∈ new;
  gt_others : forall a1 ip1 k, a1 <> a -> I !! a1 = Some ip1 -> fblock (mnt (img m')) ip1 k = fblock (mnt (img m)) ip1 k;
  gt_meta : forall b, b < nmeta -> img m' b = img m b;
}.

Lemma got_refl I C a m ip : base (img m) (freeblock m) I C -> I !! a = Some ip -> got I C a [] m ip m ip.
Proof.
  intros Hb Ha. split; try done.
  - by rewrite list_insert_id.
  - cbn. lia.
  - by rewrite set_addrs_id.
  - intros k _. split; [auto | by intros [?|?%elem_of_nil]].
Qed.

Lemma got_trans I C a new1 new2 m1 ip1 m2 ip2 m3 ip3 :
  got I C a new1 m1 ip1 m2 ip2 -> got (<[a := ip2]> I) C a new2 m2 ip2 m3 ip3 -> got I C a (new1 ++ new2) m1 ip1 m3 ip3.
Proof.
  intros H1 H2. split.
  - pose proof (gt_base _ _ _ _ _ _ _ _ H2) as Hb. by rewrite list_insert_insert_eq in Hb.
  - rewrite (gt_fb _ _ _ _ _ _ _ _ H2), (gt_fb _ _ _ _ _ _ _ _ H1), length_app. lia.
  - destruct (gt_vars _ _ _ _ _ _ _ _ H1), (gt_vars _ _ _ _ _ _ _ _ H2). split; congruence.
  - rewrite (gt_ip _ _ _ _ _ _ _ _ H2), (gt_ip _ _ _ _ _ _ _ _ H1). done.
  - intros k Hk Hne. pose proof (gt_kept _ _ _ _ _ _ _ _ H1 k Hk Hne) as E.
    rewrite (gt_kept _ _ _ _ _ _ _ _ H2) by (done || congruence). done.
  - intros k Hk. rewrite (gt_new _ _ _ _ _ _ _ _ H2), (gt_new _ _ _ _ _ _ _ _ H1), elem_of_app by done. tauto.
  - intros a1 p k Hne Hp. rewrite (gt_others _ _ _ _ _ _ _ _ H2 a1), (gt_others _ _ _ _ _ _ _ _ H1 a1); try done.
    by rewrite list_lookup_insert_ne.
  - intros b Hb'. rewrite (gt_meta _ _ _ _ _ _ _ _ H2), (gt_meta _ _ _ _ _ _ _ _ H1); done.
Qed.

(** ** Allocation in iappend *)

Lemma addr_u32 ip k : inode_wf ip -> is_u32 (addr_of ip k).
Proof.
  intros H. unfold addr_of. destruct (nth_in_or_default (Z.to_nat k) (i_addrs ip) 0) as [Hin| ->]; [|done].
  by apply (proj1 (List.Forall_forall _ _) (iw_addrs _ H)).
Qed.

Lemma inode_wf_insert ip k v : inode_wf ip -> is_u32 v -> inode_wf (set_addrs (<[k := v]> (i_addrs ip)) ip).
Proof.
  intros [] Hv. split; try done; cbn [set_addrs i_addrs]; [by rewrite length_insert | by apply Forall_insert].
Qed.

(** The slot of ip->addrs[k]. *)
Definition addr_slot (k : Z) : Z := if k <? NDIRECT then k else -1.

Lemma fblock_insert d fb I C a ip k :
  base d fb I C -> I !! a = Some ip -> 0 <= k <= NDIRECT -> addr_of ip k = 0 -> forall j, is_slot j ->
  fblock (mnt d) (set_addrs (<[Z.to_nat k := fb]> (i_addrs ip)) ip) j =
    if j =? addr_slot k then fb else fblock (mnt d) ip j.
Proof.
  intros Hb Ha Hk H0 j Hj. destruct (bs_wf _ _ _ _ Hb a ip Ha) as [_ _ _ _ _ Hl _]. pose proof (bs_fb _ _ _ _ Hb) as Hfb.
  pose proof nmeta_val. unfold is_slot in Hj. unfold addr_slot, fblock. rewrite (addr_of_insert ip k NDIRECT) by (done || unfold NDIRECT; lia).
  destruct (Z.ltb_spec k NDIRECT), (Z.ltb_spec j 0), (Z.ltb_spec j NDIRECT); unfold NDIRECT in *; try lia;
    try (rewrite addr_of_insert by (done || unfold NDIRECT; lia));
    try (destruct (Z.eqb_spec 12 k)); try lia; try (destruct (Z.eqb_spec j k)); try lia; try (destruct (Z.eqb_spec j (-1))); try done; try lia.
  all: replace (addr_of ip 12) with 0 by congruence; cbn [Z.eqb]; destruct (Z.eqb_spec fb 0); [lia|].
  all: apply load32_zero; intros; apply (bs_fresh _ _ _ _ Hb); lia.
Qed.

Lemma fill_addr_ok I C a m ip k :
  base (img m) (freeblock m) I C -> I !! a = Some ip -> 0 <= k <= NDIRECT ->
  let new := if addr_of ip k =? 0 then [addr_slot k] else [] in
  freeblock m + Z.of_nat (length new) <= FSSIZE ->
  exists m' ip', fill_addr k ip m = Ret m' ip' /\ got I C a new m ip m' ip' /\ img m' = img m.
Proof.
  intros Hb Ha Hk new Hroom. pose proof (bs_wf _ _ _ _ Hb a ip Ha) as Hwf. pose proof (bs_fb _ _ _ _ Hb) as Hfb.
  pose proof nmeta_val. unfold fill_addr. rewrite xint_id by (by apply addr_u32). subst new.
  destruct (Z.eqb_spec (addr_of ip k) 0) as [E|E]; [|exists m, ip; split_and!; [done | by apply got_refl | done]].
  cbn [length] in Hroom. assert (Hu : is_u32 (freeblock m)) by (unfold is_u32, FSSIZE in *; lia).
  unfold next_block, get, put, mbind, M_bind. eexists _, _. split; [done|]. rewrite xint_id by done.
  assert (Hs0 : is_slot (addr_slot k)) by (unfold is_slot, addr_slot; change MAXFILE with 140; case_if; unfold NDIRECT in *; lia).
  assert (Hf := fblock_insert _ _ _ _ a ip k Hb Ha Hk E).
  assert (Hz : fblock (mnt (img m)) ip (addr_slot k) = 0).
  { unfold addr_slot, fblock. destruct (Z.ltb_spec k NDIRECT); [|replace NDIRECT with k by lia; done].
    destruct (Z.ltb_spec k 0), (Z.ltb_spec k NDIRECT); lia. }
  split; [|done]. split; cbn [img freeblock nsect freeinode]; try done.
  - rewrite u32_small by (unfold is_u32, FSSIZE in *; lia).
    eapply (base_assign (img m) (img m)) with (k0 := addr_slot k); try done; [lia | by apply inode_wf_insert].
  - rewrite u32_small by (unfold is_u32, FSSIZE in *; lia). done.
  - intros j Hj Hne. rewrite Hf by done. destruct (Z.eqb_spec j (addr_slot k)); [congruence | done].
  - intros j Hj. rewrite Hf by done. rewrite list_elem_of_singleton. destruct (Z.eqb_spec j (addr_slot k)); [split; [by right | lia]|].
    split; [by left | by intros [?|?]].
Qed.

(** A block number in range is a sector of the image. *)
Lemma rsect_ok m b : nsect m = FSSIZE -> 0 <= b < FSSIZE -> rsect b m = Ret m (img m b).
Proof.
  intros Hn Hb. unfold rsect, get, mbind, M_bind. rewrite sector_id, Hn by (unfold FSSIZE in *; lia).
  by destruct (Z.ltb_spec b FSSIZE); [|lia].
Qed.

Lemma wsect_ok m b x : nsect m = FSSIZE -> 0 <= b < FSSIZE -> wsect b x m = Ret (set_img (setb (img m) b x) FSSIZE m) tt.
Proof.
  intros Hn Hb. unfold wsect, modify. rewrite sector_id, Hn by (unfold FSSIZE in *; lia). do 2 f_equal. lia.
Qed.

(** The entry of the indirect block of inode [a] that is assigned. *)
Lemma indirect_ok I C a m ip fbn :
  base (img m) (freeblock m) I C -> I !! a = Some ip -> nsect m = FSSIZE -> NDIRECT <= fbn < MAXFILE ->
  addr_of ip NDIRECT <> 0 -> fblock (mnt (img m)) ip fbn = 0 -> freeblock m < FSSIZE ->
  let A := addr_of ip NDIRECT in
  let m' := mk_mkfs (setb (img m) A (store32 (img m A) (4 * (fbn - NDIRECT)) (freeblock m))) FSSIZE (freeinode m)
              (freeblock m + 1) in
  got I C a [fbn] m ip m' ip /\ fblock (mnt (img m')) ip fbn = freeblock m.
Proof.
  intros Hb Ha Hn Hf HA Hz Hr A m'. pose proof (bs_fb _ _ _ _ Hb) as Hfb. pose proof nmeta_val as Hnm.
  pose proof (bs_range _ _ _ _ Hb a ip (-1) Ha is_slot_indirect HA) as HAr. rewrite fblock_indirect in HAr.
  assert (Hs0 : is_slot fbn) by (unfold is_slot, NDIRECT in *; lia).
  assert (Hs : forall k, is_slot k -> fblock (mnt (img m')) ip k = if k =? fbn then freeblock m else fblock (mnt (img m)) ip k).
  { intros k Hk. unfold fblock, vw. cbn [booted fl dv restart view img m']. fold A.
    destruct (Z.ltb_spec k 0); [destruct (Z.eqb_spec k fbn); unfold NDIRECT in *; lia || done|].
    destruct (Z.ltb_spec k NDIRECT); [destruct (Z.eqb_spec k fbn); [lia | done]|].
    destruct (Z.eqb_spec A 0); [done|]. rewrite setb_eq. destruct (Z.eqb_spec k fbn) as [->|].
    - apply load32_store32_eq. unfold is_u32, FSSIZE in *. lia.
    - apply load32_store32_ne. lia. }
  split; [|rewrite Hs, Z.eqb_refl; done]. split; try done.
  - rewrite list_insert_id by done. rewrite <- (list_insert_id I a ip) by done.
    eapply (base_assign (img m)) with (k0 := fbn); try done; [by eapply (bs_wf _ _ _ _ Hb)|].
    intros b Hb'. by apply setb_ne.
  - by rewrite set_addrs_id.
  - intros k Hk Hne. rewrite Hs by done. destruct (Z.eqb_spec k fbn); [congruence | done].
  - intros k Hk. rewrite Hs, list_elem_of_singleton by done. destruct (Z.eqb_spec k fbn); [split; [by right | lia]|].
    split; [by left | by intros [?|?]].
  - intros a1 ip1 k Hne H1. apply fblock_ext. intros Hi. apply setb_ne. intros E.
    destruct (bs_inj _ _ _ _ Hb a1 a ip1 ip (-1) (-1)); done.
  - intros b Hlt. apply setb_ne. lia.
Qed.

Lemma indirect_block_ok I C a m ip fbn :
  base (img m) (freeblock m) I C -> I !! a = Some ip -> nsect m = FSSIZE -> NDIRECT <= fbn < MAXFILE ->
  addr_of ip NDIRECT <> 0 ->
  let new := if decide (fblock (mnt (img m)) ip fbn = 0) then [fbn] else [] in
  freeblock m + Z.of_nat (length new) <= FSSIZE ->
  exists m', indirect_block fbn ip m = Ret m' (ip, fblock (mnt (img m')) ip fbn) /\ got I C a new m ip m' ip.
Proof.
  intros Hb Ha Hn Hf HA new Hroom. subst new. pose proof (bs_wf _ _ _ _ Hb a ip Ha) as Hwf.
  pose proof (bs_range _ _ _ _ Hb a ip (-1) Ha is_slot_indirect HA) as HAr. rewrite fblock_indirect in HAr.
  pose proof (bs_fb _ _ _ _ Hb) as Hfb. pose proof nmeta_val. unfold indirect_block. rewrite xint_id by (by apply addr_u32).
  rewrite (bind_ret _ _ _ _ _ (rsect_ok m (addr_of ip NDIRECT) Hn ltac:(lia))).
  assert (Hld : load32 (img m (addr_of ip NDIRECT)) (4 * (fbn - NDIRECT)) = fblock (mnt (img m)) ip fbn).
  { unfold fblock. destruct (Z.ltb_spec fbn 0); [unfold NDIRECT in *; lia|]. destruct (Z.ltb_spec fbn NDIRECT); [lia|].
    by destruct (Z.eqb_spec (addr_of ip NDIRECT) 0). }
  rewrite Hld. destruct (decide (fblock (mnt (img m)) ip fbn = 0)) as [E|E].
  - cbn [length] in Hroom. destruct (indirect_ok I C a m ip fbn Hb Ha Hn Hf HA E ltac:(lia)) as [Hg Hx].
    eexists. split; [|exact Hg]. rewrite Hx, E. cbn [Z.eqb]. unfold next_block, get, put, mbind, M_bind, mret, M_ret.
    cbv beta zeta iota. rewrite u32_small by (unfold is_u32, FSSIZE in *; lia). rewrite wsect_ok by (done || lia).
    rewrite !xint_id by (unfold is_u32, FSSIZE in *; lia).
    rewrite load32_store32_eq, xint_id by (unfold is_u32, FSSIZE in *; lia). done.
  - exists m. destruct (Z.eqb_spec (fblock (mnt (img m)) ip fbn) 0); [done|]. split; [|by apply got_refl].
    unfold mret, M_ret, mbind, M_bind. rewrite Hld, xint_id; [done|].
    assert (Hsl : is_slot fbn) by (unfold is_slot, NDIRECT in *; lia).
    pose proof (bs_range _ _ _ _ Hb a ip fbn Ha Hsl E). unfold is_u32, FSSIZE in *. lia.
Qed.

Lemma find_block_ok I C a m ip fbn :
  base (img m) (freeblock m) I C -> I !! a = Some ip -> nsect m = FSSIZE -> 0 <= fbn < MAXFILE ->
  let new := filter (fun k => fblock (mnt (img m)) ip k = 0) (if fbn <? NDIRECT then [fbn] else [-1; fbn]) in
  freeblock m + Z.of_nat (length new) <= FSSIZE ->
  exists m' ip', find_block fbn ip m = Ret m' (ip', fblock (mnt (img m')) ip' fbn) /\ got I C a new m ip m' ip'.
Proof.
  intros Hb Ha Hn Hf new Hroom. assert (Ha' : forall ip1, <[a := ip1]> I !! a = Some ip1).
  { intros ip1. apply list_lookup_insert_eq. by eapply lookup_lt_Some. }
  unfold find_block. destruct (Z.ltb_spec fbn NDIRECT) as [Hd|Hd].
  - assert (Hfb : forall d p, fblock (mnt d) p fbn = addr_of p fbn).
    { intros. unfold fblock. destruct (Z.ltb_spec fbn 0), (Z.ltb_spec fbn NDIRECT); lia || done. }
    assert (Hnew : new = if addr_of ip fbn =? 0 then [addr_slot fbn] else []).
    { unfold new, addr_slot. rewrite filter_cons, filter_nil, Hfb. destruct (Z.ltb_spec fbn NDIRECT); [|lia].
      case_decide; destruct (Z.eqb_spec (addr_of ip fbn) 0); done. }
    rewrite Hnew in *. destruct (fill_addr_ok I C a m ip fbn Hb Ha) as (m' & ip' & Hfill & Hg & _); [lia | done|].
    exists m', ip'. split; [|done]. rewrite (bind_ret _ _ _ _ _ Hfill), Hfb. unfold mret, M_ret.
    rewrite xint_id; [done|]. apply addr_u32. by eapply (bs_wf _ _ _ _ (gt_base _ _ _ _ _ _ _ _ Hg)).
  - set (new1 := if addr_of ip NDIRECT =? 0 then [addr_slot NDIRECT] else []).
    set (new2 := if decide (fblock (mnt (img m)) ip fbn = 0) then [fbn] else []).
    assert (Hnew : new = new1 ++ new2).
    { unfold new, new1, new2. rewrite !filter_cons, filter_nil, fblock_indirect.
      destruct (Z.eqb_spec (addr_of ip NDIRECT) 0); repeat case_decide; done. }
    rewrite Hnew, length_app in Hroom. rewrite Hnew. clear Hnew new.
    destruct (fill_addr_ok I C a m ip NDIRECT Hb Ha) as (m1 & ip1 & Hfill & Hg & _); [unfold NDIRECT; lia | fold new1; lia|].
    fold new1 in Hg. rewrite (bind_ret _ _ _ _ _ Hfill).
    assert (HA : addr_of ip1 NDIRECT <> 0).
    { rewrite <- (fblock_indirect (img m1)). apply (gt_new _ _ _ _ _ _ _ _ Hg); [done|]. rewrite fblock_indirect.
      unfold new1. destruct (Z.eqb_spec (addr_of ip NDIRECT) 0); [right; by apply list_elem_of_singleton | by left]. }
    assert (H2 : fblock (mnt (img m1)) ip1 fbn = 0 <-> fblock (mnt (img m)) ip fbn = 0).
    { assert (fblock (mnt (img m1)) ip1 fbn <> 0 <-> fblock (mnt (img m)) ip fbn <> 0); [|lia]. rewrite (gt_new _ _ _ _ _ _ _ _ Hg) by (unfold is_slot; lia). split; [|by left]. intros [?|Hin]; [done|].
      unfold new1 in Hin. destruct (_ =? 0); [apply list_elem_of_singleton in Hin; change (addr_slot NDIRECT) with (-1) in Hin; lia|].
      by apply elem_of_nil in Hin. }
    assert (E2 : new2 = if decide (fblock (mnt (img m1)) ip1 fbn = 0) then [fbn] else [])
      by (unfold new2; repeat case_decide; tauto || done).
    destruct (gt_vars _ _ _ _ _ _ _ _ Hg) as [Hn1 _]. pose proof (gt_fb _ _ _ _ _ _ _ _ Hg) as Hfb1.
    destruct (indirect_block_ok _ C a m1 ip1 fbn (gt_base _ _ _ _ _ _ _ _ Hg)) as (m2 & H3 & Hg2);
      [done | congruence | lia | done | rewrite <- E2; lia|].
    exists m2, ip1. split; [exact H3|]. rewrite <- E2 in Hg2. by eapply got_trans.
Qed.

(** ** Counting blocks *)

(** A file of [L] bytes has a block in slot [k]. *)
Definition needs (k L : Z) : Prop := if k <? 0 then NDIRECT * BSIZE < L else k * BSIZE < L.

(** The number of its blocks, the indirect block included. *)
Definition need (L : Z) : Z := (L + BSIZE - 1) / BSIZE + (if NDIRECT * BSIZE <? L then 1 else 0).

Fixpoint blocks (C : list (list Z)) : Z :=
  match C with [] => 0 | c :: C => need (Z.of_nat (length c)) + blocks C end.

Lemma blocks_insert C a c c' :
  C !! a = Some c ->
  blocks (<[a := c']> C) = blocks C - need (Z.of_nat (length c)) + need (Z.of_nat (length c')).
Proof.
  revert a. induction C as [|c0 C IH]; intros [|a] H; try done.
  - injection H as ->. cbn. lia.
  - change (blocks (<[S a := c']> (c0 :: C))) with (need (Z.of_nat (length c0)) + blocks (<[a := c']> C)).
    cbn [blocks]. rewrite (IH a) by done. lia.
Qed.

Lemma blocks_app C c : blocks (C ++ [c]) = blocks C + need (Z.of_nat (length c)).
Proof. induction C as [|c0 C IH]; cbn [app blocks]; lia. Qed.

Lemma need_mono L L' : 0 <= L <= L' -> need L <= need L'.
Proof.
  intros H. unfold need. assert ((L + BSIZE - 1) / BSIZE <= (L' + BSIZE - 1) / BSIZE) by (apply Z.div_le_mono; [done | lia]).
  destruct (Z.ltb_spec (NDIRECT * BSIZE) L), (Z.ltb_spec (NDIRECT * BSIZE) L'); lia.
Qed.

Lemma need_nonneg L : 0 <= L -> 0 <= need L.
Proof. intros H. apply (need_mono 0 L). lia. Qed.

Lemma blocks_nonneg C : 0 <= blocks C.
Proof. induction C as [|c C IH]; cbn [blocks]; [done|]. pose proof (need_nonneg (Z.of_nat (length c))). lia. Qed.

(** The slots that get blocks when [n] bytes are appended to the last block. *)
Lemma new_slots (f : Z -> Z) L n :
  (forall k, is_slot k -> f k <> 0 <-> needs k L) ->
  0 <= L < MAXFILE * BSIZE -> 0 < n -> L mod BSIZE + n <= BSIZE ->
  let new := filter (fun k => f k = 0) (if L / BSIZE <? NDIRECT then [L / BSIZE] else [-1; L / BSIZE]) in
  Z.of_nat (length new) = need (L + n) - need L /\
  forall k, is_slot k -> f k <> 0 \/ k ∈ new <-> needs k (L + n).
Proof.
  intros Hf HL Hn Hm new. destruct (slot_bn L HL) as [Hs Hq]. pose proof (Hf _ Hs) as H1. pose proof (Hf _ is_slot_indirect) as H2.
  unfold needs in H1, H2. change (-1 <? 0) with true in H2. destruct (Z.ltb_spec (L / BSIZE) 0); [lia|].
  assert (E1 : (L + n + BSIZE - 1) / BSIZE = L / BSIZE + 1).
  { symmetry. apply (Z.div_unique _ _ _ (L mod BSIZE + n - 1)); [|pose proof (Z_div_mod_eq_full L BSIZE); unfold BSIZE in *; lia].
    left. pose proof (Z.mod_pos_bound L BSIZE eq_refl). lia. }
  assert (E0 : (L + BSIZE - 1) / BSIZE = if L mod BSIZE =? 0 then L / BSIZE else L / BSIZE + 1).
  { pose proof (Z_div_mod_eq_full L BSIZE). pose proof (Z.mod_pos_bound L BSIZE eq_refl).
    destruct (Z.eqb_spec (L mod BSIZE) 0); symmetry.
    - apply (Z.div_unique _ _ _ (BSIZE - 1)); unfold BSIZE in *; lia.
    - apply (Z.div_unique _ _ _ (L mod BSIZE - 1)); unfold BSIZE in *; lia. }
  pose proof (Z_div_mod_eq_full L BSIZE) as Edm. pose proof (Z.mod_pos_bound L BSIZE eq_refl) as Hmod.
  split.
  - unfold need. rewrite E1, E0. unfold new.
    destruct (Z.ltb_spec (L / BSIZE) NDIRECT); rewrite !filter_cons, filter_nil; repeat case_decide; cbn [length];
      destruct (Z.eqb_spec (L mod BSIZE) 0), (Z.ltb_spec (NDIRECT * BSIZE) (L + n)), (Z.ltb_spec (NDIRECT * BSIZE) L);
      unfold NDIRECT, BSIZE in *; lia.
  - intros k Hk. rewrite (Hf k Hk). unfold new. rewrite list_elem_of_filter.
    assert (Hin : k ∈ (if L / BSIZE <? NDIRECT then [L / BSIZE] else [-1; L / BSIZE]) <-> k = L / BSIZE \/ NDIRECT <= L / BSIZE /\ k = -1).
    { destruct (Z.ltb_spec (L / BSIZE) NDIRECT); rewrite ?elem_of_cons, elem_of_nil; intuition lia. }
    rewrite Hin. assert (Hz : f k = 0 <-> ~ needs k L) by (rewrite <- (Hf k Hk); lia). rewrite Hz. clear Hz Hin.
    unfold needs. unfold is_slot in Hk. destruct (Z.ltb_spec k 0); unfold NDIRECT, BSIZE in *; lia.
Qed.

(** ** iappend *)

Definition filled (d : Z -> block) (ip : inode) (c : list Z) : Prop :=
  forall k, is_slot k -> fblock (mnt d) ip k <> 0 <-> needs k (Z.of_nat (length c)).

(** The files in memory: every file has exactly the blocks it needs. *)
Record pool (m : mkfs) (I : list inode) (C : list (list Z)) : Prop := {
  pl_base : base (img m) (freeblock m) I C;
  pl_filled : forall a ip c, I !! a = Some ip -> C !! a = Some c -> filled (img m) ip c;
  pl_count : freeblock m = nmeta + blocks C;
  pl_sect : nsect m = FSSIZE;
}.

(** What appending leaves alone. *)
Definition kept (m : mkfs) (ip : inode) (m' : mkfs) (ip' : inode) : Prop :=
  freeinode m' = freeinode m /\ ip' = set_addrs (i_addrs ip') ip /\ forall b, b < nmeta -> img m' b = img m b.

Lemma kept_refl m ip : kept m ip m ip.
Proof. split_and!; [done | by rewrite set_addrs_id | done]. Qed.

Lemma kept_trans m1 ip1 m2 ip2 m3 ip3 : kept m1 ip1 m2 ip2 -> kept m2 ip2 m3 ip3 -> kept m1 ip1 m3 ip3.
Proof.
  intros (K1 & K2 & K3) (J1 & J2 & J3). split_and!; [congruence | rewrite J2, K2; done|].
  intros b Hb. rewrite J3, K3 by done. done.
Qed.

Lemma append_round I C a m ip c l :
  pool m I C -> I !! a = Some ip -> C !! a = Some c -> l <> [] ->
  let off := Z.of_nat (length c) in
  off < MAXFILE * BSIZE -> off mod BSIZE + Z.of_nat (length l) <= BSIZE ->
  nmeta + blocks (<[a := c ++ l]> C) <= FSSIZE ->
  exists m1 ip' x, find_block (off / BSIZE) ip m = Ret m1 (ip', x) /\ 0 <= x < FSSIZE /\ nsect m1 = FSSIZE /\
    let m' := set_img (setb (img m1) x (blit (img m1 x) (off mod BSIZE) l)) FSSIZE m1 in
    pool m' (<[a := ip']> I) (<[a := c ++ l]> C) /\ kept m ip m' ip'.
Proof.
  intros [Hb Hfull Hcnt Hn] Ha Hc Hl off Hmax Hfit Hroom.
  assert (Hl1 : 0 < Z.of_nat (length l)) by (destruct l; [done | cbn; lia]).
  destruct (new_slots (fblock (mnt (img m)) ip) off (Z.of_nat (length l))) as [Hcount Hnew];
    [by apply (Hfull a) | lia | done | done|].
  rewrite (blocks_insert C a c) in Hroom by done. rewrite length_app, Nat2Z.inj_add in Hroom. fold off in Hroom.
  destruct (slot_bn off) as [Hs Hbn]; [lia|].
  destruct (find_block_ok I C a m ip (off / BSIZE) Hb Ha Hn Hbn) as (m1 & ip' & Hfind & Hg); [lia|].
  set (x := fblock (mnt (img m1)) ip' (off / BSIZE)) in *. pose proof (gt_base _ _ _ _ _ _ _ _ Hg) as Hb1.
  assert (Ha1 : <[a := ip']> I !! a = Some ip') by (apply list_lookup_insert_eq; by eapply lookup_lt_Some).
  assert (Hx : x <> 0).
  { apply (gt_new _ _ _ _ _ _ _ _ Hg); [done|]. apply Hnew; [done|]. unfold needs.
    destruct (Z.ltb_spec (off / BSIZE) 0); [lia|]. pose proof (Z_div_mod_eq_full off BSIZE).
    pose proof (Z.mod_pos_bound off BSIZE eq_refl). unfold BSIZE in *. lia. }
  pose proof (bs_range _ _ _ _ Hb1 a ip' _ Ha1 Hs Hx) as Hxr. fold x in Hxr. pose proof (bs_fb _ _ _ _ Hb1). pose proof nmeta_val.
  destruct (gt_vars _ _ _ _ _ _ _ _ Hg) as [Hn1 Hi1]. exists m1, ip', x. split_and!; [done | lia | lia | congruence|].
  destruct (base_write _ _ _ _ a ip' c l off x Hb1 Ha1 Hc) as [Hb2 Hf2]; try done.
  split; [split; cbn [img freeblock nsect set_img]; try done|].
  - intros a1 ip1 c1 H1 H2 k Hk. rewrite (Hf2 a1) by done.
    apply lookup_insert_cases in H1 as [[-> ->]|[Hne H1]].
    + rewrite list_lookup_insert_eq in H2 by (by eapply lookup_lt_Some). injection H2 as <-.
      rewrite length_app, Nat2Z.inj_add, (gt_new _ _ _ _ _ _ _ _ Hg) by done. by apply Hnew.
    + rewrite list_lookup_insert_ne in H2 by done. rewrite (gt_others _ _ _ _ _ _ _ _ Hg a1) by done. by apply (Hfull a1).
  - rewrite (blocks_insert C a c), length_app, Nat2Z.inj_add, (gt_fb _ _ _ _ _ _ _ _ Hg) by done. fold off. lia.
  - split_and!; [done | apply Hg|]. intros b Hb'. cbn [img set_img]. rewrite setb_ne by lia. by apply Hg.
Qed.

Lemma insert_same {A} (l : list A) i x y : <[i := x]> (<[i := y]> l) = <[i := x]> l.
Proof. apply list_insert_insert_eq. Qed.

Lemma iappend_loop_ok fuel I C a m ip c p :
  pool m I C -> I !! a = Some ip -> C !! a = Some c -> (length p <= fuel)%nat ->
  Z.of_nat (length c) + Z.of_nat (length p) <= MAXFILE * BSIZE -> nmeta + blocks (<[a := c ++ p]> C) <= FSSIZE ->
  exists m' ip', iappend_loop fuel p (Z.of_nat (length c)) (Z.of_nat (length p)) ip m =
      Ret m' (ip', Z.of_nat (length c) + Z.of_nat (length p)) /\
    pool m' (<[a := ip']> I) (<[a := c ++ p]> C) /\ kept m ip m' ip'.
Proof.
  revert I C m ip c p. induction fuel as [|fuel IH]; intros I C m ip c p Hp Ha Hc Hfuel Hmax Hroom.
  all: destruct (decide (p = [])) as [->|Hne];
    [exists m, ip; cbn; rewrite app_nil_r, !list_insert_id, Z.add_0_r by done; auto using kept_refl|].
  all: assert (Hl : 0 < Z.of_nat (length p)) by (destruct p; [done | cbn; lia]).
  1: lia.
  set (off := Z.of_nat (length c)). pose proof (Z_div_mod_eq_full off BSIZE) as Edm. pose proof (Z.mod_pos_bound off BSIZE eq_refl) as Hmod.
  set (n1 := Z.min (Z.of_nat (length p)) (BSIZE - off mod BSIZE)).
  assert (Hn1 : 0 < n1) by lia. set (l := take (Z.to_nat n1) p). set (p' := drop (Z.to_nat n1) p).
  assert (Hll : Z.of_nat (length l) = n1) by (unfold l; rewrite length_take; lia).
  assert (Hlp : Z.of_nat (length p') = Z.of_nat (length p) - n1) by (unfold p'; rewrite length_drop; lia).
  assert (Hroom1 : nmeta + blocks (<[a := c ++ l]> C) <= FSSIZE).
  { rewrite (blocks_insert C a c), length_app in Hroom by done. rewrite (blocks_insert C a c), length_app by done.
    pose proof (need_mono (Z.of_nat (length c + length l)) (Z.of_nat (length c + length p))). lia. }
  destruct (append_round I C a m ip c l) as (m1 & ip1 & x & Hfind & Hx & Hn & Hp1 & Hk1); fold off; try done; [by intros E; rewrite E in Hll; cbn in Hll; lia | lia | lia|].
  fold off in Hfind, Hp1, Hk1. set (m2 := set_img _ _ m1) in *.
  destruct (IH (<[a := ip1]> I) (<[a := c ++ l]> C) m2 ip1 (c ++ l) p') as (m' & ip' & Hloop & Hp2 & Hk2).
  - done.
  - apply list_lookup_insert_eq. by eapply lookup_lt_Some.
  - apply list_lookup_insert_eq. by eapply lookup_lt_Some.
  - lia.
  - rewrite length_app. lia.
  - rewrite insert_same, <- app_assoc. unfold l, p'. by rewrite take_drop.
  - exists m', ip'. rewrite !insert_same, <- app_assoc in Hp2. unfold l, p' in Hp2. rewrite take_drop in Hp2. split_and!; [|done|].
    + cbn [iappend_loop]. destruct (Z.ltb_spec 0 (Z.of_nat (length p))); [|lia]. cbv zeta.
      destruct (slot_bn off) as [_ Hbn]; [lia|]. destruct (Z.ltb_spec (off / BSIZE) MAXFILE); [|lia]. cbn [negb].
      rewrite (bind_ret _ _ _ _ _ Hfind). cbn [fst snd]. rewrite (bind_ret _ _ _ _ _ (rsect_ok m1 x Hn Hx)).
      replace (off - off / BSIZE * BSIZE) with (off mod BSIZE) by lia.
      replace ((off / BSIZE + 1) * BSIZE - off) with (BSIZE - off mod BSIZE) by lia.
      rewrite (u32_small (BSIZE - _)) by (unfold is_u32, BSIZE in *; lia). fold n1 l p'.
      rewrite (bind_ret _ _ _ _ _ (wsect_ok m1 x _ Hn Hx)). fold m2.
      rewrite length_app, Nat2Z.inj_add, Hll, Hlp in Hloop. fold off in Hloop.
      rewrite u32_small by (change (MAXFILE * BSIZE) with 71680 in *; unfold is_u32; lia). rewrite Hloop. f_equal. f_equal. lia.
    + by eapply kept_trans.
Qed.

(** ** The inode table *)

Definition inum_of (a : nat) : Z := Z.of_nat a + 1.

Lemma inode_block inum : 0 <= inum < NINODES -> 32 <= IBLOCK inum mkfs_sb < 58.
Proof.
  unfold NINODES. intros H. unfold IBLOCK. change (sb_inodestart mkfs_sb) with 32. change IPB with 8.
  assert (0 <= inum / 8) by (apply Z.div_pos; lia). assert (inum / 8 < 26) by (apply Z.div_lt_upper_bound; lia). lia.
Qed.

Definition on_disk (d : Z -> block) (inum : Z) : inode :=
  load_dinode (d (IBLOCK inum mkfs_sb)) (dinode_off inum) no_inode.

(** The image after winode. *)
Definition with_dinode (d : Z -> block) (inum : Z) (ip : inode) : Z -> block :=
  setb d (IBLOCK inum mkfs_sb) (store_dinode (d (IBLOCK inum mkfs_sb)) (dinode_off inum) ip).

Lemma rinode_ok m inum : nsect m = FSSIZE -> 0 <= inum < NINODES -> rinode inum m = Ret m (on_disk (img m) inum).
Proof.
  intros Hn Hi. pose proof (inode_block inum Hi). unfold rinode.
  rewrite (bind_ret _ _ _ _ _ (rsect_ok m (IBLOCK inum mkfs_sb) Hn ltac:(unfold FSSIZE; lia))). done.
Qed.

Lemma winode_ok m inum ip :
  nsect m = FSSIZE -> 0 <= inum < NINODES -> winode inum ip m = Ret (set_img (with_dinode (img m) inum ip) FSSIZE m) tt.
Proof.
  intros Hn Hi. pose proof (inode_block inum Hi). unfold winode.
  rewrite (bind_ret _ _ _ _ _ (rsect_ok m (IBLOCK inum mkfs_sb) Hn ltac:(unfold FSSIZE; lia))).
  by rewrite wsect_ok by (done || (unfold FSSIZE; lia)).
Qed.

Lemma on_disk_eq d inum ip : inode_wf ip -> on_disk (with_dinode d inum ip) inum = same_cached ip no_inode.
Proof. intros H. unfold on_disk, with_dinode. rewrite setb_eq. by apply load_store_dinode. Qed.

Lemma on_disk_ne d inum inum' ip : inode_wf ip -> inum' <> inum -> on_disk (with_dinode d inum ip) inum' = on_disk d inum'.
Proof.
  intros H Hne. unfold on_disk, with_dinode. destruct (decide (IBLOCK inum' mkfs_sb = IBLOCK inum mkfs_sb)) as [E|E].
  - rewrite E, setb_eq. apply load_dinode_other; [apply H|]. by eapply dinode_off_apart.
  - by rewrite setb_ne.
Qed.

Lemma with_dinode_out d inum ip b : 0 <= inum < NINODES -> b < 32 \/ 58 <= b -> with_dinode d inum ip b = d b.
Proof. intros Hi Hb. pose proof (inode_block inum Hi). apply setb_ne. lia. Qed.

(** ** The image under construction *)

Record inv (m : mkfs) (I : list inode) (C : list (list Z)) : Prop := {
  iv_pool : pool m I C;
  iv_free : freeinode m = Z.of_nat (length I) + 1;
  iv_max : Z.of_nat (length I) < NINODES;
  iv_disk : forall a ip, I !! a = Some ip -> on_disk (img m) (inum_of a) = ip;
  iv_size : forall a ip c, I !! a = Some ip -> C !! a = Some c -> i_size ip = Z.of_nat (length c);
  iv_kind : forall a ip, I !! a = Some ip -> i_type ip = (if (a =? 0)%nat then T_DIR else T_FILE) /\ i_nlink ip = 1;
  iv_unused : forall inum, Z.of_nat (length I) < inum < NINODES -> i_type (on_disk (img m) inum) = 0;
  iv_sb : forall x, img m 1 x = sb_block x;
  iv_zero : forall b x, b = 0 \/ 2 <= b < 32 \/ b = 58 -> img m b x = 0;
}.

Lemma pool_meta m I C d' :
  pool m I C -> (forall b, nmeta <= b -> d' b = img m b) -> pool (set_img d' FSSIZE m) I C.
Proof.
  intros [Hb Hfull Hcnt Hn] Hd.
  assert (Hf : forall a ip k, I !! a = Some ip -> fblock (mnt d') ip k = fblock (mnt (img m)) ip k).
  { intros a ip k Ha. apply fblock_ext. intros Hne. apply Hd. rewrite <- (fblock_indirect (img m)) in *.
    apply (bs_range _ _ _ _ Hb a ip (-1) Ha is_slot_indirect Hne). }
  split; cbn [img freeblock nsect set_img]; try done.
  - split; try apply Hb.
    + intros a ip k Ha Hk. rewrite (Hf a) by done. by apply (bs_range _ _ _ _ Hb a).
    + intros a1 a2 ip1 ip2 k1 k2 H1 H2 Hk1 Hk2. rewrite (Hf a1), (Hf a2) by done. by apply (bs_inj _ _ _ _ Hb).
    + intros a ip c o Ha Hc Ho. destruct (slot_bn o Ho) as [Hk _].
      rewrite <- (bs_bytes _ _ _ _ Hb a ip c o Ha Hc Ho), !file_byte_eq, (Hf a) by done. case_if; [done|]. to_prop.
      rewrite Hd; [done|]. by apply (bs_range _ _ _ _ Hb a).
    + intros b x Hx. pose proof (bs_fb _ _ _ _ Hb). rewrite Hd by lia. by apply Hb.
  - intros a ip c Ha Hc k Hk. rewrite (Hf a) by done. by apply (Hfull a).
Qed.

Lemma pool_inode m I C a ip ip' :
  pool m I C -> I !! a = Some ip -> i_addrs ip' = i_addrs ip -> inode_wf ip' -> pool m (<[a := ip']> I) C.
Proof.
  intros [Hb Hfull Hcnt Hn] Ha He Hwf.
  assert (Hf : forall a1 ip1, <[a := ip']> I !! a1 = Some ip1 ->
    exists ip0, I !! a1 = Some ip0 /\ i_addrs ip1 = i_addrs ip0 /\ inode_wf ip1).
  { intros a1 ip1 [[-> ->]|[_ H1]]%lookup_insert_cases; [by exists ip|]. exists ip1. split_and!; [done | done|].
    by eapply (bs_wf _ _ _ _ Hb). }
  split; try done.
  - split; try apply Hb.
    + intros a1 ip1 (ip0 & _ & _ & H)%Hf. done.
    + rewrite length_insert. apply Hb.
    + intros a1 ip1 k (ip0 & H0 & E & _)%Hf Hk. rewrite (fblock_addrs _ ip0) by done. by apply (bs_range _ _ _ _ Hb a1).
    + intros a1 a2 ip1 ip2 k1 k2 (p1 & H1 & E1 & _)%Hf (p2 & H2 & E2 & _)%Hf Hk1 Hk2.
      rewrite (fblock_addrs _ p1 ip1), (fblock_addrs _ p2 ip2) by done. by apply (bs_inj _ _ _ _ Hb).
    + intros a1 ip1 c o (p1 & H1 & E1 & _)%Hf Hc Ho. rewrite file_byte_eq, (fblock_addrs _ p1) by done.
      rewrite <- file_byte_eq. by apply (bs_bytes _ _ _ _ Hb a1).
  - intros a1 ip1 c (p1 & H1 & E1 & _)%Hf Hc k Hk. rewrite (fblock_addrs _ p1) by done. by apply (Hfull a1).
Qed.

Lemma inv_inum m I C a ip : inv m I C -> I !! a = Some ip -> 0 <= inum_of a < NINODES /\ (a < length I)%nat.
Proof. intros Hv Ha. apply lookup_lt_Some in Ha. pose proof (iv_max _ _ _ Hv). unfold inum_of. lia. Qed.

Lemma inode_wf_size ip v : inode_wf ip -> is_u32 v -> inode_wf (set_size v ip).
Proof. by intros [] Hv. Qed.

(** winode of inode [a] after the loop of iappend. *)
Lemma inv_store m0 m I C a ip ip1 c c' :
  inv m0 I C -> I !! a = Some ip -> C !! a = Some c -> pool m (<[a := ip1]> I) (<[a := c']> C) -> kept m0 ip m ip1 ->
  Z.of_nat (length c') <= MAXFILE * BSIZE ->
  let ip' := set_size (Z.of_nat (length c')) ip1 in
  inv (set_img (with_dinode (img m) (inum_of a) ip') FSSIZE m) (<[a := ip']> I) (<[a := c']> C).
Proof.
  intros Hv Ha Hc Hp (K1 & K2 & K3) Hmax ip'. destruct (inv_inum _ _ _ _ _ Hv Ha) as [Hr Hlt].
  assert (Ha1 : <[a := ip1]> I !! a = Some ip1) by (by apply list_lookup_insert_eq).
  assert (Hwf : inode_wf ip').
  { apply inode_wf_size; [by eapply (bs_wf _ _ _ _ (pl_base _ _ _ Hp))|]. change (MAXFILE * BSIZE) with 71680 in Hmax. unfold is_u32. lia. }
  assert (Hcached : same_cached ip' no_inode = ip').
  { unfold ip'. rewrite K2, <- (iv_disk _ _ _ Hv a ip Ha). done. }
  assert (Hd : forall inum, 0 <= inum < NINODES -> on_disk (img m) inum = on_disk (img m0) inum).
  { intros inum Hi. unfold on_disk. pose proof (inode_block inum Hi). rewrite K3; [done|]. rewrite nmeta_val. lia. }
  split; cbn [img freeblock freeinode set_img].
  - apply pool_meta; [|intros b Hb; apply with_dinode_out; rewrite nmeta_val in Hb; lia].
    rewrite <- (insert_same I a ip' ip1). by eapply pool_inode.
  - rewrite length_insert, K1. apply Hv.
  - rewrite length_insert. apply Hv.
  - intros a1 p [[-> ->]|[Hne H1]]%lookup_insert_cases; [by rewrite on_disk_eq|].
    destruct (inv_inum _ _ _ _ _ Hv H1). rewrite on_disk_ne, Hd by (done || (unfold inum_of in *; lia)). by apply Hv.
  - intros a1 p c1 [[-> ->]|[Hne H1]]%lookup_insert_cases Hc1.
    + rewrite list_lookup_insert_eq in Hc1 by (by eapply lookup_lt_Some). by injection Hc1 as <-.
    + rewrite list_lookup_insert_ne in Hc1 by done. by apply (iv_size _ _ _ Hv a1).
  - intros a1 p [[-> ->]|[Hne H1]]%lookup_insert_cases; [|by apply (iv_kind _ _ _ Hv)].
    destruct (iv_kind _ _ _ Hv a ip Ha). unfold ip'. by rewrite K2.
  - intros inum Hi. rewrite length_insert in Hi. unfold inum_of.
    rewrite on_disk_ne, Hd by (done || (unfold inum_of in *; lia)). apply Hv. lia.
  - intros x. rewrite with_dinode_out, K3 by (done || (rewrite ?nmeta_val; lia)). apply (iv_sb _ _ _ Hv).
  - intros b x Hb. rewrite with_dinode_out, K3 by (done || (rewrite ?nmeta_val; lia)). by apply (iv_zero _ _ _ Hv).
Qed.

Lemma iappend_ok m I C a ip c p :
  inv m I C -> I !! a = Some ip -> C !! a = Some c ->
  Z.of_nat (length c) + Z.of_nat (length p) <= MAXFILE * BSIZE -> nmeta + blocks (<[a := c ++ p]> C) <= FSSIZE ->
  exists m' ip', iappend (inum_of a) p (Z.of_nat (length p)) m = Ret m' tt /\ inv m' (<[a := ip']> I) (<[a := c ++ p]> C).
Proof.
  intros Hv Ha Hc Hmax Hroom. destruct (inv_inum _ _ _ _ _ Hv Ha) as [Hr Hlt]. pose proof (iv_pool _ _ _ Hv) as Hp.
  destruct (iappend_loop_ok (length p) I C a m ip c p) as (m1 & ip1 & Hloop & Hp1 & Hk); try done.
  eexists _, (set_size (Z.of_nat (length (c ++ p))) ip1). split; [|eapply inv_store; try done; rewrite length_app; lia].
  unfold iappend. rewrite (bind_ret _ _ _ _ _ (rinode_ok m _ (pl_sect _ _ _ Hp) Hr)), (iv_disk _ _ _ Hv a ip Ha).
  change (MAXFILE * BSIZE) with 71680 in Hmax.
  rewrite xint_id, (iv_size _ _ _ Hv a ip c Ha Hc) by (rewrite (iv_size _ _ _ Hv a ip c Ha Hc); unfold is_u32; lia).
  rewrite Nat2Z.id, (bind_ret _ _ _ _ _ Hloop). cbn [fst snd].
  rewrite xint_id by (unfold is_u32; lia). rewrite <- Nat2Z.inj_add, <- length_app. by rewrite winode_ok by (done || apply Hp1).
Qed.

Lemma new_dinode_wf T : is_s16 T -> inode_wf (new_dinode T) /\ i_type (new_dinode T) = T /\ i_nlink (new_dinode T) = 1.
Proof.
  intros HT. assert (E : s16 (xshort T) = T) by (by apply load16_store16_eq). unfold new_dinode. rewrite E.
  split; [|done]. split; try done. repeat constructor; done.
Qed.

Lemma fblock_new d T k : fblock (mnt d) (new_dinode T) k = 0.
Proof.
  assert (E : forall j, addr_of (new_dinode T) j = 0).
  { intros j. unfold addr_of, new_dinode. cbn [i_addrs]. generalize (Z.to_nat j). intros n. do 13 (destruct n as [|n]; [done|]). by destruct n. }
  unfold fblock. rewrite !E. by repeat case_if.
Qed.

Lemma pool_new m I C T :
  pool m I C -> is_s16 T -> pool m (I ++ [new_dinode T]) (C ++ [[]]).
Proof.
  intros [Hb Hfull Hcnt Hn] HT. pose proof (bs_len _ _ _ _ Hb) as Hlen.
  assert (Hi : forall a ip, (I ++ [new_dinode T]) !! a = Some ip -> I !! a = Some ip \/ ip = new_dinode T /\ a = length I).
  { intros a ip [H|[Ha H]]%lookup_app_Some; [by left|]. apply list_lookup_singleton_Some in H as [E <-]. right. split; [done | lia]. }
  assert (Hc : forall a ip c, I !! a = Some ip -> (C ++ [[]]) !! a = Some c -> C !! a = Some c).
  { intros a ip c Ha Hc. apply lookup_lt_Some in Ha. rewrite lookup_app_l in Hc by lia. done. }
  assert (Hc0 : forall c, (C ++ [[]]) !! length I = Some c -> c = []).
  { intros c. rewrite lookup_app_r, Hlen, Nat.sub_diag by lia. by intros [= <-]. }
  split; try done.
  - split; try apply Hb.
    + intros a ip [H|[-> _]]%Hi; [by eapply (bs_wf _ _ _ _ Hb) | by apply new_dinode_wf].
    + rewrite !length_app, Hlen. done.
    + intros a ip k [H|[-> _]]%Hi Hk; [by apply (bs_range _ _ _ _ Hb a) | by rewrite fblock_new].
    + intros a1 a2 ip1 ip2 k1 k2 [H1|[-> _]]%Hi [H2|[-> _]]%Hi Hk1 Hk2; rewrite ?fblock_new; try done.
      by apply (bs_inj _ _ _ _ Hb).
    + intros a ip c o [H|[-> ->]]%Hi Hc1 Ho; [apply (bs_bytes _ _ _ _ Hb a ip c o); eauto|].
      apply Hc0 in Hc1 as ->. rewrite file_byte_eq, fblock_new. unfold char_at. by destruct (Z.to_nat o).
  - intros a ip c [H|[-> ->]]%Hi Hc1; [apply (Hfull a ip c); eauto|]. apply Hc0 in Hc1 as ->. intros k Hk. rewrite fblock_new.
    unfold needs, is_slot in *. case_if; [done|]. to_prop. cbn. unfold BSIZE. lia.
  - rewrite blocks_app, Hcnt. change (need (Z.of_nat (length (@nil Z)))) with 0. lia.
Qed.

Lemma ialloc_ok m I C T :
  inv m I C -> Z.of_nat (length I) + 1 < NINODES -> T = (if (length I =? 0)%nat then T_DIR else T_FILE) ->
  exists m', ialloc T m = Ret m' (inum_of (length I)) /\ inv m' (I ++ [new_dinode T]) (C ++ [[]]).
Proof.
  intros Hv Hmax HT. pose proof (iv_pool _ _ _ Hv) as Hp. pose proof (pl_sect _ _ _ Hp) as Hn.
  assert (HsT : is_s16 T) by (subst T; by destruct (length I =? 0)%nat).
  destruct (new_dinode_wf T HsT) as (Hwf & HtT & Hnl). set (N := length I) in *.
  assert (Hr : 0 <= inum_of N < NINODES) by (unfold inum_of; lia).
  assert (Hi : forall a ip, (I ++ [new_dinode T]) !! a = Some ip -> I !! a = Some ip \/ ip = new_dinode T /\ a = N).
  { intros a ip [H|[Ha H]]%lookup_app_Some; [by left|]. apply list_lookup_singleton_Some in H as [E <-]. right. split; [done | lia]. }
  assert (Hfi : freeinode m = inum_of N) by apply Hv. unfold ialloc, get, put, mbind, M_bind. rewrite Hfi.
  rewrite winode_ok by done. eexists. split; [done|]. cbn [set_img img freeblock freeinode nsect].
  rewrite u32_small by (unfold is_u32, inum_of, NINODES in *; lia).
  split; cbn [img freeblock freeinode set_img].
  - apply (pool_meta (mk_mkfs (img m) (nsect m) (inum_of N + 1) (freeblock m)));
      [|intros b Hb; apply with_dinode_out; rewrite nmeta_val in Hb; lia].
    destruct (pool_new m I C T Hp HsT). by split.
  - rewrite length_app. cbn. unfold inum_of. lia.
  - rewrite length_app. cbn. lia.
  - intros a ip [H|[-> ->]]%Hi; [|by rewrite on_disk_eq].
    destruct (inv_inum _ _ _ _ _ Hv H). rewrite on_disk_ne by (done || (unfold inum_of in *; lia)). by apply Hv.
  - intros a ip c [H|[-> ->]]%Hi Hc.
    + apply (iv_size _ _ _ Hv a); [done|]. apply lookup_lt_Some in H. rewrite lookup_app_l in Hc; [done|].
      rewrite <- (bs_len _ _ _ _ (pl_base _ _ _ Hp)). done.
    + rewrite lookup_app_r in Hc; unfold N in *; rewrite (bs_len _ _ _ _ (pl_base _ _ _ Hp)) in *; [|done].
      rewrite Nat.sub_diag in Hc. by injection Hc as <-.
  - intros a ip [H|[-> ->]]%Hi; [by apply (iv_kind _ _ _ Hv) | by rewrite HtT, Hnl].
  - intros inum Hin. rewrite length_app in Hin. cbn in Hin. rewrite on_disk_ne by (done || (unfold inum_of in *; lia)). apply Hv. lia.
  - intros x. rewrite with_dinode_out by (done || lia). apply (iv_sb _ _ _ Hv).
  - intros b x Hb. rewrite with_dinode_out by (done || lia). by apply (iv_zero _ _ _ Hv).
Qed.

(** ** Adding the files *)

Definition content (f : hostfile) : list Z := match hdata f with Some reads => List.concat reads | None => [] end.

Fixpoint entries (inum : Z) (files : list hostfile) : list Z :=
  match files with [] => [] | f :: files => dirent inum (fs_name (hname f)) ++ entries (inum + 1) files end.

(** The files main accepts. *)
Record readable (f : hostfile) : Prop := {
  rd_name : existsb (fun c => c =? slash) (hname f) = false;
  rd_data : exists reads, hdata f = Some reads /\ Forall (fun r => r <> []) reads;
  rd_size : Z.of_nat (length (content f)) <= MAXFILE * BSIZE;
}.

Lemma blocks_app_le C1 C2 : blocks (C1 ++ C2) = blocks C1 + blocks C2.
Proof. induction C1 as [|c C1 IH]; cbn [app blocks]; lia. Qed.

Lemma need_app (c p : list Z) : need (Z.of_nat (length c)) <= need (Z.of_nat (length (c ++ p))).
Proof. apply need_mono. rewrite length_app. lia. Qed.

Lemma dirent_length inum name : length (dirent inum name) = 16%nat.
Proof. unfold dirent, new_dirent, bytes_at. by rewrite length_map, length_seq. Qed.

Lemma entries_length inum files : length (entries inum files) = (16 * length files)%nat.
Proof. revert inum. induction files as [|f files IH]; intros inum; cbn [entries length]; [done|]. rewrite length_app, dirent_length, IH. lia. Qed.

Lemma copy_file_ok reads m I C a c :
  inv m I C -> C !! a = Some c -> Forall (fun r => r <> []) reads ->
  Z.of_nat (length (c ++ List.concat reads)) <= MAXFILE * BSIZE -> nmeta + blocks (<[a := c ++ List.concat reads]> C) <= FSSIZE ->
  exists m' I', copy_file (inum_of a) reads m = Ret m' tt /\ inv m' I' (<[a := c ++ List.concat reads]> C).
Proof.
  revert m I C c. induction reads as [|r reads IH]; intros m I C c Hv Hc Hr Hmax Hroom.
  - exists m, I. cbn [List.concat copy_file]. rewrite app_nil_r, list_insert_id by done. done.
  - apply Forall_cons_1 in Hr as [Hr Hrs]. cbn [List.concat] in *. rewrite app_assoc in *.
    assert (Hl : 0 < Z.of_nat (length r)) by (destruct r; [done | cbn; lia]).
    destruct (lookup_lt_is_Some_2 I a) as [ip Ha].
    { rewrite (bs_len _ _ _ _ (pl_base _ _ _ (iv_pool _ _ _ Hv))). by eapply lookup_lt_Some. }
    destruct (iappend_ok m I C a ip c r) as (m1 & ip1 & H1 & Hv1); try done.
    { rewrite !length_app in Hmax. lia. }
    { rewrite (blocks_insert C a c) in * by done. pose proof (need_app (c ++ r) (List.concat reads)). lia. }
    destruct (IH m1 _ _ (c ++ r) Hv1) as (m2 & I2 & H2 & Hv2); try done.
    { apply list_lookup_insert_eq. by eapply lookup_lt_Some. }
    { by rewrite insert_same. }
    exists m2, I2. rewrite insert_same in Hv2. split; [|done]. cbn [copy_file].
    destruct (Z.ltb_spec 0 (Z.of_nat (length r))); [|lia]. by rewrite (bind_ret _ _ _ _ _ H1).
Qed.

Lemma add_file_ok m I r cs f :
  inv m I (r :: cs) -> readable f -> Z.of_nat (length cs) + 2 < NINODES ->
  let r' := r ++ dirent (inum_of (S (length cs))) (fs_name (hname f)) in
  Z.of_nat (length r') <= MAXFILE * BSIZE -> nmeta + blocks (r' :: cs ++ [content f]) <= FSSIZE ->
  exists m' I', add_file 1 f m = Ret m' tt /\ inv m' I' (r' :: cs ++ [content f]).
Proof.
  intros Hv [Hname (reads & Hd & Hr) Hsize] Hmax r' Hrl Hroom. unfold content in *. rewrite Hd in *.
  pose proof (bs_len _ _ _ _ (pl_base _ _ _ (iv_pool _ _ _ Hv))) as Hlen. cbn [length] in Hlen.
  destruct (ialloc_ok m I _ T_FILE Hv) as (m1 & H1 & Hv1); [lia | by rewrite Hlen|]. rewrite Hlen in H1.
  set (de := dirent (inum_of (S (length cs))) (fs_name (hname f))) in *.
  destruct (lookup_lt_is_Some_2 (I ++ [new_dinode T_FILE]) 0) as [ip Ha]; [rewrite length_app; cbn; lia|].
  assert (Hroom1 : nmeta + blocks (r' :: cs ++ [[]]) <= FSSIZE).
  { cbn [blocks] in *. rewrite !blocks_app_le in *. cbn [blocks] in *.
    pose proof (need_app [] (List.concat reads)) as Hn. cbn [app] in Hn. lia. }
  destruct (iappend_ok m1 _ _ 0 ip r de Hv1 Ha) as (m2 & ip2 & H2 & Hv2); [done | | done|].
  { unfold r' in Hrl. rewrite length_app in Hrl. lia. }
  change (<[0%nat := r ++ de]> ((r :: cs) ++ [[]])) with (r' :: cs ++ [[]]) in Hv2.
  assert (Hlk : (r' :: cs ++ [[]]) !! S (length cs) = Some []).
  { change ((cs ++ [[]]) !! length cs = Some (@nil Z)). rewrite lookup_app_r, Nat.sub_diag by lia. done. }
  assert (Hins : <[S (length cs) := List.concat reads]> (r' :: cs ++ [[]]) = r' :: cs ++ [List.concat reads]).
  { change (r' :: <[length cs := List.concat reads]> (cs ++ [[]]) = r' :: cs ++ [List.concat reads]). f_equal.
    rewrite insert_app_r_alt, Nat.sub_diag by lia. done. }
  destruct (copy_file_ok reads m2 _ _ (S (length cs)) [] Hv2 Hlk Hr) as (m3 & I3 & H3 & Hv3); [done | by rewrite app_nil_l, Hins|].
  rewrite app_nil_l, Hins in Hv3. exists m3, I3. split; [|done]. unfold add_file. rewrite Hname, Hd.
  rewrite (bind_ret _ _ _ _ _ H1). change 1 with (inum_of 0). change DIRENT_SIZE with (Z.of_nat 16).
  rewrite <- (dirent_length (inum_of (S (length cs))) (fs_name (hname f))). fold de. by rewrite (bind_ret _ _ _ _ _ H2).
Qed.

Lemma add_files_ok files m I r cs :
  inv m I (r :: cs) -> Forall readable files -> Z.of_nat (length cs + length files) + 1 < NINODES ->
  let r' := r ++ entries (inum_of (S (length cs))) files in
  Z.of_nat (length r') <= MAXFILE * BSIZE -> nmeta + blocks (r' :: cs ++ map content files) <= FSSIZE ->
  exists m' I', add_files 1 files m = Ret m' tt /\ inv m' I' (r' :: cs ++ map content files).
Proof.
  revert m I r cs. induction files as [|f files IH]; intros m I r cs Hv Hf Hmax r' Hrl Hroom; subst r'.
  - exists m, I. cbn [entries map]. rewrite !app_nil_r. done.
  - apply Forall_cons_1 in Hf as [Hf Hfs]. cbn [entries map length] in *.
    set (de := dirent (inum_of (S (length cs))) (fs_name (hname f))) in *.
    assert (Hn : inum_of (S (length cs)) + 1 = inum_of (S (length (cs ++ [content f])))).
    { unfold inum_of. rewrite length_app. cbn [length]. lia. }
    assert (Hcons : cs ++ content f :: map content files = (cs ++ [content f]) ++ map content files) by (by rewrite <- app_assoc).
    rewrite Hn, app_assoc in Hrl. rewrite Hn, app_assoc, Hcons in Hroom. rewrite Hn, app_assoc, Hcons. clear Hn Hcons.
    destruct (add_file_ok m I r cs f Hv Hf) as (m1 & I1 & H1 & Hv1); fold de; [lia | | |].
    { rewrite length_app in Hrl. lia. }
    { cbn [blocks] in *. rewrite blocks_app_le in Hroom. pose proof (blocks_nonneg (map content files)).
      pose proof (need_app (r ++ de) (entries (inum_of (S (length (cs ++ [content f])))) files)). lia. }
    fold de in Hv1. destruct (IH m1 I1 _ _ Hv1 Hfs) as (m2 & I2 & H2 & Hv2); [rewrite length_app; cbn [length]; lia | done | done|].
    exists m2, I2. split; [|done]. cbn [add_files]. by rewrite (bind_ret _ _ _ _ _ H1).
Qed.

(** ** The finished image *)

Lemma wipe_ok n i m :
  0 <= i -> i + Z.of_nat n <= FSSIZE -> (forall b x, img m b x = 0) ->
  exists m', wipe n i m = Ret m' tt /\ (forall b x, img m' b x = 0) /\
    nsect m' = (if (n =? 0)%nat then nsect m else Z.max (nsect m) (i + Z.of_nat n)) /\
    freeinode m' = freeinode m /\ freeblock m' = freeblock m.
Proof.
  revert i m. induction n as [|n IH]; intros i m Hi Hn Hz; cbn [wipe]; [by exists m|].
  unfold FSSIZE in *. destruct (IH (i + 1) (set_img (setb (img m) i (fun _ => 0)) (Z.max (nsect m) (i + 1)) m)) as (m' & H1 & H2 & H3 & H4);
    [lia | lia | |].
  - intros b x. cbn [img set_img]. unfold setb. case_if; [done | apply Hz].
  - exists m'. split_and!; [|done | | apply H4 | apply H4].
    + rewrite <- H1. unfold wsect, modify, mbind, M_bind. by rewrite sector_id by lia.
    + rewrite H3. cbn [nsect set_img]. destruct (Nat.eqb_spec n 0), (Nat.eqb_spec (S n) 0); lia.
Qed.

Lemma inv_empty m : img m 1 = sb_block -> (forall b x, b <> 1 -> img m b x = 0) -> nsect m = FSSIZE ->
  freeinode m = 1 -> freeblock m = nmeta -> inv m [] [].
Proof.
  intros Hsb Hz Hn Hi Hfb. split; try done.
  - split; try done. split; try done.
    + rewrite Hfb, nmeta_val. unfold FSSIZE. lia.
    + intros b x Hb. apply Hz. rewrite Hfb, nmeta_val in Hb. lia.
  - intros inum H. cbn [length] in H. pose proof (inode_block inum ltac:(lia)). unfold on_disk, load_dinode, load16. cbn [i_type].
    by rewrite !Hz by lia.
  - intros x. by rewrite Hsb.
  - intros b x Hb. apply Hz. lia.
Qed.

(** The root directory, without the empty entries at its end. *)
Definition root_dir (files : list hostfile) : list Z :=
  (dirent 1 dot_name ++ dirent 1 dotdot_name) ++ entries 2 files.

Record accepted (files : list hostfile) : Prop := {
  ac_files : Forall readable files;
  ac_inodes : Z.of_nat (length files) + 1 < NINODES;
  ac_blocks : nmeta + blocks (root_dir files :: map content files) <= FSSIZE;
}.

Lemma root_dir_length files : Z.of_nat (length (root_dir files)) = 16 * (Z.of_nat (length files) + 2).
Proof. unfold root_dir. rewrite !length_app, !dirent_length, entries_length. lia. Qed.

(** The end of main: the size of the root directory, and the bitmap. *)
Definition finish : M mkfs unit :=
  rinode ROOTINO ≫= fun din =>
  winode ROOTINO (set_size (xint (round_size (xint (i_size din)))) din) ≫= fun _ =>
  get ≫= fun m => balloc (freeblock m).

Lemma append_root m I r p :
  inv m I [r] -> (length p = 16)%nat -> Z.of_nat (length r) = 0 \/ Z.of_nat (length r) = 16 ->
  exists m' I', iappend ROOTINO p DIRENT_SIZE m = Ret m' tt /\ inv m' I' [r ++ p].
Proof.
  intros Hv Hp Hr. destruct (lookup_lt_is_Some_2 I 0) as [ip Ha].
  { rewrite (bs_len _ _ _ _ (pl_base _ _ _ (iv_pool _ _ _ Hv))). cbn. lia. }
  destruct (iappend_ok m I [r] 0 ip r p Hv Ha) as (m' & ip' & H1 & H2); [done | rewrite Hp; change (MAXFILE * BSIZE) with 71680; lia | |].
  - change (blocks (<[0%nat := r ++ p]> [r])) with (need (Z.of_nat (length (r ++ p))) + 0).
    rewrite length_app, Hp, nmeta_val. pose proof (need_mono (Z.of_nat (length r + 16)) 32) as H. change (need 32) with 1 in H.
    unfold FSSIZE. lia.
  - eexists m', _. rewrite Hp in H1. split; [exact H1 | exact H2].
Qed.

Lemma main_files files :
  accepted files -> exists m I, main files new_image = finish m /\ inv m I (root_dir files :: map content files).
Proof.
  intros [Hf Hi Hb]. unfold main.
  destruct (wipe_ok (Z.to_nat FSSIZE) 0 new_image) as (m0 & H0 & Hz & Hn & Hfi & Hfb); [lia | unfold FSSIZE; lia | done|].
  rewrite (bind_ret _ _ _ _ _ H0). rewrite (bind_ret _ _ _ _ _ (wsect_ok m0 1 sb_block Hn ltac:(unfold FSSIZE; lia))).
  destruct (ialloc_ok (set_img (setb (img m0) 1 sb_block) FSSIZE m0) [] [] T_DIR) as (m1 & H1 & Hv1); [|done | done|].
  { apply inv_empty; try done. intros b x Hb1. cbn [img set_img]. by rewrite setb_ne. }
  rewrite (bind_ret _ _ _ _ _ H1). change (inum_of (length (@nil inode))) with ROOTINO. cbn [Z.eqb negb ROOTINO Pos.eqb].
  destruct (append_root m1 _ [] (dirent ROOTINO dot_name) Hv1) as (m2 & I2 & H2 & Hv2); [apply dirent_length | by left|].
  rewrite (bind_ret _ _ _ _ _ H2). rewrite app_nil_l in Hv2.
  destruct (append_root m2 I2 _ (dirent ROOTINO dotdot_name) Hv2) as (m3 & I3 & H3 & Hv3);
    [apply dirent_length | right; by rewrite dirent_length|].
  rewrite (bind_ret _ _ _ _ _ H3).
  destruct (add_files_ok files m3 I3 _ [] Hv3 Hf) as (m4 & I4 & H4 & Hv4); [cbn [length]; lia | | done|].
  { change (Z.of_nat (length (root_dir files)) <= 71680). rewrite root_dir_length. unfold NINODES in Hi. lia. }
  exists m4, I4. split; [|exact Hv4]. by rewrite (bind_ret _ _ _ _ _ H4).
Qed.

(** The image [d]: [fb] blocks are in use, and the inodes [I] of the table have
    the contents [C]. *)
Record made (d : Z -> block) (fb : Z) (I : list inode) (C : list (list Z)) : Prop := {
  md_base : base d fb I C;
  md_filled : forall a ip c, I !! a = Some ip -> C !! a = Some c -> filled d ip c;
  md_count : fb = nmeta + blocks C;
  md_used : forall b, 0 <= b < FSSIZE -> used (mnt d) b = (b <? fb);
  md_disk : forall a ip, I !! a = Some ip -> on_disk d (inum_of a) = ip;
  md_kind : forall a ip, I !! a = Some ip -> i_type ip = (if (a =? 0)%nat then T_DIR else T_FILE) /\ i_nlink ip = 1;
  md_size : forall a ip c, I !! a = Some ip -> C !! a = Some c ->
    i_size ip = (if (a =? 0)%nat then round_size (Z.of_nat (length c)) else Z.of_nat (length c));
  md_unused : forall inum, Z.of_nat (length I) < inum < NINODES -> i_type (on_disk d inum) = 0;
  md_sb : readsb (mnt d) = Ret (mnt d) mkfs_sb;
  md_log : forall b x, 2 <= b < 32 -> d b x = 0;
  md_inodes : Z.of_nat (length I) < NINODES;
}.

Lemma mark_bits_used n b : 0 <= b -> bit_used (mark_bits n (fun _ => 0)) b = (b <? Z.of_nat n).
Proof.
  intros Hb. induction n as [|n IH]; cbn [mark_bits].
  - unfold bit_used. cbn. symmetry. apply Z.ltb_ge. done.
  - rewrite bit_used_mark, IH. lia.
Qed.

Lemma bitmap_used d n b : 0 <= b < FSSIZE -> used (mnt (setb d 58 (mark_bits n (fun _ => 0)))) b = (b <? Z.of_nat n).
Proof.
  intros Hb. unfold used, vw. cbn [booted fl dv restart view sb].
  assert (E : b / BPB = 0) by (apply Z.div_small; unfold FSSIZE in Hb; change BPB with 4096; lia).
  unfold BBLOCK. rewrite E. change (0 + sb_bmapstart mkfs_sb) with 58. rewrite setb_eq.
  rewrite Z.mod_small by (unfold FSSIZE in Hb; change BPB with 4096; lia). apply mark_bits_used. lia.
Qed.

Lemma sb_on_disk d : (forall x, d 1 x = sb_block x) -> readsb (mnt d) = Ret (mnt d) mkfs_sb.
Proof.
  intros H. unfold readsb, bread_, blk_read, mbind, M_bind, mret, M_ret. cbn [booted fl dv restart view].
  rewrite !(load32_ext sb_block (d 1)) by (intros; apply H). done.
Qed.

Lemma round_size_ok L : 0 <= L <= 4096 -> round_size L = (L / BSIZE + 1) * BSIZE.
Proof.
  intros H. unfold round_size. apply u32_small. assert (0 <= L / BSIZE) by (apply Z.div_pos; [lia | done]).
  assert (L / BSIZE < 9) by (apply Z.div_lt_upper_bound; [done | unfold BSIZE; lia]). unfold is_u32, BSIZE in *. lia.
Qed.

Lemma finish_made m I r cs :
  inv m I (r :: cs) -> Z.of_nat (length r) <= 4096 ->
  exists m' I', finish m = Ret m' tt /\ made (img m') (freeblock m') I' (r :: cs) /\ length I' = length I.
Proof.
  intros Hv Hr. pose proof (iv_pool _ _ _ Hv) as Hp. pose proof (pl_sect _ _ _ Hp) as Hn. pose proof (bs_fb _ _ _ _ (pl_base _ _ _ Hp)) as Hfb.
  destruct (lookup_lt_is_Some_2 I 0) as [ip Ha]; [rewrite (bs_len _ _ _ _ (pl_base _ _ _ Hp)); cbn; lia|].
  set (ip' := set_size (round_size (Z.of_nat (length r))) ip).
  set (d1 := with_dinode (img m) ROOTINO ip'). set (d2 := setb d1 58 (mark_bits (Z.to_nat (freeblock m)) (fun _ => 0))).
  assert (Hu : is_u32 (round_size (Z.of_nat (length r)))) by apply u32_range.
  assert (Hwf : inode_wf ip') by (apply inode_wf_size; [by eapply (bs_wf _ _ _ _ (pl_base _ _ _ Hp)) | done]).
  assert (Hr1 : 0 <= ROOTINO < NINODES) by done.
  assert (Hod : forall inum, 0 <= inum < NINODES -> on_disk d2 inum = on_disk d1 inum).
  { intros inum Hi. pose proof (inode_block inum Hi). unfold on_disk, d2. by rewrite setb_ne by lia. }
  assert (Hcached : same_cached ip' no_inode = ip') by (unfold ip'; by rewrite <- (iv_disk _ _ _ Hv 0 ip Ha)).
  assert (Hp2 : pool (set_img d2 FSSIZE m) (<[0%nat := ip']> I) (r :: cs)).
  { apply pool_meta; [by eapply pool_inode|]. rewrite nmeta_val. intros b Hb. unfold d2, d1. rewrite setb_ne by lia.
    apply with_dinode_out; [done | lia]. }
  exists (set_img d2 FSSIZE m), (<[0%nat := ip']> I). split_and!.
  - unfold finish. rewrite (bind_ret _ _ _ _ _ (rinode_ok m _ Hn Hr1)). change (on_disk (img m) ROOTINO) with (on_disk (img m) (inum_of 0)).
    rewrite (iv_disk _ _ _ Hv 0 ip Ha), (iv_size _ _ _ Hv 0 ip r Ha eq_refl).
    rewrite (xint_id (Z.of_nat _)) by (unfold is_u32; lia). rewrite xint_id by done. fold ip'.
    rewrite (bind_ret _ _ _ _ _ (winode_ok m _ ip' Hn Hr1)). fold d1. unfold get, mbind, M_bind, balloc.
    cbn [freeblock set_img]. unfold FSSIZE, BSIZE in *. destruct (Z.ltb_spec (freeblock m) (512 * 8)); [|lia]. cbn [negb].
    change (sb_bmapstart mkfs_sb) with 58. by rewrite wsect_ok by (done || lia).
  - cbn [img freeblock set_img]. destruct Hp2 as [Hb2 Hf2 Hc2 _]. cbn [img freeblock set_img] in *. split; try done.
    + intros b Hb. unfold d2. rewrite bitmap_used by done. by rewrite Z2Nat.id by (rewrite nmeta_val in Hfb; lia).
    + intros a p Hap. assert (Hai := Hap). apply lookup_lt_Some in Hai. rewrite length_insert in Hai. pose proof (iv_max _ _ _ Hv).
      rewrite Hod by (unfold inum_of; lia). unfold d1.
      apply lookup_insert_cases in Hap as [[-> ->]|[Hne H1]]; [by rewrite on_disk_eq|].
      rewrite on_disk_ne by (done || (unfold inum_of, ROOTINO; lia)). by apply Hv.
    + intros a p [[-> ->]|[Hne H1]]%lookup_insert_cases; [by apply (iv_kind _ _ _ Hv 0 ip) | by apply (iv_kind _ _ _ Hv)].
    + intros a p c [[-> ->]|[Hne H1]]%lookup_insert_cases Hc; [by injection Hc as <-|].
      rewrite (iv_size _ _ _ Hv a p c) by done. by destruct a.
    + intros inum Hi. rewrite length_insert in Hi. rewrite Hod by lia. unfold d1.
      assert (0 < length I)%nat by (by eapply lookup_lt_Some). rewrite on_disk_ne by (done || (unfold ROOTINO; lia)). by apply Hv.
    + apply sb_on_disk. intros x. unfold d2, d1. rewrite setb_ne, with_dinode_out by (done || lia). apply (iv_sb _ _ _ Hv).
    + intros b x Hb. unfold d2, d1. rewrite setb_ne, with_dinode_out by (done || lia). apply (iv_zero _ _ _ Hv). lia.
    + rewrite length_insert. apply Hv.
  - by rewrite length_insert.
Qed.

Lemma main_ok files :
  accepted files ->
  exists m I, main files new_image = Ret m tt /\ made (img m) (freeblock m) I (root_dir files :: map content files) /\
    length I = S (length files).
Proof.
  intros Ha. destruct (main_files files Ha) as (m & I & -> & Hv). destruct (finish_made m I _ _ Hv) as (m' & I' & H1 & H2 & H3).
  - rewrite root_dir_length. pose proof (ac_inodes _ Ha). unfold NINODES in *. lia.
  - exists m', I'. split_and!; [done | done|]. rewrite H3, (bs_len _ _ _ _ (pl_base _ _ _ (iv_pool _ _ _ Hv))). cbn [length]. by rewrite length_map.
Qed.

(** ** The image as the kernel sees it *)

(** The entry of the inode cache after iget and ilock of inode [inum]. *)
Definition loaded (d : Z -> block) (inum : Z) : inode :=
  set_valid true (dinode (mnt d) inum (mk_inode ROOTDEV inum 1 initsleeplock false 0 0 0 0 0 [])).

Section kernel.
Context (d : Z -> block) (fb : Z) (I : list inode) (C : list (list Z)) (Hm : made d fb I C).

Lemma loaded_fields a ip :
  I !! a = Some ip -> let q := loaded d (inum_of a) in
  i_type q = i_type ip /\ i_nlink q = i_nlink ip /\ i_size q = i_size ip /\ i_addrs q = i_addrs ip.
Proof. intros Ha. cbv zeta. rewrite <- (md_disk _ _ _ _ Hm a ip Ha). done. Qed.

Lemma loaded_fblock l a ip k : I !! a = Some ip -> fblock (booted d l) (loaded d (inum_of a)) k = fblock (mnt d) ip k.
Proof.
  intros Ha. destruct (loaded_fields a ip Ha) as (_ & _ & _ & E).
  change (fblock (booted d l) (loaded d (inum_of a)) k) with (fblock (mnt d) (loaded d (inum_of a)) k). by apply fblock_addrs.
Qed.

Lemma loaded_byte l a ip c o :
  I !! a = Some ip -> C !! a = Some c -> 0 <= o < MAXFILE * BSIZE ->
  file_byte (booted d l) (loaded d (inum_of a)) o = char_at c o.
Proof.
  intros Ha Hc Ho. rewrite <- (bs_bytes _ _ _ _ (md_base _ _ _ _ Hm) a ip c o) by done.
  unfold file_byte. rewrite !(loaded_fblock l a ip) by done. done.
Qed.

Lemma image_bitmap l c : is_bitmap (booted d l) c <-> c = 58.
Proof.
  unfold is_bitmap. cbn [booted sb]. change (sb_size mkfs_sb) with 1000. split.
  - intros (b & Hb & ->). unfold BBLOCK. rewrite Z.div_small by (change BPB with 4096; lia). done.
  - intros ->. exists 0. done.
Qed.

Lemma image_used l b : 0 <= b < FSSIZE -> used (booted d l) b = (b <? fb).
Proof. apply (md_used _ _ _ _ Hm). Qed.

(** A file without holes satisfies the invariant of fs.c. *)
Lemma loaded_inv l i a ip c :
  I !! a = Some ip -> C !! a = Some c -> l !! i = Some (loaded d (inum_of a)) ->
  Z.of_nat (length c) <= i_size ip <= MAXFILE * BSIZE -> i_size ip <= BSIZE * ((Z.of_nat (length c) + BSIZE - 1) / BSIZE) ->
  file_inv (booted d l) i (loaded d (inum_of a)).
Proof.
  intros Ha Hc Hl Hsz Hdense. destruct (loaded_fields a ip Ha) as (Ht & Hnl & Hs & Hads). cbv zeta in *. set (q := loaded d (inum_of a)) in *.
  pose proof (md_base _ _ _ _ Hm) as Hb. pose proof (bs_fb _ _ _ _ Hb) as Hfb. rewrite nmeta_val in Hfb.
  pose proof (bs_wf _ _ _ _ Hb a ip Ha) as [W1 W2 W3 W4 W5 W6 W7].
  assert (Hi : 0 <= inum_of a < NINODES).
  { apply lookup_lt_Some in Ha. pose proof (md_inodes _ _ _ _ Hm). unfold inum_of. lia. }
  pose proof (inode_block _ Hi) as HI. change (i_inum q) with (inum_of a) in *. unfold FSSIZE in *.
  assert (Hu : forall b, 0 <= b < fb -> used (booted d l) b = true).
  { intros b Hbb. rewrite image_used by (unfold FSSIZE; lia). apply Z.ltb_lt. lia. }
  split; [split| | | | | |]; cbn [booted inodes sb]; change (i_inum q) with (inum_of a); change (sb_size mkfs_sb) with 1000.
  - done.
  - by rewrite Hads.
  - split; cbn [booted sb]; change (sb_size mkfs_sb) with 1000; [lia | apply Hu; lia|]. intros c0 Hc0 _. apply image_bitmap in Hc0 as ->. apply Hu. lia.
  - split_and!; [lia | lia | apply Hu; lia|]. rewrite image_bitmap. lia.
  - intros k Hk. unfold q. rewrite (loaded_fblock l a ip) by done. intros Hne. pose proof (bs_range _ _ _ _ Hb a ip k Ha Hk Hne) as Hr.
    rewrite nmeta_val in Hr. split_and!; [lia | lia | apply Hu; lia | rewrite image_bitmap; lia | lia].
  - intros k k' Hk Hk'. unfold q. rewrite !(loaded_fblock l a ip) by done. intros Hne E. by destruct (bs_inj _ _ _ _ Hb a a ip ip k k').
  - assert (E : same_cached ip q = q) by (unfold q; by rewrite <- (md_disk _ _ _ _ Hm a ip Ha)). rewrite <- E. by split.
  - intros bn Hbn Hlt. unfold q. rewrite (loaded_fblock l a ip) by done. rewrite Hs in Hlt.
    assert (Hbl : bn * BSIZE < Z.of_nat (length c)).
    { assert (bn < (Z.of_nat (length c) + BSIZE - 1) / BSIZE) by (unfold BSIZE in *; lia).
      pose proof (Z_div_mod_eq_full (Z.of_nat (length c) + BSIZE - 1) BSIZE). pose proof (Z.mod_pos_bound (Z.of_nat (length c) + BSIZE - 1) BSIZE eq_refl).
      unfold BSIZE in *. lia. }
    change (MAXFILE * BSIZE) with 71680 in Hsz.
    apply (md_filled _ _ _ _ Hm a ip c Ha Hc); [unfold is_slot; change MAXFILE with 140; unfold BSIZE in *; lia|].
    unfold needs. by destruct (Z.ltb_spec bn 0); [lia|].
  - done.
  - rewrite Ht. destruct (md_kind _ _ _ _ Hm a ip Ha) as [-> _]. by destruct (a =? 0)%nat.
  - lia.
  - lia.
Qed.

End kernel.

Lemma char_at_seq c : map (char_at c) (seqZ 0 (Z.of_nat (length c))) = c.
Proof.
  apply list_eq. intros i. rewrite list_lookup_fmap. destruct (decide (i < length c)%nat) as [Hi|Hi].
  - rewrite lookup_seqZ_lt by lia. cbn. unfold char_at. replace (Z.to_nat (0 + Z.of_nat i)) with i by lia.
    destruct (lookup_lt_is_Some_2 c i Hi) as [x Hx]. by rewrite Hx, (nth_lookup_Some _ _ _ _ Hx).
  - rewrite lookup_seqZ_ge, lookup_ge_None_2 by lia. done.
Qed.

(** ** The root directory *)

Lemma xshort_id x : 0 <= x < 2 ^ 16 -> xshort x = x.
Proof.
  intros H. unfold xshort, load16, store16. rewrite upd_eq, (upd_ne _ 1 _ 0), upd_eq by lia.
  unfold u8. rewrite Z.shiftr_div_pow2 by lia.
  rewrite (Z.mod_small (x / 2 ^ 8)) by (split; [apply Z.div_pos; lia | apply Z.div_lt_upper_bound; lia]).
  pose proof (Z_div_mod_eq_full x (2 ^ 8)). lia.
Qed.

Fixpoint named (inum : Z) (files : list hostfile) : list (Z * list Z) :=
  match files with [] => [] | f :: files => (inum, fs_name (hname f)) :: named (inum + 1) files end.

Definition all_entries (files : list hostfile) : list (Z * list Z) :=
  (1, dot_name) :: (1, dotdot_name) :: named 2 files.

Lemma root_dir_entries files : root_dir files = List.concat (map (fun e => dirent e.1 e.2) (all_entries files)).
Proof.
  unfold root_dir, all_entries. cbn [map List.concat fst snd]. rewrite <- app_assoc. do 2 f_equal.
  generalize 2. induction files as [|f files IH]; intros inum; cbn [entries named map List.concat fst snd]; [done|]. by rewrite IH.
Qed.

Lemma named_lookup inum files j f :
  files !! j = Some f -> named inum files !! j = Some (inum + Z.of_nat j, fs_name (hname f)).
Proof.
  revert inum j. induction files as [|g files IH]; intros inum [|j] H; try done.
  - injection H as ->. cbn. do 2 f_equal. lia.
  - change (named (inum + 1) files !! j = Some (inum + Z.of_nat (S j), fs_name (hname f))). rewrite (IH _ _ H). do 2 f_equal. lia.
Qed.

Lemma named_range inum files e : e ∈ named inum files -> inum <= e.1 < inum + Z.of_nat (length files) /\ exists f, f ∈ files /\ e.2 = fs_name (hname f).
Proof.
  revert inum. induction files as [|g files IH]; intros inum H; [by apply elem_of_nil in H|].
  cbn [named length] in *. apply elem_of_cons in H as [->|H].
  - split; [cbn; lia|]. exists g. split; [left | done].
  - destruct (IH _ H) as (H1 & f & H2 & H3). split; [lia|]. exists f. split; [by right | done].
Qed.

Lemma char_at_concat (l : list (list Z)) k e j :
  Forall (fun x => length x = 16%nat) l -> l !! k = Some e -> 0 <= j < 16 ->
  char_at (List.concat l) (16 * Z.of_nat k + j) = char_at e j.
Proof.
  revert k. induction l as [|x l IH]; intros [|k] Hl Hk Hj; try done; apply Forall_cons_1 in Hl as [Hx Hl]; cbn [List.concat];
    rewrite char_at_app by lia; rewrite Hx.
  - injection Hk as ->. destruct (Z.ltb_spec (16 * Z.of_nat 0 + j) (Z.of_nat 16)); [|lia]. done.
  - destruct (Z.ltb_spec (16 * Z.of_nat (S k) + j) (Z.of_nat 16)); [lia|]. rewrite <- (IH k) by done. f_equal. lia.
Qed.

Lemma dirents_length l : Forall (fun x => length x = 16%nat) (map (fun e => dirent e.1 e.2) l).
Proof. induction l as [|e l IH]; cbn [map]; constructor; [apply dirent_length | exact IH]. Qed.

Lemma all_entries_length files : Z.of_nat (length (all_entries files)) = Z.of_nat (length files) + 2.
Proof.
  unfold all_entries. cbn [length]. assert (H : forall i, length (named i files) = length files); [|rewrite H; lia].
  induction files as [|f l IH]; intros i; cbn [named length]; [done | by rewrite IH].
Qed.

(** Names that a directory can tell apart. *)
Record nameable (files : list hostfile) : Prop := {
  nb_chars : forall f, f ∈ files -> Forall is_char (fs_name (hname f)) /\ (length (fs_name (hname f)) < 256)%nat;
  nb_distinct : NoDup (map (fun e => take 14 e.2) (all_entries files));
}.

Section root.
Context (files : list hostfile) (Hac : accepted files) (Hnm : nameable files).
Context (d : Z -> block) (fb : Z) (I : list inode) (Hm : made d fb I (root_dir files :: map content files)).
Context (HI : length I = S (length files)) (rest : list inode).

Let n := Z.of_nat (length files) + 2.
Let q := loaded d 1.
Let s := booted d (q :: rest).

Lemma root_files : 2 <= n <= 200.
Proof using Hac. pose proof (ac_inodes _ Hac) as H. unfold NINODES in H. unfold n. clear -H. lia. Qed.

Lemma root_fields : exists ip, I !! 0%nat = Some ip /\ i_addrs q = i_addrs ip /\ i_type q = T_DIR /\ i_size q = (n / 32 + 1) * 512.
Proof.
  pose proof root_files as Hn. destruct (lookup_lt_is_Some_2 I 0) as [ip Ha]; [lia|]. exists ip.
  destruct (loaded_fields _ _ _ _ Hm 0 ip Ha) as (Ht & _ & Hs & Had). destruct (md_kind _ _ _ _ Hm 0 ip Ha) as [Kt _].
  pose proof (md_size _ _ _ _ Hm 0 ip (root_dir files) Ha eq_refl) as Hsz. rewrite root_dir_length in Hsz. fold n in Hsz.
  cbv iota beta in Hsz. change (0 =? 0)%nat with true in *. cbv iota in *. rewrite round_size_ok in Hsz by lia.
  change (loaded d (inum_of 0)) with q in *. split_and!; [done | done | congruence|]. rewrite Hs, Hsz. unfold BSIZE. do 2 f_equal.
  rewrite (Z.mul_comm 16 n). change 512 with (32 * 16). by rewrite Z.div_mul_cancel_r.
Qed.

Lemma root_byte o : 0 <= o < MAXFILE * BSIZE -> file_byte s q o = char_at (root_dir files) o.
Proof.
  intros Ho. destruct root_fields as (ip & Ha & _). by apply (loaded_byte _ _ _ _ Hm (q :: rest) 0 ip (root_dir files) o Ha eq_refl).
Qed.

Lemma entry_ok e : e ∈ all_entries files -> 0 < e.1 < 2 ^ 16 /\ Forall is_char e.2 /\ (length e.2 < 256)%nat.
Proof.
  pose proof root_files as Hn. unfold n in Hn. intros [-> | [-> | H]%elem_of_cons]%elem_of_cons.
  - split_and!; [done | done | repeat constructor | cbn; lia].
  - split_and!; [done | done | repeat constructor | cbn; lia].
  - destruct (named_range _ _ _ H) as (Hr & f & Hf & ->). split; [lia|]. by apply Hnm.
Qed.

Lemma root_entry_byte k e j :
  all_entries files !! k = Some e -> 0 <= j < 16 -> file_byte s q (DIRENT_SIZE * Z.of_nat k + j) = char_at (new_dirent e.2 (replicate 16 0) e.1) j.
Proof.
  intros He Hj. pose proof root_files. pose proof (all_entries_length files) as Hal. fold n in Hal. assert (Hk := He). apply lookup_lt_Some in Hk.
  unfold DIRENT_SIZE. rewrite root_byte by (change (MAXFILE * BSIZE) with 71680; lia). rewrite root_dir_entries.
  rewrite (char_at_concat _ k (dirent e.1 e.2) j (dirents_length _)); [| rewrite list_lookup_fmap, He; reflexivity | exact Hj].
  unfold dirent. rewrite xshort_id; [done|]. destruct (entry_ok e) as [? _]; [by eapply list_elem_of_lookup_2 | lia].
Qed.

Lemma root_entry k e : all_entries files !! k = Some e -> e_inum s q (Z.of_nat k) = e.1 /\ e_name s q (Z.of_nat k) = take 14 e.2.
Proof.
  intros He. destruct (entry_ok e) as (H1 & H2 & H3); [by eapply list_elem_of_lookup_2|].
  apply (new_entry s q (Z.of_nat k) e.2 (replicate 16 0) e.1); try done. intros j Hj. by apply root_entry_byte.
Qed.

Lemma root_empty k : n <= k < nent q -> e_inum s q k = 0.
Proof.
  intros Hk. pose proof root_files. destruct root_fields as (_ & _ & _ & _ & Hsz). unfold nent, DIRENT_SIZE in Hk. rewrite Hsz in Hk.
  assert (n / 32 <= 6) by (apply Z.lt_succ_r, Z.div_lt_upper_bound; lia).
  replace ((n / 32 + 1) * 512) with ((n / 32 + 1) * 32 * 16) in Hk by lia. rewrite Z.div_mul in Hk by done.
  unfold e_inum, DIRENT_SIZE. rewrite !root_byte by (change (MAXFILE * BSIZE) with 71680; lia).
  rewrite !char_at_over by (rewrite root_dir_length; unfold n in *; lia). done.
Qed.

Lemma root_inv : n mod 32 <> 0 -> dir_inv s 0 q.
Proof.
  intros Hmod. pose proof root_files. destruct root_fields as (ip & Ha & Had & Hty & Hsz).
  pose proof (Z_div_mod_eq_full n 32). pose proof (Z.mod_pos_bound n 32 eq_refl).
  assert (Hsz' : i_size ip = (n / 32 + 1) * 512).
  { rewrite <- Hsz. destruct (loaded_fields _ _ _ _ Hm 0 ip Ha) as (_ & _ & Hs & _). done. }
  assert (Hd : (Z.of_nat (length (root_dir files)) + BSIZE - 1) / BSIZE = n / 32 + 1).
  { rewrite root_dir_length. fold n. symmetry. apply (Z.div_unique _ _ _ (16 * (n mod 32) - 1)); unfold BSIZE; lia. }
  assert (Hfi : file_inv s 0 q).
  { apply (loaded_inv _ _ _ _ Hm (q :: rest) 0 0 ip (root_dir files) Ha eq_refl eq_refl); rewrite Hsz'.
    - rewrite root_dir_length. fold n. change (MAXFILE * BSIZE) with 71680. lia.
    - rewrite Hd. unfold BSIZE. lia. }
  split; [exact Hfi|]. split; [done | exact Hty | exact (fi_dense _ _ _ Hfi) | | |].
  - rewrite Hsz. change (MAXFILE * BSIZE) with 71680. lia.
  - rewrite Hsz. replace ((n / 32 + 1) * 512) with ((n / 32 + 1) * 32 * DIRENT_SIZE) by (unfold DIRENT_SIZE; lia). by apply Z.mod_mul.
  - intros o Ho. rewrite Hsz in Ho. destruct (decide (o < 16 * n)).
    + assert (Hk : (Z.to_nat (o / 16) < length (all_entries files))%nat).
      { pose proof (all_entries_length files) as Hal. fold n in Hal. assert (o / 16 < n) by (apply Z.div_lt_upper_bound; lia). lia. }
      destruct (lookup_lt_is_Some_2 _ _ Hk) as [e He]. assert (0 <= o / 16) by (apply Z.div_pos; lia).
      pose proof (Z_div_mod_eq_full o 16). pose proof (Z.mod_pos_bound o 16 eq_refl).
      replace o with (DIRENT_SIZE * Z.of_nat (Z.to_nat (o / 16)) + o mod 16) by (unfold DIRENT_SIZE; lia).
      destruct (entry_ok e) as (E1 & E2 & E3); [by eapply list_elem_of_lookup_2|].
      rewrite (root_entry_byte _ e) by done. rewrite new_dirent_char by done. repeat case_if; try apply u8_range.
      unfold char_at. rewrite nth_lookup. destruct (e.2 !! Z.to_nat (o mod 16 - 2)) as [c|] eqn:Ec; cbn; [|lia].
      rewrite Forall_lookup in E2. pose proof (E2 _ _ Ec) as Hc. unfold is_char in Hc. lia.
    + rewrite root_byte by (change (MAXFILE * BSIZE) with 71680; lia). rewrite char_at_over by (rewrite root_dir_length; fold n; lia). lia.
Qed.

End root.

(** ** What mkfs promises to the kernel *)

Section theorems.
Context (devsw_read : Z -> option (nat -> Z -> M fs (Z * list Z))).

(** C13 (roundtrip): mkfs builds a file system that the kernel can use.  When the
    files have legal names, are short enough and fit on the disk, it completes;
    the superblock reads back, the log is empty, and every file has an inode of
    its own that satisfies the invariant of fs.c, shares no block with another
    file, and from which readi returns exactly the bytes of the file; the
    other inodes are free. *)
Theorem mkfs_files (files : list hostfile) :
  accepted files -> exists m, main files new_image = Ret m tt /\ let d := img m in
    readsb (mnt d) = Ret (mnt d) mkfs_sb /\ header (d 2) = [] /\
    (forall j f, files !! j = Some f -> let ip := loaded d (Z.of_nat j + 2) in let s := booted d [ip] in
       file_inv s 0 ip /\ i_type ip = T_FILE /\ i_nlink ip = 1 /\
       readi devsw_read 0 0 (Z.of_nat (length (content f))) s = Ret s (Z.of_nat (length (content f)), content f)) /\
    (forall i j b, (i < j < length files)%nat -> owns (mnt d) (loaded d (Z.of_nat i + 2)) b -> b <> 0 ->
       ~ owns (mnt d) (loaded d (Z.of_nat j + 2)) b) /\
    (forall inum, Z.of_nat (length files) + 1 < inum < NINODES -> i_type (loaded d inum) = 0).
Proof.
  intros Hac. destruct (main_ok files Hac) as (m & I & Hmain & Hm & HI). exists m. split; [done|]. cbv zeta.
  pose proof (bs_len _ _ _ _ (md_base _ _ _ _ Hm)) as Hlen.
  assert (Hin : forall j, (j < length files)%nat -> exists ip, I !! S j = Some ip /\ inum_of (S j) = Z.of_nat j + 2).
  { intros j Hj. destruct (lookup_lt_is_Some_2 I (S j)) as [ip Hip]; [lia|]. exists ip. split; [done | unfold inum_of; lia]. }
  split_and!.
  - apply Hm.
  - unfold header. rewrite load32_zero; [done|]. intros x _. apply (md_log _ _ _ _ Hm). lia.
  - intros j f Hf. destruct (Hin j) as (ip & Ha & <-); [by eapply lookup_lt_Some|].
    assert (Hc : (root_dir files :: map content files) !! S j = Some (content f)).
    { change (map content files !! j = Some (content f)). rewrite list_lookup_fmap, Hf. done. }
    destruct (loaded_fields _ _ _ _ Hm _ ip Ha) as (Ht & Hnl & Hs & _). destruct (md_kind _ _ _ _ Hm _ ip Ha) as [Kt Kn].
    pose proof (md_size _ _ _ _ Hm _ ip _ Ha Hc) as Hsz. change (S j =? 0)%nat with false in *. cbv iota in *.
    assert (Hrd : readable f) by (eapply Forall_lookup_1; [apply (ac_files _ Hac) | done]). pose proof (rd_size _ Hrd) as Hmax.
    assert (Hfi : file_inv (booted (img m) [loaded (img m) (inum_of (S j))]) 0 (loaded (img m) (inum_of (S j)))).
    { apply (loaded_inv _ _ _ _ Hm [_] 0 (S j) ip (content f) Ha Hc eq_refl); rewrite Hsz; [lia|].
      pose proof (Z_div_mod_eq_full (Z.of_nat (length (content f)) + BSIZE - 1) BSIZE).
      pose proof (Z.mod_pos_bound (Z.of_nat (length (content f)) + BSIZE - 1) BSIZE eq_refl). lia. }
    split_and!; [exact Hfi | congruence | congruence|]. change (MAXFILE * BSIZE) with 71680 in Hmax.
    rewrite (readi_ok devsw_read _ 0 (loaded (img m) (inum_of (S j))) 0 _ (fo_inode _ _ _ (fi_ok _ _ _ Hfi)) (fi_type _ _ _ Hfi) (fi_dense _ _ _ Hfi) (fi_size _ _ _ Hfi)) by lia.
    unfold clip. rewrite Hs, Hsz, Z.add_0_l, Z.ltb_irrefl. do 2 f_equal. rewrite <- (char_at_seq (content f)) at 2.
    apply map_ext_in. intros o Ho. apply list_elem_of_In, elem_of_seqZ in Ho.
    apply (loaded_byte _ _ _ _ Hm _ (S j) ip (content f) o Ha Hc). change (MAXFILE * BSIZE) with 71680. lia.
  - intros i j b Hij (k & Hk & Hkb) Hb0 (k' & Hk' & Hkb'). destruct (Hin i) as (ip1 & H1 & E1); [lia|].
    destruct (Hin j) as (ip2 & H2 & E2); [lia|]. rewrite <- E1 in Hkb. rewrite <- E2 in Hkb'.
    rewrite (loaded_fblock _ _ _ _ Hm _ _ ip1) in Hkb by done. rewrite (loaded_fblock _ _ _ _ Hm _ _ ip2) in Hkb' by done.
    destruct (bs_inj _ _ _ _ (md_base _ _ _ _ Hm) _ _ _ _ k k' H1 H2 Hk Hk'); [congruence | congruence | lia].
  - intros inum Hinum. change (i_type (loaded (img m) inum)) with (i_type (on_disk (img m) inum)). apply (md_unused _ _ _ _ Hm). lia.
Qed.

(** The root directory that mkfs builds leads to the files.  When
    the names are distinct in their first 14 characters, dirlookup of a file's
    name in the root inode, after a boot, returns the inode that mkfs gave the
    file, with the offset of its entry; a leading underscore is dropped. *)
Theorem mkfs_lookup (files : list hostfile) (rest : list inode) :
  accepted files -> nameable files -> (Z.of_nat (length files) + 2) mod 32 <> 0 ->
  exists m, main files new_image = Ret m tt /\ let s := booted (img m) (loaded (img m) ROOTINO :: rest) in
    dir_inv s 0 (loaded (img m) ROOTINO) /\
    forall j f, files !! j = Some f -> dirlookup devsw_read 0 (fs_name (hname f)) s =
      (iget ROOTDEV (Z.of_nat j + 2) ≫= fun i => mret (Some (i, DIRENT_SIZE * (Z.of_nat j + 2)))) s.
Proof.
  intros Hac Hnm Hmod. destruct (main_ok files Hac) as (m & I & Hmain & Hm & HI). exists m. split; [done|]. cbv zeta.
  pose proof (root_inv files Hac Hnm _ _ _ Hm HI rest Hmod) as Hdi. split; [exact Hdi|]. intros j f Hf.
  change ROOTINO with 1. set (q := loaded (img m) 1) in *. set (s := booted (img m) (q :: rest)) in *.
  destruct (nb_chars _ Hnm f) as [Hch Hlen]; [by eapply list_elem_of_lookup_2|].
  assert (He : all_entries files !! (2 + j)%nat = Some (2 + Z.of_nat j, fs_name (hname f))) by (by apply named_lookup).
  destruct (root_entry files Hac Hnm _ _ _ Hm HI rest _ _ He) as [Hi Hn]. fold q s in Hi, Hn. cbn [fst snd] in Hi, Hn.
  pose proof (all_entries_length files) as Hal. apply lookup_lt_Some in He as Hlt. pose proof (root_files files Hac) as Hr.
  destruct (dirlookup_spec devsw_read s 0 q Hdi (fs_name (hname f)) Hch Hlen) as [(k & Hk & Hk0 & Hkn & _ & ->)|[Hnone _]].
  - assert (Hkl : k < Z.of_nat (length (all_entries files))).
    { rewrite Hal. destruct (decide (k < Z.of_nat (length files) + 2)); [done|]. destruct Hk0.
      apply (root_empty files Hac _ _ _ Hm HI rest). fold q. lia. }
    destruct (lookup_lt_is_Some_2 (all_entries files) (Z.to_nat k)) as [e Hke]; [lia|].
    destruct (root_entry files Hac Hnm _ _ _ Hm HI rest _ _ Hke) as [_ Hne]. fold q s in Hne. rewrite Z2Nat.id in Hne by lia.
    assert (E : Z.to_nat k = (2 + j)%nat).
    { eapply NoDup_lookup; [apply (nb_distinct _ Hnm) | |]; rewrite list_lookup_fmap; [rewrite Hke | rewrite He]; cbn [fmap option_fmap option_map fst snd]; [|done].
      f_equal. congruence. }
    replace k with (Z.of_nat (2 + j)) by lia. rewrite Hi. replace (2 + Z.of_nat j) with (Z.of_nat j + 2) by lia.
    replace (Z.of_nat (2 + j)) with (Z.of_nat j + 2) by lia. done.
  - exfalso. destruct (root_fields files Hac _ _ _ Hm HI) as (_ & _ & _ & _ & Hsz). fold q in Hsz.
    assert (Hj : 0 <= Z.of_nat (2 + j) < nent q).
    { pose proof (nent_size _ _ _ (di_dir _ _ _ Hdi)) as Hs. unfold DIRENT_SIZE in Hs. rewrite Hsz in Hs.
      pose proof (Z_div_mod_eq_full (Z.of_nat (length files) + 2) 32). pose proof (Z.mod_pos_bound (Z.of_nat (length files) + 2) 32 eq_refl). lia. }
    destruct (Hnone (Z.of_nat (2 + j)) Hj) as [H|H]; [rewrite Hi in H; clear -H; lia | exact (H Hn)].
Qed.

Lemma find_free_some x b n : 0 <= b < Z.of_nat n -> bit_used x b = false -> exists bi, find_free n 0 x = Some bi.
Proof.
  intros Hb Hu. pose proof (find_free_spec n 0 x) as H. destruct find_free as [bi|]; [by exists bi|].
  rewrite H in Hu by lia. done.
Qed.

(** balloc outside of a transaction, when there is a free block. *)
Lemma balloc_no_trans d l b : 0 <= b < FSSIZE -> used (mnt d) b = false -> Fs.balloc (booted d l) = Panic "log_write outside of trans".
Proof.
  intros Hb Hu. unfold Fs.balloc. cbn [booted sb]. change (Z.to_nat ((sb_size mkfs_sb + BPB - 1) / BPB)) with 1%nat.
  cbn [balloc_loop]. unfold get, bread_, blk_read, mbind, M_bind. cbn [booted fl dv restart view sb].
  change (BBLOCK 0 mkfs_sb) with 58. change (Z.min BPB (sb_size mkfs_sb - 0)) with 1000.
  assert (E : used (mnt d) b = bit_used (d 58) b).
  { unfold FSSIZE in Hb. unfold used, BBLOCK. rewrite Z.div_small, Z.mod_small by (change BPB with 4096; lia). done. }
  destruct (find_free_some (d 58) b (Z.to_nat 1000)) as [bi ->]; [unfold FSSIZE in Hb; lia | congruence | done].
Qed.

(** The size that mkfs gives the root directory can end in a hole.
    When the entries fill the last block exactly (30 files, for instance), the
    size is rounded up to a block that is not allocated, and a read of the
    directory there outside of a transaction, as in fileread, makes readi
    allocate it and stops the kernel with a panic. *)
Theorem mkfs_root_hole (files : list hostfile) (rest : list inode) :
  accepted files -> (Z.of_nat (length files) + 2) mod 32 = 0 ->
  nmeta + blocks (root_dir files :: map content files) < FSSIZE ->
  exists m, main files new_image = Ret m tt /\ let q := loaded (img m) ROOTINO in let off := 16 * (Z.of_nat (length files) + 2) in
    off + BSIZE = i_size q /\ readi devsw_read 0 off DIRENT_SIZE (booted (img m) (q :: rest)) = Panic "log_write outside of trans".
Proof.
  intros Hac Hmod Hfree. destruct (main_ok files Hac) as (m & I & Hmain & Hm & HI). exists m. split; [done|]. cbv zeta.
  pose proof (root_files files Hac) as Hr. destruct (root_fields files Hac _ _ _ Hm HI) as (ip & Ha & Had & Hty & Hsz). change ROOTINO with 1.
  set (q := loaded (img m) 1) in *. set (n := Z.of_nat (length files) + 2) in *. pose proof (Z_div_mod_eq_full n 32) as Hn.
  split; [rewrite Hsz; unfold BSIZE; lia|]. unfold readi. rewrite (with_inode_eq 0 q) by done. rewrite Hty. cbn [Z.eqb T_DIR T_DEV Pos.eqb].
  unfold DIRENT_SIZE. rewrite u32_small, Hsz by (unfold is_u32; lia).
  destruct (Z.ltb_spec ((n / 32 + 1) * 512) (16 * n)); [lia|]. destruct (Z.ltb_spec (16 * n + 16) (16 * n)); [lia|].
  destruct (Z.ltb_spec ((n / 32 + 1) * 512) (16 * n + 16)); [lia|]. cbn [orb]. change (Z.to_nat 16) with (S 15). generalize 15%nat. intros fuel. cbn [readi_loop]. change (0 <? 16) with true. cbv iota.
  assert (Hq : 16 * n / BSIZE = n / 32) by (symmetry; apply (Z.div_unique _ _ _ 0); unfold BSIZE; lia).
  rewrite Hq. unfold bmap. unfold mbind at 1 2, M_bind at 1 2. rewrite (with_inode_eq 0 q) by done. unfold NDIRECT.
  destruct (Z.ltb_spec (n / 32) 12); [|lia].
  assert (Hz : addr_of q (n / 32) = 0).
  { assert (Hs : is_slot (n / 32)) by (unfold is_slot; change MAXFILE with 140; lia).
    pose proof (md_filled _ _ _ _ Hm 0 ip _ Ha eq_refl _ Hs) as Hf. unfold needs in Hf. rewrite root_dir_length in Hf. fold n in Hf.
    unfold fblock, NDIRECT, BSIZE in Hf. destruct (Z.ltb_spec (n / 32) 0); [lia|]. destruct (Z.ltb_spec (n / 32) 12); [|lia].
    unfold addr_of in *. rewrite Had. lia. }
  rewrite Hz. cbn [Z.eqb]. unfold mbind, M_bind.
  rewrite (balloc_no_trans (img m) (q :: rest) (freeblock m)); [done | |].
  - pose proof (bs_fb _ _ _ _ (md_base _ _ _ _ Hm)). rewrite (md_count _ _ _ _ Hm) in *. rewrite nmeta_val in *. lia.
  - rewrite (md_used _ _ _ _ Hm); [apply Z.ltb_irrefl|]. pose proof (bs_fb _ _ _ _ (md_base _ _ _ _ Hm)).
    rewrite (md_count _ _ _ _ Hm) in *. rewrite nmeta_val in *. lia.
Qed.

End theorems.

(** ** Witnesses *)

(** The files _cat, of 600 bytes, and README, of two reads. *)
Definition sample_files : list hostfile :=
  [mk_hostfile [95; 99; 97; 116] (Some [replicate 512 7; replicate 88 9]);
   mk_hostfile [82; 69; 65; 68; 77; 69] (Some [[120; 118; 54]; [10]])].

Lemma sample_accepted : accepted sample_files.
Proof.
  split; [|done | vm_compute; discriminate]. repeat constructor; try done.
  - exists [replicate 512 7; replicate 88 9]. split; [done | by repeat constructor].
  - exists [[120; 118; 54]; [10]]. split; [done | by repeat constructor].
Qed.

Lemma sample_nameable : nameable sample_files.
Proof.
  split.
  - intros f [-> | [-> | H%elem_of_nil]%elem_of_cons]%elem_of_cons; [| |done]; (split; [repeat constructor | cbn; lia]).
  - apply (bool_decide_eq_true_1 _). vm_compute. reflexivity.
Qed.

Lemma mkfs_files_witness :
  exists m, main sample_files new_image = Ret m tt /\
    readi no_read 0 0 4 (booted (img m) [loaded (img m) 3]) = Ret (booted (img m) [loaded (img m) 3]) (4, [120; 118; 54; 10]).
Proof.
  destruct (mkfs_files no_read sample_files sample_accepted) as (m & H & _ & _ & Hf & _). exists m. split; [exact H|].
  destruct (Hf 1%nat _ eq_refl) as (_ & _ & _ & Hr). exact Hr.
Defined.

Lemma mkfs_lookup_witness :
  exists m, main sample_files new_image = Ret m tt /\ let s := booted (img m) [loaded (img m) ROOTINO] in
    dirlookup no_read 0 [99; 97; 116] s = (iget ROOTDEV 2 ≫= fun i => mret (Some (i, DIRENT_SIZE * 2))) s.
Proof.
  destruct (mkfs_lookup no_read sample_files [] sample_accepted sample_nameable ltac:(done)) as (m & H & _ & Hl).
  exists m. split; [exact H|]. exact (Hl 0%nat _ eq_refl).
Defined.

(** 30 empty files. *)
Definition thirty_files : list hostfile := replicate 30 (mk_hostfile [97] (Some [])).

Lemma thirty_accepted : accepted thirty_files.
Proof.
  split; [|done | vm_compute; discriminate]. apply Forall_replicate. split; [done | by exists [] | vm_compute; discriminate].
Qed.

Lemma mkfs_root_hole_witness :
  exists m, main thirty_files new_image = Ret m tt /\
    readi no_read 0 512 DIRENT_SIZE (booted (img m) [loaded (img m) ROOTINO]) = Panic "log_write outside of trans".
Proof.
  destruct (mkfs_root_hole no_read thirty_files [] thirty_accepted ltac:(done) ltac:(vm_compute; reflexivity)) as (m & H & _ & Hr).
  exists m. split; [exact H | exact Hr].
Defined.
