(* ===== verification/Mp.v ===== *)
(** Processor discovery (mp.c, mp.h): the search for the MP configuration table
    that the BIOS leaves in memory, and its interpretation.

    Pointers are kernel virtual addresses in the memory [m].  The loop of mpinit
    over the table entries takes fuel: one unit per round. *)

From S2P Require Import Prelude Word Mem Fs.

Local Open Scope Z_scope.

(** ** The tables (mp.h) *)

(** sizeof(struct mp), sizeof(struct mpconf), and the offsets of their fields *)
Definition MP_SIZE : Z := 16.
Definition mp_physaddr (m : mem) (mp : Z) : Z := load32 m (mp + 4).
Definition mp_imcrp (m : mem) (mp : Z) : Z := m (mp + 12).

Definition MPCONF_SIZE : Z := 44.
Definition conf_length (m : mem) (conf : Z) : Z := load16 m (conf + 4).
Definition conf_version (m : mem) (conf : Z) : Z := m (conf + 6).
Definition conf_lapicaddr (m : mem) (conf : Z) : Z := load32 m (conf + 36).

Definition MPPROC_SIZE : Z := 20.
Definition proc_apicid (m : mem) (p : Z) : Z := m (p + 1).
Definition MPIOAPIC_SIZE : Z := 8.
Definition ioapic_apicno (m : mem) (p : Z) : Z := m (p + 1).

Definition MPPROC : Z := 0.
Definition MPBUS : Z := 1.
Definition MPIOAPIC : Z := 2.
Definition MPIOINTR : Z := 3.
Definition MPLINTR : Z := 4.

(** ** The search *)

Fixpoint sum_loop (n : nat) (m : mem) (addr acc : Z) : Z :=
  match n with O => acc | S n => sum_loop n m (addr + 1) (acc + m addr) end.

Definition sum (m : mem) (addr len : Z) : Z := u8 (sum_loop (Z.to_nat len) m addr 0).

(** memcmp(p, s, 4) == 0, for a string constant s *)
Fixpoint same_bytes (m : mem) (p : Z) (s : list Z) : bool :=
  match s with [] => true | c :: s => (m p =? c) && same_bytes m (p + 1) s end.

Definition sig_mp : list Z := [95; 77; 80; 95].
Definition sig_pcmp : list Z := [80; 67; 77; 80].

Definition mp_at (m : mem) (p : Z) : bool := same_bytes m p sig_mp && (sum m p MP_SIZE =? 0).

(** The loop of mpsearch1 over [n] candidates from [p]. *)
Fixpoint mpsearch1_loop (n : nat) (m : mem) (p : Z) : option Z :=
  match n with
  | O => None
  | S n => if mp_at m p then Some p else mpsearch1_loop n m (p + MP_SIZE)
  end.

(** The candidates are addr, addr + 16, ... below addr + len. *)
Definition mpsearch1 (m : mem) (a len : Z) : option Z :=
  mpsearch1_loop (Z.to_nat ((len + MP_SIZE - 1) / MP_SIZE)) m (P2V a).

Definition bda : Z := P2V 0x400.

Definition mpsearch (m : mem) : option Z :=
  let p := Z.shiftl (Z.lor (Z.shiftl (m (bda + 0x0F)) 8) (m (bda + 0x0E))) 4 in
  match (if negb (p =? 0) then mpsearch1 m p 1024
         else
           let p := Z.lor (Z.shiftl (m (bda + 0x14)) 8) (m (bda + 0x13)) * 1024 in
           mpsearch1 m (u32 (p - 1024)) 1024) with
  | Some mp => Some mp
  | None => mpsearch1 m 0xF0000 0x10000
  end.

(** The configuration table, and *pmp. *)
Definition mpconfig (m : mem) : option (Z * Z) :=
  match mpsearch m with
  | None => None
  | Some mp =>
      if mp_physaddr m mp =? 0 then None
      else
        let conf := P2V (mp_physaddr m mp) in
        if negb (same_bytes m conf sig_pcmp) then None
        else if negb (conf_version m conf =? 1) && negb (conf_version m conf =? 4) then None
        else if negb (sum m conf (conf_length m conf) =? 0) then None
        else Some (conf, mp)
  end.

(** ** mpinit *)

(** The globals: cpus[i].apicid, ncpu, ioapicid, and the local ismp. *)
Record mpstate := mk_mpstate {
  apicids : list Z;
  ncpu : Z;
  ioapicid : Z;
  ismp : bool;
}.

(** One entry of the table at [p]: the new state, and p after the switch. *)
Definition mp_entry (m : mem) (p : Z) (s : mpstate) : mpstate * Z :=
  if m p =? MPPROC then
    (if ncpu s <? NCPU then
       mk_mpstate (<[Z.to_nat (ncpu s) := proc_apicid m p]> (apicids s)) (ncpu s + 1) (ioapicid s) (ismp s)
     else s, p + MPPROC_SIZE)
  else if m p =? MPIOAPIC then (mk_mpstate (apicids s) (ncpu s) (ioapic_apicno m p) (ismp s), p + MPIOAPIC_SIZE)
  else if (m p =? MPBUS) || (m p =? MPIOINTR) || (m p =? MPLINTR) then (s, p + 8)
  else (mk_mpstate (apicids s) (ncpu s) (ioapicid s) false, p).

(** The loop; [None] when the fuel runs out. *)
Fixpoint mp_loop (fuel : nat) (m : mem) (p e : Z) (s : mpstate) : option mpstate :=
  if p <? e then
    match fuel with
    | O => None
    | S fuel => let (s, p) := mp_entry m p s in mp_loop fuel m p e s
    end
  else Some s.

(** What mpinit does to the machine: its variables, lapic, and the writes to
    ports; [port] is the answer of inb(0x23). *)
Record mpresult := mk_mpresult { mp_vars : mpstate; mp_lapic : Z; mp_out : list (Z * Z) }.

Inductive mpoutcome :=
| MpOk (r : mpresult)
| MpPanic (msg : string)
| MpLoops.

Definition mpinit (fuel : nat) (port : Z) (m : mem) (s : mpstate) : mpoutcome :=
  match mpconfig m with
  | None => MpPanic "Expect to run on an SMP"
  | Some (conf, mp) =>
      let s := mk_mpstate (apicids s) (ncpu s) (ioapicid s) true in
      match mp_loop fuel m (conf + MPCONF_SIZE) (conf + conf_length m conf) s with
      | None => MpLoops
      | Some s =>
          if negb (ismp s) then MpPanic "Didn't find a suitable machine"
          else MpOk (mk_mpresult s (conf_lapicaddr m conf)
                       (if mp_imcrp m mp =? 0 then [] else [(0x22, 0x70); (0x23, Z.lor port 1)]))
      end
  end.

(** ** The search finds the first valid structure *)

Lemma mpsearch1_loop_spec n m p :
  match mpsearch1_loop n m p with
  | Some q => exists k, 0 <= k < Z.of_nat n /\ q = p + MP_SIZE * k /\ mp_at m q = true /\
                forall j, 0 <= j < k -> mp_at m (p + MP_SIZE * j) = false
  | None => forall j, 0 <= j < Z.of_nat n -> mp_at m (p + MP_SIZE * j) = false
  end.
Proof.
  revert p. induction n as [|n IH]; intros p; cbn [mpsearch1_loop]; [lia|].
  destruct (mp_at m p) eqn:E.
  - exists 0. rewrite Z.mul_0_r, Z.add_0_r. split_and!; [lia | lia | done | done | lia].
  - specialize (IH (p + MP_SIZE)).
    assert (Hj : forall j, 0 < j -> p + MP_SIZE * j = p + MP_SIZE + MP_SIZE * (j - 1)) by (unfold MP_SIZE; lia).
    assert (H0 : forall j, 0 <= j -> j <= 0 -> mp_at m (p + MP_SIZE * j) = false)
      by (intros j H1 H2; replace j with 0 by lia; by rewrite Z.mul_0_r, Z.add_0_r).
    destruct mpsearch1_loop as [q|].
    + destruct IH as (k & Hk & Hq & Hat & Hf). exists (k + 1). split_and!; [lia | lia | unfold MP_SIZE in *; lia | done|].
      intros j H. destruct (decide (j <= 0)); [apply H0; lia|]. rewrite Hj by lia. apply Hf. lia.
    + intros j H. destruct (decide (j <= 0)); [apply H0; lia|]. rewrite Hj by lia. apply IH. lia.
Qed.

(** ** The entries of the table *)

Inductive entry :=
| EProc (apicid : Z)
| EIoapic (apicno : Z)
| EOther (type : Z).

Definition entry_size (e : entry) : Z := match e with EProc _ => 20 | EIoapic _ => 8 | EOther _ => 8 end.

Definition entry_at (m : mem) (p : Z) (e : entry) : Prop :=
  match e with
  | EProc a => m p = MPPROC /\ m (p + 1) = a
  | EIoapic a => m p = MPIOAPIC /\ m (p + 1) = a
  | EOther t => m p = t /\ (t = MPBUS \/ t = MPIOINTR \/ t = MPLINTR)
  end.

(** The entries [l] fill the table from [p] to its end [e]. *)
Fixpoint table (m : mem) (p e : Z) (l : list entry) : Prop :=
  match l with
  | [] => e <= p
  | x :: l => p < e /\ entry_at m p x /\ table m (p + entry_size x) e l
  end.

Definition procs (l : list entry) : list Z := omap (fun x => match x with EProc a => Some a | _ => None end) l.

Fixpoint last_ioapic (l : list entry) (d : Z) : Z :=
  match l with [] => d | EIoapic a :: l => last_ioapic l a | _ :: l => last_ioapic l d end.

(** The entries [l] stand from [p] on, and the table goes on at [q]. *)
Fixpoint leads (m : mem) (p e : Z) (l : list entry) (q : Z) : Prop :=
  match l with
  | [] => p = q
  | x :: l => p < e /\ entry_at m p x /\ leads m (p + entry_size x) e l q
  end.

Lemma table_leads m p e l : table m p e l <-> exists q, leads m p e l q /\ e <= q.
Proof.
  revert p. induction l as [|x l IH]; intros p; cbn [table leads].
  - split; [intros H; by exists p | by intros (q & -> & H)].
  - rewrite IH. split; [intros (H1 & H2 & q & H3 & H4); by exists q | intros (q & (H1 & H2 & H3) & H4); split_and!; [done | done | by exists q]].
Qed.

(** What the entries [l] make of the variables. *)
Definition after (l : list entry) (s s' : mpstate) : Prop :=
  ncpu s' = Z.min (ncpu s + Z.of_nat (length (procs l))) NCPU /\
  take (Z.to_nat (ncpu s')) (apicids s') = take 8 (take (Z.to_nat (ncpu s)) (apicids s) ++ procs l) /\
  length (apicids s') = 8%nat /\ ioapicid s' = last_ioapic l (ioapicid s) /\ ismp s' = ismp s.

Lemma mp_entry_ok m p s x :
  entry_at m p x -> 0 <= ncpu s <= NCPU -> length (apicids s) = 8%nat ->
  exists s', mp_entry m p s = (s', p + entry_size x) /\ after [x] s s'.
Proof.
  unfold NCPU. intros Hx Hn Hl. unfold mp_entry. destruct x as [a|a|t]; cbn in Hx; destruct Hx as [Ht Ha].
  - rewrite Ht. cbn [Z.eqb MPPROC]. eexists. split; [done|]. unfold after, proc_apicid, NCPU. rewrite Ha. cbn [procs omap length last_ioapic].
    change (procs [EProc a]) with [a]. destruct (Z.ltb_spec (ncpu s) 8); cbn [apicids ncpu ioapicid ismp].
    + split_and!; try done; [cbn; lia | | by rewrite length_insert].
      replace (Z.to_nat (ncpu s + 1)) with (S (Z.to_nat (ncpu s))) by lia.
      rewrite (take_S_r _ _ a) by (apply list_lookup_insert_eq; lia). rewrite take_insert, decide_False by lia.
      rewrite (take_ge _ 8) by (rewrite length_app, length_take; cbn; lia). done.
    + split_and!; try done; [cbn; lia|]. replace (Z.to_nat (ncpu s)) with 8%nat by lia.
      rewrite take_app_le by (rewrite length_take; lia). by rewrite take_take.
  - rewrite Ht. cbn [Z.eqb MPPROC MPIOAPIC]. eexists. split; [done|]. unfold after, ioapic_apicno, NCPU. rewrite Ha.
    change (procs [EIoapic a]) with (@nil Z). cbn [apicids ncpu ioapicid ismp last_ioapic length].
    rewrite app_nil_r, take_take, Nat.min_r by lia. split_and!; done || lia.
  - exists s. unfold after, NCPU. change (procs [EOther t]) with (@nil Z). cbn [length last_ioapic].
    rewrite app_nil_r, take_take, Nat.min_r by lia. split; [|split_and!; done || lia].
    rewrite Ht. by destruct Ha as [-> | [-> | ->]].
Qed.

Lemma procs_cons x l : procs (x :: l) = procs [x] ++ procs l.
Proof. by destruct x. Qed.

Lemma last_ioapic_app l l' d : last_ioapic (l ++ l') d = last_ioapic l' (last_ioapic l d).
Proof. revert d. induction l as [|[a|a|t] l IH]; intros d; cbn [app last_ioapic]; done || apply IH. Qed.

Lemma after_cons x l s1 s2 s3 : 0 <= ncpu s1 <= NCPU -> after [x] s1 s2 -> after l s2 s3 -> after (x :: l) s1 s3.
Proof.
  unfold NCPU. intros Hn (A1 & A2 & A3 & A4 & A5) (B1 & B2 & B3 & B4 & B5). unfold after, NCPU in *. rewrite procs_cons, length_app.
  split_and!; [lia | | done | | congruence].
  - rewrite B2, A2, app_assoc. apply list_eq. intros i. rewrite !(lookup_take _ i). case_decide as Hi; [|done].
    set (u := take _ (apicids s1) ++ procs [x]). destruct (decide (i < length u)%nat) as [Hu|Hu].
    + rewrite !lookup_app_l by (rewrite ?length_take; lia). by rewrite lookup_take, decide_True by done.
    + by rewrite take_ge by lia.
  - rewrite B4, A4. change (x :: l) with ([x] ++ l). by rewrite last_ioapic_app.
Qed.

Lemma mp_loop_leads l fuel m p e q s :
  leads m p e l q -> 0 <= ncpu s <= NCPU -> length (apicids s) = 8%nat ->
  exists s', mp_loop (length l + fuel) m p e s = mp_loop fuel m q e s' /\ after l s s'.
Proof.
  revert p s. induction l as [|x l IH]; intros p s; cbn [leads length Nat.add].
  - intros -> Hn Hl. exists s. split; [done|]. unfold after. change (procs []) with (@nil Z). unfold NCPU in *.
    rewrite app_nil_r, take_take, Nat.min_r by lia. split_and!; done || (cbn; lia).
  - intros (Hp & Hx & Hr) Hn Hl. destruct (mp_entry_ok m p s x Hx Hn Hl) as (s1 & E & A). cbn [mp_loop].
    destruct (Z.ltb_spec p e); [|lia]. rewrite E. assert (A' := A). destruct A' as (A1 & _ & A3 & _). unfold NCPU in *.
    destruct (IH _ s1 Hr) as (s' & E' & A''); [lia | done|]. exists s'. split; [done|]. by eapply after_cons.
Qed.

(** Mpinit on a table of known entries returns; it has recorded
    the APIC ids of the first eight processors of the table, in its order, in
    cpus[] and never writes past its end; ioapicid is the last I/O APIC's; as
    many rounds as the table has entries are enough. *)
Theorem mpinit_spec (m : mem) (port conf mp id0 : Z) (c0 : list Z) (l : list entry) (fuel : nat) :
  mpconfig m = Some (conf, mp) -> table m (conf + MPCONF_SIZE) (conf + conf_length m conf) l ->
  length c0 = 8%nat -> (length l <= fuel)%nat ->
  exists r, mpinit fuel port m (mk_mpstate c0 0 id0 false) = MpOk r /\
    ncpu (mp_vars r) = Z.min (Z.of_nat (length (procs l))) NCPU /\
    take (Z.to_nat (ncpu (mp_vars r))) (apicids (mp_vars r)) = take 8 (procs l) /\
    length (apicids (mp_vars r)) = 8%nat /\ ioapicid (mp_vars r) = last_ioapic l id0 /\
    mp_lapic r = conf_lapicaddr m conf.
Proof.
  intros Hc Ht Hl Hf. unfold mpinit. rewrite Hc. cbn [apicids ncpu ioapicid ismp].
  apply table_leads in Ht as (q & Hq & He). replace fuel with (length l + (fuel - length l))%nat by lia.
  destruct (mp_loop_leads l (fuel - length l) m _ _ q (mk_mpstate c0 0 id0 true) Hq) as (s' & E & A1 & A2 & A3 & A4 & A5);
    [cbn; unfold NCPU; lia | done|].
  rewrite E. unfold mp_loop. destruct (fuel - length l)%nat; destruct (Z.ltb_spec q (conf + conf_length m conf)); try lia.
  all: cbn [ismp] in A5; rewrite A5; eexists; split; [done|]; cbn [mp_vars mp_lapic]; done.
Qed.

(** C40 (termination): an entry of a type that mp.h does not name makes mpinit loop
    forever: the break of the default case leaves the switch only, and the
    panic for such a machine is never reached. *)
Theorem mpinit_unknown_entry (m : mem) (port conf mp q : Z) (s : mpstate) (l : list entry) (fuel : nat) :
  mpconfig m = Some (conf, mp) -> leads m (conf + MPCONF_SIZE) (conf + conf_length m conf) l q ->
  q < conf + conf_length m conf -> MPLINTR < m q -> 0 <= ncpu s <= NCPU -> length (apicids s) = 8%nat ->
  mpinit fuel port m s = MpLoops.
Proof.
  intros Hc Hl Hq Hm Hn Hlen. unfold mpinit. rewrite Hc. set (s0 := mk_mpstate _ _ _ true).
  assert (Hspin : forall f s', mp_loop f m q (conf + conf_length m conf) s' = None).
  { induction f as [|f IH]; intros s'; cbn [mp_loop]; destruct (Z.ltb_spec q (conf + conf_length m conf)); try lia; [done|].
    unfold mp_entry, MPPROC, MPIOAPIC, MPBUS, MPIOINTR, MPLINTR in *. destruct (Z.eqb_spec (m q) 0), (Z.eqb_spec (m q) 2), (Z.eqb_spec (m q) 1), (Z.eqb_spec (m q) 3), (Z.eqb_spec (m q) 4); try lia.
    apply IH. }
  assert (Hmono : forall f1 f2 p s1, (f1 <= f2)%nat ->
    mp_loop f2 m p (conf + conf_length m conf) s1 = None -> mp_loop f1 m p (conf + conf_length m conf) s1 = None).
  { induction f1 as [|f1 IH]; intros f2 p s1 Hle; destruct f2 as [|f2]; try lia; cbn [mp_loop]; destruct (p <? _); try done.
    destruct (mp_entry m p s1) as [s2 p2]. apply IH. lia. }
  destruct (mp_loop_leads l fuel m _ _ q s0 Hl) as (s' & E & _); [done | done|]. rewrite Hspin in E.
  rewrite (Hmono fuel (length l + fuel)%nat); [done | lia | done].
Qed.

(** ** Witnesses *)

(** A floating pointer at 0xF0000, and a table at 0x1000 with two processors, an
    I/O APIC, and one more entry of the given type. *)
Definition bytes_from (a : Z) (l : list Z) (m : mem) : mem := fun x =>
  if (a <=? x) && (x <? a + Z.of_nat (length l)) then nth (Z.to_nat (x - a)) l 0 else m x.

Definition sample_table (type csum : Z) : mem :=
  bytes_from (P2V 0xF0000) (sig_mp ++ [0; 0x10; 0; 0; 1; 4; 144; 0; 0; 0; 0; 0])
    (bytes_from (P2V 0x1000)
       (sig_pcmp ++ [100; 0; 4; csum] ++ replicate 28 0 ++ [0; 0; 0xe0; 0xfe; 0; 0; 0; 0] ++
        ([0; 3] ++ replicate 18 0) ++ ([0; 5] ++ replicate 18 0) ++ [2; 9; 0; 0; 0; 0; 0; 0] ++ [type; 0; 0; 0; 0; 0; 0; 0])
       (fun _ => 0)).

Lemma mpinit_spec_witness :
  exists r, mpinit 4 0 (sample_table 1 118) (mk_mpstate (replicate 8 0) 0 0 false) = MpOk r /\ ncpu (mp_vars r) = 2 /\
    ioapicid (mp_vars r) = 9.
Proof.
  destruct (mpinit_spec (sample_table 1 118) 0 (P2V 0x1000) (P2V 0xF0000) 0 (replicate 8 0)
              [EProc 3; EProc 5; EIoapic 9; EOther 1] 4) as (r & H1 & H2 & _ & _ & H3 & _).
  - vm_compute. reflexivity.
  - vm_compute. intuition discriminate.
  - reflexivity.
  - cbn. lia.
  - exists r. exact (conj H1 (conj H2 H3)).
Defined.

Lemma mpinit_unknown_entry_witness :
  mpinit 1000 0 (sample_table 7 112) (mk_mpstate (replicate 8 0) 0 0 false) = MpLoops.
Proof.
  apply (mpinit_unknown_entry (sample_table 7 112) 0 (P2V 0x1000) (P2V 0xF0000) (P2V 0x1000 + 92) _ [EProc 3; EProc 5; EIoapic 9]).
  - vm_compute. reflexivity.
  - vm_compute. intuition discriminate.
  - vm_compute. reflexivity.
  - vm_compute. reflexivity.
  - unfold NCPU. cbn. lia.
  - reflexivity.
Defined.
