(* ===== verification/Vm.v ===== *)
(** Page tables and user address spaces (vm.c).

    Page directories and page tables live in the memory of the page allocator
    (Kalloc.v), as words: [walkpgdir] returns the address of a PTE in that
    memory.  [pte_at] reads the PTE of a virtual address, and the theorems
    state what the operations do to that map.  The invariant [pt_ok] says that
    a directory and its tables are distinct pages outside the free list. *)

From S2P Require Import Prelude Word Mem Spinlock Block Fs Kalloc.

Local Open Scope Z_scope.

Definition NPDENTRIES : Z := 1024.

Section vm.
(** [end] and [data] of the kernel image, from the linker script. *)
Context (end_ data : Z).

Definition load (a : Z) : M kmem Z := fun s => Ret s (load32 (km_mem s) a).
Definition set_mem (f : mem -> mem) : M kmem unit :=
  modify (fun s => mk_kmem (km_lock s) (use_lock s) (freelist s) (f (km_mem s))).
Definition store (a v : Z) : M kmem unit := set_mem (fun m => store32 m a v).

Definition has (x f : Z) : bool := negb (Z.land x f =? 0).

(** The address of the PTE, or 0. *)
Definition walkpgdir (pgdir va : Z) (alloc : bool) : M kmem Z :=
  let pde := pgdir + 4 * PDX va in
  load pde ≫= fun e =>
  if has e PTE_P then mret (P2V (PTE_ADDR e) + 4 * PTX va)
  else if negb alloc then mret 0
  else
    kalloc ≫= fun pgtab =>
    if pgtab =? 0 then mret 0
    else
      set_mem (fun m => memset m pgtab 0 PGSIZE) ≫= fun _ =>
      store pde (Z.lor (Z.lor (Z.lor (V2P pgtab) PTE_P) PTE_W) PTE_U) ≫= fun _ =>
      mret (pgtab + 4 * PTX va).

(** The loop of mappages; it stops at [last], so the number of pages is
    enough fuel. *)
Fixpoint mappages_loop (n : nat) (pgdir a last pa perm : Z) : M kmem Z :=
  match n with
  | O => panic "fuel"
  | S n =>
      walkpgdir pgdir a true ≫= fun pte =>
      if pte =? 0 then mret (-1)
      else
        load pte ≫= fun e =>
        if has e PTE_P then panic "remap"
        else
          store pte (Z.lor (Z.lor pa perm) PTE_P) ≫= fun _ =>
          if a =? last then mret 0
          else mappages_loop n pgdir (u32 (a + PGSIZE)) last (u32 (pa + PGSIZE)) perm
  end.

Definition mappages (pgdir va size pa perm : Z) : M kmem Z :=
  let a := PGROUNDDOWN va in
  let last := PGROUNDDOWN (va + size - 1) in
  mappages_loop (S (Z.to_nat ((last - a) / PGSIZE))) pgdir a last pa perm.

(** The loop of deallocuvm; a round moves on by at least a page. *)
Fixpoint deallocuvm_loop (n : nat) (pgdir a oldsz : Z) : M kmem unit :=
  if a <? oldsz then
    match n with
    | O => panic "fuel"
    | S n =>
        walkpgdir pgdir a false ≫= fun pte =>
        if pte =? 0 then
          deallocuvm_loop n pgdir (u32 (u32 (PGADDR (PDX a + 1) 0 0 - PGSIZE) + PGSIZE)) oldsz
        else
          load pte ≫= fun e =>
          (if has e PTE_P then
             let pa := PTE_ADDR e in
             if pa =? 0 then panic "kfree"
             else kfree end_ (P2V pa) ≫= fun _ => store pte 0
           else mret tt) ≫= fun _ =>
          deallocuvm_loop n pgdir (u32 (a + PGSIZE)) oldsz
    end
  else mret tt.

Definition deallocuvm (pgdir oldsz newsz : Z) : M kmem Z :=
  if oldsz <=? newsz then mret oldsz
  else
    let a := PGROUNDUP newsz in
    deallocuvm_loop (S (Z.to_nat ((oldsz - a) / PGSIZE))) pgdir a oldsz ≫= fun _ => mret newsz.

(** The loop of freevm over the directory. *)
Fixpoint free_tables (n : nat) (i pgdir : Z) : M kmem unit :=
  match n with
  | O => mret tt
  | S n =>
      load (pgdir + 4 * i) ≫= fun e =>
      (if has e PTE_P then kfree end_ (P2V (PTE_ADDR e)) else mret tt) ≫= fun _ =>
      free_tables n (i + 1) pgdir
  end.

Definition freevm (pgdir : Z) : M kmem unit :=
  if pgdir =? 0 then panic "freevm: no pgdir"
  else
    deallocuvm pgdir KERNBASE 0 ≫= fun _ =>
    free_tables (Z.to_nat NPDENTRIES) 0 pgdir ≫= fun _ =>
    kfree end_ pgdir.

(** struct kmap and its table. *)
Record kmap_entry := mk_kmap { virt : Z; phys_start : Z; phys_end : Z; kperm : Z }.

Definition kmap : list kmap_entry :=
  [mk_kmap KERNBASE 0 EXTMEM PTE_W;
   mk_kmap KERNLINK (V2P KERNLINK) (V2P data) 0;
   mk_kmap data (V2P data) PHYSTOP PTE_W;
   mk_kmap DEVSPACE DEVSPACE 0 PTE_W].

Fixpoint map_all (l : list kmap_entry) (pgdir : Z) : M kmem Z :=
  match l with
  | [] => mret pgdir
  | k :: l =>
      mappages pgdir (virt k) (u32 (phys_end k - phys_start k)) (phys_start k) (kperm k) ≫= fun r =>
      if r <? 0 then freevm pgdir ≫= fun _ => mret 0 else map_all l pgdir
  end.

Definition setupkvm : M kmem Z :=
  kalloc ≫= fun pgdir =>
  if pgdir =? 0 then mret 0
  else
    set_mem (fun m => memset m pgdir 0 PGSIZE) ≫= fun _ =>
    if DEVSPACE <? P2V PHYSTOP then panic "PHYSTOP too high"
    else map_all kmap pgdir.

(** [init] is the program text. *)
Definition inituvm (pgdir : Z) (init : list Z) : M kmem unit :=
  if PGSIZE <=? Z.of_nat (length init) then panic "inituvm: more than a page"
  else
    kalloc ≫= fun m =>
    set_mem (fun x => memset x m 0 PGSIZE) ≫= fun _ =>
    mappages pgdir 0 PGSIZE (V2P m) (Z.lor PTE_W PTE_U) ≫= fun _ =>
    set_mem (fun x => blit x m init).

Fixpoint allocuvm_loop (n : nat) (pgdir oldsz newsz a : Z) : M kmem Z :=
  if a <? newsz then
    match n with
    | O => panic "fuel"
    | S n =>
        kalloc ≫= fun m =>
        if m =? 0 then deallocuvm pgdir newsz oldsz ≫= fun _ => mret 0
        else
          set_mem (fun x => memset x m 0 PGSIZE) ≫= fun _ =>
          mappages pgdir a PGSIZE (V2P m) (Z.lor PTE_W PTE_U) ≫= fun r =>
          if r <? 0 then
            deallocuvm pgdir newsz oldsz ≫= fun _ => kfree end_ m ≫= fun _ => mret 0
          else allocuvm_loop n pgdir oldsz newsz (u32 (a + PGSIZE))
    end
  else mret newsz.

Definition allocuvm (pgdir oldsz newsz : Z) : M kmem Z :=
  if KERNBASE <=? newsz then mret 0
  else if newsz <? oldsz then mret oldsz
  else
    let a := PGROUNDUP oldsz in
    allocuvm_loop (S (Z.to_nat ((newsz - a) / PGSIZE))) pgdir oldsz newsz a.

Definition clearpteu (pgdir uva : Z) : M kmem unit :=
  walkpgdir pgdir uva false ≫= fun pte =>
  if pte =? 0 then panic "clearpteu"
  else load pte ≫= fun e => store pte (Z.land e (u32 (Z.lnot PTE_U))).

Fixpoint copyuvm_loop (n : nat) (pgdir d sz i : Z) : M kmem Z :=
  if i <? sz then
    match n with
    | O => panic "fuel"
    | S n =>
        walkpgdir pgdir i false ≫= fun pte =>
        if pte =? 0 then panic "copyuvm: pte should exist"
        else
          load pte ≫= fun e =>
          if negb (has e PTE_P) then panic "copyuvm: page not present"
          else
            let pa := PTE_ADDR e in
            let flags := PTE_FLAGS e in
            kalloc ≫= fun m =>
            if m =? 0 then freevm d ≫= fun _ => mret 0
            else
              set_mem (fun x => memmove x m (P2V pa) PGSIZE) ≫= fun _ =>
              mappages d i PGSIZE (V2P m) flags ≫= fun r =>
              if r <? 0 then kfree end_ m ≫= fun _ => freevm d ≫= fun _ => mret 0
              else copyuvm_loop n pgdir d sz (i + PGSIZE)
    end
  else mret d.

Definition copyuvm (pgdir sz : Z) : M kmem Z :=
  setupkvm ≫= fun d =>
  if d =? 0 then mret 0
  else copyuvm_loop (S (Z.to_nat (sz / PGSIZE))) pgdir d sz 0.

(** *pte is read without a test of pte: where there is no page table this
    reads the word at address 0. *)
Definition uva2ka (pgdir uva : Z) : M kmem Z :=
  walkpgdir pgdir uva false ≫= fun pte =>
  load pte ≫= fun e =>
  if negb (has e PTE_P) then mret 0
  else if negb (has e PTE_U) then mret 0
  else mret (P2V (PTE_ADDR e)).

(** [p] is the list of the len bytes to copy. *)
Fixpoint copyout_loop (n : nat) (pgdir va : Z) (p : list Z) : M kmem Z :=
  match p with
  | [] => mret 0
  | _ =>
      match n with
      | O => panic "fuel"
      | S n =>
          let va0 := PGROUNDDOWN va in
          uva2ka pgdir va0 ≫= fun pa0 =>
          if pa0 =? 0 then mret (-1)
          else
            let k := Z.min (PGSIZE - (va - va0)) (Z.of_nat (length p)) in
            set_mem (fun x => blit x (pa0 + (va - va0)) (take (Z.to_nat k) p)) ≫= fun _ =>
            copyout_loop n pgdir (u32 (va0 + PGSIZE)) (drop (Z.to_nat k) p)
      end
  end.

Definition copyout (pgdir va : Z) (p : list Z) : M kmem Z := copyout_loop (length p) pgdir va p.

End vm.

(** ** Entries *)

Lemma PTE_ADDR_eq z : PTE_ADDR z = PGSIZE * (u32 z / PGSIZE).
Proof. apply land_pgmask. Qed.

Lemma lor_page a f : a mod PGSIZE = 0 -> 0 <= f < PGSIZE -> Z.lor a f = a + f.
Proof.
  intros Ha Hf. assert (Hz : Z.land a f = 0).
  { apply Z.bits_inj'. intros j Hj. rewrite Z.land_spec, Z.bits_0. change PGSIZE with (2 ^ 12) in *.
    destruct (decide (j < 12)) as [Hlt|Hge].
    - rewrite <- (Z.mod_pow2_bits_low a 12 j) by lia. rewrite Ha, Z.bits_0. done.
    - rewrite <- (Z.mod_small f (2 ^ 12)) by lia. rewrite Z.mod_pow2_bits_high by lia. apply andb_false_r. }
  pose proof (Z.add_lor_land a f). lia.
Qed.

Lemma PTE_ADDR_lor a f : is_u32 a -> a mod PGSIZE = 0 -> 0 <= f < PGSIZE ->
  PTE_ADDR (Z.lor a f) = a /\ is_u32 (Z.lor a f).
Proof.
  intros Hu Ha Hf. rewrite lor_page by done. pose proof (Z_div_mod_eq_full a PGSIZE) as E. rewrite Ha in E.
  assert (Hu' : is_u32 (a + f)) by (unfold is_u32, PGSIZE in *; lia). split; [|done].
  rewrite PTE_ADDR_eq, u32_small by done. replace (a + f) with (a / PGSIZE * PGSIZE + f) by lia.
  rewrite Z.div_add_l by done. rewrite (Z.div_small f) by done. lia.
Qed.

Lemma has_P x : has x PTE_P = Z.testbit x 0.
Proof. change PTE_P with (mask 0). apply (bit_test_testbit x 0). lia. Qed.

Lemma has_lor_P a : has (Z.lor a PTE_P) PTE_P = true.
Proof. rewrite has_P, Z.lor_spec. apply orb_true_r. Qed.

Lemma lor_flags f g : 0 <= f < PGSIZE -> 0 <= g < PGSIZE -> 0 <= Z.lor f g < PGSIZE.
Proof.
  intros Hf Hg. split; [apply Z.lor_nonneg; lia|]. change PGSIZE with (2 ^ 12) in *.
  destruct (decide (Z.lor f g = 0)) as [->|Hne]; [done|].
  assert (0 <= Z.lor f g) by (apply Z.lor_nonneg; lia).
  apply Z.log2_lt_pow2; [lia|]. rewrite Z.log2_lor by lia.
  assert (Hlog : forall x, 0 <= x < 2 ^ 12 -> Z.log2 x < 12).
  { intros x Hx. destruct (decide (x = 0)) as [->|]; [done|]. apply Z.log2_lt_pow2; lia. }
  pose proof (Hlog f Hf). pose proof (Hlog g Hg). lia.
Qed.

Lemma PDX_eq va : is_u32 va -> PDX va = va / 2 ^ 22.
Proof.
  intros H. unfold PDX. rewrite u32_small by done. change 0x3FF with (Z.ones 10). rewrite Z.land_ones by lia.
  unfold PDXSHIFT. rewrite Z.shiftr_div_pow2 by lia. apply Z.mod_small. unfold is_u32 in H.
  split; [apply Z.div_pos; lia | apply Z.div_lt_upper_bound; lia].
Qed.

Lemma PTX_eq va : is_u32 va -> PTX va = (va / 2 ^ 12) mod 2 ^ 10.
Proof.
  intros H. unfold PTX. rewrite u32_small by done. change 0x3FF with (Z.ones 10). rewrite Z.land_ones by lia.
  unfold PTXSHIFT. by rewrite Z.shiftr_div_pow2 by lia.
Qed.

Lemma PDX_range va : is_u32 va -> 0 <= PDX va < NPDENTRIES.
Proof.
  intros H. rewrite PDX_eq by done. unfold is_u32, NPDENTRIES in *.
  split; [apply Z.div_pos; lia | apply Z.div_lt_upper_bound; lia].
Qed.

Lemma PTX_range va : is_u32 va -> 0 <= PTX va < 1024.
Proof. intros H. rewrite PTX_eq by done. apply (Z.mod_pos_bound _ (2 ^ 10)). done. Qed.

(** Two addresses with the same indices are on the same page. *)
Lemma same_page va va' : is_u32 va -> is_u32 va' ->
  PDX va = PDX va' -> PTX va = PTX va' -> va / PGSIZE = va' / PGSIZE.
Proof.
  intros H H'. rewrite !PDX_eq, !PTX_eq by done. change PGSIZE with (2 ^ 12). intros H1 H2.
  assert (Hq : forall x, x / 2 ^ 22 = x / 2 ^ 12 / 2 ^ 10) by (intros; rewrite Z.div_div by lia; done).
  rewrite !Hq in H1. rewrite (Z_div_mod_eq_full (va / 2 ^ 12) (2 ^ 10)), (Z_div_mod_eq_full (va' / 2 ^ 12) (2 ^ 10)).
  congruence.
Qed.

Lemma page_indices va va' : is_u32 va -> is_u32 va' ->
  va / PGSIZE = va' / PGSIZE -> PDX va = PDX va' /\ PTX va = PTX va'.
Proof.
  intros H H'. rewrite !PDX_eq, !PTX_eq by done. change PGSIZE with (2 ^ 12). intros H1.
  assert (Hq : forall x, x / 2 ^ 22 = x / 2 ^ 12 / 2 ^ 10) by (intros; rewrite Z.div_div by lia; done).
  rewrite !Hq, H1. done.
Qed.

(** ** Page tables *)

Definition pde (m : mem) (pd i : Z) : Z := load32 m (pd + 4 * i).
Definition tab (e : Z) : Z := P2V (PTE_ADDR e).
Definition pte_addr (m : mem) (pd va : Z) : option Z :=
  let e := pde m pd (PDX va) in
  if has e PTE_P then Some (tab e + 4 * PTX va) else None.

(** The entry for [va], 0 where there is no page table. *)
Definition pte_at (m : mem) (pd va : Z) : Z :=
  match pte_addr m pd va with Some p => load32 m p | None => 0 end.

Section tables.
Context (end_ : Z) (Hend : KERNBASE <= end_).

Definition is_index (i : Z) : Prop := 0 <= i < NPDENTRIES.

Record pt_ok (m : mem) (pd : Z) (l : list Z) : Prop := {
  po_dir : page_ok end_ pd;
  po_dir_free : pd ∉ l;
  po_tab : forall i, is_index i -> has (pde m pd i) PTE_P = true ->
    page_ok end_ (tab (pde m pd i)) /\ tab (pde m pd i) ∉ l /\ tab (pde m pd i) <> pd;
  po_inj : forall i j, is_index i -> is_index j -> has (pde m pd i) PTE_P = true ->
    has (pde m pd j) PTE_P = true -> tab (pde m pd i) = tab (pde m pd j) -> i = j;
}.

(** Reading a word of a page that did not change. *)
Lemma load_page m m' p k :
  0 <= k < 1024 -> (forall a, in_range p PGSIZE a = true -> m' a = m a) ->
  load32 m' (p + 4 * k) = load32 m (p + 4 * k).
Proof. intros Hk H. apply load32_ext. intros x Hx. apply H. unfold in_range, PGSIZE. lia. Qed.

Lemma in_page p k a : 0 <= k < 1024 -> in_range (p + 4 * k) 4 a = true -> in_range p PGSIZE a = true.
Proof. unfold in_range, PGSIZE. lia. Qed.

Lemma P2V_V2P v : page_ok end_ v -> P2V (V2P v) = v /\ V2P v mod PGSIZE = 0 /\ is_u32 (V2P v).
Proof.
  intros (Hm & He & _ & Hu). unfold P2V, V2P, KERNBASE, PGSIZE in *. unfold is_u32 in *.
  rewrite (u32_small (v - 2147483648)) by (unfold is_u32; lia).
  split_and!; [rewrite u32_small by (unfold is_u32; lia); lia | | lia | lia].
  replace (v - 2147483648) with (v + (-524288) * 4096) by lia. rewrite Z.mod_add by lia. done.
Qed.

(** The directory entry that walkpgdir creates for the table [v]. *)
Definition new_pde (v : Z) : Z := Z.lor (Z.lor (Z.lor (V2P v) PTE_P) PTE_W) PTE_U.

Lemma new_pde_ok v : page_ok end_ v -> has (new_pde v) PTE_P = true /\ tab (new_pde v) = v /\ is_u32 (new_pde v).
Proof.
  intros Hv. destruct (P2V_V2P v Hv) as (H1 & H2 & H3). unfold new_pde. rewrite <- !Z.lor_assoc.
  destruct (PTE_ADDR_lor (V2P v) (Z.lor PTE_P (Z.lor PTE_W PTE_U)) H3 H2) as [H4 H5]; [done|].
  split_and!; [| unfold tab; by rewrite H4 | done]. rewrite has_P, !Z.lor_spec. by rewrite orb_true_r.
Qed.

(** Changing one page that is neither the directory nor a table. *)
Lemma pt_ok_other m m' pd l l' v :
  pt_ok m pd l -> page_ok end_ v -> v <> pd -> (forall x, x ∈ l' -> x ∈ l \/ x = v) ->
  (forall i, is_index i -> has (pde m pd i) PTE_P = true -> tab (pde m pd i) <> v) ->
  (forall a, in_range v PGSIZE a = false -> m' a = m a) ->
  pt_ok m' pd l' /\ (forall i, is_index i -> pde m' pd i = pde m pd i) /\
  (forall va, is_u32 va -> pte_at m' pd va = pte_at m pd va).
Proof.
  intros Hp Hv Hvd Hl Hvt Hm.
  assert (Hpage : forall p, page_ok end_ p -> p <> v -> forall a, in_range p PGSIZE a = true -> m' a = m a).
  { intros p Hpk Hne a Ha. apply Hm. by apply (pages_disjoint end_ p v). }
  assert (Hpde : forall i, is_index i -> pde m' pd i = pde m pd i).
  { intros i Hi. unfold pde. apply load_page; [exact Hi|]. apply Hpage; [apply Hp | done]. }
  split_and!; [|done|].
  - split; [apply Hp | | |].
    + intros Hin. destruct (Hl _ Hin) as [H| ->]; [by apply (po_dir_free _ _ _ Hp) | done].
    + intros i Hi Hpr. rewrite Hpde in * by done. destruct (po_tab _ _ _ Hp i Hi Hpr) as (H1 & H2 & H3).
      split_and!; try done; try apply H1. intros Hin. destruct (Hl _ Hin) as [H|H]; [done | by apply (Hvt i)].
    + intros i j Hi Hj. rewrite !Hpde by done. by apply Hp.
  - intros va Hva. unfold pte_at, pte_addr. pose proof (PDX_range va Hva) as Hi. rewrite Hpde by done.
    destruct (has (pde m pd (PDX va)) PTE_P) eqn:E; [|done].
    destruct (po_tab _ _ _ Hp _ Hi E) as (H1 & _ & _).
    apply load_page; [by apply PTX_range|]. apply Hpage; [done | by apply Hvt].
Qed.

Lemma pte_addr_page m pd l va p :
  pt_ok m pd l -> is_u32 va -> pte_addr m pd va = Some p ->
  exists t, page_ok end_ t /\ t ∉ l /\ t <> pd /\ has (pde m pd (PDX va)) PTE_P = true /\
    t = tab (pde m pd (PDX va)) /\ p = t + 4 * PTX va.
Proof.
  intros Hp Hva. unfold pte_addr. pose proof (PDX_range va Hva) as Hi.
  destruct (has (pde m pd (PDX va)) PTE_P) eqn:E; [|done]. intros [= <-].
  destruct (po_tab _ _ _ Hp _ Hi E) as (H1 & H2 & H3). eexists. done.
Qed.

(** A page in use that is not a part of the page table, and its content. *)
Definition outside (m : mem) (pd : Z) (l : list Z) (q : Z) : Prop :=
  page_ok end_ q /\ q ∉ l /\ q <> pd /\
  forall i, is_index i -> has (pde m pd i) PTE_P = true -> tab (pde m pd i) <> q.

Definition keeps (m : mem) (pd : Z) (l : list Z) (m' : mem) (l' : list Z) : Prop :=
  forall q, outside m pd l q ->
    outside m' pd l' q /\ forall a, in_range q PGSIZE a = true -> m' a = m a.

Lemma keeps_refl m pd l : keeps m pd l m l.
Proof. by intros q Hq. Qed.

Lemma keeps_trans m1 m2 m3 pd l1 l2 l3 :
  keeps m1 pd l1 m2 l2 -> keeps m2 pd l2 m3 l3 -> keeps m1 pd l1 m3 l3.
Proof.
  intros H1 H2 q Hq. destruct (H1 q Hq) as [Hq2 Hm2]. destruct (H2 q Hq2) as [Hq3 Hm3]. split; [done|].
  intros a Ha. rewrite Hm3, Hm2 by done. done.
Qed.

(** Writing words of the directory or of a table leaves the free list alone. *)
Lemma is_list_store m h l p k x :
  page_ok end_ p -> p ∉ l -> 0 <= k < 1024 -> is_list end_ m h l -> is_list end_ (store32 m (p + 4 * k) x) h l.
Proof.
  intros Hp Hnin Hk. apply (is_list_outside end_ m _ p); [done..|]. intros a Ha. rewrite store32_spec.
  destruct (in_range (p + 4 * k) 4 a) eqn:E; [|done]. apply in_page in E; [congruence | done].
Qed.

(** Setting the entry of [va]. *)
Lemma store_pte m pd l va p x :
  pt_ok m pd l -> is_u32 va -> pte_addr m pd va = Some p -> is_u32 x ->
  pt_ok (store32 m p x) pd l /\
  (forall va', is_u32 va' -> pte_at (store32 m p x) pd va' =
     if va' / PGSIZE =? va / PGSIZE then x else pte_at m pd va') /\
  (forall h, is_list end_ m h l -> is_list end_ (store32 m p x) h l) /\
  keeps m pd l (store32 m p x) l.
Proof.
  intros Hp Hva Hpa Hx. destruct (pte_addr_page m pd l va p Hp Hva Hpa) as (t & Ht & Htl & Htd & Hpr & Et & ->).
  pose proof (PTX_range va Hva) as Hk. pose proof (PDX_range va Hva) as Hi.
  set (m' := store32 m (t + 4 * PTX va) x).
  assert (Hout : forall a, in_range t PGSIZE a = false -> m' a = m a).
  { intros a Ha. unfold m'. rewrite store32_spec. destruct (in_range (t + 4 * PTX va) 4 a) eqn:E; [|done].
    apply in_page in E; [congruence | done]. }
  assert (Hpde : forall i, is_index i -> pde m' pd i = pde m pd i).
  { intros i Hi'. unfold pde. apply load_page; [exact Hi'|]. intros a Ha. apply Hout.
    apply (pages_disjoint end_ pd t); [apply Hp | done | done | done]. }
  split_and!.
  - split; [apply Hp | apply Hp | |].
    + intros i Hi'. rewrite Hpde by done. by apply Hp.
    + intros i j Hi' Hj. rewrite !Hpde by done. by apply Hp.
  - intros va' Hva'. unfold pte_at, pte_addr. pose proof (PDX_range va' Hva') as Hi'. rewrite Hpde by done.
    pose proof (PTX_range va' Hva') as Hk'.
    destruct (Z.eqb_spec (va' / PGSIZE) (va / PGSIZE)) as [E|E].
    + destruct (page_indices va' va Hva' Hva E) as [-> ->]. rewrite Hpr, <- Et. by apply load32_store32_eq.
    + destruct (has (pde m pd (PDX va')) PTE_P) eqn:Ep; [|done].
      destruct (decide (PDX va' = PDX va)) as [Ed|Ed].
      * rewrite Ed, <- Et. apply load32_store32_ne. assert (PTX va' <> PTX va); [|lia].
        intros E2. apply E. by apply same_page.
      * destruct (po_tab _ _ _ Hp _ Hi' Ep) as (H1 & _ & _). apply load_page; [done|]. intros a Ha. apply Hout.
        apply (pages_disjoint end_ (tab (pde m pd (PDX va'))) t); [done | done | | done].
        intros E2. apply Ed. apply (po_inj _ _ _ Hp); try done. by rewrite <- Et.
  - intros h. by apply is_list_store.
  - intros q (Hq1 & Hq2 & Hq3 & Hq4). split.
    + split_and!; try done; try apply Hq1. intros i Hi'. rewrite Hpde by done. by apply Hq4.
    + intros a Ha. apply Hout. apply (pages_disjoint end_ q t); try done. rewrite Et. intros E. by apply (Hq4 (PDX va)).
Qed.

(** Adding the page table [v] for [va]. *)
Lemma add_table m pd l v va :
  pt_ok m pd (v :: l) -> page_ok end_ v -> v ∉ l -> is_u32 va -> pte_addr m pd va = None ->
  let m' := store32 (memset m v 0 PGSIZE) (pd + 4 * PDX va) (new_pde v) in
  pt_ok m' pd l /\ pte_addr m' pd va = Some (v + 4 * PTX va) /\
  (forall va', is_u32 va' -> pte_at m' pd va' = pte_at m pd va') /\
  (forall h, is_list end_ m h l -> is_list end_ m' h l) /\
  keeps m pd (v :: l) m' l.
Proof.
  intros Hp Hv Hvl Hva Hnone m'. set (m1 := memset m v 0 PGSIZE) in *. set (i0 := PDX va) in *.
  pose proof (PDX_range va Hva) as Hi0. fold i0 in Hi0.
  assert (Hvd : v <> pd) by (intros ->; apply (po_dir_free _ _ _ Hp); by left).
  assert (Hvt : forall i, is_index i -> has (pde m pd i) PTE_P = true -> tab (pde m pd i) <> v).
  { intros i Hi Hpr E. destruct (po_tab _ _ _ Hp i Hi Hpr) as (_ & H & _). apply H. rewrite E. by left. }
  assert (Hm1 : forall a, in_range v PGSIZE a = false -> m1 a = m a).
  { intros a Ha. unfold m1. by rewrite memset_byte, Ha. }
  destruct (pt_ok_other m m1 pd (v :: l) l v Hp Hv Hvd) as (Hp1 & Hpde1 & Hpte1); [left; by right | exact Hvt | exact Hm1 |].
  assert (Hnp : has (pde m pd i0) PTE_P = false).
  { unfold pte_addr in Hnone. fold i0 in Hnone. by destruct (has (pde m pd i0) PTE_P). }
  destruct (new_pde_ok v Hv) as (Hn1 & Hn2 & Hn3).
  assert (Hpage : forall p, page_ok end_ p -> p <> pd -> forall a, in_range p PGSIZE a = true -> m' a = m1 a).
  { intros p Hpk Hne a Ha. unfold m'. rewrite store32_spec. destruct (in_range (pd + 4 * i0) 4 a) eqn:E; [|done].
    apply in_page in E; [|exact Hi0]. rewrite (pages_disjoint end_ p pd a) in E; done || apply Hp. }
  assert (Hpde : forall i, is_index i -> pde m' pd i = if i =? i0 then new_pde v else pde m pd i).
  { intros i Hi. unfold pde, m'. destruct (Z.eqb_spec i i0) as [->|Hne]; [by apply load32_store32_eq|].
    rewrite load32_store32_ne by lia. apply (Hpde1 i Hi). }
  assert (Hcase : forall i, is_index i -> has (pde m' pd i) PTE_P = true ->
    (i = i0 /\ tab (pde m' pd i) = v) \/ (i <> i0 /\ pde m' pd i = pde m pd i /\ has (pde m pd i) PTE_P = true)).
  { intros i Hi. rewrite Hpde by done. destruct (Z.eqb_spec i i0) as [->|Hne]; [by left | by right]. }
  split_and!.
  - split; [apply Hp | apply Hp1 | |].
    + intros i Hi Hpr. destruct (Hcase i Hi Hpr) as [[-> ->]|(Hne & -> & Hpr')]; [done|].
      destruct (po_tab _ _ _ Hp i Hi Hpr') as (H1 & H2 & H3). split_and!; try done; try apply H1.
      intros Hin. apply H2. by right.
    + intros i j Hi Hj Hpi Hpj E.
      destruct (Hcase i Hi Hpi) as [[-> Ei]|(Hni & Ei & Hpi')], (Hcase j Hj Hpj) as [[-> Ej]|(Hnj & Ej & Hpj')]; [done | | |].
      * destruct (Hvt j Hj Hpj'). congruence.
      * destruct (Hvt i Hi Hpi'). congruence.
      * apply (po_inj _ _ _ Hp); try done. congruence.
  - unfold pte_addr. fold i0. rewrite Hpde, Z.eqb_refl, Hn1, Hn2 by done. done.
  - intros va' Hva'. pose proof (PDX_range va' Hva') as Hi'. pose proof (PTX_range va' Hva') as Hk'.
    unfold pte_at, pte_addr. rewrite Hpde by done. destruct (Z.eqb_spec (PDX va') i0) as [E|E].
    + rewrite E, Hnp, Hn1, Hn2. rewrite (load_page m1); [|exact Hk' | apply Hpage; [exact Hv | exact Hvd]].
      apply load32_zero. intros a Ha. unfold m1. rewrite memset_byte.
      assert (E2 : in_range v PGSIZE a = true) by (unfold in_range, PGSIZE; lia). rewrite E2. reflexivity.
    + destruct (has (pde m pd (PDX va')) PTE_P) eqn:Ep; [|done].
      destruct (po_tab _ _ _ Hp _ Hi' Ep) as (H1 & _ & H3). rewrite (load_page m1); [|exact Hk' | apply Hpage; [exact H1 | exact H3]].
      apply load_page; [done|]. intros a Ha. apply Hm1. apply (pages_disjoint end_ (tab (pde m pd (PDX va'))) v); try done.
      by apply Hvt.
  - intros h Hl. apply is_list_store; [apply Hp | apply Hp1 | exact Hi0 |]. by apply (is_list_outside end_ m m1 v).
  - intros q (Hq1 & Hq2 & Hq3 & Hq4). assert (Hqv : q <> v) by (intros ->; apply Hq2; by left). split.
    + split_and!; try done; try apply Hq1; [intros Hin; apply Hq2; by right|]. intros i Hi Hpr.
      destruct (Hcase i Hi Hpr) as [[-> ->]|(Hne & -> & Hpr')]; [congruence | by apply Hq4].
    + intros a Ha. rewrite (Hpage q Hq1 Hq3 a Ha). apply Hm1. by apply (pages_disjoint end_ q v).
Qed.

(** The state of the allocator with a page table in it. *)
Record vm_ok (s : kmem) (pd : Z) (l : list Z) : Prop := {
  vo_mem : kinv end_ s l;
  vo_pt : pt_ok (km_mem s) pd l;
}.

(** walkpgdir with alloc set: the entry's address, with a new table if one is
    needed and a page is free; no translation changes. *)
Lemma walkpgdir_ok s pd l va :
  vm_ok s pd l -> is_u32 va ->
  (pte_addr (km_mem s) pd va = None /\ l = [] /\ walkpgdir pd va true s = Ret s 0) \/
  (exists s' l' p, walkpgdir pd va true s = Ret s' p /\ p <> 0 /\ vm_ok s' pd l' /\
     pte_addr (km_mem s') pd va = Some p /\ (length l <= length l' + 1)%nat /\
     (exists k, l' = drop k l) /\ keeps (km_mem s) pd l (km_mem s') l' /\
     forall va', is_u32 va' -> pte_at (km_mem s') pd va' = pte_at (km_mem s) pd va').
Proof.
  intros [Hk Hp] Hva. destruct Hk as [Hl Hn Hlk]. destruct s as [lk ul fl m]. cbn in *. subst lk.
  unfold walkpgdir. erewrite bind_ret by reflexivity. cbn [km_mem]. fold (pde m pd (PDX va)).
  destruct (has (pde m pd (PDX va)) PTE_P) eqn:E.
  - right. assert (Hpa : pte_addr m pd va = Some (tab (pde m pd (PDX va)) + 4 * PTX va)) by (unfold pte_addr; by rewrite E).
    destruct (pte_addr_page m pd l va _ Hp Hva Hpa) as (t & (_ & Ht & _) & _ & _ & _ & Et & _).
    eexists _, l, _. split; [reflexivity|]. fold (tab (pde m pd (PDX va))). split_and!.
    + pose proof (PTX_range va Hva). rewrite <- Et. unfold KERNBASE in *. lia.
    + by split.
    + exact Hpa.
    + lia.
    + by exists 0%nat.
    + apply keeps_refl.
    + done.
  - assert (Hpa : pte_addr m pd va = None) by (unfold pte_addr; by rewrite E). cbn [negb].
    erewrite bind_ret by apply kalloc_eq. destruct l as [|v l].
    + left. cbn in Hl. subst fl. split_and!; done.
    + right. destruct Hl as (-> & Hv & Hl). inversion Hn as [|? ? Hnin Hn']; subst.
      pose proof (page_ok_nonzero end_ Hend v Hv) as Hnz. destruct (Z.eqb_spec v 0); [done|].
      destruct (add_table m pd l v va Hp Hv Hnin Hva Hpa) as (Hp' & Hpa' & Hpt & Hil & Hkp).
      eexists _, l, (v + 4 * PTX va). split; [reflexivity|]. split_and!.
      * pose proof (PTX_range va Hva). destruct Hv as (_ & Hv & _). unfold KERNBASE in *. lia.
      * split; [|exact Hp']. split; [by apply Hil | done | done].
      * exact Hpa'.
      * cbn. lia.
      * by exists 1%nat.
      * exact Hkp.
      * exact Hpt.
Qed.

(** The entry mappages writes for the [k]-th page. *)
Definition new_pte (pa perm : Z) : Z := Z.lor (Z.lor pa perm) PTE_P.

Lemma new_pte_ok pa perm :
  is_u32 pa -> pa mod PGSIZE = 0 -> 0 <= perm < PGSIZE ->
  has (new_pte pa perm) PTE_P = true /\ PTE_ADDR (new_pte pa perm) = pa /\ is_u32 (new_pte pa perm).
Proof.
  intros Hu Hm Hp. unfold new_pte. rewrite has_lor_P, <- Z.lor_assoc.
  destruct (PTE_ADDR_lor pa (Z.lor perm PTE_P) Hu Hm) as [H1 H2]; [by apply lor_flags|]. done.
Qed.

Lemma page_shift a k : a mod PGSIZE = 0 -> 0 <= k -> (a + PGSIZE * k) mod PGSIZE = 0 /\ (a + PGSIZE * k) / PGSIZE = a / PGSIZE + k.
Proof.
  intros Ha Hk. rewrite (Z.mul_comm PGSIZE k). rewrite Z.mod_add, Z.div_add by done. done.
Qed.

Lemma page_div a va :
  a mod PGSIZE = 0 -> (va / PGSIZE = a / PGSIZE <-> a <= va < a + PGSIZE) /\ (va - a) / PGSIZE = va / PGSIZE - a / PGSIZE.
Proof.
  intros Ha. pose proof (Z_div_mod_eq_full a PGSIZE) as Ea. pose proof (Z_div_mod_eq_full va PGSIZE) as Ev.
  pose proof (Z.mod_pos_bound va PGSIZE eq_refl) as Hb. split; [unfold PGSIZE in *; lia|].
  symmetry. apply (Z.div_unique _ _ _ (va mod PGSIZE)); unfold PGSIZE in *; lia.
Qed.

(** ** Missing tables *)

Definition present (m : mem) (pd i : Z) : bool := has (pde m pd i) PTE_P.

(** The number of directory entries from [lo] to [hi] without a table. *)
Definition missing (m : mem) (pd lo hi : Z) : nat :=
  length (List.filter (fun i => negb (present m pd i)) (seqZ lo (hi - lo + 1))).

Lemma missing_cons m pd lo hi : lo <= hi ->
  missing m pd lo hi = ((if present m pd lo then 0 else 1) + missing m pd (lo + 1) hi)%nat.
Proof.
  intros H. unfold missing. rewrite (seqZ_cons lo) by lia. cbn [List.filter].
  replace (Z.succ lo) with (lo + 1) by lia. replace (Z.pred (hi - lo + 1)) with (hi - (lo + 1) + 1) by lia.
  by destruct (present m pd lo).
Qed.

Lemma missing_nil m pd lo hi : hi < lo -> missing m pd lo hi = 0%nat.
Proof. intros H. unfold missing. by rewrite seqZ_nil by lia. Qed.

Lemma missing_ext m m' pd lo hi :
  (forall i, lo <= i <= hi -> present m' pd i = present m pd i) -> missing m' pd lo hi = missing m pd lo hi.
Proof.
  intros H. unfold missing. f_equal. apply filter_ext_in. intros i Hi. f_equal. apply H.
  apply list_elem_of_In, elem_of_seqZ in Hi. lia.
Qed.

Lemma missing_le m pd lo hi : lo <= hi + 1 -> Z.of_nat (missing m pd lo hi) <= hi - lo + 1.
Proof.
  intros H. unfold missing. pose proof (filter_length_le (fun i => negb (present m pd i)) (seqZ lo (hi - lo + 1))) as Hl.
  rewrite length_seqZ in Hl. lia.
Qed.

Lemma PDX_mono a b : is_u32 a -> is_u32 b -> a <= b -> PDX a <= PDX b.
Proof. intros Ha Hb H. rewrite !PDX_eq by done. by apply Z.div_le_mono. Qed.

Lemma PDX_next a : is_u32 a -> is_u32 (a + PGSIZE) -> PDX (a + PGSIZE) = PDX a \/ PDX (a + PGSIZE) = PDX a + 1.
Proof.
  intros Ha Hb. rewrite !PDX_eq by done. pose proof (Z_div_mod_eq_full a (2 ^ 22)). pose proof (Z_div_mod_eq_full (a + PGSIZE) (2 ^ 22)).
  pose proof (Z.mod_pos_bound a (2 ^ 22) eq_refl). pose proof (Z.mod_pos_bound (a + PGSIZE) (2 ^ 22) eq_refl). unfold PGSIZE in *. lia.
Qed.

(** Setting an entry of a table does not change the directory. *)
Lemma store_pte_dir m pd l va p x i :
  pt_ok m pd l -> is_u32 va -> pte_addr m pd va = Some p -> is_index i -> pde (store32 m p x) pd i = pde m pd i.
Proof.
  intros Hp Hva Hpa Hi. destruct (pte_addr_page m pd l va p Hp Hva Hpa) as (t & Ht & _ & Htd & _ & _ & ->).
  pose proof (PTX_range va Hva) as Hk. unfold pde. apply load_page; [exact Hi|]. intros a Ha. rewrite store32_spec.
  destruct (in_range (t + 4 * PTX va) 4 a) eqn:E; [|done]. apply in_page in E; [|done].
  assert (Hd : in_range t PGSIZE a = false) by (apply (pages_disjoint end_ pd t); [apply Hp | done | congruence | done]).
  congruence.
Qed.

Lemma add_table_dir m pd l v va i :
  pt_ok m pd (v :: l) -> page_ok end_ v -> is_index i ->
  pde (store32 (memset m v 0 PGSIZE) (pd + 4 * PDX va) (new_pde v)) pd i = if i =? PDX va then new_pde v else pde m pd i.
Proof.
  intros Hp Hv Hi. destruct (new_pde_ok v Hv) as (_ & _ & Hu). unfold pde.
  destruct (Z.eqb_spec i (PDX va)) as [->|Hne]; [by apply load32_store32_eq|].
  rewrite load32_store32_ne by lia. apply load_page; [exact Hi|]. intros a Ha. rewrite memset_byte.
  assert (Hd : in_range v PGSIZE a = false); [|by rewrite Hd].
  apply (pages_disjoint end_ pd v); [apply Hp | done | | done]. intros ->. apply (po_dir_free _ _ _ Hp). by left.
Qed.

(** The state of the allocator and the table after the tables from [lo] to
    [hi] have been made present. *)
Record added (s s' : kmem) (pd : Z) (l l' : list Z) (lo hi : Z) : Prop := {
  ad_ok : vm_ok s' pd l';
  ad_len : (length l = length l' + missing (km_mem s) pd lo hi)%nat;
  ad_drop : exists k, l' = drop k l;
  ad_keeps : keeps (km_mem s) pd l (km_mem s') l';
  ad_present : forall i, is_index i ->
    present (km_mem s') pd i = present (km_mem s) pd i || ((lo <=? i) && (i <=? hi));
}.

(** walkpgdir takes a free page exactly when the table is missing. *)
Lemma walk_tables s pd l a :
  vm_ok s pd l -> is_u32 a -> (missing (km_mem s) pd (PDX a) (PDX a) <= length l)%nat ->
  exists s1 l' p, walkpgdir pd a true s = Ret s1 p /\ p <> 0 /\ pte_addr (km_mem s1) pd a = Some p /\
    added s s1 pd l l' (PDX a) (PDX a) /\ forall va, is_u32 va -> pte_at (km_mem s1) pd va = pte_at (km_mem s) pd va.
Proof.
  intros [Hk Hp] Ha Hl. pose proof (PDX_range a Ha) as Hi. pose proof (PTX_range a Ha) as Hx.
  destruct Hk as [Hfl Hn Hlk]. destruct s as [lk ul fl m]. cbn [km_mem freelist km_lock] in *. subst lk.
  assert (Hself : forall i, (PDX a <=? i) && (i <=? PDX a) = (i =? PDX a)) by lia.
  pose proof (missing_cons m pd (PDX a) (PDX a) ltac:(lia)) as Hmis. rewrite (missing_nil _ _ (PDX a + 1)), Nat.add_0_r in Hmis by lia.
  rewrite Hmis in Hl. unfold walkpgdir. erewrite bind_ret by reflexivity. cbn [km_mem]. fold (pde m pd (PDX a)).
  unfold present in Hmis, Hl. destruct (has (pde m pd (PDX a)) PTE_P) eqn:E.
  - assert (Hpa : pte_addr m pd a = Some (tab (pde m pd (PDX a)) + 4 * PTX a)) by (unfold pte_addr; by rewrite E).
    destruct (pte_addr_page m pd l a _ Hp Ha Hpa) as (t & (_ & Ht & _) & _ & _ & _ & Et & _).
    eexists _, l, _. split; [reflexivity|]. fold (tab (pde m pd (PDX a))). split_and!; [| exact Hpa | | done].
    + rewrite <- Et. unfold KERNBASE in *. lia.
    + split; [by split | cbn [km_mem]; lia | by exists 0%nat | apply keeps_refl |].
      intros i _. cbn [km_mem]. rewrite Hself. destruct (Z.eqb_spec i (PDX a)) as [->|]; [unfold present; by rewrite E | by rewrite orb_false_r].
  - assert (Hpa : pte_addr m pd a = None) by (unfold pte_addr; by rewrite E). cbn [negb].
    erewrite bind_ret by apply kalloc_eq. destruct l as [|v l]; [cbn in Hl; lia|].
    destruct Hfl as (-> & Hv & Hfl). inversion Hn as [|? ? Hnin Hn']; subst.
    pose proof (page_ok_nonzero end_ Hend v Hv) as Hnz. destruct (Z.eqb_spec v 0); [done|].
    destruct (add_table m pd l v a Hp Hv Hnin Ha Hpa) as (Hp' & Hpa' & Hpt & Hil & Hkp).
    eexists _, l, (v + 4 * PTX a). split; [reflexivity|]. split_and!; [| exact Hpa' | | exact Hpt].
    + destruct Hv as (_ & Hv & _). unfold KERNBASE in *. lia.
    + split; [split; [|exact Hp']; split; [by apply Hil | done | done] | cbn [km_mem length]; lia | by exists 1%nat | exact Hkp |].
      intros i Hi'. cbn [km_mem]. unfold present.
      etransitivity; [exact (f_equal (fun e => has e PTE_P) (add_table_dir m pd l v a i Hp Hv Hi'))|]. rewrite Hself.
      destruct (Z.eqb_spec i (PDX a)); [|by rewrite orb_false_r].
      destruct (new_pde_ok v Hv) as (-> & _). by rewrite orb_true_r.
Qed.

(** One page: the round of mappages for [a]. *)
Lemma map_page_tables s pd l a pa perm :
  vm_ok s pd l -> is_u32 a -> is_u32 pa -> pa mod PGSIZE = 0 -> 0 <= perm < PGSIZE ->
  (missing (km_mem s) pd (PDX a) (PDX a) <= length l)%nat -> has (pte_at (km_mem s) pd a) PTE_P = false ->
  exists s' l' p s1, walkpgdir pd a true s = Ret s1 p /\ p <> 0 /\
    has (load32 (km_mem s1) p) PTE_P = false /\ store p (new_pte pa perm) s1 = Ret s' tt /\
    added s s' pd l l' (PDX a) (PDX a) /\
    forall va, is_u32 va -> pte_at (km_mem s') pd va =
      if va / PGSIZE =? a / PGSIZE then new_pte pa perm else pte_at (km_mem s) pd va.
Proof.
  intros Hv Ha Hpa Hpm Hperm Hl Hnp. destruct (new_pte_ok pa perm Hpa Hpm Hperm) as (_ & _ & Hu).
  destruct (walk_tables s pd l a Hv Ha Hl) as (s1 & l' & p & He & Hp0 & Hpa1 & [Hv1 Hlen Hdr Hkp Hpr] & Hpt).
  destruct Hv1 as [[Hk1 Hn1 Hlk1] Hp1].
  destruct (store_pte (km_mem s1) pd l' a p (new_pte pa perm) Hp1 Ha Hpa1 Hu) as (Hp2 & Hpt2 & Hil & Hkp2).
  eexists _, l', p, s1. split; [exact He|]. split; [exact Hp0|]. split.
  { rewrite <- Hnp, <- (Hpt a Ha). unfold pte_at. by rewrite Hpa1. }
  split; [reflexivity|]. split.
  - split; [split; [|exact Hp2]; split; [by apply Hil | done | done] | exact Hlen | exact Hdr | by eapply keeps_trans |].
    intros i Hi'. rewrite <- Hpr by done. unfold present. cbn [km_mem]. by rewrite (store_pte_dir _ _ l' a).
  - intros va Hva. cbn [km_mem]. by rewrite Hpt2, Hpt.
Qed.

(** The entry [i] counted. *)
Lemma added_rest s s1 pd l l1 i hi :
  i <= hi -> is_index i -> is_index hi -> added s s1 pd l l1 i i ->
  missing (km_mem s1) pd i hi = missing (km_mem s) pd (i + 1) hi /\
  missing (km_mem s1) pd (i + 1) hi = missing (km_mem s) pd (i + 1) hi /\
  (length l + missing (km_mem s) pd (i + 1) hi = length l1 + missing (km_mem s) pd i hi)%nat.
Proof.
  intros Hle Hi Hhi [_ L1 _ _ P1]. rewrite missing_cons, (missing_nil _ _ (i + 1)), Nat.add_0_r in L1 by lia.
  assert (Pi : present (km_mem s1) pd i = true) by (rewrite P1 by done; lia).
  assert (Hm : missing (km_mem s1) pd (i + 1) hi = missing (km_mem s) pd (i + 1) hi).
  { apply missing_ext. intros j Hj. rewrite P1 by (unfold is_index in *; lia). lia. }
  rewrite (missing_cons (km_mem s1) _ i), (missing_cons (km_mem s) _ i), Pi, Hm by done. lia.
Qed.

(** Ranges of directory entries one after the other. *)
Lemma added_next s s1 s2 pd l l1 l2 i hi :
  i <= hi -> is_index i -> is_index hi -> added s s1 pd l l1 i i ->
  (added s1 s2 pd l1 l2 i hi \/ added s1 s2 pd l1 l2 (i + 1) hi) -> added s s2 pd l l2 i hi.
Proof.
  intros Hle Hi Hhi H1 Hn. destruct (added_rest s s1 pd l l1 i hi Hle Hi Hhi H1) as (M1 & M2 & L). destruct H1 as [_ _ [d1 D1] K1 P1].
  assert (Hgen : exists lo, (lo = i \/ lo = i + 1) /\ added s1 s2 pd l1 l2 lo hi) by (destruct Hn; eauto).
  destruct Hgen as (lo & Hlo & [O2 L2 [d2 D2] K2 P2]). split; [exact O2 | | | by eapply keeps_trans |].
  - destruct Hlo as [-> | ->]; lia.
  - exists (d1 + d2)%nat. rewrite D2, D1. apply drop_drop.
  - intros j Hj. rewrite P2, P1 by done. rewrite <- orb_assoc. f_equal. destruct Hlo as [-> | ->]; lia.
Qed.

(** A round of mappages whose page gets its entry. *)
Lemma mappages_round n s s1 s' pd a last pa perm p :
  walkpgdir pd a true s = Ret s1 p -> p <> 0 -> has (load32 (km_mem s1) p) PTE_P = false ->
  store p (new_pte pa perm) s1 = Ret s' tt ->
  mappages_loop (S n) pd a last pa perm s =
    if a =? last then Ret s' 0 else mappages_loop n pd (u32 (a + PGSIZE)) last (u32 (pa + PGSIZE)) perm s'.
Proof.
  intros He Hp0 Hpr Hst. cbn [mappages_loop]. erewrite bind_ret by exact He. destruct (Z.eqb_spec p 0); [done|].
  erewrite bind_ret by reflexivity. rewrite Hpr. erewrite bind_ret by exact Hst. by destruct (a =? last).
Qed.

(** One more page in front of a range. *)
Lemma range_cons a va n q pa perm old :
  a mod PGSIZE = 0 -> 0 <= n ->
  (if (a + PGSIZE <=? va) && (va <? a + PGSIZE + PGSIZE * n)
   then new_pte (pa + PGSIZE + PGSIZE * ((va - (a + PGSIZE)) / PGSIZE)) perm
   else if va / PGSIZE =? a / PGSIZE then new_pte pa perm else old) = q ->
  q = if (a <=? va) && (va <? a + PGSIZE * (n + 1)) then new_pte (pa + PGSIZE * ((va - a) / PGSIZE)) perm else old.
Proof.
  intros Ham Hn <-. destruct (page_div a va Ham) as [Hiff ->].
  destruct (page_div (a + PGSIZE) va) as [_ ->]; [by apply (page_shift a 1)|].
  destruct (page_shift a 1 Ham) as [_ Ed]; [lia|]. rewrite Z.mul_1_r in Ed. rewrite Ed. clear Ed. unfold PGSIZE in *.
  destruct (Z.leb_spec (a + 4096) va), (Z.ltb_spec va (a + 4096 + 4096 * n)),
    (Z.eqb_spec (va / 4096) (a / 4096)), (Z.leb_spec a va), (Z.ltb_spec va (a + 4096 * (n + 1)));
    cbn [andb]; try lia; try done.
  all: f_equal; lia.
Qed.

Lemma mappages_loop_tables n s pd l a pa perm :
  vm_ok s pd l -> 0 <= a -> a + PGSIZE * Z.of_nat n < 2 ^ 32 -> a mod PGSIZE = 0 ->
  0 <= pa -> pa + PGSIZE * Z.of_nat n < 2 ^ 32 -> pa mod PGSIZE = 0 -> 0 <= perm < PGSIZE ->
  (missing (km_mem s) pd (PDX a) (PDX (a + PGSIZE * Z.of_nat n)) <= length l)%nat ->
  (forall k, 0 <= k <= Z.of_nat n -> has (pte_at (km_mem s) pd (a + PGSIZE * k)) PTE_P = false) ->
  exists s' l', mappages_loop (S n) pd a (a + PGSIZE * Z.of_nat n) pa perm s = Ret s' 0 /\
    added s s' pd l l' (PDX a) (PDX (a + PGSIZE * Z.of_nat n)) /\
    forall va, is_u32 va -> pte_at (km_mem s') pd va =
      if (a <=? va) && (va <? a + PGSIZE * (Z.of_nat n + 1))
      then new_pte (pa + PGSIZE * ((va - a) / PGSIZE)) perm else pte_at (km_mem s) pd va.
Proof.
  revert s l a pa. induction n as [|n IH]; intros s l a pa Hv Ha Han Ham Hpa Hpan Hpam Hperm Hl Hnp.
  - rewrite Z.mul_0_r, Z.add_0_r in *.
    destruct (map_page_tables s pd l a pa perm) as (s' & l' & p & s1 & He & Hp0 & Hpr & Hst & Had & Hpt);
      [done | unfold is_u32; lia | unfold is_u32; lia | done | done | done | |].
    { specialize (Hnp 0). rewrite Z.mul_0_r, Z.add_0_r in Hnp. apply Hnp. lia. }
    exists s', l'. split_and!; [|exact Had|].
    + rewrite (mappages_round _ _ _ _ _ _ _ _ _ _ He Hp0 Hpr Hst). by rewrite Z.eqb_refl.
    + intros va Hva. apply range_cons; [done|done|]. rewrite Hpt by done. rewrite Z.mul_0_r, Z.add_0_r.
      by replace ((a + PGSIZE <=? va) && (va <? a + PGSIZE)) with false by lia.
  - set (last := a + PGSIZE * Z.of_nat (S n)) in *.
    assert (Ulast : is_u32 last) by (unfold last, is_u32, PGSIZE in *; lia).
    assert (Ua : is_u32 a) by (unfold is_u32, last, PGSIZE in *; lia).
    assert (Unext : is_u32 (a + PGSIZE)) by (unfold is_u32, last, PGSIZE in *; lia).
    pose proof (PDX_mono a last Ua Ulast ltac:(unfold last, PGSIZE; lia)) as Hmono.
    pose proof (PDX_range a Ua) as Ia. pose proof (PDX_range last Ulast) as Il.
    pose proof (missing_cons (km_mem s) pd (PDX a) (PDX last) Hmono).
    destruct (map_page_tables s pd l a pa perm) as (s1 & l1 & p & s0 & He & Hp0 & Hpr & Hst & Had1 & Hpt1);
      [done | done | unfold is_u32, PGSIZE in *; lia | done | done | | |].
    { rewrite missing_cons, (missing_nil _ _ (PDX a + 1)) by lia. lia. }
    { specialize (Hnp 0). rewrite Z.mul_0_r, Z.add_0_r in Hnp. apply Hnp. lia. }
    assert (E1 : u32 (a + PGSIZE) = a + PGSIZE) by (by apply u32_small).
    assert (E2 : u32 (pa + PGSIZE) = pa + PGSIZE) by (apply u32_small; unfold is_u32, PGSIZE in *; lia).
    assert (E3 : a + PGSIZE + PGSIZE * Z.of_nat n = last) by (unfold last; lia).
    destruct (IH s1 l1 (a + PGSIZE) (pa + PGSIZE)) as (s' & l' & He' & Had' & Hpt'); try done.
    { apply Had1. } { unfold PGSIZE in *. lia. } { rewrite E3. apply Ulast. } { by apply (page_shift a 1). }
    { unfold PGSIZE in *. lia. } { unfold PGSIZE in *. lia. } { by apply (page_shift pa 1). }
    { rewrite E3. destruct (added_rest _ _ _ _ _ _ _ Hmono Ia Il Had1) as (M1 & M2 & L).
      destruct (PDX_next a Ua Unext) as [-> | ->]; lia. }
    { intros k Hk. replace (a + PGSIZE + PGSIZE * k) with (a + PGSIZE * (k + 1)) by lia.
      rewrite Hpt1 by (unfold is_u32, last, PGSIZE in *; lia). destruct (page_shift a (k + 1) Ham) as [_ ->]; [lia|].
      destruct (Z.eqb_spec (a / PGSIZE + (k + 1)) (a / PGSIZE)); [lia|]. apply Hnp. lia. }
    rewrite E3 in He', Had'. exists s', l'. split_and!.
    + rewrite (mappages_round _ _ _ _ _ _ _ _ _ _ He Hp0 Hpr Hst).
      destruct (Z.eqb_spec a last); [unfold last, PGSIZE in *; lia|]. by rewrite E1, E2.
    + eapply added_next; [exact Hmono | done | done | exact Had1 |].
      destruct (PDX_next a Ua Unext) as [<- | <-]; [by left | by right].
    + intros va Hva. rewrite Nat2Z.inj_succ, <- Z.add_1_r. apply range_cons; [done|lia|]. by rewrite Hpt', Hpt1.
Qed.
(** There are at most as many tables as pages. *)
Lemma PDX_pages a b : is_u32 a -> is_u32 b -> a <= b -> 0 <= PDX b - PDX a <= b / PGSIZE - a / PGSIZE.
Proof.
  intros Ha Hb H. rewrite !PDX_eq by done. split; [pose proof (Z.div_le_mono a b (2 ^ 22) eq_refl H); lia|].
  assert (Hq : forall x, x / 2 ^ 22 = x / PGSIZE / 2 ^ 10) by (intros; unfold PGSIZE; rewrite Z.div_div by lia; done).
  rewrite !Hq. pose proof (Z.div_le_mono a b PGSIZE eq_refl H) as H1.
  generalize (a / PGSIZE), (b / PGSIZE), H1. clear. intros x y H. pose proof (Z_div_mod_eq_full x (2 ^ 10)).
  pose proof (Z_div_mod_eq_full y (2 ^ 10)). pose proof (Z.mod_pos_bound x (2 ^ 10) eq_refl). pose proof (Z.mod_pos_bound y (2 ^ 10) eq_refl).
  pose proof (Z.div_le_mono x y (2 ^ 10) eq_refl H). lia.
Qed.

Lemma missing_pages m pd a n :
  0 <= a -> a mod PGSIZE = 0 -> a + PGSIZE * Z.of_nat n < 2 ^ 32 ->
  (missing m pd (PDX a) (PDX (a + PGSIZE * Z.of_nat n)) <= S n)%nat.
Proof.
  intros Ha Ham Hn. assert (Ua : is_u32 a) by (unfold is_u32, PGSIZE in *; lia).
  assert (Ul : is_u32 (a + PGSIZE * Z.of_nat n)) by (unfold is_u32, PGSIZE in *; lia).
  destruct (PDX_pages a _ Ua Ul ltac:(unfold PGSIZE; lia)) as [H1 H2].
  pose proof (missing_le m pd (PDX a) (PDX (a + PGSIZE * Z.of_nat n)) ltac:(lia)).
  destruct (page_shift a (Z.of_nat n) Ham ltac:(lia)) as [_ Hd]. rewrite Hd in H2. lia.
Qed.

Lemma mappages_loop_ok n s pd l a pa perm :
  vm_ok s pd l -> 0 <= a -> a + PGSIZE * Z.of_nat n < 2 ^ 32 -> a mod PGSIZE = 0 ->
  0 <= pa -> pa + PGSIZE * Z.of_nat n < 2 ^ 32 -> pa mod PGSIZE = 0 -> 0 <= perm < PGSIZE ->
  (n < length l)%nat ->
  (forall k, 0 <= k <= Z.of_nat n -> has (pte_at (km_mem s) pd (a + PGSIZE * k)) PTE_P = false) ->
  exists s' l', mappages_loop (S n) pd a (a + PGSIZE * Z.of_nat n) pa perm s = Ret s' 0 /\ vm_ok s' pd l' /\
    (length l <= length l' + S n)%nat /\ (exists k, l' = drop k l) /\ keeps (km_mem s) pd l (km_mem s') l' /\
    forall va, is_u32 va -> pte_at (km_mem s') pd va =
      if (a <=? va) && (va <? a + PGSIZE * (Z.of_nat n + 1))
      then new_pte (pa + PGSIZE * ((va - a) / PGSIZE)) perm else pte_at (km_mem s) pd va.
Proof.
  intros Hv Ha Han Ham Hpa Hpan Hpam Hperm Hl Hnp.
  assert (Hmis : (missing (km_mem s) pd (PDX a) (PDX (a + PGSIZE * Z.of_nat n)) <= S n)%nat) by (by apply missing_pages).
  destruct (mappages_loop_tables n s pd l a pa perm) as (s' & l' & He & [O L D K _] & Hpt); try done; [lia|].
  exists s', l'. split_and!; (done || lia).
Qed.

(** mappages on a range whose pages are not mapped, with a free page for each
    table that is missing. *)
Lemma mappages_tables (s : kmem) (pd : Z) (l : list Z) (va size pa perm : Z) :
  vm_ok s pd l -> 0 <= va -> 0 < size -> va + size <= 2 ^ 32 -> 0 <= perm < PGSIZE ->
  is_u32 pa -> pa mod PGSIZE = 0 ->
  let n := (va + size - 1) / PGSIZE - va / PGSIZE in
  pa + PGSIZE * n < 2 ^ 32 -> (missing (km_mem s) pd (PDX va) (PDX (va + size - 1)) <= length l)%nat ->
  (forall x, va / PGSIZE <= x / PGSIZE <= (va + size - 1) / PGSIZE -> is_u32 x ->
     has (pte_at (km_mem s) pd x) PTE_P = false) ->
  exists s' l', mappages pd va size pa perm s = Ret s' 0 /\
    added s s' pd l l' (PDX va) (PDX (va + size - 1)) /\
    forall x, is_u32 x -> pte_at (km_mem s') pd x =
      if (va / PGSIZE <=? x / PGSIZE) && (x / PGSIZE <=? (va + size - 1) / PGSIZE)
      then new_pte (pa + PGSIZE * (x / PGSIZE - va / PGSIZE)) perm else pte_at (km_mem s) pd x.
Proof.
  intros Hv Hva Hs Hend' Hperm Hpa Hpam n Hpan Hl Hnp.
  set (a := PGSIZE * (va / PGSIZE)). assert (Ham : a mod PGSIZE = 0) by (unfold a; rewrite Z.mul_comm; by apply Z.mod_mul).
  assert (Had : a / PGSIZE = va / PGSIZE) by (unfold a; rewrite Z.mul_comm; by apply Z.div_mul).
  assert (Hq : 0 <= va / PGSIZE) by (apply Z.div_pos; [lia | done]).
  assert (Hn : 0 <= n) by (unfold n; pose proof (Z.div_le_mono va (va + size - 1) PGSIZE eq_refl ltac:(lia)); lia).
  pose proof (Z.mul_div_le (va + size - 1) PGSIZE eq_refl) as Hlast.
  assert (Han : a + PGSIZE * n <= va + size - 1) by (unfold a, n; lia).
  assert (Hpdx : PDX a = PDX va /\ PDX (a + PGSIZE * n) = PDX (va + size - 1)).
  { assert (Ua : is_u32 a) by (unfold is_u32; unfold a, PGSIZE in *; lia).
    assert (Uv : is_u32 va) by (unfold is_u32; clear -Hva Hs Hend'; lia).
    assert (Ul : is_u32 (va + size - 1)) by (unfold is_u32; clear -Hva Hs Hend'; lia).
    assert (Un : is_u32 (a + PGSIZE * n)) by (destruct Ua; unfold is_u32, PGSIZE in *; clearbody a n; lia).
    destruct (page_shift a n Ham Hn) as [_ Hd].
    split; [exact (proj1 (page_indices a va Ua Uv Had))|].
    apply (proj1 (page_indices _ _ Un Ul ltac:(rewrite Hd, Had; unfold n; lia))). }
  destruct Hpdx as [Hpdx1 Hpdx2].
  unfold mappages. rewrite !PGROUNDDOWN_spec by (unfold is_u32; lia). fold a.
  replace (PGSIZE * ((va + size - 1) / PGSIZE)) with (a + PGSIZE * n) by (unfold a, n; lia).
  replace (a + PGSIZE * n - a) with (n * PGSIZE) by lia. rewrite Z.div_mul by done.
  destruct (mappages_loop_tables (Z.to_nat n) s pd l a pa perm) as (s' & l' & He & Hadd & Hpt); try done.
  { unfold a, PGSIZE in *. lia. } { rewrite Z2Nat.id by done. lia. } { apply Hpa. } { rewrite Z2Nat.id by done. lia. } { rewrite Z2Nat.id, Hpdx1, Hpdx2 by done. lia. }
  { intros k Hk. rewrite Z2Nat.id in Hk by done. apply Hnp.
    - destruct (page_shift a k Ham) as [_ ->]; [lia|]. unfold n in Hk. lia.
    - unfold is_u32. unfold a, n, PGSIZE in *. lia. }
  exists s', l'. rewrite Z2Nat.id, Hpdx1, Hpdx2 in Hadd by done. rewrite Z2Nat.id in He by done. split_and!; try done. intros x Hx. rewrite Hpt by done.
  destruct (page_div a x Ham) as [_ ->]. rewrite Had, Z2Nat.id by done.
  assert (Hb : (a <=? x) && (x <? a + PGSIZE * (n + 1)) =
               (va / PGSIZE <=? x / PGSIZE) && (x / PGSIZE <=? (va + size - 1) / PGSIZE)); [|by rewrite Hb].
  pose proof (Z_div_mod_eq_full x PGSIZE). pose proof (Z.mod_pos_bound x PGSIZE eq_refl). unfold a, n, PGSIZE in *.
  apply eq_true_iff_eq. rewrite !andb_true_iff, !Z.leb_le, Z.ltb_lt. lia.
Qed.

(** Mappages on a range whose pages are not mapped, with
    enough free pages for the tables, returns 0 and gives exactly the pages
    that the range touches their entries, page k of the range mapped to pa
    plus k pages with the permissions and PTE_P; no other translation changes,
    and no page outside the table is written. *)
Theorem mappages_spec (s : kmem) (pd : Z) (l : list Z) (va size pa perm : Z) :
  vm_ok s pd l -> 0 <= va -> 0 < size -> va + size <= 2 ^ 32 -> 0 <= perm < PGSIZE ->
  is_u32 pa -> pa mod PGSIZE = 0 ->
  let n := (va + size - 1) / PGSIZE - va / PGSIZE in
  pa + PGSIZE * n < 2 ^ 32 -> n < Z.of_nat (length l) ->
  (forall x, va / PGSIZE <= x / PGSIZE <= (va + size - 1) / PGSIZE -> is_u32 x ->
     has (pte_at (km_mem s) pd x) PTE_P = false) ->
  exists s' l', mappages pd va size pa perm s = Ret s' 0 /\ vm_ok s' pd l' /\
    keeps (km_mem s) pd l (km_mem s') l' /\
    forall x, is_u32 x -> pte_at (km_mem s') pd x =
      if (va / PGSIZE <=? x / PGSIZE) && (x / PGSIZE <=? (va + size - 1) / PGSIZE)
      then new_pte (pa + PGSIZE * (x / PGSIZE - va / PGSIZE)) perm else pte_at (km_mem s) pd x.
Proof.
  intros Hv Hva Hs Hend' Hperm Hpa Hpam n Hpan Hl Hnp.
  assert (Uv : is_u32 va) by (unfold is_u32; lia). assert (Ul : is_u32 (va + size - 1)) by (unfold is_u32; lia).
  destruct (mappages_tables s pd l va size pa perm) as (s' & l' & He & [O _ _ K _] & Hpt); try done; [|by exists s', l'].
  destruct (PDX_pages va _ Uv Ul ltac:(lia)) as [H1 H2].
  pose proof (missing_le (km_mem s) pd (PDX va) (PDX (va + size - 1)) ltac:(lia)). unfold n in *. lia.
Qed.

(** ** Growing a process *)

(** kalloc and memset: a zeroed page outside the page table. *)
Lemma new_page s pd v l :
  vm_ok s pd (v :: l) ->
  exists s1 s2, kalloc s = Ret s1 v /\ v <> 0 /\ set_mem (fun x => memset x v 0 PGSIZE) s1 = Ret s2 tt /\
    vm_ok s2 pd l /\ outside (km_mem s2) pd l v /\ keeps (km_mem s) pd (v :: l) (km_mem s2) l /\
    (forall a, in_range v PGSIZE a = true -> km_mem s2 a = 0) /\ v ∉ l /\
    (forall va, is_u32 va -> pte_at (km_mem s2) pd va = pte_at (km_mem s) pd va).
Proof.
  intros [[Hl Hn Hlk] Hp]. destruct s as [lk ul fl m]. cbn in *. subst lk. destruct Hl as (-> & Hv & Hl).
  inversion Hn as [|? ? Hnin Hn']; subst. pose proof (page_ok_nonzero end_ Hend v Hv) as Hnz.
  set (m1 := memset m v 0 PGSIZE).
  assert (Hm1 : forall a, in_range v PGSIZE a = false -> m1 a = m a).
  { intros a Ha. unfold m1. by rewrite memset_byte, Ha. }
  assert (Hvd : v <> pd) by (intros ->; apply (po_dir_free _ _ _ Hp); by left).
  assert (Hvt : forall i, is_index i -> has (pde m pd i) PTE_P = true -> tab (pde m pd i) <> v).
  { intros i Hi Hpr E. destruct (po_tab _ _ _ Hp i Hi Hpr) as (_ & H & _). apply H. rewrite E. by left. }
  destruct (pt_ok_other m m1 pd (v :: l) l v Hp Hv Hvd) as (Hp1 & Hpde1 & Hpte1); [left; by right | exact Hvt | exact Hm1 |].
  eexists _, (mk_kmem false ul (load32 m v) m1). split.
  { rewrite kalloc_eq. apply Z.eqb_neq in Hnz. rewrite Hnz. reflexivity. }
  split; [exact Hnz|]. split; [reflexivity|]. cbn [km_mem]. split_and!.
  - split; [|exact Hp1]. split; [|done|done]. cbn. apply (is_list_outside end_ m m1 v); done.
  - split_and!; try done; try apply Hv. intros i Hi. rewrite Hpde1 by done. by apply Hvt.
  - intros q (Hq1 & Hq2 & Hq3 & Hq4). assert (Hqv : q <> v) by (intros ->; apply Hq2; by left). split.
    + split_and!; try done; try apply Hq1; [intros Hin; apply Hq2; by right|]. intros i Hi. rewrite Hpde1 by done. by apply Hq4.
    + intros a Ha. apply Hm1. by apply (pages_disjoint end_ q v).
  - intros a Ha. unfold m1. rewrite memset_byte, Ha. reflexivity.
  - exact Hnin.
  - exact Hpte1.
Qed.

Lemma mappages_one s pd a pa perm :
  is_u32 a -> a mod PGSIZE = 0 -> mappages pd a PGSIZE pa perm s = mappages_loop 1 pd a a pa perm s.
Proof.
  intros Ha Ham. pose proof (Z_div_mod_eq_full a PGSIZE) as E. unfold is_u32, PGSIZE in *.
  unfold mappages. rewrite !PGROUNDDOWN_spec by (unfold is_u32, PGSIZE; lia). unfold PGSIZE.
  replace (4096 * (a / 4096)) with a by lia.
  replace ((a + 4096 - 1) / 4096) with (a / 4096) by (apply (Z.div_unique _ _ _ 4095); lia).
  replace (4096 * (a / 4096)) with a by lia. by rewrite Z.sub_diag.
Qed.

Definition UW : Z := Z.lor PTE_W PTE_U.

(** What allocuvm builds: [vs] are the new pages, in order. *)
Record grown (s s' : kmem) (pd : Z) (l l' vs : list Z) (a : Z) : Prop := {
  gr_ok : vm_ok s' pd l';
  gr_fresh : forall v, v ∈ vs -> v ∈ l;
  gr_distinct : NoDup vs;
  gr_outside : forall v, v ∈ vs -> outside (km_mem s') pd l' v;
  gr_zero : forall v x, v ∈ vs -> in_range v PGSIZE x = true -> km_mem s' x = 0;
  gr_keeps : keeps (km_mem s) pd l (km_mem s') l';
  gr_map : forall va, is_u32 va -> pte_at (km_mem s') pd va =
    if (a <=? va) && (va <? a + PGSIZE * Z.of_nat (length vs))
    then new_pte (V2P (nth (Z.to_nat ((va - a) / PGSIZE)) vs 0)) UW else pte_at (km_mem s) pd va;
}.

Lemma grown_nil s pd l a : vm_ok s pd l -> grown s s pd l l [] a.
Proof.
  intros Hv. split; try done; [by intros v ?%elem_of_nil | constructor | by intros v ?%elem_of_nil |
    by intros v x ?%elem_of_nil |]. intros va Hva. cbn [length].
  destruct (Z.leb_spec a va), (Z.ltb_spec va (a + PGSIZE * Z.of_nat 0)); try done. unfold PGSIZE in *. lia.
Qed.

(** One more page in front. *)
Lemma grown_cons s s2 s3 s' pd v l l3 l' vs a :
  vm_ok s pd (v :: l) -> 0 <= a -> a mod PGSIZE = 0 ->
  outside (km_mem s2) pd l v -> (forall x, in_range v PGSIZE x = true -> km_mem s2 x = 0) ->
  keeps (km_mem s) pd (v :: l) (km_mem s2) l -> keeps (km_mem s2) pd l (km_mem s3) l3 ->
  (exists k, l3 = drop k l) ->
  (forall va, is_u32 va -> pte_at (km_mem s3) pd va =
     if va / PGSIZE =? a / PGSIZE then new_pte (V2P v) UW else pte_at (km_mem s) pd va) ->
  grown s3 s' pd l3 l' vs (a + PGSIZE) -> grown s s' pd (v :: l) l' (v :: vs) a.
Proof.
  intros [[_ Hnd _] _] Ha Ham Hout Hz Hk1 Hk2 [k Hdr] Hmap [Hok Hfr Hdi Hou Hze Hke Hm].
  assert (Hl3 : forall x, x ∈ l3 -> x ∈ l) by (intros x Hx; rewrite Hdr in Hx; rewrite <- (take_drop k l); set_solver).
  apply list.NoDup_cons in Hnd as [Hvl _].
  destruct (Hk2 v Hout) as [Hout3 Hmem3]. destruct (Hke v Hout3) as [Hout' Hmem'].
  split.
  - done.
  - intros w Hw. apply elem_of_cons in Hw as [->|Hw]; [by left | right; by apply Hl3, Hfr].
  - constructor; [|done]. intros Hin. by apply Hvl, Hl3, Hfr.
  - intros w Hw. apply elem_of_cons in Hw as [->|Hw]; [done | by apply Hou].
  - intros w x Hw Hx. apply elem_of_cons in Hw as [->|Hw]; [|by apply (Hze w)].
    rewrite Hmem', Hmem3 by done. by apply Hz.
  - eapply keeps_trans; [exact Hk1|]. eapply keeps_trans; [exact Hk2 | exact Hke].
  - intros va Hva. rewrite Hm, Hmap by done. cbn [length].
    destruct (page_div a va Ham) as [Hiff ->]. destruct (page_div (a + PGSIZE) va) as [_ ->]; [by apply (page_shift a 1)|].
    destruct (page_shift a 1 Ham) as [_ Ed]; [lia|]. rewrite Z.mul_1_r in Ed. rewrite Ed.
    pose proof (Z_div_mod_eq_full va PGSIZE) as Ev. pose proof (Z_div_mod_eq_full a PGSIZE) as Ea.
    pose proof (Z.mod_pos_bound va PGSIZE eq_refl) as Hb. unfold PGSIZE in *.
    destruct (Z.leb_spec (a + 4096) va), (Z.ltb_spec va (a + 4096 + 4096 * Z.of_nat (length vs))),
      (Z.eqb_spec (va / 4096) (a / 4096)), (Z.leb_spec a va), (Z.ltb_spec va (a + 4096 * Z.of_nat (S (length vs))));
      cbn [andb]; try lia; try done.
    + replace (Z.to_nat (va / 4096 - a / 4096)) with (S (Z.to_nat (va / 4096 - (a / 4096 + 1)))) by lia. done.
    + replace (Z.to_nat (va / 4096 - a / 4096)) with 0%nat by lia. done.
Qed.

Lemma allocuvm_loop_ok f n s pd l oldsz newsz a :
  (n <= f)%nat -> vm_ok s pd l -> 0 <= a -> a mod PGSIZE = 0 -> newsz < KERNBASE ->
  a + PGSIZE * (Z.of_nat n - 1) < newsz <= a + PGSIZE * Z.of_nat n \/ (n = 0%nat /\ newsz <= a) ->
  (2 * n <= length l)%nat ->
  (forall x, a <= x < a + PGSIZE * Z.of_nat n -> has (pte_at (km_mem s) pd x) PTE_P = false) ->
  exists s' l' vs, allocuvm_loop end_ f pd oldsz newsz a s = Ret s' newsz /\
    length vs = n /\ grown s s' pd l l' vs a.
Proof.
  revert f s l a. induction n as [|n IH]; intros f s l a Hf Hv Ha Ham Hk Hn Hl Hnp.
  { exists s, l, []. split_and!; [|done | by apply grown_nil]. unfold PGSIZE in Hn.
    destruct f; cbn [allocuvm_loop]; destruct (Z.ltb_spec a newsz); lia || done. }
  destruct f as [|f]; [lia|]. destruct Hn as [Hn|[? _]]; [|done]. unfold KERNBASE in Hk.
  destruct l as [|v l]; [cbn in Hl; lia|]. cbn [length] in Hl.
  destruct (new_page s pd v l Hv) as (s1 & s2 & He1 & Hnz & He2 & Hv2 & Hout & Hk1 & Hz & Hvl & Hpt2).
  assert (Hpv : page_ok end_ v) by apply Hout. destruct (P2V_V2P v Hpv) as (_ & Hvm & Hvu).
  assert (Hau : is_u32 a) by (unfold is_u32, PGSIZE in *; lia).
  destruct (mappages_loop_ok 0 s2 pd l a (V2P v) UW) as (s3 & l3 & He3 & Hv3 & Hlen3 & Hdr3 & Hk3 & Hpt3); try done; try lia.
  { unfold is_u32 in *. lia. } { apply Hvu. } { unfold is_u32 in *. lia. }
  { intros k Hk'. replace k with 0 by lia. rewrite Z.mul_0_r, Z.add_0_r, Hpt2 by done. apply Hnp. unfold PGSIZE. lia. }
  rewrite Z.mul_0_r, Z.add_0_r in He3.
  assert (Hmap : forall va, is_u32 va -> pte_at (km_mem s3) pd va =
    if va / PGSIZE =? a / PGSIZE then new_pte (V2P v) UW else pte_at (km_mem s) pd va).
  { intros va Hva. rewrite Hpt3, Hpt2 by done. destruct (page_div a va Ham) as [Hiff ->]. unfold PGSIZE in *.
    destruct (Z.eqb_spec (va / 4096) (a / 4096)) as [E|E], (Z.leb_spec a va), (Z.ltb_spec va (a + 4096 * (Z.of_nat 0 + 1)));
      cbn [andb]; try lia; try done. rewrite E, Z.sub_diag, Z.mul_0_r, Z.add_0_r. done. }
  assert (Ham' : (a + PGSIZE) mod PGSIZE = 0) by (by apply (page_shift a 1)).
  destruct (IH f s3 l3 (a + PGSIZE)) as (s' & l' & vs & He & Hlen & Hg).
  - lia.
  - done.
  - unfold PGSIZE. lia.
  - done.
  - done.
  - destruct n as [|n']; [right; split; [done|]; unfold PGSIZE in *; lia | left; unfold PGSIZE in *; lia].
  - lia.
  - intros x Hx. unfold is_u32, PGSIZE in *. rewrite Hmap by (unfold is_u32; lia). destruct (page_div a x Ham) as [Hiff _].
    unfold PGSIZE in *. destruct (Z.eqb_spec (x / 4096) (a / 4096)); [lia|]. apply Hnp. lia.
  - exists s', l', (v :: vs). split_and!; [| cbn; lia | by eapply (grown_cons s s2 s3)].
    cbn [allocuvm_loop]. destruct (Z.ltb_spec a newsz); [|unfold PGSIZE in *; lia].
    erewrite bind_ret by exact He1. destruct (Z.eqb_spec v 0); [done|]. erewrite bind_ret by exact He2.
    erewrite bind_ret by (rewrite mappages_one by done; exact He3). cbn [Z.ltb Z.compare].
    rewrite u32_small by (unfold is_u32, PGSIZE in *; lia). exact He.
Qed.

(** C21 (functional): Growing a process to newsz, with two free pages for each
    page to add and nothing mapped there yet, allocuvm returns newsz and maps
    every page from PGROUNDUP(oldsz) up to newsz, user accessible and
    writable, to its own page: the new pages were free, are pairwise distinct
    and zero, and no page in use elsewhere, nor any other translation,
    changes. *)
Theorem allocuvm_spec (s : kmem) (pd : Z) (l : list Z) (oldsz newsz : Z) :
  vm_ok s pd l -> 0 <= oldsz <= newsz -> newsz < KERNBASE ->
  let a := PGROUNDUP oldsz in
  let n := (PGROUNDUP newsz - a) / PGSIZE in
  2 * n <= Z.of_nat (length l) ->
  (forall x, a <= x < PGROUNDUP newsz -> has (pte_at (km_mem s) pd x) PTE_P = false) ->
  exists s' l' vs, allocuvm end_ pd oldsz newsz s = Ret s' newsz /\
    Z.of_nat (length vs) = n /\ grown s s' pd l l' vs a.
Proof.
  intros Hv Hsz Hk a n Hl Hnp. unfold KERNBASE in Hk.
  assert (Hup : forall x, 0 <= x < 2147483648 -> PGROUNDUP x = 4096 * ((x + 4096 - 1) / 4096)).
  { intros x Hx. rewrite PGROUNDUP_spec by (unfold PGSIZE; lia). done. }
  assert (Hb : forall x, 0 <= x < 2147483648 -> x <= PGROUNDUP x < x + 4096 /\ PGROUNDUP x mod PGSIZE = 0).
  { intros x Hx. rewrite Hup by done. pose proof (Z_div_mod_eq_full (x + 4096 - 1) 4096).
    pose proof (Z.mod_pos_bound (x + 4096 - 1) 4096 eq_refl). split; [lia|].
    rewrite Z.mul_comm. by apply Z.mod_mul. }
  destruct (Hb oldsz) as [Ho Hom]; [lia|]. destruct (Hb newsz) as [Hn Hnm]; [lia|]. fold a in Ho, Hom.
  assert (Han : PGROUNDUP newsz = a + PGSIZE * n).
  { unfold n. destruct (page_div a (PGROUNDUP newsz) Hom) as [_ ->].
    pose proof (Z_div_mod_eq_full a PGSIZE). pose proof (Z_div_mod_eq_full (PGROUNDUP newsz) PGSIZE). lia. }
  assert (Hn0 : 0 <= n).
  { unfold n. apply Z.div_pos; [|done]. unfold a. rewrite !Hup by lia.
    pose proof (Z.div_le_mono (oldsz + 4096 - 1) (newsz + 4096 - 1) 4096 eq_refl ltac:(lia)). lia. }
  set (f := S (Z.to_nat ((newsz - a) / PGSIZE))).
  assert (Hf : (Z.to_nat n <= f)%nat).
  { unfold f. pose proof (Z_div_mod_eq_full (newsz - a) PGSIZE) as Ed.
    pose proof (Z.mod_pos_bound (newsz - a) PGSIZE eq_refl) as Hm. unfold PGSIZE in *. lia. }
  destruct (allocuvm_loop_ok f (Z.to_nat n) s pd l oldsz newsz a) as (s' & l' & vs & He & Hlen & Hg); try done; try lia.
  { rewrite Z2Nat.id by done. unfold PGSIZE in *. destruct (decide (n = 0)); [right; lia | left; lia]. }
  { intros x Hx. rewrite Z2Nat.id in Hx by done. apply Hnp. lia. }
  exists s', l', vs. split_and!; [|lia | done]. unfold allocuvm. unfold KERNBASE.
  destruct (Z.leb_spec 2147483648 newsz); [lia|]. destruct (Z.ltb_spec newsz oldsz); [lia|]. exact He.
Qed.

End tables.

(** ** Witnesses *)

Definition k_end : Z := KERNBASE + 0x100000.
Definition pg (k : Z) : Z := KERNBASE + 0x200000 + PGSIZE * k.

(** Page 0 is an empty directory, pages 1 to 4 are free. *)
Definition vm_mem : mem :=
  store32 (store32 (store32 (fun _ => 0) (pg 1) (pg 2)) (pg 2) (pg 3)) (pg 3) (pg 4).
Definition vm_state : kmem := mk_kmem false true (pg 1) vm_mem.
Definition vm_free : list Z := [pg 1; pg 2; pg 3; pg 4].

Lemma pg_ok k : 0 <= k <= 4 -> page_ok k_end (pg k).
Proof.
  intros Hk. unfold page_ok, pg, k_end, V2P, KERNBASE, PHYSTOP, PGSIZE. split_and!; try (unfold is_u32; lia).
  - replace (2147483648 + 2097152 + 4096 * k) with ((524800 + k) * 4096) by lia. by apply Z.mod_mul.
  - rewrite u32_small by (unfold is_u32; lia). lia.
Qed.

Lemma vm_pde i : is_index i -> pde vm_mem (pg 0) i = 0.
Proof.
  unfold is_index, NPDENTRIES. intros Hi. unfold pde, vm_mem, pg, KERNBASE, PGSIZE.
  rewrite !load32_store32_ne by lia. reflexivity.
Qed.

Lemma vm_state_ok : vm_ok k_end vm_state (pg 0) vm_free.
Proof.
  split; [split|split].
  - cbn [freelist vm_state vm_free is_list km_mem].
    assert (E1 : load32 vm_mem (pg 1) = pg 2) by (vm_compute; reflexivity).
    assert (E2 : load32 vm_mem (pg 2) = pg 3) by (vm_compute; reflexivity).
    assert (E3 : load32 vm_mem (pg 3) = pg 4) by (vm_compute; reflexivity).
    assert (E4 : load32 vm_mem (pg 4) = 0) by (vm_compute; reflexivity).
    rewrite E1, E2, E3, E4. split_and!; try reflexivity; apply pg_ok; lia.
  - apply (bool_decide_unpack (NoDup vm_free)). vm_compute. exact I.
  - reflexivity.
  - apply pg_ok. lia.
  - unfold vm_free, pg, PGSIZE. rewrite !elem_of_cons, elem_of_nil. lia.
  - intros i Hi. cbn [km_mem vm_state]. rewrite vm_pde by done. discriminate.
  - intros i j Hi Hj. cbn [km_mem vm_state]. rewrite vm_pde by done. discriminate.
Qed.

Lemma vm_unmapped x : is_u32 x -> has (pte_at (km_mem vm_state) (pg 0) x) PTE_P = false.
Proof.
  intros Hx. unfold pte_at, pte_addr. cbn [km_mem vm_state]. rewrite vm_pde by (by apply PDX_range). reflexivity.
Qed.

Lemma k_end_ok : KERNBASE <= k_end.
Proof. unfold k_end. lia. Qed.

Lemma mappages_spec_witness :
  exists s' l', mappages (pg 0) 4096 8192 0x5000 PTE_W vm_state = Ret s' 0 /\ vm_ok k_end s' (pg 0) l'.
Proof.
  destruct (mappages_spec k_end k_end_ok vm_state (pg 0) vm_free 4096 8192 0x5000 PTE_W vm_state_ok)
    as (s' & l' & H1 & H2 & _);
    [lia | lia | lia | unfold PTE_W, PGSIZE; lia | unfold is_u32; lia | reflexivity | vm_compute; reflexivity |
     vm_compute; reflexivity | intros x _ Hx; by apply vm_unmapped |].
  exists s', l'. exact (conj H1 H2).
Defined.

Lemma allocuvm_spec_witness :
  exists (s' : kmem) (l' vs : list Z), allocuvm k_end (pg 0) 0 8000 vm_state = Ret s' 8000 /\ Z.of_nat (length vs) = 2 /\
    vm_ok k_end s' (pg 0) l'.
Proof.
  destruct (allocuvm_spec k_end k_end_ok vm_state (pg 0) vm_free 0 8000 vm_state_ok) as (s' & l' & vs & H1 & H2 & H3).
  - lia.
  - reflexivity.
  - vm_compute. discriminate.
  - intros x Hx. apply vm_unmapped. assert (E : PGROUNDUP 8000 = 8192) by (vm_compute; reflexivity).
    assert (E0 : PGROUNDUP 0 = 0) by (vm_compute; reflexivity). rewrite E, E0 in Hx. unfold is_u32. lia.
  - exists s', l', vs. exact (conj H1 (conj H2 (gr_ok _ _ _ _ _ _ _ _ H3))).
Defined.

(** uva2ka does not test the result of walkpgdir: for an address without a
    page table it takes the word at address 0 for the entry. *)
Lemma uva2ka_no_table :
  exists s, pte_addr (km_mem s) (pg 0) 0 = None /\ uva2ka (pg 0) 0 s = Ret s KERNBASE.
Proof. exists (mk_kmem false true 0 (fun a => if a =? 0 then 7 else 0)). split; vm_compute; reflexivity. Qed.
