(* ===== verification/Kvm.v ===== *)
(** The kernel's page table (setupkvm, kvmalloc and switchkvm of vm.c).

    Mapping the kernel takes one page for each four megabytes, so the free
    pages that are needed are counted by the directory entries that are
    missing, and not by the pages that are mapped. *)

From S2P Require Import Prelude Word Mem Spinlock Block Fs Kalloc Vm.

Local Open Scope Z_scope.

(** ** kvmalloc and switchkvm *)

(** kpgdir, and the register that holds the physical address of the directory
    in use. *)
Record kvm := mk_kvm { kv_mem : kmem; kpgdir : Z; kv_cr3 : Z }.

Definition switchkvm : M kvm unit := fun s => Ret (mk_kvm (kv_mem s) (kpgdir s) (V2P (kpgdir s))) tt.

Definition kvmalloc (end_ data : Z) : M kvm unit := fun s =>
  match setupkvm end_ data (kv_mem s) with
  | Ret k d => switchkvm (mk_kvm k d (kv_cr3 s))
  | Panic e => Panic e
  | Wait c k => Wait c (mk_kvm k (kpgdir s) (kv_cr3 s))
  end.


(** ** Ranges of whole pages *)

Lemma missing_app m pd lo mid hi : lo <= mid + 1 -> mid <= hi ->
  missing m pd lo hi = (missing m pd lo mid + missing m pd (mid + 1) hi)%nat.
Proof.
  intros H1 H2. unfold missing. replace (hi - lo + 1) with ((mid - lo + 1) + (hi - (mid + 1) + 1)) by lia.
  rewrite seqZ_app, filter_app, length_app by lia. replace (lo + (mid - lo + 1)) with (mid + 1) by lia. done.
Qed.

Lemma page_of_range va x : va mod PGSIZE = 0 -> 0 < PGSIZE ->
  (va / PGSIZE <= x / PGSIZE <-> va <= x) /\ (x / PGSIZE < va / PGSIZE <-> x < va).
Proof.
  intros Ha _. pose proof (Z_div_mod_eq_full va PGSIZE). pose proof (Z_div_mod_eq_full x PGSIZE).
  pose proof (Z.mod_pos_bound x PGSIZE eq_refl). unfold PGSIZE in *. lia.
Qed.

Section kvm.
Context (end_ : Z) (Hend : KERNBASE <= end_).
Notation vm_ok := (vm_ok end_).
Notation added := (added end_).

(** The pages taken from the free list are the tables that were missing in a
    range around the one that was mapped; other ranges are untouched. *)
Lemma added_budget s s' pd l l' lo hi L H :
  added s s' pd l l' lo hi -> lo <= hi -> 0 <= L -> H < NPDENTRIES -> L <= H -> L <= lo /\ hi <= H ->
  (length l + missing (km_mem s') pd L H = length l' + missing (km_mem s) pd L H)%nat.
Proof using Type.
  intros [_ Hlen _ _ Hp] Hle H0 HN HLH [H1 H2].
  rewrite (missing_app (km_mem s') pd L (lo - 1) H), (missing_app (km_mem s) pd L (lo - 1) H) by lia.
  replace (lo - 1 + 1) with lo by lia.
  rewrite (missing_app (km_mem s') pd lo hi H), (missing_app (km_mem s) pd lo hi H) by lia.
  rewrite (missing_ext (km_mem s) (km_mem s') pd L (lo - 1)) by (intros i Hi; rewrite Hp by (unfold is_index; lia); lia).
  rewrite (missing_ext (km_mem s) (km_mem s') pd (hi + 1) H) by (intros i Hi; rewrite Hp by (unfold is_index; lia); lia).
  assert (Hz : missing (km_mem s') pd lo hi = 0%nat); [|lia].
  unfold missing. rewrite (filter_ext_in _ (fun _ => false)), List.filter_false; [done|].
  intros i Hi. apply list_elem_of_In, elem_of_seqZ in Hi. rewrite Hp by (unfold is_index; lia). lia.
Qed.

Lemma added_elsewhere s s' pd l l' lo hi L H :
  added s s' pd l l' lo hi -> 0 <= L -> H < NPDENTRIES -> H < lo \/ hi < L ->
  missing (km_mem s') pd L H = missing (km_mem s) pd L H.
Proof using Type.
  intros [_ _ _ _ Hp] H0 HN Hd. apply missing_ext. intros i Hi. rewrite Hp by (unfold is_index; lia). lia.
Qed.

(** mappages on whole pages. *)
Lemma map_range s pd l va size pa perm L H :
  vm_ok s pd l -> 0 <= va -> 0 < size -> va + size <= 2 ^ 32 -> 0 <= perm < PGSIZE ->
  0 <= pa -> pa + size <= 2 ^ 32 -> va mod PGSIZE = 0 -> (va + size) mod PGSIZE = 0 -> pa mod PGSIZE = 0 ->
  0 <= L -> H < NPDENTRIES -> L <= PDX va -> PDX (va + size - 1) <= H ->
  (missing (km_mem s) pd L H <= length l)%nat ->
  (forall x, va <= x < va + size -> pte_at (km_mem s) pd x = 0) ->
  exists s' l', mappages pd va size pa perm s = Ret s' 0 /\
    added s s' pd l l' (PDX va) (PDX (va + size - 1)) /\
    (length l + missing (km_mem s') pd L H = length l' + missing (km_mem s) pd L H)%nat /\
    forall x, is_u32 x -> pte_at (km_mem s') pd x =
      if (va <=? x) && (x <? va + size) then new_pte (pa + (PGSIZE * (x / PGSIZE) - va)) perm else pte_at (km_mem s) pd x.
Proof using Hend.
  intros Hv Hva Hs He Hperm Hpa Hpe Ham Hem Hpm H0 HN HL HH Hmis Hnp.
  assert (Uv : is_u32 va) by (unfold is_u32; lia). assert (Ul : is_u32 (va + size - 1)) by (unfold is_u32; lia).
  destruct (PDX_pages va _ Uv Ul ltac:(lia)) as [Hmono _].
  assert (Hlast : (va + size - 1) / PGSIZE = (va + size) / PGSIZE - 1).
  { pose proof (Z_div_mod_eq_full (va + size) PGSIZE). symmetry. apply (Z.div_unique _ _ _ (PGSIZE - 1)); unfold PGSIZE in *; lia. }
  pose proof (Z_div_mod_eq_full va PGSIZE) as Dv. pose proof (Z_div_mod_eq_full (va + size) PGSIZE) as De.
  destruct (mappages_tables end_ Hend s pd l va size pa perm) as (s' & l' & Hr & Had & Hpt); try done.
  { unfold is_u32. lia. }
  { rewrite Hlast. unfold PGSIZE in *. lia. }
  { rewrite (missing_app _ _ L (PDX va - 1) H), (missing_app _ _ (PDX va - 1 + 1) (PDX (va + size - 1)) H) in Hmis by lia.
    replace (PDX va - 1 + 1) with (PDX va) in Hmis by lia. lia. }
  { intros x Hx _. rewrite Hnp; [done|]. rewrite Hlast in Hx. destruct (page_of_range va x Ham eq_refl), (page_of_range (va + size) x Hem eq_refl). lia. }
  exists s', l'. split_and!; [exact Hr | exact Had | by eapply added_budget; (exact Had || lia) |].
  intros x Hx. rewrite Hpt, Hlast by done. destruct (page_of_range va x Ham eq_refl) as [P1 P2], (page_of_range (va + size) x Hem eq_refl) as [Q1 Q2].
  replace ((va / PGSIZE <=? x / PGSIZE) && (x / PGSIZE <=? (va + size) / PGSIZE - 1)) with ((va <=? x) && (x <? va + size)) by lia.
  destruct ((va <=? x) && (x <? va + size)); [|done]. f_equal. unfold PGSIZE in *. lia.
Qed.

(** ** An empty directory *)

Lemma empty_dir s pd l :
  kinv end_ s (pd :: l) ->
  exists s0, kalloc s = Ret s0 pd /\ pd <> 0 /\
    let s1 := mk_kmem (km_lock s0) (use_lock s0) (freelist s0) (memset (km_mem s0) pd 0 PGSIZE) in
    vm_ok s1 pd l /\ (forall i, is_index i -> pde (km_mem s1) pd i = 0).
Proof using Hend.
  intros [Hl Hn Hlk]. destruct s as [lk ul fl m]. cbn [km_mem freelist km_lock] in *. subst lk.
  destruct Hl as (-> & Hv & Hl). inversion Hn as [|? ? Hnin Hn']; subst.
  pose proof (page_ok_nonzero end_ Hend pd Hv) as Hnz. eexists. split; [apply kalloc_eq|]. split; [exact Hnz|].
  destruct (Z.eqb_spec pd 0); [done|]. cbn [km_lock use_lock freelist km_mem].
  assert (Hz : forall i, is_index i -> pde (memset m pd 0 PGSIZE) pd i = 0).
  { intros i Hi. apply load32_zero. intros a Ha. rewrite memset_byte.
    assert (in_range pd PGSIZE a = true) as -> by (unfold in_range, is_index, NPDENTRIES, PGSIZE in *; lia). done. }
  split; [|exact Hz]. split.
  - split; [|done|done]. apply (is_list_outside end_ m _ pd); try done. intros a Ha. cbn [km_mem]. by rewrite memset_byte, Ha.
  - split; [done | done | |]; intros i; intros; by rewrite Hz in *.
Qed.

Lemma pte_at_empty m pd x : (forall i, is_index i -> pde m pd i = 0) -> is_u32 x -> pte_at m pd x = 0.
Proof using Type. intros H Hx. unfold pte_at, pte_addr. by rewrite H by (by apply PDX_range). Qed.

Lemma missing_empty m pd lo hi : (forall i, is_index i -> pde m pd i = 0) -> 0 <= lo -> hi < NPDENTRIES -> lo <= hi ->
  Z.of_nat (missing m pd lo hi) = hi - lo + 1.
Proof using Type.
  intros H H1 H2 H3. unfold missing. rewrite (filter_ext_in _ (fun _ => true)), List.filter_true, length_seqZ; [lia|].
  intros i Hi. apply list_elem_of_In, elem_of_seqZ in Hi. unfold present. by rewrite H by (unfold is_index; lia).
Qed.

(** ** setupkvm *)

(** The kernel part of every address space: low memory and the kernel's data
    writable, its text and constants read only, devices where they are, and
    nothing for users. *)
Definition kernel_pte (data x : Z) : Z :=
  let page := PGSIZE * (x / PGSIZE) in
  if DEVSPACE <=? x then new_pte page PTE_W
  else if KERNBASE + PHYSTOP <=? x then 0
  else if data <=? x then new_pte (page - KERNBASE) PTE_W
  else if KERNLINK <=? x then new_pte (page - KERNBASE) 0
  else if KERNBASE <=? x then new_pte (page - KERNBASE) PTE_W
  else 0.

(** The tables: 56 for the memory up to PHYSTOP and 8 for the devices. *)
Definition KVM_TABLES : Z := 64.

Lemma map_all_cons e es pd s s' :
  mappages pd (virt e) (u32 (phys_end e - phys_start e)) (phys_start e) (kperm e) s = Ret s' 0 ->
  map_all end_ (e :: es) pd s = map_all end_ es pd s'.
Proof using Type. intros H. cbn [map_all]. by erewrite bind_ret by exact H. Qed.

Lemma missing_zero m pd lo hi : (forall i, lo <= i <= hi -> present m pd i = true) -> missing m pd lo hi = 0%nat.
Proof using Type.
  intros H. unfold missing. rewrite (filter_ext_in _ (fun _ => false)), List.filter_false; [done|].
  intros i Hi. apply list_elem_of_In, elem_of_seqZ in Hi. by rewrite H by lia.
Qed.

Lemma data_tables data : 0x80100000 < data < 0x8E000000 ->
  512 <= PDX data <= 567 /\ 512 <= PDX (data - 1) <= 567 /\ PDX data <= PDX (data - 1) + 1.
Proof using Type.
  intros Hd. rewrite !PDX_eq by (unfold is_u32; lia). pose proof (Z_div_mod_eq_full data (2 ^ 22)). pose proof (Z_div_mod_eq_full (data - 1) (2 ^ 22)).
  pose proof (Z.mod_pos_bound data (2 ^ 22) eq_refl). pose proof (Z.mod_pos_bound (data - 1) (2 ^ 22) eq_refl). lia.
Qed.

(** The first three entries of kmap. *)
Lemma map_memory data s1 pd l :
  0x80100000 < data < 0x8E000000 -> data mod PGSIZE = 0 -> vm_ok s1 pd l ->
  (forall i, is_index i -> pde (km_mem s1) pd i = 0) -> 56 <= Z.of_nat (length l) ->
  exists s4 l4, map_all end_ (kmap data) pd s1 = map_all end_ [mk_kmap DEVSPACE DEVSPACE 0 PTE_W] pd s4 /\ vm_ok s4 pd l4 /\
    Z.of_nat (length l) = Z.of_nat (length l4) + 56 /\
    missing (km_mem s4) pd 1016 1023 = missing (km_mem s1) pd 1016 1023 /\
    forall x, is_u32 x -> pte_at (km_mem s4) pd x =
      if (0x80000000 <=? x) && (x <? 0x8E000000)
      then new_pte (PGSIZE * (x / PGSIZE) - 0x80000000) (if (0x80100000 <=? x) && (x <? data) then 0 else PTE_W) else 0.
Proof using Hend.
  intros Hd Hdm Hv0 Hpde Hl. assert (Z0 : forall x, is_u32 x -> pte_at (km_mem s1) pd x = 0) by (intros; by apply pte_at_empty).
  pose proof (missing_empty (km_mem s1) pd 512 567 Hpde ltac:(done) ltac:(done) ltac:(done)) as M1.
  pose proof (data_tables data Hd) as Dr.
  (* KERNBASE to EXTMEM *)
  destruct (map_range s1 pd l 0x80000000 0x100000 0 PTE_W 512 567) as (s2 & l2 & R2 & A2 & B2 & P2); try done; try lia.
  { intros x Hx. apply Z0. unfold is_u32. lia. }
  assert (M2 : missing (km_mem s2) pd 1016 1023 = missing (km_mem s1) pd 1016 1023)
    by (eapply added_elsewhere; [exact A2 | done | done | right; vm_compute; reflexivity]).
  (* KERNLINK to data *)
  destruct (map_range s2 pd l2 0x80100000 (data - 0x80100000) 0x100000 0 512 567) as (s3 & l3 & R3 & A3 & B3 & P3); try done; try lia.
  { apply A2. } { by replace (0x80100000 + (data - 0x80100000)) with data by lia. }
  { replace (0x80100000 + (data - 0x80100000) - 1) with (data - 1) by lia. lia. }
  { intros x Hx. rewrite P2 by (unfold is_u32; lia). replace ((0x80000000 <=? x) && (x <? 0x80000000 + 0x100000)) with false by lia.
    apply Z0. unfold is_u32. lia. }
  replace (0x80100000 + (data - 0x80100000)) with data in * by lia.
  assert (M3 : missing (km_mem s3) pd 1016 1023 = missing (km_mem s2) pd 1016 1023)
    by (eapply added_elsewhere; [exact A3 | done | done | right; lia]).
  (* data to PHYSTOP *)
  destruct (map_range s3 pd l3 data (0x8E000000 - data) (data - 0x80000000) PTE_W 512 567) as (s4 & l4 & R4 & A4 & B4 & P4); try done; try lia.
  { apply A3. } { by replace (data + (0x8E000000 - data)) with 0x8E000000 by lia. }
  { pose proof (Z_div_mod_eq_full data PGSIZE). replace (data - 0x80000000) with ((data / PGSIZE - 0x80000) * PGSIZE) by (unfold PGSIZE in *; lia). by apply Z.mod_mul. }
  { by replace (data + (0x8E000000 - data) - 1) with 0x8DFFFFFF by lia. }
  { intros x Hx. rewrite P3, P2 by (unfold is_u32; lia).
    replace ((0x80100000 <=? x) && (x <? data)) with false by lia.
    replace ((0x80000000 <=? x) && (x <? 0x80000000 + 0x100000)) with false by lia. apply Z0. unfold is_u32. lia. }
  replace (data + (0x8E000000 - data)) with 0x8E000000 in * by lia.
  assert (M4 : missing (km_mem s4) pd 1016 1023 = missing (km_mem s3) pd 1016 1023).
  { eapply added_elsewhere; [exact A4 | done | done | right; vm_compute; reflexivity]. }
  assert (Hz : missing (km_mem s4) pd 512 567 = 0%nat).
  { apply missing_zero. intros i Hi. rewrite (ad_present _ _ _ _ _ _ _ _ A4), (ad_present _ _ _ _ _ _ _ _ A3) by (unfold is_index, NPDENTRIES; lia).
    change (PDX (0x8E000000 - 1)) with 567. change (PDX 0x80100000) with 512. lia. }
  exists s4, l4. split_and!; [| apply A4 | lia | lia |].
  - unfold kmap. assert (Ev : V2P data = data - 0x80000000) by (unfold V2P, KERNBASE; apply u32_small; unfold is_u32; lia).
    rewrite (map_all_cons _ _ pd s1 s2), (map_all_cons _ _ pd s2 s3), (map_all_cons _ _ pd s3 s4); [done | | |exact R2];
      cbn [virt phys_start phys_end kperm]; rewrite Ev.
    + rewrite u32_small by (unfold is_u32, PHYSTOP; lia). rewrite <- R4. f_equal. unfold PHYSTOP. lia.
    + change (V2P KERNLINK) with 0x100000. rewrite u32_small by (unfold is_u32; lia). rewrite <- R3. f_equal. lia.
  - intros x Hx. rewrite P4, P3, P2, Z0 by done.
    replace (0 + (PGSIZE * (x / PGSIZE) - 0x80000000)) with (PGSIZE * (x / PGSIZE) - 0x80000000) by lia.
    replace (0x100000 + (PGSIZE * (x / PGSIZE) - 0x80100000)) with (PGSIZE * (x / PGSIZE) - 0x80000000) by lia.
    replace (data - 0x80000000 + (PGSIZE * (x / PGSIZE) - data)) with (PGSIZE * (x / PGSIZE) - 0x80000000) by lia.
    case_ifs; (done || lia).
Qed.

(** The kernel part of every address space. *)
Lemma setupkvm_maps data s pd l :
  KERNLINK < data < KERNBASE + PHYSTOP -> data mod PGSIZE = 0 ->
  kinv end_ s (pd :: l) -> KVM_TABLES <= Z.of_nat (length l) ->
  exists s' l', setupkvm end_ data s = Ret s' pd /\ vm_ok s' pd l' /\
    Z.of_nat (length l) = Z.of_nat (length l') + KVM_TABLES /\
    forall x, is_u32 x -> pte_at (km_mem s') pd x = kernel_pte data x.
Proof using Hend.
  unfold KVM_TABLES, KERNLINK, KERNBASE, EXTMEM, PHYSTOP. intros Hd Hdm Hk Hl.
  destruct (empty_dir s pd l Hk) as (s0 & Ha & Hnz & Hv0 & Hpde). set (s1 := mk_kmem _ _ _ _) in *.
  destruct (map_memory data s1 pd l) as (s4 & l4 & Hm & Hv4 & Hl4 & M4 & P4); try done; try lia.
  pose proof (missing_empty (km_mem s1) pd 1016 1023 Hpde ltac:(done) ltac:(done) ltac:(done)) as M1.
  destruct (map_range s4 pd l4 0xFE000000 0x2000000 0xFE000000 PTE_W 1016 1023) as (s5 & l5 & R5 & A5 & B5 & P5); try done; try lia.
  { intros x Hx. rewrite P4 by (unfold is_u32; lia). case_ifs; (done || lia). }
  assert (Hz : missing (km_mem s5) pd 1016 1023 = 0%nat).
  { apply missing_zero. intros i Hi. rewrite (ad_present _ _ _ _ _ _ _ _ A5) by (unfold is_index, NPDENTRIES; lia).
    change (PDX (0xFE000000 + 0x2000000 - 1)) with 1023. change (PDX 0xFE000000) with 1016. lia. }
  exists s5, l5. split_and!; [| apply A5 | lia |].
  - unfold setupkvm. erewrite bind_ret by exact Ha. destruct (Z.eqb_spec pd 0); [done|].
    erewrite bind_ret by reflexivity. change (DEVSPACE <? P2V PHYSTOP) with false. cbn [negb]. fold s1. rewrite Hm.
    rewrite (map_all_cons _ _ pd s4 s5); [done | exact R5].
  - intros x Hx. rewrite P5, P4 by done. unfold kernel_pte, DEVSPACE, KERNBASE, PHYSTOP, KERNLINK, KERNBASE, EXTMEM.
    replace (0xFE000000 + (PGSIZE * (x / PGSIZE) - 0xFE000000)) with (PGSIZE * (x / PGSIZE)) by lia.
    unfold is_u32 in Hx. case_ifs; (done || lia).
Qed.

(** No user program reaches the kernel's memory. *)
Lemma new_pte_kernel pa perm : pa mod PGSIZE = 0 -> Z.testbit perm 2 = false -> has (new_pte pa perm) PTE_U = false.
Proof using Type.
  intros Hpa Hp. change PTE_U with (mask 2). etransitivity; [apply (bit_test_testbit _ 2); lia|]. unfold new_pte.
  rewrite !Z.lor_spec, Hp, <- (Z.mod_pow2_bits_low pa 12 2) by lia. change (2 ^ 12) with PGSIZE. rewrite Hpa. reflexivity.
Qed.

Lemma kernel_pte_private data x : has (kernel_pte data x) PTE_U = false.
Proof using Type.
  assert (Hm : forall q, (PGSIZE * q) mod PGSIZE = 0) by (intros q; rewrite Z.mul_comm; by apply Z.mod_mul).
  assert (Hk : PGSIZE * (x / PGSIZE) - KERNBASE = PGSIZE * (x / PGSIZE - 0x80000)) by (unfold PGSIZE, KERNBASE; lia).
  unfold kernel_pte. cbv zeta. rewrite Hk. case_ifs; try apply new_pte_kernel; done.
Qed.

(** C15 (functional): The first steps of main: after kinit1 has freed the memory
    between the kernel and four megabytes, kvmalloc needs 65 pages of it and
    loads a directory that maps the low memory and the kernel's data writable,
    its text read only, the devices where they are and nothing else, with no
    page open to user mode. *)
Theorem kernel_map (data : Z) (s : kmem) (cr3 : Z) :
  KERNLINK < data < KERNBASE + PHYSTOP -> data mod PGSIZE = 0 ->
  freelist s = 0 -> end_ + 66 * PGSIZE <= P2V 0x400000 ->
  exists s1 s' l', kinit1 end_ end_ (P2V 0x400000) s = Ret s1 tt /\
    kvmalloc end_ data (mk_kvm s1 0 cr3) = Ret s' tt /\
    P2V (kv_cr3 s') = kpgdir s' /\ vm_ok (kv_mem s') (kpgdir s') l' /\
    (forall x, is_u32 x -> pte_at (km_mem (kv_mem s')) (kpgdir s') x = kernel_pte data x /\
       has (pte_at (km_mem (kv_mem s')) (kpgdir s') x) PTE_U = false).
Proof using Hend.
  change (P2V 0x400000) with 0x80400000. intros Hd Hdm Hf He. unfold PGSIZE, KERNBASE in He, Hend.
  destruct (kinit1_spec end_ Hend end_ 0x80400000 s Hf) as (s1 & Hi & Hk); [lia | unfold KERNBASE, PHYSTOP; lia|].
  assert (Hn : 65 <= (0x80400000 - PGROUNDUP end_) / PGSIZE).
  { rewrite PGROUNDUP_spec by (unfold PGSIZE; lia). pose proof (Z_div_mod_eq_full (end_ + PGSIZE - 1) PGSIZE).
    pose proof (Z.mod_pos_bound (end_ + PGSIZE - 1) PGSIZE eq_refl). apply Z.div_le_lower_bound; unfold PGSIZE in *; lia. }
  set (free := rev _) in Hk.
  assert (Hlen : 65 <= Z.of_nat (length free)).
  { unfold free. rewrite length_rev. enough (forall n p, length (pages n p) = n) as -> by lia.
    clear. induction n as [|n IH]; intros p; cbn [pages length]; [done|]. by rewrite IH. }
  destruct free as [|pd l]; [cbn in Hlen; lia|].
  destruct (setupkvm_maps data s1 pd l Hd Hdm Hk) as (s2 & l2 & Hs & Hv & _ & Hp); [unfold KVM_TABLES; cbn [length] in Hlen; lia|].
  exists s1, (mk_kvm s2 pd (V2P pd)), l2. split_and!; [exact Hi | unfold kvmalloc; cbn [kv_mem]; by rewrite Hs | | exact Hv |].
  - destruct Hk as [(_ & Hpd & _) _ _]. apply (P2V_V2P end_ Hend pd Hpd).
  - intros x Hx. cbn [kv_mem kpgdir]. rewrite Hp by done. split; [done | apply kernel_pte_private].
Qed.
End kvm.

Lemma kernel_map_witness :
  exists s1 s', kinit1 0x80115000 0x80115000 (P2V 0x400000) (mk_kmem false false 0 (fun _ => 0)) = Ret s1 tt /\
    kvmalloc 0x80115000 0x80108000 (mk_kvm s1 0 0) = Ret s' tt /\
    pte_at (km_mem (kv_mem s')) (kpgdir s') 0x80101234 = 0x101001.
Proof.
  destruct (kernel_map 0x80115000 ltac:(unfold KERNBASE; lia) 0x80108000 (mk_kmem false false 0 (fun _ => 0)) 0)
    as (s1 & s' & l' & H1 & H2 & _ & _ & H3).
  - unfold KERNLINK, KERNBASE, EXTMEM, PHYSTOP. lia.
  - reflexivity.
  - reflexivity.
  - vm_compute. discriminate.
  - exists s1, s'. split_and!; [exact H1 | exact H2|]. destruct (H3 0x80101234) as [-> _]; [unfold is_u32; lia|]. vm_compute. reflexivity.
Defined.
