(* ===== verification/Balance.v ===== *)
(** What the functions of fs.c and log.c acquire and release.

    [held] weighs the resources in use: open transactions, inode locks held and
    inode references.  Each operation changes it by a fixed amount on every
    path that returns: ilock takes a lock, iput drops a reference, readi and
    writei change nothing, and so on.  The weights are arbitrary, so the three
    counts are balanced one by one; the system calls of Sysfile.v are added up
    from these facts. *)

From S2P Require Import Prelude Word Mem Spinlock Block Log Fs FsBlocks FsInode Dir.

Local Open Scope Z_scope.

(** ** Effects on a function of the state *)

Definition keeps {S A X} (I : S -> X) (m : M S A) : Prop :=
  forall s s' a, m s = Ret s' a -> I s' = I s.

(** The change may depend on the result. *)
Definition adds {S A} (mu : S -> Z) (d : A -> Z) (m : M S A) : Prop :=
  forall s s' a, m s = Ret s' a -> mu s' = mu s + d a.

Create HintDb keeps.

Section keeps.
Context {S X : Type} (I : S -> X).

Lemma keeps_ret {A} (a : A) : keeps I (mret a).
Proof. by intros s s' a' [= <- _]. Qed.

Lemma keeps_panic {A} e : keeps I (panic (A := A) e).
Proof. done. Qed.

Lemma keeps_wait {A} c : keeps I (waiton (A := A) c).
Proof. done. Qed.

Lemma keeps_get : keeps I get.
Proof. by intros s s' a' [= <- _]. Qed.

Lemma keeps_modify f : (forall s, I (f s) = I s) -> keeps I (modify f).
Proof. intros Hf s s' a' [= <- _]. apply Hf. Qed.

Lemma keeps_bind {A B} (m : M S A) (k : A -> M S B) :
  keeps I m -> (forall a, keeps I (k a)) -> keeps I (m ≫= k).
Proof. intros Hm Hk s s' b (s1 & a & H1 & H2)%bind_inv. rewrite (Hk _ _ _ _ H2). by apply (Hm _ _ _ H1). Qed.

(** The state read by [get] is known to be the current one. *)
Lemma keeps_get_bind {B} (k : S -> M S B) :
  (forall s s' b, k s s = Ret s' b -> I s' = I s) -> keeps I (get ≫= k).
Proof. intros Hk s s' b H. by apply (Hk _ _ _ H). Qed.

End keeps.

#[export] Hint Resolve keeps_ret keeps_panic keeps_wait keeps_get : keeps.

Section adds.
Context {S : Type} (mu : S -> Z).

Lemma adds_ret {A} (d : A -> Z) (a : A) : d a = 0 -> adds mu d (mret a).
Proof. intros Hd s s' a' [= <- <-]. lia. Qed.

Lemma adds_panic {A} (d : A -> Z) e : adds mu d (panic e).
Proof. done. Qed.

Lemma adds_keeps {A} (d : A -> Z) (m : M S A) : keeps mu m -> (forall a, d a = 0) -> adds mu d m.
Proof. intros Hm Hd s s' a H. rewrite (Hm _ _ _ H), Hd. lia. Qed.

Lemma adds_eq {A} (d d' : A -> Z) (m : M S A) : adds mu d m -> (forall a, d a = d' a) -> adds mu d' m.
Proof. intros Hm Hd s s' a H. rewrite <- Hd. by apply Hm. Qed.

(** What is left for the continuation is the change less that of the first
    part. *)
Lemma adds_bind {A B} (d1 : A -> Z) (d : B -> Z) (m : M S A) (k : A -> M S B) :
  adds mu d1 m -> (forall a, adds mu (fun b => d b - d1 a) (k a)) -> adds mu d (m ≫= k).
Proof.
  intros Hm Hk s s' b (s1 & a & H1 & H2)%bind_inv. rewrite (Hk _ _ _ _ H2), (Hm _ _ _ H1). lia.
Qed.

End adds.

Create HintDb adds.
#[export] Hint Resolve adds_panic : adds.

(** A program is added up along each of its paths. *)
Ltac balance :=
  repeat first
    [ solve [apply adds_panic]
    | solve [apply adds_ret; cbn; lia]
    | solve [eapply adds_eq; [solve [auto with adds] | intros; cbn; try lia]]
    | eapply adds_bind; [solve [auto with adds]|intros ?]
    | match goal with
      | |- adds _ _ (match ?x with _ => _ end) => destruct x eqn:?
      | |- adds _ _ (if ?b then _ else _) => destruct b eqn:?
      end ].

(** Case analysis on a program until the parts are known. *)
Ltac keep :=
  repeat first
    [ solve [auto with keeps]
    | apply keeps_bind; [|intros ?]
    | match goal with
      | |- keeps _ (match ?x with _ => _ end) => destruct x
      | |- keeps _ (if ?b then _ else _) => destruct b
      | |- keeps _ (let _ := _ in _) => cbn zeta
      end ].

(** ** Operations that acquire and release nothing *)

(** The part of the state that counts: the open transactions, and for each
    inode the references and whether it is locked. *)
Definition core (s : fs) : Z * list (Z * bool) :=
  (outstanding (fl s), (fun x => (i_ref x, sl_locked (i_lock x) =? 0)) <$> inodes s).

Lemma core_alter i f s :
  (forall x, i_ref (f x) = i_ref x /\ i_lock (f x) = i_lock x) -> core (on_inode i f s) = core s.
Proof.
  intros Hf. unfold core. cbn. f_equal. apply list_eq. intros j. rewrite !list_lookup_fmap.
  destruct (decide (j = i)) as [->|Hne]; [|by rewrite list_lookup_alter_ne by done].
  rewrite list_lookup_alter_eq. destruct (inodes s !! i) as [x|]; cbn; [|done].
  destruct (Hf x) as [-> ->]. done.
Qed.

Lemma core_length s s' : core s' = core s -> length (inodes s') = length (inodes s).
Proof. intros H. apply (f_equal (length ∘ snd)) in H. cbn in H. by rewrite !length_fmap in H. Qed.

Lemma with_inode_keeps {A X} (I : fs -> X) i (k : inode -> M fs A) :
  (forall ip, keeps I (k ip)) -> keeps I (with_inode i k).
Proof. intros Hk s s' a. unfold with_inode. destruct (inodes s !! i); [apply Hk | done]. Qed.

Lemma with_inode_adds {A} (mu : fs -> Z) (d : A -> Z) i (k : inode -> M fs A) :
  (forall ip, adds mu d (k ip)) -> adds mu d (with_inode i k).
Proof. intros Hk s s' a. unfold with_inode. destruct (inodes s !! i); [apply Hk | done]. Qed.

#[export] Hint Resolve with_inode_keeps : keeps.

Lemma acquire_core : keeps core acquire.
Proof. intros s s' a. unfold acquire. cbn. destruct (ic_lock s); [done|]. by intros [= <- _]. Qed.

Lemma release_core : keeps core release.
Proof. intros s s' a. unfold release. cbn. destruct (ic_lock s); [|done]. by intros [= <- _]. Qed.

Lemma bread_core b : keeps core (bread_ b).
Proof. by intros s s' a [= <- _]. Qed.

Lemma bset_core b x : keeps core (bset_ b x).
Proof. by intros s s' a [= <- _]. Qed.

Lemma lift_log_core {A} (m : M log A) : keeps outstanding m -> keeps core (lift_log m).
Proof.
  intros Hm s s' a. unfold lift_log. destruct (m (fl s)) as [l b| |] eqn:E; [|done|done]. intros [= <- _].
  unfold core. cbn. by rewrite (Hm _ _ _ E).
Qed.

Lemma log_acquire_out : keeps outstanding acquire.
Proof. intros s s' a. unfold acquire. cbn. destruct (lg_lock s); [done|]. by intros [= <- _]. Qed.

Lemma log_release_out : keeps outstanding release.
Proof. intros s s' a. unfold release. cbn. destruct (lg_lock s); [|done]. by intros [= <- _]. Qed.

#[export] Hint Resolve acquire_core release_core bread_core bset_core log_acquire_out log_release_out : keeps.

Lemma log_write_core b : keeps core (log_write_ b).
Proof.
  apply lift_log_core. unfold log_write. keep. apply keeps_modify. intros s. cbn. by destruct (_ =? _)%nat.
Qed.
#[export] Hint Resolve log_write_core : keeps.

Lemma bzero_core b : keeps core (bzero b).
Proof. unfold bzero. keep. Qed.
#[export] Hint Resolve bzero_core : keeps.

Lemma balloc_loop_core n b : keeps core (balloc_loop n b).
Proof. revert b. induction n as [|n IH]; intros b; cbn [balloc_loop]; keep. Qed.

Lemma balloc_core : keeps core balloc.
Proof. intros s. unfold balloc. apply balloc_loop_core. Qed.

Lemma bfree_core b : keeps core (bfree b).
Proof. unfold bfree. keep. Qed.

Lemma iupdate_core i : keeps core (iupdate i).
Proof. unfold iupdate. apply with_inode_keeps. intros ip. keep. Qed.

Lemma set_addr_core i k v : keeps core (set_addr i k v).
Proof. apply keeps_modify. intros s. by apply core_alter. Qed.
#[export] Hint Resolve balloc_core bfree_core iupdate_core set_addr_core : keeps.

Lemma bmap_core i bn : keeps core (bmap i bn).
Proof. unfold bmap. apply with_inode_keeps. intros ip. keep. Qed.
#[export] Hint Resolve bmap_core : keeps.

Lemma trunc_direct_core n k i : keeps core (trunc_direct n k i).
Proof.
  revert k. induction n as [|n IH]; intros k; cbn [trunc_direct]; [keep|]. apply with_inode_keeps. intros ip. keep.
Qed.

Lemma trunc_indirect_core n j a : keeps core (trunc_indirect n j a).
Proof. revert j. induction n as [|n IH]; intros j; cbn [trunc_indirect]; keep. Qed.
#[export] Hint Resolve trunc_direct_core trunc_indirect_core : keeps.

Lemma itrunc_core i : keeps core (itrunc i).
Proof.
  unfold itrunc. keep. apply with_inode_keeps. intros ip. keep. apply keeps_modify. intros s. by apply core_alter.
Qed.
#[export] Hint Resolve itrunc_core : keeps.

Lemma readi_loop_core fuel i tot off n dst : keeps core (readi_loop fuel i tot off n dst).
Proof. revert tot off dst. induction fuel as [|fuel IH]; intros tot off dst; cbn [readi_loop]; keep. Qed.

Lemma writei_loop_core fuel i tot off n src : keeps core (writei_loop fuel i tot off n src).
Proof. revert tot off src. induction fuel as [|fuel IH]; intros tot off src; cbn [writei_loop]; keep. Qed.
#[export] Hint Resolve readi_loop_core writei_loop_core : keeps.

(** ** Operations that do *)

Lemma sleep_inner_free {A} (k : unit -> M sleeplock A) (s s' : sleeplock) r :
  (acquire ≫= k) s = Ret s' r -> sl_lk s = false.
Proof. unfold mbind, M_bind, acquire. cbn. by destruct (sl_lk s). Qed.

Section held.
(** The weights of an open transaction, a held inode lock and an inode
    reference. *)
Context (cb cl ci : Z).

Definition weight (x : Z * bool) : Z := ci * x.1 + if x.2 then 0 else cl.

Fixpoint weigh (l : list (Z * bool)) : Z :=
  match l with [] => 0 | x :: l => weight x + weigh l end.

Definition held (s : fs) : Z := cb * (core s).1 + weigh (core s).2.

Lemma keeps_held {A} (m : M fs A) : keeps core m -> adds held (fun _ => 0) m.
Proof. intros Hm s s' a H. unfold held. rewrite (Hm _ _ _ H). lia. Qed.

Lemma weigh_insert l i x y : l !! i = Some x -> weigh (<[i := y]> l) = weigh l + weight y - weight x.
Proof.
  revert i. induction l as [|z l IH]; intros i Hi; [done|].
  destruct i as [|i].
  - injection Hi as ->. cbn [insert list_insert weigh]. lia.
  - change (weight z + weigh (<[i := y]> l) = weight z + weigh l + weight y - weight x). rewrite (IH i Hi). lia.
Qed.

(** An operation whose effect is the update of one inode. *)
Lemma held_update i f s x :
  inodes s !! i = Some x ->
  held (on_inode i f s) = held s +
    (ci * (i_ref (f x) - i_ref x) +
     ((if sl_locked (i_lock (f x)) =? 0 then 0 else cl) - if sl_locked (i_lock x) =? 0 then 0 else cl)).
Proof.
  intros Hx. unfold held, core. cbn [fst snd]. unfold on_inode at 2. cbn [inodes set_inodes].
  assert (Ha : alter f i (inodes s) = <[i := f x]> (inodes s)).
  { apply list_eq. intros j. destruct (decide (j = i)) as [->|Hne].
    - rewrite list_lookup_alter_eq, list_lookup_insert_eq, Hx by (by eapply lookup_lt_Some). done.
    - by rewrite list_lookup_alter_ne, list_lookup_insert_ne. }
  rewrite Ha, list_fmap_insert. rewrite (weigh_insert _ i (i_ref x, sl_locked (i_lock x) =? 0)).
  - unfold weight. cbn. ring.
  - by rewrite list_lookup_fmap, Hx.
Qed.

Lemma begin_op_held chan : adds held (fun _ => cb) (lift_log (begin_op chan)).
Proof.
  intros s s' a. unfold lift_log. destruct (begin_op chan (fl s)) as [l b| |] eqn:E; [|done|done]. intros [= <- _].
  enough (outstanding l = outstanding (fl s) + 1) as H by (unfold held, core; cbn; rewrite H; ring).
  unfold begin_op in E. inv_bind E. pose proof (log_acquire_out _ _ _ E0) as H0.
  rewrite <- H0. apply bind_inv in E as (? & ? & [= <- <-] & E). destruct (committing s0); [inv_bind E; discriminate E|]. case_if_in E; [inv_bind E; discriminate E|].
  apply (log_release_out _ _ _) in E. exact E.
Qed.

Lemma end_op_held : adds held (fun _ => - cb) (lift_log end_op).
Proof.
  intros s s' a. unfold lift_log. destruct (end_op (fl s)) as [l b| |] eqn:E; [|done|done]. intros [= <- _].
  enough (outstanding l = outstanding (fl s) - 1) as H by (unfold held, core; cbn; rewrite H; ring).
  unfold end_op in E. inv_bind E. unfold end_op_enter in E0. inv_bind E0.
  apply log_acquire_out in E1. apply bind_inv in E0 as (? & ? & [= <- <-] & E0).
  apply bind_inv in E0 as (? & ? & [= <- <-] & E0).
  assert (H1 : outstanding s0 = outstanding (fl s) - 1).
  { rewrite <- E1. case_if_in E0; [done|]. case_if_in E0; apply bind_inv in E0 as (? & ? & [= <- <-] & E0);
      inv_bind E0; injection E0 as <- _; apply log_release_out in E2; exact E2. }
  rewrite <- H1. destruct a0; [|by injection E as <- _].
  apply bind_inv in E as (? & ? & [= <- <-] & E). unfold end_op_leave in E. inv_bind E.
  apply log_acquire_out in E2. apply bind_inv in E as (? & ? & [= <- <-] & E). apply log_release_out in E.
  rewrite E. cbn. rewrite E2. unfold commit. by destruct (0 <? lh_n s0).
Qed.

Context (mypid : Z) (lock_addr : nat -> Z).

Lemma acquire_lock_held i a : adds held (fun _ => cl) (lift_lock i (acquiresleep a mypid)).
Proof.
  unfold lift_lock. intros s s' r. unfold with_inode. destruct (inodes s !! i) as [x|] eqn:Ex; [|done].
  destruct (acquiresleep a mypid (i_lock x)) as [l u| |] eqn:E; [|done|done]. intros [= <- _].
  rewrite acquiresleep_eq in E by (by eapply sleep_inner_free). destruct (sl_locked (i_lock x) =? 0) eqn:E0; [|done].
  injection E as <- _. rewrite (held_update i _ _ x Ex). cbn. rewrite E0. lia.
Qed.

Lemma release_lock_held i s s' r :
  (exists x, inodes s !! i = Some x /\ sl_locked (i_lock x) <> 0) ->
  lift_lock i releasesleep s = Ret s' r -> held s' = held s - cl.
Proof.
  intros (x & Ex & Hl). unfold lift_lock, with_inode. rewrite Ex.
  destruct (releasesleep (i_lock x)) as [l u| |] eqn:E; [|done|done]. intros [= <- _].
  rewrite releasesleep_eq in E by (by eapply (sleep_inner_free (fun _ => _))). injection E as <- _.
  rewrite (held_update i _ _ x Ex). cbn. destruct (Z.eqb_spec (sl_locked (i_lock x)) 0); [done|]. lia.
Qed.

(** Operations that do not touch the locks find the inode as locked as it
    was. *)
Lemma core_locked i s s' :
  core s' = core s -> (exists x, inodes s !! i = Some x /\ sl_locked (i_lock x) <> 0) ->
  exists x, inodes s' !! i = Some x /\ sl_locked (i_lock x) <> 0.
Proof.
  intros Hc (x & Hx & Hl). apply (f_equal (fun c => c.2 !! i)) in Hc. cbn in Hc.
  rewrite !list_lookup_fmap, Hx in Hc. destruct (inodes s' !! i) as [y|]; [|done]. exists y. split; [done|].
  cbn in Hc. injection Hc as _ Hy. intros H0. rewrite H0 in Hy. cbn in Hy. symmetry in Hy. by apply Z.eqb_eq in Hy.
Qed.

Lemma core_in_range i s s' : core s' = core s -> is_Some (inodes s !! i) -> is_Some (inodes s' !! i).
Proof. intros Hc. rewrite !lookup_lt_is_Some. by rewrite (core_length _ _ Hc). Qed.

(** Taking the lock leaves it held. *)
Lemma acquire_lock_locked i a s s' r :
  lift_lock i (acquiresleep a mypid) s = Ret s' r -> exists x, inodes s' !! i = Some x /\ sl_locked (i_lock x) <> 0.
Proof.
  unfold lift_lock, with_inode. destruct (inodes s !! i) as [x|] eqn:Ex; [|done].
  destruct (acquiresleep a mypid (i_lock x)) as [l u| |] eqn:E; [|done|done]. intros [= <- _].
  rewrite acquiresleep_eq in E by (by eapply sleep_inner_free). destruct (sl_locked (i_lock x) =? 0); [|done].
  injection E as <- _. cbn. rewrite list_lookup_alter_eq, Ex. cbn. eauto.
Qed.

Lemma ilock_held i : adds held (fun _ => cl) (ilock mypid lock_addr i).
Proof.
  unfold ilock. apply with_inode_adds. intros ip. destruct (i_ref ip <? 1); [apply adds_panic|].
  eapply adds_bind; [apply acquire_lock_held|]. intros [].
  eapply adds_eq; [apply keeps_held|intros; cbn; lia]. apply with_inode_keeps. intros ip'. keep.
  - apply keeps_modify. intros s. by apply core_alter.
  - apply with_inode_keeps. intros ip''. keep.
Qed.

(** What iunlock does to the inode. *)
Lemma iunlock_inv i s s' r :
  iunlock mypid i s = Ret s' r ->
  exists x l, inodes s !! i = Some x /\ sl_locked (i_lock x) <> 0 /\ sl_locked l = 0 /\ s' = on_inode i (set_ilock l) s.
Proof.
  unfold iunlock, with_inode. destruct (inodes s !! i) as [x|] eqn:Ex; [|done]. intros H. inv_bind H.
  unfold lift_lock, with_inode in E. rewrite Ex in E.
  destruct (holdingsleep mypid (i_lock x)) as [l h| |] eqn:Eh; [|done|done]. injection E as <- <-.
  rewrite holdingsleep_eq in Eh by (by eapply sleep_inner_free). injection Eh as <- Eh.
  assert (Hid : on_inode i (set_ilock (i_lock x)) s = s).
  { destruct s as [? l ? ?]. unfold on_inode, set_inodes. cbn in *. f_equal. apply list_eq. intros j.
    destruct (decide (j = i)) as [->|Hne]; [|by rewrite list_lookup_alter_ne].
    rewrite list_lookup_alter_eq, Ex. by destruct x. }
  rewrite Hid in H. destruct h; cbn [negb orb] in H; [|done]. destruct (i_ref x <? 1); [done|].
  unfold lift_lock, with_inode in H. rewrite Ex in H.
  destruct (releasesleep (i_lock x)) as [l u| |] eqn:E; [|done|done]. injection H as <- _.
  rewrite releasesleep_eq in E by (by eapply (sleep_inner_free (fun _ => _))). injection E as <- _.
  exists x. eexists. split_and!; [done | | | done]; [|done].
  to_prop. unfold sl_holder in Eh. destruct (Z.eqb_spec (sl_locked (i_lock x)) 0); done.
Qed.

Lemma iunlock_held i : adds held (fun _ => - cl) (iunlock mypid i).
Proof.
  intros s s' r H. apply iunlock_inv in H as (x & l & Ex & Hx & Hl & ->). rewrite (held_update i _ s x Ex). cbn.
  rewrite Hl. cbn. destruct (Z.eqb_spec (sl_locked (i_lock x)) 0); [done|]. lia.
Qed.

Lemma held_core s s' : core s' = core s -> held s' = held s.
Proof. intros H. unfold held. by rewrite H. Qed.

Lemma iget_held dev_ inum : adds held (fun _ => ci) (iget dev_ inum).
Proof.
  intros s s' j H. unfold iget in H. inv_bind H. apply acquire_core, held_core in E. rewrite <- E. clear E.
  apply bind_inv in H as (? & ? & [= <- <-] & H).
  pose proof (iget_scan_spec dev_ inum (inodes s0) 0 None) as Hs.
  destruct (iget_scan dev_ inum (inodes s0) 0 None) as [i|[i|]]; [| |done];
    apply bind_inv in H as (? & ? & [= <- <-] & H); inv_bind H; injection H as <- <-;
    apply release_core, held_core in E; rewrite E.
  - destruct Hs as (j & x & -> & Hx & _). rewrite (held_update j _ s0 x Hx). cbn. lia.
  - destruct Hs as (_ & [?|(_ & j & x & -> & Hx & Hr)]); [done|]. rewrite (held_update j _ s0 x Hx). cbn. rewrite Hr. lia.
Qed.

Lemma idup_held i : adds held (fun _ => ci) (idup i).
Proof.
  intros s s' j H. unfold idup in H. inv_bind H. apply acquire_core, held_core in E. rewrite <- E. clear E.
  inv_bind H. unfold with_inode in E. destruct (inodes s0 !! i) as [x|] eqn:Ex; [|done]. injection E as <- <-.
  inv_bind H. injection H as <- <-. apply release_core, held_core in E. rewrite E.
  rewrite (held_update i _ s0 x Ex). cbn. lia.
Qed.

Lemma iput_held i : adds held (fun _ => - ci) (iput mypid lock_addr i).
Proof.
  intros s s' r H. unfold iput in H. inv_bind H. pose proof (acquire_lock_locked _ _ _ _ _ E) as Hl.
  apply acquire_lock_held in E. unfold with_inode at 1 in H.
  destruct Hl as (x & Hx & Hlx). rewrite Hx in H. inv_bind H. assert (Hc : core s1 = core s0).
  { revert E0. match goal with |- ?m s0 = _ -> _ => enough (keeps core m) as K by (apply K) end. keep.
    apply with_inode_keeps. intros ip. keep.
    - apply keeps_modify. intros y. by apply core_alter.
    - apply keeps_modify. intros y. by apply core_alter. }
  pose proof (held_core _ _ Hc) as Hh. pose proof (core_locked i _ _ Hc (ex_intro _ x (conj Hx Hlx))) as Hl1.
  inv_bind H. assert (Hin : is_Some (inodes s2 !! i)).
  { destruct Hl1 as (y & Hy & _). unfold lift_lock, with_inode in E1. rewrite Hy in E1.
    destruct (releasesleep (i_lock y)); [|done|done]. injection E1 as <- _. cbn.
    rewrite list_lookup_alter_eq, Hy. by eexists. }
  apply release_lock_held in E1; [|done]. inv_bind H. pose proof (acquire_core _ _ _ E2) as Hc3.
  apply (core_in_range i _ _ Hc3) in Hin as [z Hz]. apply held_core in Hc3.
  apply bind_inv in H as (? & ? & [= <- <-] & H). apply release_core, held_core in H. rewrite H.
  rewrite (held_update i _ s3 z Hz). cbn. lia.
Qed.

Lemma iunlockput_held i : adds held (fun _ => - cl - ci) (iunlockput mypid lock_addr i).
Proof.
  unfold iunlockput. eapply adds_bind; [apply iunlock_held|]. intros [].
  eapply adds_eq; [apply iput_held | intros; cbn; lia].
Qed.

Lemma ialloc_loop_held n inum dev_ ty : adds held (fun _ => ci) (ialloc_loop n inum dev_ ty).
Proof.
  revert inum. induction n as [|n IH]; intros inum; cbn [ialloc_loop]; [apply adds_panic|]. intros s.
  intros s' a H. apply bind_inv in H as (? & ? & [= <- <-] & H). apply bind_inv in H as (? & ? & [= <- <-] & H).
  case_if_in H; [|by apply (IH _ _ _ _ H)].
  apply bind_inv in H as (? & ? & E1 & H). inv_bind H.
  apply bset_core, held_core in E1. apply log_write_core, held_core in E. apply iget_held in H. lia.
Qed.

Lemma ialloc_held dev_ ty : adds held (fun _ => ci) (ialloc dev_ ty).
Proof. intros s. apply ialloc_loop_held. Qed.

(** The device switch; the drivers' functions return what they were given. *)
Context (devsw_read : Z -> option (nat -> Z -> M fs (Z * list Z))).
Context (devsw_write : Z -> option (nat -> list Z -> Z -> M fs Z)).
Context (Hdr : forall major read i n, devsw_read major = Some read -> adds held (fun _ => 0) (read i n)).
Context (Hdw : forall major write i src n, devsw_write major = Some write -> adds held (fun _ => 0) (write i src n)).

#[local] Hint Resolve ilock_held iunlock_held iget_held idup_held iput_held iunlockput_held ialloc_held : adds.
#[local] Hint Resolve with_inode_adds : adds.

Lemma readi_held i off n : adds held (fun _ => 0) (readi devsw_read i off n).
Proof.
  apply with_inode_adds. intros ip. destruct (i_type ip =? T_DEV).
  - destruct (_ || _); [by apply adds_ret|]. destruct (devsw_read _) eqn:E; [by eapply Hdr | by apply adds_ret].
  - apply keeps_held. keep.
Qed.

Lemma writei_held i src off n : adds held (fun _ => 0) (writei devsw_write i src off n).
Proof.
  apply with_inode_adds. intros ip. destruct (i_type ip =? T_DEV).
  - destruct (_ || _); [by apply adds_ret|]. destruct (devsw_write _) eqn:E; [by eapply Hdw | by apply adds_ret].
  - apply keeps_held. keep. apply with_inode_keeps. intros ip'. keep. apply keeps_modify. intros s. by apply core_alter.
Qed.
#[local] Hint Resolve readi_held writei_held : adds.

Definition one_if_some {A} (r : option A) : Z := match r with Some _ => ci | None => 0 end.

Lemma dirlookup_loop_held fuel dp name off : adds held one_if_some (dirlookup_loop devsw_read fuel dp name off).
Proof.
  revert off. induction fuel as [|fuel IH]; intros off; cbn [dirlookup_loop]; apply with_inode_adds; intros ip; balance.
Qed.

Lemma dirlookup_held dp name : adds held one_if_some (dirlookup devsw_read dp name).
Proof. apply with_inode_adds. intros ip. destruct (negb _); [apply adds_panic | apply dirlookup_loop_held]. Qed.

Lemma dirlink_loop_held fuel dp off de : adds held (fun _ => 0) (dirlink_loop devsw_read fuel dp off de).
Proof.
  revert off de. induction fuel as [|fuel IH]; intros off de; cbn [dirlink_loop]; apply with_inode_adds; intros ip; balance.
Qed.
#[local] Hint Resolve dirlookup_held dirlink_loop_held : adds.

Lemma dirlink_held de0 dp name inum :
  adds held (fun _ => 0) (dirlink mypid lock_addr devsw_read devsw_write de0 dp name inum).
Proof. unfold dirlink. balance. Qed.
#[local] Hint Resolve dirlink_held : adds.

Lemma namex_loop_held fuel ip path np name :
  adds held (fun r => one_if_some r.1 - ci) (namex_loop mypid lock_addr devsw_read fuel ip path np name).
Proof.
  revert ip path name. induction fuel as [|fuel IH]; intros ip path name; cbn [namex_loop];
    (destruct (skipelem path) as [[e rest]|]; [|balance]).
  - apply adds_panic.
  - eapply adds_bind; [auto with adds|]. intros []. apply with_inode_adds. intros x. balance.
Qed.
#[local] Hint Resolve namex_loop_held : adds.

Lemma namex_held cwd path np name :
  adds held (fun r => one_if_some r.1) (namex mypid lock_addr devsw_read cwd path np name).
Proof. unfold namex. eapply (adds_bind _ (fun _ => ci)); [destruct (bool_decide _); auto with adds|]. intros ip. balance. Qed.

Lemma namei_held cwd path : adds held one_if_some (namei mypid lock_addr devsw_read cwd path).
Proof. unfold namei. eapply adds_bind; [apply namex_held|]. intros r. apply adds_ret. lia. Qed.

End held.
