(* ===== verification/File.v ===== *)
(** The file table (file.c).

    The state is the table with its lock, the file system of Fs.v and the pool
    of pipes: a pipe pointer is an index in the pool, [None] a page that was
    freed.  A call that sleeps inside a pipe gives [Wait]; how it goes on is in
    Pipe.v. *)

From S2P Require Import Prelude Word Mem Spinlock Block Log Fs Pipe.

Local Open Scope Z_scope.

(** enum of struct file, and struct file (file.h) *)
Inductive ftype := FD_NONE | FD_PIPE | FD_INODE.

#[export] Instance ftype_eq_dec : EqDecision ftype.
Proof. solve_decision. Defined.

Record file := mk_file {
  f_type : ftype;
  f_ref : Z;
  f_readable : bool;
  f_writable : bool;
  f_pipe : nat;
  f_ip : nat;
  f_off : Z;
}.

Definition set_fref (v : Z) (f : file) : file :=
  mk_file (f_type f) v (f_readable f) (f_writable f) (f_pipe f) (f_ip f) (f_off f).
Definition set_ftype (v : ftype) (f : file) : file :=
  mk_file v (f_ref f) (f_readable f) (f_writable f) (f_pipe f) (f_ip f) (f_off f).
Definition set_foff (v : Z) (f : file) : file :=
  mk_file (f_type f) (f_ref f) (f_readable f) (f_writable f) (f_pipe f) (f_ip f) v.

Record kern := mk_kern {
  ft_lock : bool;
  files : list file;               (* ftable.file, NFILE of them *)
  kfs : fs;
  pipes : list (option pipe);
}.

#[refine, export] Instance kern_lock : HasLock kern := {|
  get_lock := ft_lock;
  set_lock b s := mk_kern b (files s) (kfs s) (pipes s);
|}.
Proof. 1-2: done. by intros []. Defined.

Definition set_files (l : list file) (s : kern) : kern := mk_kern (ft_lock s) l (kfs s) (pipes s).
Definition set_kfs (x : fs) (s : kern) : kern := mk_kern (ft_lock s) (files s) x (pipes s).
Definition set_pipes (l : list (option pipe)) (s : kern) : kern := mk_kern (ft_lock s) (files s) (kfs s) l.
Definition on_file (f : nat) (g : file -> file) (s : kern) : kern := set_files (alter g f (files s)) s.

Definition with_file {A} (f : nat) (k : file -> M kern A) : M kern A := fun s =>
  match files s !! f with Some x => k x s | None => Panic "no such file" end.

Definition lift_fs {A} (m : M fs A) : M kern A := fun s =>
  match m (kfs s) with
  | Ret x a => Ret (set_kfs x s) a
  | Panic e => Panic e
  | Wait c x => Wait c (set_kfs x s)
  end.

(** fileinit *)
Definition fileinit (s : kern) : kern := set_lock false s.

(** The scan of filealloc. *)
Fixpoint find_unused (l : list file) (f : nat) : option nat :=
  match l with
  | [] => None
  | x :: l => if f_ref x =? 0 then Some f else find_unused l (S f)
  end.

Definition filealloc : M kern (option nat) :=
  acquire ≫= fun _ =>
  get ≫= fun s =>
  match find_unused (files s) 0 with
  | Some f => put (on_file f (set_fref 1) s) ≫= fun _ => release ≫= fun _ => mret (Some f)
  | None => release ≫= fun _ => mret None
  end.

Definition filedup (f : nat) : M kern unit :=
  acquire ≫= fun _ =>
  with_file f (fun x =>
  if f_ref x <? 1 then panic "filedup"
  else modify (on_file f (set_fref (f_ref x + 1))) ≫= fun _ => release).

Section calls.
(** The running process's pid and killed flag, the addresses slept on, and the
    device switch. *)
Context (mypid : Z) (killed : bool).
Context (lock_addr : nat -> Z) (log_chan : Z) (pipe_chan : nat -> pchan -> Z).
Context (devsw_read : Z -> option (nat -> Z -> M fs (Z * list Z))).
Context (devsw_write : Z -> option (nat -> list Z -> Z -> M fs Z)).

Definition begin_op_ : M kern unit := lift_fs (lift_log (begin_op log_chan)).
Definition end_op_ : M kern unit := lift_fs (lift_log end_op).

(** pipeclose(p, writable), with the page freed when it was the last end. *)
Definition pipeclose_ (p : nat) (writable : bool) : M kern unit := fun s =>
  match pipes s !! p with
  | Some (Some x) =>
      match pipeclose writable x with
      | Ret x last => Ret (set_pipes (<[p := if last : bool then None else Some x]> (pipes s)) s) tt
      | Panic e => Panic e
      | Wait c x => Wait c (set_pipes (<[p := Some x]> (pipes s)) s)
      end
  | _ => Panic "no such pipe"
  end.

(** What a call on pipe [p] that ends with [r] returns, or where it sleeps. *)
Definition pipe_result (p : nat) (c : pchan) (r : pres) : M kern Z := fun s =>
  match r with
  | PDone x v => Ret (set_pipes (<[p := Some x]> (pipes s)) s) v
  | PSleep x _ => Wait (On (pipe_chan p c)) (set_pipes (<[p := Some x]> (pipes s)) s)
  | PStop e => Panic e
  | PSpin => Wait Spin s
  end.

Definition with_pipe {A} (p : nat) (k : pipe -> M kern A) : M kern A := fun s =>
  match pipes s !! p with Some (Some x) => k x s | _ => Panic "no such pipe" end.

Definition fileclose (f : nat) : M kern unit :=
  acquire ≫= fun _ =>
  with_file f (fun x =>
  if f_ref x <? 1 then panic "fileclose"
  else
    modify (on_file f (set_fref (f_ref x - 1))) ≫= fun _ =>
    if 0 <? f_ref x - 1 then release
    else
      with_file f (fun ff =>
      modify (on_file f (fun x => set_ftype FD_NONE (set_fref 0 x))) ≫= fun _ =>
      release ≫= fun _ =>
      match f_type ff with
      | FD_PIPE => pipeclose_ (f_pipe ff) (f_writable ff)
      | FD_INODE =>
          begin_op_ ≫= fun _ =>
          lift_fs (iput mypid lock_addr (f_ip ff)) ≫= fun _ =>
          end_op_
      | FD_NONE => mret tt
      end)).

(** pipealloc, where [pg] is the page that kalloc gives, if any; the two files,
    or -1. *)
Definition pipealloc (pg : option (list Z)) : M kern (option (nat * nat)) :=
  filealloc ≫= fun f0 =>
  match f0 with
  | None => mret None
  | Some f0 =>
      filealloc ≫= fun f1 =>
      match f1 with
      | None => fileclose f0 ≫= fun _ => mret None
      | Some f1 =>
          match pg with
          | None => fileclose f0 ≫= fun _ => fileclose f1 ≫= fun _ => mret None
          | Some junk =>
              get ≫= fun s =>
              let p := length (pipes s) in
              put (set_pipes (pipes s ++ [Some (new_pipe junk)]) s) ≫= fun _ =>
              modify (on_file f0 (fun x => mk_file FD_PIPE (f_ref x) true false p (f_ip x) (f_off x))) ≫= fun _ =>
              modify (on_file f1 (fun x => mk_file FD_PIPE (f_ref x) false true p (f_ip x) (f_off x))) ≫= fun _ =>
              mret (Some (f0, f1))
          end
      end
  end.

(** The stat structure filled in, or -1. *)
Definition filestat (f : nat) : M kern (option stat) :=
  with_file f (fun x =>
  match f_type x with
  | FD_INODE =>
      lift_fs (ilock mypid lock_addr (f_ip x)) ≫= fun _ =>
      lift_fs (with_inode (f_ip x) (fun ip => mret (stati ip))) ≫= fun st =>
      lift_fs (iunlock mypid (f_ip x)) ≫= fun _ => mret (Some st)
  | _ => mret None
  end).

(** The result, and the bytes stored at addr. *)
Definition fileread (f : nat) (n : Z) : M kern (Z * list Z) :=
  with_file f (fun x =>
  if negb (f_readable x) then mret (-1, [])
  else match f_type x with
  | FD_PIPE =>
      with_pipe (f_pipe x) (fun p =>
      let (r, bs) := piperead killed n p in
      pipe_result (f_pipe x) NRead r ≫= fun v => mret (v, bs))
  | FD_INODE =>
      lift_fs (ilock mypid lock_addr (f_ip x)) ≫= fun _ =>
      lift_fs (readi devsw_read (f_ip x) (f_off x) (u32 n)) ≫= fun r =>
      (if 0 <? r.1 then modify (on_file f (fun x => set_foff (u32 (f_off x + r.1)) x)) else mret tt) ≫= fun _ =>
      lift_fs (iunlock mypid (f_ip x)) ≫= fun _ => mret r
  | FD_NONE => panic "fileread"
  end).

Definition filewrite_max : Z := ((MAXOPBLOCKS - 1 - 1 - 2) / 2) * 512.

(** The loop of filewrite from [i]; the new i is returned.  A round that goes
    on adds n1 > 0 to i, so n rounds are enough. *)
Fixpoint filewrite_loop (fuel : nat) (f : nat) (addr : list Z) (n i : Z) : M kern Z :=
  if i <? n then
    match fuel with
    | O => panic "fuel"
    | S fuel =>
        let n1 := if filewrite_max <? n - i then filewrite_max else n - i in
        begin_op_ ≫= fun _ =>
        with_file f (fun x =>
        lift_fs (ilock mypid lock_addr (f_ip x)) ≫= fun _ =>
        lift_fs (writei devsw_write (f_ip x) (drop (Z.to_nat i) addr) (f_off x) n1) ≫= fun r =>
        (if 0 <? r then modify (on_file f (fun x => set_foff (u32 (f_off x + r)) x)) else mret tt) ≫= fun _ =>
        lift_fs (iunlock mypid (f_ip x)) ≫= fun _ =>
        end_op_ ≫= fun _ =>
        if r <? 0 then mret i
        else if negb (r =? n1) then panic "short filewrite"
        else filewrite_loop fuel f addr n (i + r))
    end
  else mret i.

Definition filewrite (f : nat) (addr : list Z) (n : Z) : M kern Z :=
  with_file f (fun x =>
  if negb (f_writable x) then mret (-1)
  else match f_type x with
  | FD_PIPE =>
      with_pipe (f_pipe x) (fun p => pipe_result (f_pipe x) NWrite (pipewrite killed addr n p))
  | FD_INODE =>
      filewrite_loop (Z.to_nat n) f addr n 0 ≫= fun i =>
      mret (if i =? n then n else -1)
  | FD_NONE => panic "filewrite"
  end).

End calls.
