(* ===== verification/Sysfile.v ===== *)
(** The file system calls (sysfile.c).

    The state is the kernel side of File.v and the calling process with its
    user memory (Signal.v), where the arguments are and where results go.
    [exec], which sys_exec calls last, is a parameter here. *)

From S2P Require Import Prelude Word Mem Proc Signal Spinlock Block Log Fs FsBlocks FsInode FsData Dir Balance Pipe File.

Local Open Scope Z_scope.

Record sys := mk_sys { ks : kern; us : ustate }.

Definition set_ks (x : kern) (s : sys) : sys := mk_sys x (us s).
Definition set_us (x : ustate) (s : sys) : sys := mk_sys (ks s) x.

Definition lift_k {A} (m : M kern A) : M sys A := fun s =>
  match m (ks s) with
  | Ret x a => Ret (set_ks x s) a
  | Panic e => Panic e
  | Wait c x => Wait c (set_ks x s)
  end.

Definition lift_f {A} (m : M Fs.fs A) : M sys A := lift_k (lift_fs m).

(** myproc()->ofile[fd] = v, and stores to user memory. *)
Definition set_fd (fd : nat) (v : option nat) : M sys unit :=
  modify (fun s => set_us (set_up (set_ofile (<[fd := v]> (ofile (up (us s)))) (up (us s))) (us s)) s).
Definition store_user (g : mem -> mem) : M sys unit :=
  modify (fun s => set_us (set_um (g (um (us s))) (us s)) s).

(** The string at an argument of argstr. *)
Definition str (s : sys) (a : Z * Z) : list Z := bytes_at (um (us s)) a.1 (Z.to_nat a.2).

(** argfd: the descriptor and the file. *)
Definition argfd (n : Z) (s : sys) : option (nat * nat) :=
  match argint n (us s) with
  | None => None
  | Some fd =>
      if (fd <? 0) || (NOFILE <=? fd) then None
      else match ofile (up (us s)) !! Z.to_nat fd with
           | Some (Some f) => Some (Z.to_nat fd, f)
           | _ => None
           end
  end.

(** The scan of fdalloc. *)
Fixpoint find_fd (l : list (option nat)) (fd : nat) : option nat :=
  match l with
  | [] => None
  | None :: _ => Some fd
  | Some _ :: l => find_fd l (S fd)
  end.

Definition fdalloc (f : nat) : M sys (option nat) := fun s =>
  match find_fd (ofile (up (us s))) 0 with
  | Some fd => (set_fd fd (Some f) ≫= fun _ => mret (Some fd)) s
  | None => Ret s None
  end.

Definition set_nlink (v : Z) (x : inode) : inode :=
  mk_inode (i_dev x) (i_inum x) (i_ref x) (i_lock x) (i_valid x) (i_type x) (i_major x) (i_minor x) v
    (i_size x) (i_addrs x).
Definition set_node (major minor nlink : Z) (x : inode) : inode :=
  mk_inode (i_dev x) (i_inum x) (i_ref x) (i_lock x) (i_valid x) (i_type x) major minor nlink
    (i_size x) (i_addrs x).

(** ip->nlink += d, then iupdate(ip) *)
Definition link_update (i : nat) (d : Z) : M Fs.fs unit :=
  modify (on_inode i (fun x => set_nlink (s16 (i_nlink x + d)) x)) ≫= fun _ => iupdate i.

(** struct stat in memory (stat.h) *)
Definition STAT_SIZE : Z := 20.
Definition store_stat (a : Z) (st : stat) (m : mem) : mem :=
  let m := store16 m a (st_type st) in
  let m := store32 m (a + 4) (st_dev st) in
  let m := store32 m (a + 8) (st_ino st) in
  let m := store16 m (a + 12) (st_nlink st) in
  store32 m (a + 16) (st_size st).

Definition dot : list Z := [46].
Definition dotdot : list Z := [46; 46].

(** namecmp(name, t) == 0, for the two strings in memory. *)
Definition name_is (name t : list Z) : bool := namecmp (stack name ([0; 0] ++ t)) 0 at_de_name =? 0.

Section calls.
Context (lock_addr : nat -> Z) (log_chan : Z) (pipe_chan : nat -> pchan -> Z).
Context (devsw_read : Z -> option (nat -> Z -> M Fs.fs (Z * list Z))).
Context (devsw_write : Z -> option (nat -> list Z -> Z -> M Fs.fs Z)).
(** What an uninitialised struct dirent holds. *)
Context (de0 : list Z).

Definition mypid (s : sys) : Z := pid (up (us s)).
Definition mykilled (s : sys) : bool := negb (killed (up (us s)) =? 0).

(** myproc()->cwd; the null pointer is no inode. *)
Definition mycwd (s : sys) : nat := match cwd (up (us s)) with Some c => c | None => length (inodes (kfs (ks s))) end.

Definition begin_op_s : M sys unit := lift_k (begin_op_ log_chan).
Definition end_op_s : M sys unit := lift_k end_op_.
Definition ilock_s (i : nat) : M sys unit := fun s => lift_f (ilock (mypid s) lock_addr i) s.
Definition iunlock_s (i : nat) : M sys unit := fun s => lift_f (iunlock (mypid s) i) s.
Definition iput_s (i : nat) : M sys unit := fun s => lift_f (iput (mypid s) lock_addr i) s.
Definition iunlockput_s (i : nat) : M sys unit := fun s => lift_f (iunlockput (mypid s) lock_addr i) s.
Definition namei_s (path : list Z) : M sys (option nat) := fun s =>
  lift_f (namei (mypid s) lock_addr devsw_read (mycwd s) path) s.
Definition nameiparent_s (path : list Z) : M sys (option nat * list Z) := fun s =>
  lift_f (nameiparent (mypid s) lock_addr devsw_read (mycwd s) path []) s.
Definition dirlink_s (dp : nat) (name : list Z) (inum : Z) : M sys Z := fun s =>
  lift_f (dirlink (mypid s) lock_addr devsw_read devsw_write de0 dp name inum) s.
Definition fileclose_s (f : nat) : M sys unit := fun s =>
  lift_k (fileclose (mypid s) lock_addr log_chan f) s.

(** The fields of *ip. *)
Definition peek_inode {A} (i : nat) (k : inode -> M sys A) : M sys A := fun s =>
  match inodes (kfs (ks s)) !! i with Some ip => k ip s | None => Panic "no such inode" end.

Definition sys_dup : M sys Z := fun s =>
  match argfd 0 s with
  | None => Ret s (-1)
  | Some (_, f) =>
      (fdalloc f ≫= fun fd =>
       match fd with
       | None => mret (-1)
       | Some fd => lift_k (filedup f) ≫= fun _ => mret (Z.of_nat fd)
       end) s
  end.

Definition sys_read : M sys Z := fun s =>
  match argfd 0 s with
  | None => Ret s (-1)
  | Some (_, f) =>
      match argint 2 (us s) with
      | None => Ret s (-1)
      | Some n =>
          match argptr 1 n (us s) with
          | None => Ret s (-1)
          | Some p =>
              (lift_k (fileread (mypid s) (mykilled s) lock_addr pipe_chan devsw_read f n) ≫= fun r =>
               store_user (fun m => blit m p r.2) ≫= fun _ => mret r.1) s
          end
      end
  end.

Definition sys_write : M sys Z := fun s =>
  match argfd 0 s with
  | None => Ret s (-1)
  | Some (_, f) =>
      match argint 2 (us s) with
      | None => Ret s (-1)
      | Some n =>
          match argptr 1 n (us s) with
          | None => Ret s (-1)
          | Some p =>
              lift_k (filewrite (mypid s) (mykilled s) lock_addr log_chan pipe_chan devsw_write f
                        (bytes_at (um (us s)) p (Z.to_nat n)) n) s
          end
      end
  end.

Definition sys_close : M sys Z := fun s =>
  match argfd 0 s with
  | None => Ret s (-1)
  | Some (fd, f) => (set_fd fd None ≫= fun _ => fileclose_s f ≫= fun _ => mret 0) s
  end.

Definition sys_fstat : M sys Z := fun s =>
  match argfd 0 s with
  | None => Ret s (-1)
  | Some (_, f) =>
      match argptr 1 STAT_SIZE (us s) with
      | None => Ret s (-1)
      | Some st =>
          (lift_k (filestat (mypid s) lock_addr f) ≫= fun r =>
           match r with
           | Some v => store_user (store_stat st v) ≫= fun _ => mret 0
           | None => mret (-1)
           end) s
      end
  end.

(** The label bad of sys_link. *)
Definition link_bad (ip : nat) : M sys Z :=
  ilock_s ip ≫= fun _ =>
  lift_f (link_update ip (-1)) ≫= fun _ =>
  iunlockput_s ip ≫= fun _ =>
  end_op_s ≫= fun _ => mret (-1).

Definition sys_link : M sys Z := fun s =>
  match argstr 0 (us s), argstr 1 (us s) with
  | Some old, Some new =>
      let (old, new) := (str s old, str s new) in
      (begin_op_s ≫= fun _ =>
       namei_s old ≫= fun r =>
       match r with
       | None => end_op_s ≫= fun _ => mret (-1)
       | Some ip =>
           ilock_s ip ≫= fun _ =>
           peek_inode ip (fun x =>
           if i_type x =? T_DIR then iunlockput_s ip ≫= fun _ => end_op_s ≫= fun _ => mret (-1)
           else
             lift_f (link_update ip 1) ≫= fun _ =>
             iunlock_s ip ≫= fun _ =>
             nameiparent_s new ≫= fun r =>
             match r.1 with
             | None => link_bad ip
             | Some dp =>
                 ilock_s dp ≫= fun _ =>
                 peek_inode dp (fun d =>
                 peek_inode ip (fun x =>
                 if negb (i_dev d =? i_dev x) then iunlockput_s dp ≫= fun _ => link_bad ip
                 else
                   dirlink_s dp r.2 (i_inum x) ≫= fun l =>
                   if l <? 0 then iunlockput_s dp ≫= fun _ => link_bad ip
                   else
                     iunlockput_s dp ≫= fun _ =>
                     iput_s ip ≫= fun _ =>
                     end_op_s ≫= fun _ => mret 0))
             end)
       end) s
  | _, _ => Ret s (-1)
  end.

(** The loop of isdirempty from [off] on. *)
Fixpoint isdirempty_loop (fuel : nat) (dp : nat) (off : Z) : M Fs.fs bool :=
  with_inode dp (fun ip =>
  if off <? i_size ip then
    match fuel with
    | O => panic "fuel"
    | S fuel =>
        readi devsw_read dp off DIRENT_SIZE ≫= fun r =>
        if negb (r.1 =? DIRENT_SIZE) then panic "isdirempty: readi"
        else if negb (load16 (stack [] r.2) at_de =? 0) then mret false
        else isdirempty_loop fuel dp (off + DIRENT_SIZE)
    end
  else mret true).

Definition isdirempty (dp : nat) : M Fs.fs bool :=
  with_inode dp (fun ip => isdirempty_loop (dir_fuel ip) dp (2 * DIRENT_SIZE)).

(** The label bad of sys_unlink. *)
Definition unlink_bad (dp : nat) : M sys Z :=
  iunlockput_s dp ≫= fun _ => end_op_s ≫= fun _ => mret (-1).

Definition sys_unlink : M sys Z := fun s =>
  match argstr 0 (us s) with
  | None => Ret s (-1)
  | Some path =>
      (begin_op_s ≫= fun _ =>
       nameiparent_s (str s path) ≫= fun r =>
       match r.1 with
       | None => end_op_s ≫= fun _ => mret (-1)
       | Some dp =>
           ilock_s dp ≫= fun _ =>
           if name_is r.2 dot || name_is r.2 dotdot then unlink_bad dp
           else
             lift_f (dirlookup devsw_read dp r.2) ≫= fun e =>
             match e with
             | None => unlink_bad dp
             | Some (ip, off) =>
                 ilock_s ip ≫= fun _ =>
                 peek_inode ip (fun x =>
                 if i_nlink x <? 1 then panic "unlink: nlink < 1"
                 else
                   (if i_type x =? T_DIR then lift_f (isdirempty ip) else mret true) ≫= fun empty : bool =>
                   if negb empty then iunlockput_s ip ≫= fun _ => unlink_bad dp
                   else
                     lift_f (writei devsw_write dp (replicate (Z.to_nat DIRENT_SIZE) 0) off DIRENT_SIZE) ≫= fun w =>
                     if negb (w =? DIRENT_SIZE) then panic "unlink: writei"
                     else
                       (if i_type x =? T_DIR then lift_f (link_update dp (-1)) else mret tt) ≫= fun _ =>
                       iunlockput_s dp ≫= fun _ =>
                       lift_f (link_update ip (-1)) ≫= fun _ =>
                       iunlockput_s ip ≫= fun _ =>
                       end_op_s ≫= fun _ => mret 0)
             end
       end) s
  end.

Definition create (path : list Z) (type major minor : Z) : M sys (option nat) :=
  nameiparent_s path ≫= fun r =>
  match r.1 with
  | None => mret None
  | Some dp =>
      ilock_s dp ≫= fun _ =>
      lift_f (dirlookup devsw_read dp r.2) ≫= fun e =>
      match e with
      | Some (ip, _) =>
          iunlockput_s dp ≫= fun _ =>
          ilock_s ip ≫= fun _ =>
          peek_inode ip (fun x =>
          if (type =? T_FILE) && (i_type x =? T_FILE) then mret (Some ip)
          else iunlockput_s ip ≫= fun _ => mret None)
      | None =>
          peek_inode dp (fun d =>
          lift_f (ialloc (i_dev d) type) ≫= fun ip =>
          ilock_s ip ≫= fun _ =>
          lift_f (modify (on_inode ip (set_node (s16 major) (s16 minor) 1)) ≫= fun _ => iupdate ip) ≫= fun _ =>
          peek_inode ip (fun x =>
          (if type =? T_DIR then
             lift_f (link_update dp 1) ≫= fun _ =>
             dirlink_s ip dot (i_inum x) ≫= fun r1 =>
             (if r1 <? 0 then panic "create dots"
              else
                dirlink_s ip dotdot (i_inum d) ≫= fun r2 =>
                if r2 <? 0 then panic "create dots" else mret tt)
           else mret tt) ≫= fun _ =>
          dirlink_s dp r.2 (i_inum x) ≫= fun r3 =>
          if r3 <? 0 then panic "create: dirlink"
          else iunlockput_s dp ≫= fun _ => mret (Some ip)))
      end
  end.

(** sys_open after the inode is found and locked. *)
Definition open_file (ip : nat) (omode : Z) : M sys Z :=
  lift_k filealloc ≫= fun f =>
  match f with
  | None => iunlockput_s ip ≫= fun _ => end_op_s ≫= fun _ => mret (-1)
  | Some f =>
      fdalloc f ≫= fun fd =>
      match fd with
      | None =>
          fileclose_s f ≫= fun _ =>
          iunlockput_s ip ≫= fun _ =>
          end_op_s ≫= fun _ => mret (-1)
      | Some fd =>
          iunlock_s ip ≫= fun _ =>
          end_op_s ≫= fun _ =>
          lift_k (modify (on_file f (fun x =>
            mk_file FD_INODE (f_ref x) (Z.land omode O_WRONLY =? 0)
              (negb (Z.land omode O_WRONLY =? 0) || negb (Z.land omode O_RDWR =? 0)) (f_pipe x) ip 0))) ≫= fun _ =>
          mret (Z.of_nat fd)
      end
  end.

Definition sys_open : M sys Z := fun s =>
  match argstr 0 (us s) with
  | None => Ret s (-1)
  | Some path =>
      match argint 1 (us s) with
      | None => Ret s (-1)
      | Some omode =>
          (begin_op_s ≫= fun _ =>
           if negb (Z.land omode O_CREATE =? 0) then
             create (str s path) T_FILE 0 0 ≫= fun r =>
             match r with
             | None => end_op_s ≫= fun _ => mret (-1)
             | Some ip => open_file ip omode
             end
           else
             namei_s (str s path) ≫= fun r =>
             match r with
             | None => end_op_s ≫= fun _ => mret (-1)
             | Some ip =>
                 ilock_s ip ≫= fun _ =>
                 peek_inode ip (fun x =>
                 if (i_type x =? T_DIR) && negb (omode =? O_RDONLY) then
                   iunlockput_s ip ≫= fun _ => end_op_s ≫= fun _ => mret (-1)
                 else open_file ip omode)
             end) s
      end
  end.

(** The common end of sys_mkdir and sys_mknod. *)
Definition made (r : option nat) : M sys Z :=
  match r with
  | None => end_op_s ≫= fun _ => mret (-1)
  | Some ip => iunlockput_s ip ≫= fun _ => end_op_s ≫= fun _ => mret 0
  end.

Definition sys_mkdir : M sys Z :=
  begin_op_s ≫= fun _ =>
  get ≫= fun s =>
  match argstr 0 (us s) with
  | None => end_op_s ≫= fun _ => mret (-1)
  | Some path => create (str s path) T_DIR 0 0 ≫= made
  end.

Definition sys_mknod : M sys Z :=
  begin_op_s ≫= fun _ =>
  get ≫= fun s =>
  match argstr 0 (us s), argint 1 (us s), argint 2 (us s) with
  | Some path, Some major, Some minor => create (str s path) T_DEV major minor ≫= made
  | _, _, _ => end_op_s ≫= fun _ => mret (-1)
  end.

Definition sys_chdir : M sys Z :=
  begin_op_s ≫= fun _ =>
  get ≫= fun s =>
  match argstr 0 (us s) with
  | None => end_op_s ≫= fun _ => mret (-1)
  | Some path =>
      namei_s (str s path) ≫= fun r =>
      match r with
      | None => end_op_s ≫= fun _ => mret (-1)
      | Some ip =>
          ilock_s ip ≫= fun _ =>
          peek_inode ip (fun x =>
          if negb (i_type x =? T_DIR) then iunlockput_s ip ≫= fun _ => end_op_s ≫= fun _ => mret (-1)
          else
            iunlock_s ip ≫= fun _ =>
            get ≫= fun s =>
            iput_s (mycwd s) ≫= fun _ =>
            end_op_s ≫= fun _ =>
            modify (fun s => set_us (set_up (set_cwd (Some ip) (up (us s))) (us s)) s) ≫= fun _ => mret 0)
      end
  end.

Context (exec : list Z -> list (list Z) -> M sys Z).

(** The loop of sys_exec from argument [i] on; [n] slots of argv are left. *)
Fixpoint exec_args (n : nat) (uargv i : Z) (s : ustate) : option (list (Z * Z)) :=
  match n with
  | O => None
  | S n =>
      match fetchint (u32 (uargv + 4 * i)) s with
      | None => None
      | Some uarg =>
          if uarg =? 0 then Some []
          else match fetchstr (u32 uarg) s with
               | None => None
               | Some a => match exec_args n uargv (i + 1) s with
                           | None => None
                           | Some l => Some (a :: l)
                           end
               end
      end
  end.

Definition sys_exec : M sys Z := fun s =>
  match argstr 0 (us s), argint 1 (us s) with
  | Some path, Some uargv =>
      match exec_args (Z.to_nat MAXARG) (u32 uargv) 0 (us s) with
      | None => Ret s (-1)
      | Some argv => exec (str s path) (map (str s) argv) s
      end
  | _, _ => Ret s (-1)
  end.

(** [pg] is the page that kalloc gives to pipealloc. *)
Definition sys_pipe (pg : option (list Z)) : M sys Z := fun s =>
  match argptr 0 8 (us s) with
  | None => Ret s (-1)
  | Some fd =>
      (lift_k (pipealloc (mypid s) lock_addr log_chan pg) ≫= fun r =>
       match r with
       | None => mret (-1)
       | Some (rf, wf) =>
           fdalloc rf ≫= fun fd0 =>
           match fd0 with
           | None => fileclose_s rf ≫= fun _ => fileclose_s wf ≫= fun _ => mret (-1)
           | Some fd0 =>
               fdalloc wf ≫= fun fd1 =>
               match fd1 with
               | None =>
                   set_fd fd0 None ≫= fun _ =>
                   fileclose_s rf ≫= fun _ => fileclose_s wf ≫= fun _ => mret (-1)
               | Some fd1 =>
                   store_user (fun m => store32 (store32 m fd (Z.of_nat fd0)) (fd + 4) (Z.of_nat fd1)) ≫= fun _ =>
                   mret 0
               end
           end
       end) s
  end.

End calls.
