(* ===== verification/FileBalance.v ===== *)
(** What the functions of file.c and sysfile.c acquire and release.

    To the resources of Balance.v the file table adds its references.  An open
    file of type FD_INODE owns one reference to its inode, and an open file
    descriptor owns one reference to its file, so the balance counts them
    against each other: every system call leaves it as it was, on every path
    that returns, successful or not.  In particular a system call never
    returns inside a transaction or with an inode locked, and its error paths
    leak neither inode nor file references. *)

From S2P Require Import Prelude Word Mem Proc Signal Spinlock Block Log Fs FsBlocks FsInode FsData Dir Balance Pipe File Sysfile.

Local Open Scope Z_scope.

(** A file that is not in use has no type. *)
Definition files_wf (l : list file) : Prop := Forall (fun x => f_ref x = 0 -> f_type x = FD_NONE) l.

Fixpoint sum_files (w : file -> Z) (l : list file) : Z :=
  match l with [] => 0 | x :: l => w x + sum_files w l end.

Lemma sum_files_insert w l i x y :
  l !! i = Some x -> sum_files w (<[i := y]> l) = sum_files w l + w y - w x.
Proof.
  revert i. induction l as [|z l IH]; intros i Hi; [done|]. destruct i as [|i].
  - injection Hi as ->. cbn [insert list_insert sum_files]. lia.
  - change (w z + sum_files w (<[i := y]> l) = w z + sum_files w l + w y - w x). rewrite (IH i Hi). lia.
Qed.

Lemma alter_is_insert {A} (f : A -> A) (i : nat) (l : list A) x : l !! i = Some x -> alter f i l = <[i := f x]> l.
Proof.
  intros Hx. apply list_eq. intros j. destruct (decide (j = i)) as [->|Hne].
  - rewrite list_lookup_alter_eq, list_lookup_insert_eq, Hx by (by eapply lookup_lt_Some). done.
  - by rewrite list_lookup_alter_ne, list_lookup_insert_ne.
Qed.

(** As [adds], for a call that keeps an invariant. *)
Definition iadds {S A} (I : S -> Prop) (mu : S -> Z) (d : A -> Z) (m : M S A) : Prop :=
  forall s s' a, I s -> m s = Ret s' a -> I s' /\ mu s' = mu s + d a.

Section iadds.
Context {S : Type} (I : S -> Prop) (mu : S -> Z).

Lemma iadds_ret {A} (d : A -> Z) (a : A) : d a = 0 -> iadds I mu d (mret a).
Proof. intros Hd s s' a' Hw [= <- <-]. split; [done | lia]. Qed.

Lemma iadds_panic {A} (d : A -> Z) e : iadds I mu d (panic e).
Proof. done. Qed.

Lemma iadds_eq {A} (d d' : A -> Z) (m : M S A) : iadds I mu d m -> (forall a, d a = d' a) -> iadds I mu d' m.
Proof. intros Hm Hd s s' a Hw H. rewrite <- Hd. by apply Hm. Qed.

Lemma iadds_bind {A B} (d1 : A -> Z) (d : B -> Z) (m : M S A) (k : A -> M S B) :
  iadds I mu d1 m -> (forall a, iadds I mu (fun b => d b - d1 a) (k a)) -> iadds I mu d (m ≫= k).
Proof.
  intros Hm Hk s s' b Hw (s1 & a & H1 & H2)%bind_inv. destruct (Hm _ _ _ Hw H1) as [Hw1 E1].
  destruct (Hk _ _ _ _ Hw1 H2) as [Hw2 E2]. split; [done | lia].
Qed.

Lemma iadds_use {A} (d : A -> Z) (m : M S A) s s' a :
  m s = Ret s' a -> I s -> iadds I mu d m -> I s' /\ mu s' = mu s + d a.
Proof. intros H Hw Hm. by apply Hm. Qed.

End iadds.

Section balance.
(** The weights of an open transaction, a held inode lock, an inode reference
    and a file reference. *)
Context (cb cl ci cf : Z).

Local Abbreviation held := (held cb cl ci).

Definition is_inode (t : ftype) : bool := match t with FD_INODE => true | _ => false end.

Definition file_weight (x : file) : Z := cf * f_ref x - if is_inode (f_type x) then ci else 0.

(** Inode references owned by open files are not counted twice. *)
Definition kheld (s : kern) : Z := held (kfs s) + sum_files file_weight (files s).

(** A call keeps the table well formed and changes the balance by [d]. *)
Local Abbreviation kadds := (iadds (fun s => files_wf (files s)) kheld).

Lemma with_file_kadds {A} (d : A -> Z) f (k : file -> M kern A) :
  (forall x, kadds d (k x)) -> kadds d (with_file f k).
Proof. intros Hk s s' a Hw. unfold with_file. destruct (files s !! f); [by apply Hk | done]. Qed.

Lemma with_pipe_kadds {A} (d : A -> Z) p (k : pipe -> M kern A) :
  (forall x, kadds d (k x)) -> kadds d (with_pipe p k).
Proof. intros Hk s s' a Hw. unfold with_pipe. destruct (pipes s !! p) as [[x|]|]; [by apply Hk | done | done]. Qed.

Lemma lift_fs_files {A} (m : M fs A) s s' a : lift_fs m s = Ret s' a -> files s' = files s.
Proof. unfold lift_fs. destruct (m (kfs s)); [|done|done]. by intros [= <- _]. Qed.

Lemma lift_fs_kadds {A} (d : A -> Z) (m : M fs A) : adds held d m -> kadds d (lift_fs m).
Proof.
  intros Hm s s' a Hw. unfold lift_fs. destruct (m (kfs s)) as [x b| |] eqn:E; [|done|done].
  intros [= <- <-]. split; [done|]. unfold kheld. cbn. rewrite (Hm _ _ _ E). lia.
Qed.

Lemma acquire_kadds : kadds (fun _ => 0) acquire.
Proof. intros s s' a Hw. unfold acquire. cbn. destruct (ft_lock s); [done|]. intros [= <- _]. unfold kheld. cbn. split; [done | lia]. Qed.

Lemma release_kadds : kadds (fun _ => 0) release.
Proof. intros s s' a Hw. unfold release. cbn. destruct (ft_lock s); [|done]. intros [= <- _]. unfold kheld. cbn. split; [done | lia]. Qed.

(** The update of one file. *)
Lemma on_file_kheld f g s x :
  files s !! f = Some x -> kheld (on_file f g s) = kheld s + file_weight (g x) - file_weight x.
Proof.
  intros Hx. unfold kheld. cbn. rewrite (alter_is_insert g f _ x Hx), (sum_files_insert _ _ f x) by done. lia.
Qed.

Lemma on_file_wf f g s x :
  files s !! f = Some x -> files_wf (files s) -> (f_ref (g x) = 0 -> f_type (g x) = FD_NONE) ->
  files_wf (files (on_file f g s)).
Proof. intros Hx Hw Hg. cbn. rewrite (alter_is_insert g f _ x Hx). by apply Forall_insert. Qed.

Lemma on_file_twice f g h s : on_file f g (on_file f h s) = on_file f (fun x => g (h x)) s.
Proof.
  unfold on_file. cbn. unfold set_files. cbn. f_equal. apply list_eq. intros j.
  destruct (decide (j = f)) as [->|Hne]; [|by rewrite !list_lookup_alter_ne].
  rewrite !list_lookup_alter_eq. by destruct (files s !! f).
Qed.

(** An update that keeps the reference count and the type. *)
Lemma set_foff_kadds f v : kadds (fun _ => 0) (modify (on_file f (fun x => set_foff (v x) x))).
Proof.
  intros s s' a Hw [= <- _]. destruct (files s !! f) as [x|] eqn:Hx.
  - split; [by eapply on_file_wf; [| |cbn; apply (proj1 (Forall_lookup _ _) Hw f x Hx)]|].
    rewrite (on_file_kheld _ _ _ x Hx). unfold file_weight. cbn. lia.
  - assert (Ha : alter (fun x => set_foff (v x) x) f (files s) = files s).
    { apply list_eq. intros j. destruct (decide (j = f)) as [->|Hne]; [by rewrite list_lookup_alter_eq, Hx | by rewrite list_lookup_alter_ne]. }
    unfold on_file, kheld. cbn. rewrite Ha. split; [done | lia].
Qed.

Create HintDb kadds.
#[local] Hint Resolve iadds_panic acquire_kadds release_kadds set_foff_kadds : kadds.
#[local] Hint Resolve lift_fs_kadds : kadds.
#[local] Hint Resolve ilock_held iunlock_held iget_held idup_held iput_held iunlockput_held ialloc_held : kadds.
#[local] Hint Resolve begin_op_held end_op_held : kadds.

Ltac kbalance :=
  repeat first
    [ solve [apply iadds_panic]
    | solve [apply iadds_ret; cbn; lia]
    | solve [eapply iadds_eq; [solve [eauto with kadds] | intros; cbn; try lia]]
    | eapply iadds_bind; [solve [eauto with kadds]|intros ?]
    | apply with_file_kadds; intros ?
    | apply with_pipe_kadds; intros ?
    | match goal with
      | |- iadds _ _ _ (match ?x with _ => _ end) => destruct x eqn:?
      | |- iadds _ _ _ (if ?b then _ else _) => destruct b eqn:?
      end ].

Lemma find_unused_spec l k :
  match find_unused l k with
  | Some f => exists j x, f = (k + j)%nat /\ l !! j = Some x /\ f_ref x = 0
  | None => Forall (fun x => f_ref x <> 0) l
  end.
Proof.
  revert k. induction l as [|x l IH]; intros k; cbn [find_unused]; [constructor|].
  destruct (Z.eqb_spec (f_ref x) 0) as [E|E]; [exists 0%nat, x; split_and!; [lia | done | done]|].
  specialize (IH (S k)). destruct (find_unused l (S k)) as [f|].
  - destruct IH as (j & y & -> & Hy & Hr). exists (S j), y. split_and!; [lia | done | done].
  - by constructor.
Qed.

Definition some_weight {A} (w : Z) (r : option A) : Z := match r with Some _ => w | None => 0 end.

(** filealloc, with what is known of the new file. *)
Lemma filealloc_post s s' r :
  files_wf (files s) -> filealloc s = Ret s' r ->
  files_wf (files s') /\ kheld s' = kheld s + some_weight cf r /\ kfs s' = kfs s /\ pipes s' = pipes s /\
  match r with
  | Some f => exists x, files s !! f = Some x /\ f_ref x = 0 /\ f_type x = FD_NONE /\
                files s' = <[f := set_fref 1 x]> (files s)
  | None => files s' = files s
  end.
Proof.
  intros Hw H. unfold filealloc in H. inv_bind H. unfold acquire in E. cbn in E. destruct (ft_lock s) eqn:El; [done|].
  injection E as <- <-. apply bind_inv in H as (? & ? & [= <- <-] & H). cbn [files set_lock kern_lock] in H.
  pose proof (find_unused_spec (files s) 0) as Hf. destruct (find_unused (files s) 0) as [f|].
  - destruct Hf as (j & x & -> & Hx & Hr). cbn [Nat.add] in H.
    apply bind_inv in H as (? & ? & [= <- <-] & H). inv_bind H. injection H as <- <-.
    unfold release in E. cbn in E. injection E as <- _.
    assert (Ht : f_type x = FD_NONE) by (by apply (proj1 (Forall_lookup _ _) Hw j x Hx)).
    split_and!; cbn; [|unfold kheld; cbn | done | done | exists x; split_and!; try done].
    + rewrite (alter_is_insert _ j _ x Hx). apply Forall_insert; [done|]. cbn. lia.
    + rewrite (alter_is_insert _ j _ x Hx), (sum_files_insert _ _ j x _ Hx). unfold file_weight. cbn. rewrite Hr. lia.
    + by apply alter_is_insert.
  - inv_bind H. injection H as <- <-. unfold release in E. cbn in E. injection E as <- _. cbn.
    split_and!; [done | unfold kheld; cbn; lia | done..].
Qed.

Lemma filealloc_kadds : kadds (some_weight cf) filealloc.
Proof. intros s s' r Hw H. by destruct (filealloc_post _ _ _ Hw H) as (? & ? & _). Qed.

Lemma filedup_kadds f : kadds (fun _ => cf) (filedup f).
Proof.
  eapply iadds_bind; [apply acquire_kadds|]. intros []. intros s s' r Hw. unfold with_file.
  destruct (files s !! f) as [x|] eqn:Hx; [|done]. destruct (Z.ltb_spec (f_ref x) 1); [done|]. intros H'.
  apply bind_inv in H' as (? & ? & [= <- <-] & H'). apply release_kadds in H' as [Hw' E].
  - split; [done|]. rewrite E, (on_file_kheld _ _ _ x Hx). unfold file_weight. cbn. lia.
  - eapply on_file_wf; [done | done|]. cbn. lia.
Qed.
#[local] Hint Resolve filealloc_kadds filedup_kadds : kadds.

Context (mypid : Z) (killed_ : bool).
Context (lock_addr : nat -> Z) (log_chan : Z) (pipe_chan : nat -> pchan -> Z).
Context (devsw_read : Z -> option (nat -> Z -> M fs (Z * list Z))).
Context (devsw_write : Z -> option (nat -> list Z -> Z -> M fs Z)).
Context (Hdr : forall major read i n, devsw_read major = Some read -> adds held (fun _ => 0) (read i n)).
Context (Hdw : forall major write i src n, devsw_write major = Some write -> adds held (fun _ => 0) (write i src n)).

Lemma begin_op_kadds : kadds (fun _ => cb) (begin_op_ log_chan).
Proof. apply lift_fs_kadds, begin_op_held. Qed.

Lemma end_op_kadds : kadds (fun _ => - cb) end_op_.
Proof. apply lift_fs_kadds, end_op_held. Qed.
#[local] Hint Resolve begin_op_kadds end_op_kadds : kadds.

Lemma pipeclose_kadds p w : kadds (fun _ => 0) (pipeclose_ p w).
Proof.
  intros s s' a Hw. unfold pipeclose_. destruct (pipes s !! p) as [[x|]|]; [|done|done].
  destruct (pipeclose w x); [|done|done]. intros [= <- _]. unfold kheld. cbn. split; [done | lia].
Qed.

Lemma pipe_result_kadds p c r : kadds (fun _ => 0) (pipe_result pipe_chan p c r).
Proof.
  intros s s' a Hw. unfold pipe_result. destruct r; [|done|done|done]. intros [= <- _].
  unfold kheld. cbn. split; [done | lia].
Qed.
#[local] Hint Resolve pipeclose_kadds pipe_result_kadds : kadds.

(** The last part of fileclose, when the file [ff] is gone. *)
Lemma close_kadds (ff : file) :
  kadds (fun _ => if is_inode (f_type ff) then - ci else 0)
    (match f_type ff with
     | FD_PIPE => pipeclose_ (f_pipe ff) (f_writable ff)
     | FD_INODE =>
         begin_op_ log_chan ≫= fun _ => lift_fs (iput mypid lock_addr (f_ip ff)) ≫= fun _ => end_op_
     | FD_NONE => mret tt
     end).
Proof. destruct (f_type ff); cbn; kbalance. Qed.

Lemma fileclose_kadds f : kadds (fun _ => - cf) (fileclose mypid lock_addr log_chan f).
Proof.
  unfold fileclose. eapply iadds_bind; [apply acquire_kadds|]. intros []. intros s s' r Hw. unfold with_file at 1.
  destruct (files s !! f) as [x|] eqn:Hx; [|done]. destruct (Z.ltb_spec (f_ref x) 1); [done|]. intros H'.
  apply bind_inv in H' as (? & ? & [= <- <-] & H'). destruct (Z.ltb_spec 0 (f_ref x - 1)) as [Hlt|Hge].
  { apply release_kadds in H' as [Hw' E]; [|eapply on_file_wf; [done | done|]; cbn; lia].
    split; [done|]. rewrite E, (on_file_kheld _ _ _ x Hx). unfold file_weight. cbn. lia. }
  unfold with_file in H'. cbn in H'. rewrite list_lookup_alter_eq, Hx in H'. cbn in H'.
  apply bind_inv in H' as (? & ? & [= <- <-] & H'). inv_bind H'. rewrite on_file_twice in E.
  apply release_kadds in E as [Hw2 E2]; [|by eapply on_file_wf].
  apply (close_kadds x) in H' as [Hw3 E3]; [|done]. split; [done|].
  rewrite E3, E2, (on_file_kheld _ _ _ x Hx). unfold file_weight. cbn.
  replace (f_ref x) with 1 by lia. destruct (is_inode (f_type x)); lia.
Qed.
#[local] Hint Resolve fileclose_kadds : kadds.

Lemma read_inode_held {A} (g : inode -> A) i : adds held (fun _ => 0) (with_inode i (fun ip => mret (g ip))).
Proof. apply with_inode_adds. intros ip. by apply adds_ret. Qed.

Lemma dev_readi i off n : adds held (fun _ => 0) (readi devsw_read i off n).
Proof. by apply readi_held. Qed.

Lemma dev_writei i src off n : adds held (fun _ => 0) (writei devsw_write i src off n).
Proof. by apply writei_held. Qed.
#[local] Hint Resolve read_inode_held dev_readi dev_writei : kadds.

Lemma filestat_kadds f : kadds (fun _ => 0) (filestat mypid lock_addr f).
Proof. unfold filestat. kbalance. Qed.

(** The advance of f->off after a transfer. *)
Lemma advance_kadds f r :
  kadds (fun _ => 0) (if 0 <? r then modify (on_file f (fun x => set_foff (u32 (f_off x + r)) x)) else mret tt).
Proof. kbalance. Qed.
#[local] Hint Resolve advance_kadds : kadds.

Lemma fileread_kadds f n : kadds (fun _ => 0) (fileread mypid killed_ lock_addr pipe_chan devsw_read f n).
Proof. unfold fileread. kbalance. Qed.

Lemma filewrite_loop_kadds fuel f addr n i :
  kadds (fun _ => 0) (filewrite_loop mypid lock_addr log_chan devsw_write fuel f addr n i).
Proof. revert i. induction fuel as [|fuel IH]; intros i; cbn [filewrite_loop]; kbalance. Qed.
#[local] Hint Resolve filewrite_loop_kadds : kadds.

Lemma filewrite_kadds f addr n :
  kadds (fun _ => 0) (filewrite mypid killed_ lock_addr log_chan pipe_chan devsw_write f addr n).
Proof. unfold filewrite. kbalance. Qed.

Lemma pipealloc_kadds pg : kadds (some_weight (2 * cf)) (pipealloc mypid lock_addr log_chan pg).
Proof.
  intros s s' r Hw H. unfold pipealloc in H. inv_bind H. destruct (filealloc_post _ _ _ Hw E) as (Hw1 & E1 & _ & Hp1 & Hf0).
  destruct a as [f0|]; [|injection H as <- <-; cbn in *; split; [done | lia]].
  inv_bind H. destruct (filealloc_post _ _ _ Hw1 E0) as (Hw2 & E2 & _ & Hp2 & Hf1). cbn in E1.
  destruct a as [f1|]; cbn in E2.
  2:{ inv_bind H. injection H as <- <-. apply fileclose_kadds in E3 as [Hw3 E3]; [|done]. cbn. split; [done | lia]. }
  destruct pg as [junk|].
  2:{ inv_bind H. apply fileclose_kadds in E3 as [Hw3 E3]; [|done]. inv_bind H. injection H as <- <-.
      apply fileclose_kadds in E4 as [Hw4 E4]; [|done]. cbn. split; [done | lia]. }
  destruct Hf0 as (x0 & Hx0 & Hr0 & Ht0 & Hs0), Hf1 as (x1 & Hx1 & Hr1 & Ht1 & Hs1).
  assert (Hne : f1 <> f0).
  { intros ->. rewrite Hs0, list_lookup_insert_eq in Hx1 by (by eapply lookup_lt_Some). injection Hx1 as <-. done. }
  apply bind_inv in H as (? & ? & [= <- <-] & H). apply bind_inv in H as (? & ? & [= <- <-] & H).
  apply bind_inv in H as (? & ? & [= <- <-] & H). apply bind_inv in H as (? & ? & [= <- <-] & H). injection H as <- <-.
  set (t0 := set_pipes _ s1).
  assert (Ht : files_wf (files t0) /\ kheld t0 = kheld s1) by done. destruct Ht as [Hwt Et].
  assert (Hy0 : files t0 !! f0 = Some (set_fref 1 x0)).
  { cbn. rewrite Hs1, list_lookup_insert_ne, Hs0, list_lookup_insert_eq by (done || by eapply lookup_lt_Some). done. }
  set (g0 := fun x => mk_file FD_PIPE _ true _ _ _ _). set (g1 := fun x => mk_file FD_PIPE _ false _ _ _ _).
  assert (Hy1 : files (on_file f0 g0 t0) !! f1 = Some (set_fref 1 x1)).
  { cbn. rewrite list_lookup_alter_ne, Hs1, list_lookup_insert_eq by (done || by eapply lookup_lt_Some). done. }
  split.
  - eapply on_file_wf; [exact Hy1 | | done]. eapply on_file_wf; [exact Hy0 | done | done].
  - rewrite (on_file_kheld _ _ _ _ Hy1), (on_file_kheld _ _ _ _ Hy0), Et, E2, E1. unfold file_weight. cbn.
    rewrite Ht0, Ht1. cbn. lia.
Qed.

End balance.

(** ** System calls *)

Definition is_open (x : option nat) : Z := match x with Some _ => 1 | None => 0 end.

Fixpoint open_fds (l : list (option nat)) : Z :=
  match l with [] => 0 | x :: l => is_open x + open_fds l end.

Lemma open_fds_insert l fd x y :
  l !! fd = Some x -> open_fds (<[fd := y]> l) = open_fds l + is_open y - is_open x.
Proof.
  revert fd. induction l as [|z l IH]; intros fd Hi; [done|]. destruct fd as [|fd].
  - injection Hi as ->. cbn [insert list_insert open_fds]. lia.
  - change (is_open z + open_fds (<[fd := y]> l) = is_open z + open_fds l + is_open y - is_open x).
    rewrite (IH fd Hi). lia.
Qed.

Lemma find_fd_spec l k :
  match find_fd l k with
  | Some fd => exists j, fd = (k + j)%nat /\ l !! j = Some None /\ forall i, (i < j)%nat -> exists f, l !! i = Some (Some f)
  | None => forall i x, l !! i = Some x -> x <> None
  end.
Proof.
  revert k. induction l as [|x l IH]; intros k; cbn [find_fd]; [done|]. destruct x as [f|].
  - specialize (IH (S k)). destruct (find_fd l (S k)) as [fd|].
    + destruct IH as (j & -> & Hj & Hlt). exists (S j). split_and!; [lia | done|]. intros [|i] Hi; [by eexists|].
      apply Hlt. lia.
    + intros [|i] x Hx; cbn in Hx; [by simplify_eq | by eapply IH].
  - exists 0%nat. split_and!; [lia | done | lia].
Qed.

Section sys.
Context (cb cl ci cf : Z).
Context (lock_addr : nat -> Z) (log_chan : Z) (pipe_chan : nat -> pchan -> Z).
Context (devsw_read : Z -> option (nat -> Z -> M Fs.fs (Z * list Z))).
Context (devsw_write : Z -> option (nat -> list Z -> Z -> M Fs.fs Z)).
Context (Hdr : forall major read i n, devsw_read major = Some read -> adds (held cb cl ci) (fun _ => 0) (read i n)).
Context (Hdw : forall major write i src n,
           devsw_write major = Some write -> adds (held cb cl ci) (fun _ => 0) (write i src n)).
Context (de0 : list Z).

(** Open descriptors own the references to their files. *)
Definition balance_of (s : sys) : Z := kheld cb cl ci cf (ks s) - cf * open_fds (ofile (up (us s))).

Local Abbreviation wf := (fun s => files_wf (files (ks s))).
Local Abbreviation sadds := (iadds wf balance_of).

Lemma lift_k_sadds {A} (d : A -> Z) (m : M kern A) :
  iadds (fun s => files_wf (files s)) (kheld cb cl ci cf) d m -> sadds d (lift_k m).
Proof.
  intros Hm s s' a Hw. unfold lift_k. destruct (m (ks s)) as [x b| |] eqn:E; [|done|done].
  intros [= <- <-]. destruct (Hm _ _ _ Hw E) as [Hw' Eb]. split; [done|]. unfold balance_of. cbn. lia.
Qed.

Lemma lift_f_sadds {A} (d : A -> Z) (m : M Fs.fs A) : adds (held cb cl ci) d m -> sadds d (lift_f m).
Proof. intros Hm. by apply lift_k_sadds, lift_fs_kadds. Qed.

Lemma lift_f_files {A} (m : M Fs.fs A) s s' a : lift_f m s = Ret s' a -> files (ks s') = files (ks s).
Proof.
  unfold lift_f, lift_k. destruct (lift_fs m (ks s)) as [k b| |] eqn:E; [|done|done]. intros [= <- _].
  by apply lift_fs_files in E.
Qed.

(** A call that reads its parameter from the state. *)
Lemma read_sadds {A X} (d : A -> Z) (g : sys -> X) (m : X -> M sys A) :
  (forall x, sadds d (m x)) -> sadds d (fun s => m (g s) s).
Proof. intros Hm s s' a. apply Hm. Qed.

Lemma get_sadds {A} (d : A -> Z) (m : sys -> M sys A) : (forall x, sadds d (m x)) -> sadds d (get ≫= m).
Proof. intros Hm s s' a. apply (Hm s). Qed.

Lemma peek_inode_sadds {A} (d : A -> Z) i (k : inode -> M sys A) :
  (forall x, sadds d (k x)) -> sadds d (peek_inode i k).
Proof. intros Hk s s' a. unfold peek_inode. destruct (inodes _ !! i); [apply Hk | done]. Qed.

Lemma store_user_sadds g : sadds (fun _ => 0) (store_user g).
Proof. intros s s' a Hw [= <- _]. split; [done|]. unfold balance_of. cbn. lia. Qed.

Lemma fdalloc_sadds f : sadds (some_weight (- cf)) (fdalloc f).
Proof.
  intros s s' r Hw. unfold fdalloc. pose proof (find_fd_spec (ofile (up (us s))) 0) as Hf.
  destruct (find_fd _ 0) as [fd|]; intros [= <- <-]; (split; [done|]); [|cbn; lia].
  destruct Hf as (j & -> & Hj & _). unfold balance_of. cbn [ks us up ofile set_us set_up set_ofile].
  rewrite (open_fds_insert _ _ None) by done. cbn. lia.
Qed.

Lemma ilock_s_sadds i : sadds (fun _ => cl) (ilock_s lock_addr i).
Proof. apply (read_sadds _ mypid (fun p => lift_f (ilock p lock_addr i))). intros p. apply lift_f_sadds, ilock_held. Qed.

Lemma iunlock_s_sadds i : sadds (fun _ => - cl) (iunlock_s i).
Proof. apply (read_sadds _ mypid (fun p => lift_f (iunlock p i))). intros p. apply lift_f_sadds, iunlock_held. Qed.

Lemma iput_s_sadds i : sadds (fun _ => - ci) (iput_s lock_addr i).
Proof. apply (read_sadds _ mypid (fun p => lift_f (iput p lock_addr i))). intros p. apply lift_f_sadds, iput_held. Qed.

Lemma iunlockput_s_sadds i : sadds (fun _ => - cl - ci) (iunlockput_s lock_addr i).
Proof. apply (read_sadds _ mypid (fun p => lift_f (iunlockput p lock_addr i))). intros p. apply lift_f_sadds, iunlockput_held. Qed.

Lemma begin_op_s_sadds : sadds (fun _ => cb) (begin_op_s log_chan).
Proof. apply lift_k_sadds, begin_op_kadds. Qed.

Lemma end_op_s_sadds : sadds (fun _ => - cb) end_op_s.
Proof. apply lift_k_sadds, end_op_kadds. Qed.

Lemma namei_s_sadds path : sadds (one_if_some ci) (namei_s lock_addr devsw_read path).
Proof.
  apply (read_sadds _ (fun s => (mypid s, mycwd s)) (fun x => lift_f (namei x.1 lock_addr devsw_read x.2 path))).
  intros p. by apply lift_f_sadds, namei_held.
Qed.

Lemma nameiparent_s_sadds path : sadds (fun r => one_if_some ci r.1) (nameiparent_s lock_addr devsw_read path).
Proof.
  apply (read_sadds _ (fun s => (mypid s, mycwd s)) (fun x => lift_f (nameiparent x.1 lock_addr devsw_read x.2 path []))).
  intros p. by apply lift_f_sadds, namex_held.
Qed.

Lemma dirlink_s_sadds dp name inum : sadds (fun _ => 0) (dirlink_s lock_addr devsw_read devsw_write de0 dp name inum).
Proof.
  apply (read_sadds _ mypid (fun p => lift_f (dirlink p lock_addr devsw_read devsw_write de0 dp name inum))).
  intros p. by apply lift_f_sadds, dirlink_held.
Qed.

Lemma fileclose_s_sadds f : sadds (fun _ => - cf) (fileclose_s lock_addr log_chan f).
Proof.
  apply (read_sadds _ mypid (fun p => lift_k (fileclose p lock_addr log_chan f))).
  intros p. apply lift_k_sadds, fileclose_kadds.
Qed.

Lemma link_update_sadds i d : sadds (fun _ => 0) (lift_f (link_update i d)).
Proof.
  apply lift_f_sadds, keeps_held. unfold link_update. keep. apply keeps_modify. intros s. by apply core_alter.
Qed.

Lemma dirlookup_s_sadds dp name : sadds (one_if_some ci) (lift_f (dirlookup devsw_read dp name)).
Proof. by apply lift_f_sadds, dirlookup_held. Qed.

Lemma ialloc_s_sadds dev_ ty : sadds (fun _ => ci) (lift_f (ialloc dev_ ty)).
Proof. apply lift_f_sadds, ialloc_held. Qed.

Lemma writei_s_sadds i src off n : sadds (fun _ => 0) (lift_f (writei devsw_write i src off n)).
Proof. by apply lift_f_sadds, writei_held. Qed.

Lemma isdirempty_loop_held fuel dp off : adds (held cb cl ci) (fun _ => 0) (isdirempty_loop devsw_read fuel dp off).
Proof.
  revert off. induction fuel as [|fuel IH]; intros off; cbn [isdirempty_loop]; apply with_inode_adds; intros ip;
    (destruct (off <? i_size ip); [|by apply adds_ret]); [apply adds_panic|].
  eapply adds_bind; [by apply readi_held|]. intros r. balance.
Qed.

Lemma isdirempty_sadds dp : sadds (fun _ => 0) (lift_f (isdirempty devsw_read dp)).
Proof. apply lift_f_sadds, with_inode_adds. intros ip. apply isdirempty_loop_held. Qed.

Lemma node_update_sadds i a b c :
  sadds (fun _ => 0) (lift_f (modify (on_inode i (set_node a b c)) ≫= fun _ => iupdate i)).
Proof. apply lift_f_sadds, keeps_held. keep. apply keeps_modify. intros s. by apply core_alter. Qed.

Create HintDb sadds discriminated.
#[local] Hint Constants Opaque : sadds.
#[local] Hint Resolve store_user_sadds fdalloc_sadds ilock_s_sadds iunlock_s_sadds iput_s_sadds iunlockput_s_sadds
  begin_op_s_sadds end_op_s_sadds namei_s_sadds nameiparent_s_sadds dirlink_s_sadds fileclose_s_sadds
  link_update_sadds dirlookup_s_sadds ialloc_s_sadds writei_s_sadds isdirempty_sadds node_update_sadds : sadds.

(** The sum along one path. *)
Ltac path_sum :=
  intros; cbv beta;
  repeat match goal with H : _ = Some _ |- _ => rewrite H | H : _ = None |- _ => rewrite H end; cbn; lia.

Ltac sbalance :=
  repeat first
    [ match goal with
      | |- iadds _ _ _ (panic _) => apply iadds_panic
      | |- iadds _ _ _ (mret _) => solve [apply iadds_ret; path_sum]
      | |- iadds _ _ _ (peek_inode _ _) => apply peek_inode_sadds; intros ?
      | |- iadds _ _ _ (mbind _ get) => apply get_sadds; intros ?
      | |- iadds _ _ _ (mbind _ _) => eapply iadds_bind; [solve [auto with sadds]|intros ?]
      end
    | solve [eapply iadds_eq; [solve [auto with sadds] | path_sum]]
    | match goal with
      | |- iadds _ _ _ (mbind _ (if _ then _ else _)) =>
          eapply (iadds_bind _ _ (fun _ => 0)); [solve [sbalance]|intros ?]
      | |- iadds _ _ _ (match ?x with _ => _ end) => destruct x eqn:?
      | |- iadds _ _ _ (if ?b then _ else _) => destruct b eqn:?
      end ].

Lemma create_sadds path type major minor :
  sadds (some_weight (ci + cl)) (create lock_addr devsw_read devsw_write de0 path type major minor).
Proof. unfold create. sbalance. Qed.

Lemma link_bad_sadds ip : sadds (fun _ => - ci - cb) (link_bad lock_addr ip).
Proof. unfold link_bad. sbalance. Qed.

Lemma unlink_bad_sadds dp : sadds (fun _ => - cl - ci - cb) (unlink_bad lock_addr dp).
Proof. unfold unlink_bad. sbalance. Qed.

Lemma made_sadds r : sadds (fun _ => - some_weight (ci + cl) r - cb) (made lock_addr r).
Proof. unfold made. sbalance. Qed.
#[local] Hint Resolve create_sadds link_bad_sadds unlink_bad_sadds made_sadds : sadds.

(** filealloc, fdalloc and the assignments at the end of sys_open. *)
Lemma open_file_sadds ip omode : sadds (fun _ => - cl - ci - cb) (open_file lock_addr log_chan ip omode).
Proof.
  intros s s' r Hw H. unfold open_file in H. inv_bind H. unfold lift_k in E.
  destruct (filealloc (ks s)) as [k f| |] eqn:Ef; [|done|done]. injection E as <- <-.
  destruct (filealloc_post cb cl ci cf _ _ _ Hw Ef) as (Hw1 & E1 & _ & _ & Hf). destruct f as [f|].
  2:{ assert (Hb : balance_of (set_ks k s) = balance_of s) by (unfold balance_of; cbn in *; lia). rewrite <- Hb.
      apply (iadds_use wf balance_of (fun _ => - cl - ci - cb) _ _ _ _ H Hw1). sbalance. }
  destruct Hf as (x & Hx & Hr & Ht & Hfs). cbn in E1. inv_bind H.
  pose proof (fdalloc_sadds f (set_ks k s) _ _ Hw1 E) as [Hw2 E2].
  assert (Hb : balance_of s0 = balance_of s + cf + some_weight (- cf) a) by (unfold balance_of in *; cbn in *; lia).
  assert (Hk : ks s0 = k).
  { unfold fdalloc in E. destruct (find_fd _ 0); [injection E as <- _ | injection E as <- _]; done. }
  destruct a as [fd|]; cbn in Hb.
  2:{ replace (balance_of s + _) with (balance_of s0 + (- cf - cl - ci - cb)) by lia.
      apply (iadds_use wf balance_of (fun _ => - cf - cl - ci - cb) _ _ _ _ H Hw2). sbalance. }
  inv_bind H. pose proof (iunlock_s_sadds _ _ _ _ Hw2 E0) as [Hw3 E3].
  inv_bind H. pose proof (end_op_s_sadds _ _ _ Hw3 E4) as [Hw4 E5].
  assert (Hf4 : files (ks s2) !! f = Some (set_fref 1 x)).
  { apply lift_f_files in E0. apply lift_f_files in E4. rewrite E4, E0, Hk, Hfs.
    apply list_lookup_insert_eq. by eapply lookup_lt_Some. }
  inv_bind H. injection H as <- <-. injection E6 as <- _. split.
  - cbn. eapply on_file_wf; [exact Hf4 | done | done].
  - unfold balance_of at 1. cbn [ks us set_ks]. rewrite (on_file_kheld _ _ _ _ _ _ _ _ Hf4). unfold file_weight. cbn.
    rewrite Ht. cbn. unfold balance_of in *. lia.
Qed.
#[local] Hint Resolve open_file_sadds : sadds.

(** The case analysis of a system call on its arguments: a bad argument gives
    -1 at once. *)
Ltac args Hw H :=
  repeat match type of H with
  | (match ?x with _ => _ end) = _ => destruct x eqn:?
  end;
  first [ injection H as <- <-; split; [exact Hw | lia]
        | refine (iadds_use wf balance_of (fun _ => 0) _ _ _ _ H Hw _) ].

Lemma sys_dup_sadds : sadds (fun _ => 0) sys_dup.
Proof.
  intros s s' r Hw H. unfold sys_dup in H. args Hw H. sbalance. eapply iadds_bind; [apply lift_k_sadds, filedup_kadds|].
  intros []. sbalance.
Qed.

Lemma sys_read_sadds : sadds (fun _ => 0) (sys_read lock_addr pipe_chan devsw_read).
Proof.
  intros s s' r Hw H. unfold sys_read in H. args Hw H.
  eapply iadds_bind; [by apply lift_k_sadds, fileread_kadds|]. intros b. sbalance.
Qed.

Lemma sys_write_sadds : sadds (fun _ => 0) (sys_write lock_addr log_chan pipe_chan devsw_write).
Proof. intros s s' r Hw H. unfold sys_write in H. args Hw H. by apply lift_k_sadds, filewrite_kadds. Qed.

Lemma sys_fstat_sadds : sadds (fun _ => 0) (sys_fstat lock_addr).
Proof.
  intros s s' r Hw H. unfold sys_fstat in H. args Hw H. eapply iadds_bind; [apply lift_k_sadds, filestat_kadds|].
  intros st. sbalance.
Qed.

Lemma sys_link_sadds : sadds (fun _ => 0) (sys_link lock_addr log_chan devsw_read devsw_write de0).
Proof. intros s s' r Hw H. unfold sys_link in H. args Hw H. sbalance. Qed.

Lemma sys_unlink_sadds : sadds (fun _ => 0) (sys_unlink lock_addr log_chan devsw_read devsw_write).
Proof. intros s s' r Hw H. unfold sys_unlink in H. args Hw H. sbalance. Qed.

Lemma sys_open_sadds : sadds (fun _ => 0) (sys_open lock_addr log_chan devsw_read devsw_write de0).
Proof. intros s s' r Hw H. unfold sys_open in H. args Hw H. sbalance. Qed.

Lemma sys_mkdir_sadds : sadds (fun _ => 0) (sys_mkdir lock_addr log_chan devsw_read devsw_write de0).
Proof. unfold sys_mkdir. sbalance. Qed.

Lemma sys_mknod_sadds : sadds (fun _ => 0) (sys_mknod lock_addr log_chan devsw_read devsw_write de0).
Proof. unfold sys_mknod. sbalance. Qed.

Lemma set_cwd_sadds v :
  sadds (fun _ => 0) (modify (fun s => set_us (set_up (set_cwd v (up (us s))) (us s)) s)).
Proof. intros s s' a Hw [= <- _]. split; [done|]. unfold balance_of. cbn. lia. Qed.
#[local] Hint Resolve set_cwd_sadds : sadds.

Lemma sys_chdir_sadds : sadds (fun _ => 0) (sys_chdir lock_addr log_chan devsw_read).
Proof. unfold sys_chdir. sbalance. Qed.

(** Closing a descriptor that is open. *)
Lemma set_fd_none fd f s :
  ofile (up (us s)) !! fd = Some (Some f) ->
  exists s', set_fd fd None s = Ret s' tt /\ ks s' = ks s /\ balance_of s' = balance_of s + cf.
Proof.
  intros Hfd. eexists. split; [done|]. split; [done|]. unfold balance_of.
  cbn [ks us up ofile set_us set_up set_ofile]. rewrite (open_fds_insert _ _ _ _ Hfd). cbn. lia.
Qed.

Lemma argfd_open n s fd f : argfd n s = Some (fd, f) -> ofile (up (us s)) !! fd = Some (Some f).
Proof.
  unfold argfd. destruct (argint n (us s)) as [v|]; [|done]. destruct (_ || _); [done|].
  destruct (ofile (up (us s)) !! Z.to_nat v) as [[g|]|] eqn:E; [|done|done]. intros [= <- <-]. done.
Qed.

Lemma sys_close_sadds : sadds (fun _ => 0) (sys_close lock_addr log_chan).
Proof.
  intros s s' r Hw H. unfold sys_close in H. destruct (argfd 0 s) as [[fd f]|] eqn:E.
  - apply argfd_open in E. destruct (set_fd_none fd f s E) as (s1 & E1 & Hk & Hb). rewrite (bind_ret _ _ _ _ _ E1) in H.
    replace (balance_of s + 0) with (balance_of s1 + - cf) by lia.
    apply (iadds_use wf balance_of (fun _ => - cf) _ s1 _ _ H); [by rewrite Hk|]. sbalance.
  - injection H as <- <-. split; [done | lia].
Qed.

Lemma fdalloc_post f s s' r :
  fdalloc f s = Ret s' r ->
  match r with
  | Some fd => ofile (up (us s')) !! fd = Some (Some f)
  | None => s' = s
  end.
Proof.
  unfold fdalloc. pose proof (find_fd_spec (ofile (up (us s))) 0) as Hf.
  destruct (find_fd _ 0) as [fd|]; intros [= <- <-]; [|done]. destruct Hf as (j & -> & Hj & _). cbn.
  apply list_lookup_insert_eq. by eapply lookup_lt_Some.
Qed.

Lemma sys_pipe_sadds pg : sadds (fun _ => 0) (sys_pipe lock_addr log_chan pg).
Proof.
  intros s s' r Hw H. unfold sys_pipe in H. args Hw H.
  eapply iadds_bind; [apply lift_k_sadds, pipealloc_kadds|]. intros [[rf wf_]|]; [|sbalance].
  clear. intros s s' r Hw H. inv_bind H. pose proof (fdalloc_post _ _ _ _ E) as P0.
  apply fdalloc_sadds in E as [Hw0 E0]; [|done]. cbn in E0. destruct a as [fd0|].
  2:{ replace (balance_of s + _) with (balance_of s0 + - 2 * cf) by (cbn in *; lia).
      apply (iadds_use wf balance_of (fun _ => - 2 * cf) _ _ _ _ H Hw0). sbalance. }
  inv_bind H. pose proof (fdalloc_post _ _ _ _ E) as P1. apply fdalloc_sadds in E as [Hw1 E1]; [|done].
  destruct a as [fd1|].
  - replace (balance_of s + _) with (balance_of s1 + 0) by (cbn in *; lia).
    apply (iadds_use wf balance_of (fun _ => 0) _ _ _ _ H Hw1). sbalance.
  - subst s1. destruct (set_fd_none _ _ _ P0) as (s2 & E2 & Hk & Hb). rewrite (bind_ret _ _ _ _ _ E2) in H.
    replace (balance_of s + _) with (balance_of s2 + - 2 * cf) by (cbn in *; lia).
    apply (iadds_use wf balance_of (fun _ => - 2 * cf) _ s2 _ _ H); [by rewrite Hk|]. sbalance.
Qed.

End sys.

(** ** The balance of the system calls *)

Section theorem.
Context (lock_addr : nat -> Z) (log_chan : Z) (pipe_chan : nat -> pchan -> Z).
Context (devsw_read : Z -> option (nat -> Z -> M Fs.fs (Z * list Z))).
Context (devsw_write : Z -> option (nat -> list Z -> Z -> M Fs.fs Z)).
Context (de0 : list Z).

(** The system calls of sysfile.c; for exec see sys_exec. *)
Inductive file_call : M sys Z -> Prop :=
| call_dup : file_call sys_dup
| call_read : file_call (sys_read lock_addr pipe_chan devsw_read)
| call_write : file_call (sys_write lock_addr log_chan pipe_chan devsw_write)
| call_close : file_call (sys_close lock_addr log_chan)
| call_fstat : file_call (sys_fstat lock_addr)
| call_link : file_call (sys_link lock_addr log_chan devsw_read devsw_write de0)
| call_unlink : file_call (sys_unlink lock_addr log_chan devsw_read devsw_write)
| call_open : file_call (sys_open lock_addr log_chan devsw_read devsw_write de0)
| call_mkdir : file_call (sys_mkdir lock_addr log_chan devsw_read devsw_write de0)
| call_mknod : file_call (sys_mknod lock_addr log_chan devsw_read devsw_write de0)
| call_chdir : file_call (sys_chdir lock_addr log_chan devsw_read)
| call_pipe pg : file_call (sys_pipe lock_addr log_chan pg).

Definition transactions (s : sys) : Z := outstanding (fl (kfs (ks s))).
Definition locked_inodes (s : sys) : Z :=
  Z.of_nat (length (List.filter (fun x => negb (sl_locked (i_lock x) =? 0)) (inodes (kfs (ks s))))).
Definition inode_refs (s : sys) : Z := foldr (fun x n => i_ref x + n) 0 (inodes (kfs (ks s))).
Definition inode_files (s : sys) : Z := sum_files (fun x => if is_inode (f_type x) then 1 else 0) (files (ks s)).
Definition file_refs (s : sys) : Z := sum_files f_ref (files (ks s)).

Lemma balance_of_counts cb cl ci cf s :
  balance_of cb cl ci cf s =
    cb * transactions s + cl * locked_inodes s + ci * (inode_refs s - inode_files s) +
    cf * (file_refs s - open_fds (ofile (up (us s)))).
Proof.
  unfold balance_of, kheld, held, transactions, locked_inodes, inode_refs, inode_files, file_refs, core. cbn [fst snd].
  assert (H1 : forall l : list inode,
    weigh cl ci ((fun x => (i_ref x, sl_locked (i_lock x) =? 0)) <$> l) =
    cl * Z.of_nat (length (List.filter (fun x => negb (sl_locked (i_lock x) =? 0)) l)) +
    ci * foldr (fun x n => i_ref x + n) 0 l).
  { induction l as [|x l IH]; cbn; [lia|]. unfold weight. cbn. rewrite IH. destruct (sl_locked (i_lock x) =? 0); cbn; lia. }
  assert (H2 : forall l, sum_files (file_weight ci cf) l =
    cf * sum_files f_ref l - ci * sum_files (fun x => if is_inode (f_type x) then 1 else 0) l).
  { induction l as [|x l IH]; cbn; [lia|]. rewrite IH. unfold file_weight. destruct (is_inode (f_type x)); lia. }
  rewrite H1, H2. ring.
Qed.

Lemma file_call_balance cb cl ci cf m s s' r :
  (forall major read i n, devsw_read major = Some read -> keeps core (read i n)) ->
  (forall major write i src n, devsw_write major = Some write -> keeps core (write i src n)) ->
  file_call m -> files_wf (files (ks s)) -> m s = Ret s' r ->
  files_wf (files (ks s')) /\ balance_of cb cl ci cf s' = balance_of cb cl ci cf s.
Proof.
  intros Hr Hw Hm Hwf H. rewrite <- (Z.add_0_r (balance_of cb cl ci cf s)).
  refine (iadds_use (fun s => files_wf (files (ks s))) _ (fun _ => 0) m s s' r H Hwf _).
  assert (Hr' := fun major read i n E => keeps_held cb cl ci _ (Hr major read i n E)).
  assert (Hw' := fun major write i src n E => keeps_held cb cl ci _ (Hw major write i src n E)).
  destruct Hm.
  - apply sys_dup_sadds.
  - by apply sys_read_sadds.
  - by apply sys_write_sadds.
  - apply sys_close_sadds.
  - apply sys_fstat_sadds.
  - by apply sys_link_sadds.
  - by apply sys_unlink_sadds.
  - by apply sys_open_sadds.
  - by apply sys_mkdir_sadds.
  - by apply sys_mknod_sadds.
  - by apply sys_chdir_sadds.
  - apply sys_pipe_sadds.
Qed.

(** C9 (invariant): a system call on files that returns, with success or with an
    error on any path, leaves no transaction open and no inode locked that was
    not before; the inode references that it adds are those of the files it
    opens, and the file references those of the descriptors it opens.  The
    device functions are assumed to keep the counts. *)
Theorem syscalls_balanced (m : M sys Z) (s s' : sys) (r : Z) :
  (forall major read i n, devsw_read major = Some read -> keeps core (read i n)) ->
  (forall major write i src n, devsw_write major = Some write -> keeps core (write i src n)) ->
  file_call m -> files_wf (files (ks s)) -> m s = Ret s' r ->
  files_wf (files (ks s')) /\ transactions s' = transactions s /\ locked_inodes s' = locked_inodes s /\
  inode_refs s' - inode_files s' = inode_refs s - inode_files s /\
  file_refs s' - open_fds (ofile (up (us s'))) = file_refs s - open_fds (ofile (up (us s))).
Proof.
  intros Hr Hw Hm Hwf H.
  assert (Hb := fun cb cl ci cf => file_call_balance cb cl ci cf m s s' r Hr Hw Hm Hwf H).
  split; [apply (Hb 0 0 0 0)|].
  pose proof (proj2 (Hb 1 0 0 0)) as B1. pose proof (proj2 (Hb 0 1 0 0)) as B2.
  pose proof (proj2 (Hb 0 0 1 0)) as B3. pose proof (proj2 (Hb 0 0 0 1)) as B4.
  rewrite !balance_of_counts in B1, B2, B3, B4. split_and!; lia.
Qed.

End theorem.

(** A process that opens "/". *)
Definition free_file : file := mk_file FD_NONE 0 false false 0 0 0.
Definition sample_sys : sys :=
  mk_sys
    (mk_kern false (replicate 4 free_file) (set_fl (set_outstanding 0 (fl data_fs)) data_fs) [])
    (mk_ustate (set_sz 4096 (set_ofile (replicate 16 None) (set_tf (set_esp 0 sample_tf) sample_proc)))
       (fun a => if a =? 4 then 64 else if a =? 64 then 47 else 0)).

Local Abbreviation sample_open := (sys_open (fun _ => 9) 8 no_read no_write []).

Lemma sample_open_runs : exists s', sample_open sample_sys = Ret s' 0.
Proof. eexists. vm_compute. reflexivity. Qed.

Lemma syscalls_balanced_witness :
  exists s', sample_open sample_sys = Ret s' 0 /\ transactions s' = 0 /\ locked_inodes s' = 0 /\
    inode_refs s' - inode_files s' = 1 /\ file_refs s' - open_fds (ofile (up (us s'))) = 0.
Proof.
  destruct sample_open_runs as [s' H]. exists s'. split; [exact H|].
  refine (proj2 (syscalls_balanced (fun _ => 9) 8 (fun _ _ => 0) no_read no_write [] _ sample_sys s' 0
                   _ _ (call_open _ _ _ _ _ _) _ H)).
  - intros major read i n E. discriminate E.
  - intros major write i src n E. discriminate E.
  - vm_compute. repeat constructor.
Defined.
