(* ===== verification/Exec.v ===== *)
(** Program images: exec (exec.c), loaduvm and switchuvm (vm.c), growproc and
    userinit (proc.c), sbrk (sysproc.c).

    The state joins the page allocator's memory, where page tables and user
    pages live, with the files and the process of Sysfile.v.  Loading CR3 makes
    the memory that the process sees ([um]) the one that its page directory
    maps ([user_view]). *)

From S2P Require Import Prelude Word Mem Proc Signal Spinlock Block Log Fs FsData Dir Balance Pipe File Sysfile Kalloc Vm FileBalance.

Local Open Scope Z_scope.

Record img := mk_img { i_km : kmem; i_sys : sys }.

Definition set_km (k : kmem) (s : img) : img := mk_img k (i_sys s).
Definition set_sys (x : sys) (s : img) : img := mk_img (i_km s) x.

Definition in_km {A} (m : M kmem A) : M img A := fun s =>
  match m (i_km s) with
  | Ret x a => Ret (set_km x s) a
  | Panic e => Panic e
  | Wait c x => Wait c (set_km x s)
  end.

Definition in_sys {A} (m : M sys A) : M img A := fun s =>
  match m (i_sys s) with
  | Ret x a => Ret (set_sys x s) a
  | Panic e => Panic e
  | Wait c x => Wait c (set_sys x s)
  end.

Definition cur (s : img) : proc := up (us (i_sys s)).
Definition set_cur (f : proc -> proc) : M img unit :=
  modify (fun s => set_sys (set_us (set_up (f (cur s)) (us (i_sys s))) (i_sys s)) s).

(** What the addresses of a page directory hold. *)
Definition user_view (m : mem) (pgdir : Z) : mem := fun va => m (tab (pte_at m pgdir va) + va mod PGSIZE).

(** The ELF structures (elf.h), in the bytes read from the file. *)
Definition ELF_MAGIC : Z := 0x464C457F.
Definition ELF_PROG_LOAD : Z := 1.
Definition ELFHDR_SIZE : Z := 52.
Definition PROGHDR_SIZE : Z := 32.

Record elfhdr := mk_elfhdr { e_magic : Z; e_entry : Z; e_phoff : Z; e_phnum : Z }.
Definition elfhdr_of (bs : list Z) : elfhdr :=
  let x := char_at bs in mk_elfhdr (load32 x 0) (load32 x 24) (load32 x 28) (load16 x 44).

Record proghdr := mk_proghdr { ph_type : Z; ph_off : Z; ph_vaddr : Z; ph_filesz : Z; ph_memsz : Z }.
Definition proghdr_of (bs : list Z) : proghdr :=
  let x := char_at bs in mk_proghdr (load32 x 0) (load32 x 4) (load32 x 8) (load32 x 16) (load32 x 20).

(** The bytes of a word. *)
Definition word_bytes (v : Z) : list Z := bytes_at (store32 (fun _ => 0) 0 v) 0 4.

(** The part of path after its last slash. *)
Fixpoint last_elem (path last : list Z) : list Z :=
  match path with
  | [] => last
  | c :: path => last_elem path (if c =? slash then path else last)
  end.

(** safestrcpy(curproc->name, last, sizeof(curproc->name)) *)
Definition NAME_SIZE : Z := 16.
Definition copy_name (old last : list Z) : list Z :=
  bytes_at (safestrcpy (fun a => if a <? 64 then char_at old a else char_at last (a - 64)) 0 64 NAME_SIZE)
    0 (Z.to_nat NAME_SIZE).

Section exec.
Context (end_ data : Z).
Context (lock_addr : nat -> Z) (log_chan : Z).
Context (devsw_read : Z -> option (nat -> Z -> M Fs.fs (Z * list Z))).

Definition readi_i (ip : nat) (off n : Z) : M img (Z * list Z) :=
  in_sys (lift_f (readi devsw_read ip off n)).

(** switchuvm(curproc) *)
Definition switchuvm : M img unit := fun s =>
  if kstack (cur s) =? 0 then Panic "switchuvm: no kstack"
  else if pgdir (cur s) =? 0 then Panic "switchuvm: no pgdir"
  else Ret (set_sys (set_us (set_um (user_view (km_mem (i_km s)) (pgdir (cur s))) (us (i_sys s))) (i_sys s)) s) tt.

(** The loop of loaduvm; a round moves on by a page. *)
Fixpoint loaduvm_loop (n : nat) (pgdir addr : Z) (ip : nat) (offset sz i : Z) : M img Z :=
  if i <? sz then
    match n with
    | O => panic "fuel"
    | S n =>
        in_km (walkpgdir pgdir (u32 (addr + i)) false) ≫= fun pte =>
        if pte =? 0 then panic "loaduvm: address should exist"
        else
          in_km (load pte) ≫= fun e =>
          let k := if sz - i <? PGSIZE then sz - i else PGSIZE in
          readi_i ip (u32 (offset + i)) k ≫= fun r =>
          in_km (set_mem (fun x => blit x (P2V (PTE_ADDR e)) r.2)) ≫= fun _ =>
          if negb (r.1 =? k) then mret (-1)
          else loaduvm_loop n pgdir addr ip offset sz (i + PGSIZE)
    end
  else mret 0.

Definition loaduvm (pgdir addr : Z) (ip : nat) (offset sz : Z) : M img Z :=
  if negb (addr mod PGSIZE =? 0) then panic "loaduvm: addr must be page aligned"
  else loaduvm_loop (S (Z.to_nat (sz / PGSIZE))) pgdir addr ip offset sz 0.

(** The label bad. *)
Definition exec_bad (pgdir : Z) (ip : option nat) : M img Z :=
  (if pgdir =? 0 then mret tt else in_km (freevm end_ pgdir)) ≫= fun _ =>
  (match ip with
   | Some ip => in_sys (iunlockput_s lock_addr ip) ≫= fun _ => in_sys end_op_s
   | None => mret tt
   end) ≫= fun _ => mret (-1).

(** The loop over the program headers, [n] of them left: the size, or the
    label bad. *)
Fixpoint load_segments (n : nat) (pgdir : Z) (ip : nat) (off sz : Z) : M img (option Z) :=
  match n with
  | O => mret (Some sz)
  | S n =>
      readi_i ip (u32 off) PROGHDR_SIZE ≫= fun r =>
      if negb (r.1 =? PROGHDR_SIZE) then mret None
      else
        let ph := proghdr_of r.2 in
        if negb (ph_type ph =? ELF_PROG_LOAD) then load_segments n pgdir ip (off + PROGHDR_SIZE) sz
        else if ph_memsz ph <? ph_filesz ph then mret None
        else if u32 (ph_vaddr ph + ph_memsz ph) <? ph_vaddr ph then mret None
        else
          in_km (allocuvm end_ pgdir sz (u32 (ph_vaddr ph + ph_memsz ph))) ≫= fun sz =>
          if sz =? 0 then mret None
          else if negb (ph_vaddr ph mod PGSIZE =? 0) then mret None
          else
            loaduvm pgdir (ph_vaddr ph) ip (ph_off ph) (ph_filesz ph) ≫= fun r =>
            if r <? 0 then mret None
            else load_segments n pgdir ip (off + PROGHDR_SIZE) sz
  end.

(** The loop that pushes the argument strings: sp and the pointers. *)
Fixpoint push_args (argv : list (list Z)) (argc pgdir sp : Z) : M kmem (option (Z * list Z)) :=
  match argv with
  | [] => mret (Some (sp, []))
  | a :: argv =>
      if MAXARG <=? argc then mret None
      else
        let sp := Z.land (u32 (sp - (Z.of_nat (length a) + 1))) (u32 (Z.lnot 3)) in
        copyout pgdir sp (a ++ [0]) ≫= fun r =>
        if r <? 0 then mret None
        else
          push_args argv (argc + 1) pgdir sp ≫= fun l =>
          match l with
          | None => mret None
          | Some (sp', ptrs) => mret (Some (sp', sp :: ptrs))
          end
  end.

(** From the argument strings to the end of ustack: the final sp. *)
Definition make_stack (argv : list (list Z)) (pgdir sp : Z) : M kmem (option Z) :=
  push_args argv 0 pgdir sp ≫= fun l =>
  match l with
  | None => mret None
  | Some (sp, ptrs) =>
      let argc := Z.of_nat (length argv) in
      let ustack := [0xffffffff; argc; u32 (sp - (argc + 1) * 4)] ++ ptrs ++ [0] in
      let sp := u32 (sp - (3 + argc + 1) * 4) in
      copyout pgdir sp (concat (map word_bytes ustack)) ≫= fun r =>
      if r <? 0 then mret None else mret (Some sp)
  end.

(** The assignments to *curproc once the image is complete. *)
Definition new_image (path : list Z) (pgdir_ sz_ entry sp : Z) (p : proc) : proc :=
  let p := set_name (copy_name (name p) (last_elem path path)) p in
  let p := set_sz sz_ (set_pgdir pgdir_ p) in
  let p := set_tf (set_esp sp (set_eip entry (tf p))) p in
  exec_signals p.

(** The end of exec, from the program's name on. *)
Definition exec_commit (path : list Z) (pgdir_ sz_ entry sp : Z) : M img Z :=
  get ≫= fun s =>
  let oldpgdir := pgdir (cur s) in
  set_cur (new_image path pgdir_ sz_ entry sp) ≫= fun _ =>
  switchuvm ≫= fun _ =>
  in_km (freevm end_ oldpgdir) ≫= fun _ => mret 0.

Definition exec (path : list Z) (argv : list (list Z)) : M img Z :=
  in_sys (begin_op_s log_chan) ≫= fun _ =>
  in_sys (namei_s lock_addr devsw_read path) ≫= fun r =>
  match r with
  | None => in_sys end_op_s ≫= fun _ => mret (-1)
  | Some ip =>
      in_sys (ilock_s lock_addr ip) ≫= fun _ =>
      readi_i ip 0 ELFHDR_SIZE ≫= fun r =>
      if negb (r.1 =? ELFHDR_SIZE) then exec_bad 0 (Some ip)
      else
        let elf := elfhdr_of r.2 in
        if negb (e_magic elf =? ELF_MAGIC) then exec_bad 0 (Some ip)
        else
          in_km (setupkvm end_ data) ≫= fun pgdir =>
          if pgdir =? 0 then exec_bad 0 (Some ip)
          else
            load_segments (Z.to_nat (e_phnum elf)) pgdir ip (e_phoff elf) 0 ≫= fun sz =>
            match sz with
            | None => exec_bad pgdir (Some ip)
            | Some sz =>
                in_sys (iunlockput_s lock_addr ip) ≫= fun _ =>
                in_sys end_op_s ≫= fun _ =>
                let sz := PGROUNDUP sz in
                in_km (allocuvm end_ pgdir sz (sz + 2 * PGSIZE)) ≫= fun sz =>
                if sz =? 0 then exec_bad pgdir None
                else
                  in_km (clearpteu pgdir (sz - 2 * PGSIZE)) ≫= fun _ =>
                  in_km (make_stack argv pgdir sz) ≫= fun sp =>
                  match sp with
                  | None => exec_bad pgdir None
                  | Some sp => exec_commit path pgdir sz (e_entry elf) sp
                  end
            end
  end.

(** growproc (proc.c); n is an int, the sizes are unsigned. *)
Definition growproc (n : Z) : M img Z :=
  get ≫= fun s =>
  let p := cur s in
  (if 0 <? n then
     in_km (allocuvm end_ (pgdir p) (sz p) (u32 (sz p + n)))
   else if n <? 0 then
     in_km (deallocuvm end_ (pgdir p) (sz p) (u32 (sz p + n)))
   else mret (sz p)) ≫= fun sz' =>
  if negb (n =? 0) && (sz' =? 0) then mret (-1)
  else set_cur (set_sz sz') ≫= fun _ => switchuvm ≫= fun _ => mret 0.

Definition sys_sbrk : M img Z := fun s =>
  match argint 0 (us (i_sys s)) with
  | None => Ret s (-1)
  | Some n =>
      let addr := s32 (sz (cur s)) in
      (growproc n ≫= fun r => if r <? 0 then mret (-1) else mret addr) s
  end.

(** userinit (proc.c) on the process that allocproc returned; [initcode] is
    the program of initcode.S. *)
Definition SEG_UCODE : Z := 3.
Definition SEG_UDATA : Z := 4.
Definition FL_IF : Z := 0x200.

Definition init_trapframe : trapframe :=
  let ds_ := Z.lor (Z.shiftl SEG_UDATA 3) DPL_USER in
  mk_trapframe 0 0 0 0 0 0 0 0 0 0 0 0 ds_ 0 ds_ 0 0 0 0 (Z.lor (Z.shiftl SEG_UCODE 3) DPL_USER) 0 FL_IF PGSIZE ds_ 0.

Definition initcode_name : list Z := [105; 110; 105; 116; 99; 111; 100; 101].

Definition userinit (initcode : list Z) : M img unit :=
  in_km (setupkvm end_ data) ≫= fun pd =>
  set_cur (set_pgdir pd) ≫= fun _ =>
  if pd =? 0 then panic "userinit: out of memory?"
  else
    in_km (inituvm pd initcode) ≫= fun _ =>
    set_cur (fun p => set_name (copy_name (name p) initcode_name) (set_tf init_trapframe (set_sz PGSIZE p))) ≫= fun _ =>
    in_sys (namei_s lock_addr devsw_read [slash]) ≫= fun c =>
    set_cur (set_cwd c) ≫= fun _ =>
    get ≫= fun s =>
    let (ok, st) := cas (state (cur s)) EMBRYO RUNNABLE in
    if ok then set_cur (set_state st) else panic "user init cas err".

End exec.

(** ** What exec changes *)

Definition user_of (s : img) : ustate := us (i_sys s).

Create HintDb user discriminated.
#[export] Hint Constants Opaque : user.
#[export] Hint Resolve keeps_ret keeps_panic keeps_get : user.

Lemma in_km_user {A} (m : M kmem A) : Balance.keeps user_of (in_km m).
Proof. intros s s' a. unfold in_km. destruct (m (i_km s)); [|done|done]. by intros [= <- _]. Qed.

Lemma lift_k_user {A} (m : M kern A) : Balance.keeps us (lift_k m).
Proof. intros s s' a. unfold lift_k. destruct (m (ks s)); [|done|done]. by intros [= <- _]. Qed.

Lemma in_sys_user {A} (m : M sys A) : Balance.keeps us m -> Balance.keeps user_of (in_sys m).
Proof.
  intros Hm s s' a. unfold in_sys. destruct (m (i_sys s)) as [x b| |] eqn:E; [|done|done]. intros [= <- _].
  by apply (Hm _ _ _ E).
Qed.

(** Unfold a program before the monad when comparing terms. *)
Strategy expand [exec_commit exec_bad exec growproc loaduvm].

Section outcome.
Context (end_ data : Z) (lock_addr : nat -> Z) (log_chan : Z).
Context (devsw_read : Z -> option (nat -> Z -> M Fs.fs (Z * list Z))).

Lemma ilock_user i : Balance.keeps user_of (in_sys (ilock_s lock_addr i)).
Proof. apply in_sys_user. intros s. apply lift_k_user. Qed.

Lemma iunlockput_user i : Balance.keeps user_of (in_sys (iunlockput_s lock_addr i)).
Proof. apply in_sys_user. intros s. apply lift_k_user. Qed.

Lemma namei_user path : Balance.keeps user_of (in_sys (namei_s lock_addr devsw_read path)).
Proof. apply in_sys_user. intros s. apply lift_k_user. Qed.

Lemma begin_user : Balance.keeps user_of (in_sys (begin_op_s log_chan)).
Proof. apply in_sys_user, lift_k_user. Qed.

Lemma end_user : Balance.keeps user_of (in_sys end_op_s).
Proof. apply in_sys_user, lift_k_user. Qed.

Lemma readi_user ip off n : Balance.keeps user_of (readi_i devsw_read ip off n).
Proof. apply in_sys_user, lift_k_user. Qed.
#[local] Hint Resolve in_km_user ilock_user iunlockput_user namei_user begin_user end_user readi_user : user.

(** As [keep], for the process and its memory. *)
Ltac keep_user :=
  repeat first
    [ solve [auto with user]
    | match goal with
      | |- Balance.keeps _ (mbind _ _) => apply keeps_bind; [|intros ?]
      | |- Balance.keeps _ (match ?x with _ => _ end) => destruct x
      | |- Balance.keeps _ (if ?b then _ else _) => destruct b
      end ].

Lemma loaduvm_loop_user n pd addr ip off sz_ i : Balance.keeps user_of (loaduvm_loop devsw_read n pd addr ip off sz_ i).
Proof. revert i. induction n as [|n IH]; intros i; cbn [loaduvm_loop]; keep_user. Qed.

Lemma loaduvm_user pd addr ip off sz_ : Balance.keeps user_of (loaduvm devsw_read pd addr ip off sz_).
Proof. unfold loaduvm. destruct (negb _); [done | apply loaduvm_loop_user]. Qed.
#[local] Hint Resolve loaduvm_user : user.

Lemma load_segments_user n pd ip off sz_ : Balance.keeps user_of (load_segments end_ devsw_read n pd ip off sz_).
Proof. revert off sz_. induction n as [|n IH]; intros off sz_; cbn [load_segments]; keep_user. Qed.

Lemma exec_bad_user pd ip : Balance.keeps user_of (exec_bad end_ lock_addr pd ip).
Proof. unfold exec_bad. keep_user. Qed.
#[local] Hint Resolve load_segments_user exec_bad_user : user.

Definition exec_post (path : list Z) (s s' : img) (r : Z) : Prop :=
  (r = -1 /\ user_of s' = user_of s) \/
  (r = 0 /\ exists pgdir_ sz_ entry sp m, pgdir_ <> 0 /\ up (user_of s') = new_image path pgdir_ sz_ entry sp (up (user_of s)) /\
     um (user_of s') = user_view m pgdir_).

Lemma exec_post_keep path s0 s (s' : img) r : user_of s = user_of s0 -> exec_post path s s' r -> exec_post path s0 s' r.
Proof. unfold exec_post. by intros ->. Qed.

Lemma exec_bad_post path pd ip s s' r :
  exec_bad end_ lock_addr pd ip s = Ret s' r -> exec_post path s s' r.
Proof.
  intros H. left. split; [|by apply exec_bad_user in H]. unfold exec_bad in H. inv_bind H. inv_bind H.
  by injection H as _ <-.
Qed.

Lemma switchuvm_post s s' u :
  switchuvm s = Ret s' u ->
  pgdir (up (user_of s)) <> 0 /\
  user_of s' = set_um (user_view (km_mem (i_km s)) (pgdir (up (user_of s)))) (user_of s).
Proof.
  unfold switchuvm. destruct (kstack (cur s) =? 0); [done|]. destruct (Z.eqb_spec (pgdir (cur s)) 0); [done|].
  by intros [= <- _].
Qed.

Lemma set_cur_post f s s' u :
  set_cur f s = Ret s' u -> user_of s' = set_up (f (up (user_of s))) (user_of s).
Proof. by intros [= <- _]. Qed.

Lemma new_image_pgdir path pd sz_ entry sp p : pgdir (new_image path pd sz_ entry sp p) = pd.
Proof. by destruct p. Qed.

Lemma exec_commit_post path pd sz_ entry sp s s' r :
  exec_commit end_ path pd sz_ entry sp s = Ret s' r -> exec_post path s s' r.
Proof.
  intros H. right. unfold exec_commit in H. apply bind_inv in H as (? & ? & [= <- <-] & H).
  inv_bind H. apply set_cur_post in E.
  inv_bind H. apply switchuvm_post in E0 as [Hp E0]. inv_bind H. injection H as <- <-. apply in_km_user in E1.
  split; [done|]. exists pd, sz_, entry, sp, (km_mem (i_km s0)).
  pose proof (new_image_pgdir path pd sz_ entry sp (up (user_of s))) as Hpd. revert E Hpd.
  generalize (new_image path pd sz_ entry sp (up (user_of s))). intros p' E <-.
  rewrite E in Hp, E0. rewrite E1, E0. done.
Qed.

Lemma exec_outcome path argv s s' r :
  exec end_ data lock_addr log_chan devsw_read path argv s = Ret s' r -> exec_post path s s' r.
Proof.
  intros H. unfold exec in H.
  inv_bind H. apply begin_user in E. eapply exec_post_keep; [exact E|]. clear s E.
  inv_bind H. apply namei_user in E. eapply exec_post_keep; [exact E|]. clear s0 E.
  destruct a0 as [ip|]; [|left; inv_bind H; injection H as <- <-; by apply end_user in E].
  inv_bind H. apply ilock_user in E. eapply exec_post_keep; [exact E|]. clear s E.
  inv_bind H. apply readi_user in E. eapply exec_post_keep; [exact E|]. clear s0 E.
  case_if_in H; [by apply (exec_bad_post path) in H|]. case_if_in H; [by apply (exec_bad_post path) in H|].
  inv_bind H. apply in_km_user in E. eapply exec_post_keep; [exact E|]. clear s E.
  case_if_in H; [by apply (exec_bad_post path) in H|].
  inv_bind H. apply load_segments_user in E. eapply exec_post_keep; [exact E|]. clear s0 E.
  destruct a3 as [sz_|]; [|by apply (exec_bad_post path) in H].
  inv_bind H. apply iunlockput_user in E. eapply exec_post_keep; [exact E|]. clear s E.
  inv_bind H. apply end_user in E. eapply exec_post_keep; [exact E|]. clear s0 E.
  inv_bind H. apply in_km_user in E. eapply exec_post_keep; [exact E|]. clear s E.
  case_if_in H; [by apply (exec_bad_post path) in H|].
  inv_bind H. apply in_km_user in E. eapply exec_post_keep; [exact E|]. clear s0 E.
  inv_bind H. apply in_km_user in E. eapply exec_post_keep; [exact E|]. clear s E.
  destruct a7 as [sp|]; [by apply exec_commit_post in H | by apply (exec_bad_post path) in H].
Qed.

End outcome.

(** ** The stack of a new program *)

Section stack.
(** The stack page: its virtual address [b] and its PTE [e], in the tables of
    [pd], which are not in the page itself. *)
Context (pd b e : Z).
Context (Hb : 0 <= b) (Hpg : b mod PGSIZE = 0) (Hhi : b + PGSIZE <= KERNBASE).

Local Abbreviation v := (tab e).

Record stack_page (m : mem) : Prop := {
  sp_pte : exists pt, pte_addr m pd b = Some pt /\ load32 m pt = e /\ pt <> 0 /\
    (pt + 4 <= v \/ v + PGSIZE <= pt);
  sp_dir : pd + 4 * PDX b + 4 <= v \/ v + PGSIZE <= pd + 4 * PDX b;
  sp_p : has e PTE_P = true;
  sp_u : has e PTE_U = true;
  sp_v : v <> 0;
}.

Definition in_stack (m : mem) (x : Z) : Z := m (v + (x - b)).

Lemma b_u32 x : b <= x < b + PGSIZE -> is_u32 x /\ x / PGSIZE = b / PGSIZE.
Proof.
  intros Hx. unfold is_u32, KERNBASE, PGSIZE in *. split; [lia|].
  pose proof (Z_div_mod_eq_full b 4096). symmetry. apply (Z.div_unique x 4096 (b / 4096) (x - b)); lia.
Qed.

Lemma page_pte m x : stack_page m -> b <= x < b + PGSIZE -> pte_at m pd x = e.
Proof.
  intros [(pt & Hpt & He & _) _ _ _ _] Hx. destruct (b_u32 x Hx) as [Hu Hq].
  destruct (b_u32 b ltac:(unfold PGSIZE; lia)) as [Hub _].
  destruct (page_indices x b Hu Hub Hq) as [Hd Ht]. unfold pte_at, pte_addr in *. rewrite Hd, Ht, Hpt. done.
Qed.

Lemma view_in_stack m x : stack_page m -> b <= x < b + PGSIZE -> user_view m pd x = in_stack m x.
Proof.
  intros Hm Hx. unfold user_view, in_stack. rewrite (page_pte m x Hm Hx). f_equal. f_equal.
  destruct (b_u32 x Hx) as [_ Hq]. pose proof (Z_div_mod_eq_full x PGSIZE). pose proof (Z_div_mod_eq_full b PGSIZE).
  rewrite Hq in *. lia.
Qed.

(** A write inside the page. *)
Lemma stack_page_write m m' :
  stack_page m -> (forall a, in_range v PGSIZE a = false -> m' a = m a) -> stack_page m'.
Proof.
  intros [(pt & Hpt & He & Hz & Hd1) Hd2 Hp Hu Hv] Hm.
  assert (Hw : forall a, a + 4 <= v \/ v + PGSIZE <= a -> load32 m' a = load32 m a).
  { intros a Ha. apply load32_ext. intros x Hx. apply Hm. unfold in_range. lia. }
  split; [|done..]. exists pt. unfold pte_addr, pde in *. rewrite (Hw _ Hd2). rewrite (Hw pt Hd1). done.
Qed.

Lemma uva2ka_page s : stack_page (km_mem s) -> uva2ka pd b s = Ret s v.
Proof.
  intros [(pt & Hpt & He & Hz & _) _ Hp Hu _]. unfold uva2ka, walkpgdir, load, mbind, M_bind. unfold pte_addr, pde in Hpt.
  destruct (has (load32 (km_mem s) (pd + 4 * PDX b)) PTE_P); [|done]. injection Hpt as Hpt.
  change (P2V (PTE_ADDR ?x)) with (tab x). unfold mret, M_ret. rewrite Hpt, He, Hp. cbn [negb]. rewrite Hu. done.
Qed.

Definition with_mem (m : mem) (s : kmem) : kmem := mk_kmem (km_lock s) (use_lock s) (freelist s) m.

Lemma copyout_page s va p :
  stack_page (km_mem s) -> b <= va -> va + Z.of_nat (length p) <= b + PGSIZE ->
  copyout pd va p s = Ret (with_mem (blit (km_mem s) (v + (va - b)) p) s) 0.
Proof.
  intros Hs Hlo Hup. unfold copyout. destruct p as [|c p]; [by destruct s|].
  cbn [length] in Hup |- *. cbn [copyout_loop].
  assert (Hva : PGROUNDDOWN va = b).
  { destruct (b_u32 va ltac:(lia)) as [Hu Hq]. rewrite PGROUNDDOWN_spec by done. rewrite Hq.
    pose proof (Z_div_mod_eq_full b PGSIZE). lia. }
  rewrite Hva. rewrite (bind_ret _ _ _ _ _ (uva2ka_page s Hs)).
  destruct (Z.eqb_spec v 0) as [Hv0|_]; [by destruct (sp_v _ Hs)|].
  replace (Z.min (PGSIZE - (va - b)) (Z.of_nat (length (c :: p)))) with (Z.of_nat (length (c :: p)))
    by (cbn [length]; lia).
  rewrite Nat2Z.id, firstn_all, drop_all. destruct (length p); done.
Qed.

(** Where the strings end up. *)
Definition arg_sp (a : list Z) (sp : Z) : Z := 4 * ((sp - (Z.of_nat (length a) + 1)) / 4).
Fixpoint arg_bottom (argv : list (list Z)) (sp : Z) : Z :=
  match argv with [] => sp | a :: argv => arg_bottom argv (arg_sp a sp) end.

Lemma arg_sp_le a sp : arg_sp a sp + Z.of_nat (length a) + 1 <= sp.
Proof. unfold arg_sp. pose proof (Z.mul_div_le (sp - (Z.of_nat (length a) + 1)) 4 eq_refl). lia. Qed.

Lemma arg_bottom_le argv sp : arg_bottom argv sp <= sp.
Proof.
  revert sp. induction argv as [|a argv IH]; intros sp; cbn; [lia|]. specialize (IH (arg_sp a sp)).
  pose proof (arg_sp_le a sp). lia.
Qed.

Lemma arg_bottom_align argv sp : sp mod 4 = 0 -> arg_bottom argv sp mod 4 = 0.
Proof.
  revert sp. induction argv as [|a argv IH]; intros sp H; cbn; [done|]. apply IH. unfold arg_sp.
  rewrite Z.mul_comm. by apply Z.mod_mul.
Qed.

(** A block written in the page, seen from user space. *)
Lemma in_stack_blit m va p x :
  in_stack (blit m (v + (va - b)) p) x =
  if in_range va (Z.of_nat (length p)) x then char_at p (x - va) else in_stack m x.
Proof.
  unfold in_stack. rewrite blit_spec. replace (v + (x - b) - (v + (va - b))) with (x - va) by lia.
  unfold in_range. destruct (Z.leb_spec (v + (va - b)) (v + (x - b))), (Z.leb_spec va x); try lia; cbn; [|done].
  destruct (Z.ltb_spec (v + (x - b)) (v + (va - b) + Z.of_nat (length p))), (Z.ltb_spec x (va + Z.of_nat (length p))); done || lia.
Qed.

Lemma bytes_at_ext (f g : mem) a n :
  (forall x, a <= x < a + Z.of_nat n -> f x = g x) -> bytes_at f a n = bytes_at g a n.
Proof. intros H. unfold bytes_at. apply map_ext_in. intros i Hi. apply in_seq in Hi. apply H. lia. Qed.

Lemma bytes_at_char_at p a (f : mem) :
  (forall x, a <= x < a + Z.of_nat (length p) -> f x = char_at p (x - a)) -> bytes_at f a (length p) = p.
Proof.
  intros H. apply list_eq. intros i. unfold bytes_at. rewrite list_lookup_fmap.
  destruct (decide (i < length p)%nat) as [Hi|Hi].
  - rewrite lookup_seq_lt by done. cbn. rewrite H by lia. unfold char_at.
    replace (Z.to_nat (a + Z.of_nat i - a)) with i by lia. rewrite nth_lookup.
    destruct (lookup_lt_is_Some_2 p i Hi) as [c ->]. done.
  - rewrite lookup_seq_ge by lia. cbn. symmetry. apply lookup_ge_None_2. lia.
Qed.

(** The pages of kernel memory that change: the stack above [lo]. *)
Definition stack_written (lo hi : Z) (m m' : mem) : Prop :=
  forall a, in_range (v + (lo - b)) (hi - lo) a = false -> m' a = m a.

Lemma push_args_ok argv argc sp s :
  stack_page (km_mem s) -> b <= arg_bottom argv sp -> sp <= b + PGSIZE ->
  argc + Z.of_nat (length argv) <= MAXARG ->
  exists s' ptrs, push_args argv argc pd sp s = Ret s' (Some (arg_bottom argv sp, ptrs)) /\
    stack_page (km_mem s') /\ stack_written (arg_bottom argv sp) sp (km_mem s) (km_mem s') /\
    Forall2 (fun p a => arg_bottom argv sp <= p /\ p + Z.of_nat (length a) + 1 <= sp /\
               bytes_at (in_stack (km_mem s')) p (length a + 1) = a ++ [0]) ptrs argv.
Proof.
  revert argc sp s. induction argv as [|a argv IH]; intros argc sp s Hs Hlo Hhi' Hmax; cbn [push_args arg_bottom] in *.
  { exists s, []. by split_and!. }
  cbn [length] in Hmax. destruct (Z.leb_spec MAXARG argc); [lia|].
  pose proof (arg_sp_le a sp) as Hsp. pose proof (arg_bottom_le argv (arg_sp a sp)) as Hbot.
  assert (E : Z.land (u32 (sp - (Z.of_nat (length a) + 1))) (u32 (Z.lnot 3)) = arg_sp a sp).
  { rewrite land_wordmask, u32_small; [done|]. unfold is_u32, KERNBASE, PGSIZE in *. lia. }
  rewrite E. clear E.
  assert (Hla : length (a ++ [0]) = (length a + 1)%nat) by (by rewrite length_app).
  rewrite (bind_ret _ _ _ _ _ (copyout_page s (arg_sp a sp) (a ++ [0]) Hs ltac:(lia) ltac:(rewrite Hla; lia))).
  cbn [Z.ltb Z.compare]. set (s1 := with_mem _ s).
  assert (Hw1 : stack_written (arg_sp a sp) sp (km_mem s) (km_mem s1)).
  { intros x Hx. unfold s1. cbn [km_mem with_mem]. rewrite blit_spec, Hla. unfold in_range in *.
    case_if; [exfalso; lia | done]. }
  destruct (IH (argc + 1) (arg_sp a sp) s1) as (s' & ptrs & E & Hs' & Hw & Hp); [|lia|lia|lia|].
  { eapply stack_page_write; [exact Hs|]. intros x Hx. apply Hw1. unfold in_range, PGSIZE in *. lia. }
  rewrite (bind_ret _ _ _ _ _ E). exists s', (arg_sp a sp :: ptrs). split_and!; [done | done | |].
  - intros x Hx. rewrite Hw by (unfold in_range in *; lia). apply Hw1. unfold in_range in *. lia.
  - constructor.
    + split_and!; [done | lia|]. rewrite <- Hla. apply bytes_at_char_at. intros x Hx. rewrite Hla in Hx.
      unfold in_stack. rewrite Hw by (unfold in_range; lia). fold (in_stack (km_mem s1) x). unfold s1. cbn [km_mem with_mem].
      rewrite in_stack_blit. unfold in_range. rewrite Hla.
      destruct (Z.leb_spec (arg_sp a sp) x), (Z.ltb_spec x (arg_sp a sp + Z.of_nat (length a + 1))); done || lia.
    + eapply Forall2_impl; [|exact Hp]. cbn. intros p a' (H1 & H2 & H3). split_and!; [done | lia | done].
Qed.

(** The words of ustack. *)
Lemma word_bytes_length x : length (word_bytes x) = 4%nat.
Proof. done. Qed.

Lemma concat_words_length l : length (concat (map word_bytes l)) = (4 * length l)%nat.
Proof. induction l as [|x l IH]; cbn [map concat]; [done|]. rewrite length_app, IH, word_bytes_length. cbn. lia. Qed.

Lemma load_word (f : mem) a x :
  is_u32 x -> (forall i, 0 <= i < 4 -> f (a + i) = char_at (word_bytes x) i) -> load32 f a = x.
Proof.
  intros Hx Hf. rewrite <- (load32_store32_eq (fun _ => 0) 0 x Hx). unfold load32.
  rewrite <- (Z.add_0_r a) at 1. by rewrite !Hf by lia.
Qed.

Lemma char_at_words l k i x :
  l !! k = Some x -> 0 <= i < 4 -> char_at (concat (map word_bytes l)) (4 * Z.of_nat k + i) = char_at (word_bytes x) i.
Proof.
  revert k. induction l as [|y l IH]; intros k Hk Hi; [done|]. cbn [map concat]. unfold char_at. destruct k as [|k].
  - injection Hk as ->. rewrite app_nth1 by (rewrite word_bytes_length; lia). f_equal.
  - rewrite app_nth2 by (rewrite word_bytes_length; lia). rewrite word_bytes_length.
    replace (Z.to_nat (4 * Z.of_nat (S k) + i) - 4)%nat with (Z.to_nat (4 * Z.of_nat k + i)) by lia.
    by apply IH.
Qed.

(** What main(argc, argv) finds, with the stack pointer at [sp]. *)
Record main_args (u : mem) (sp : Z) (argv : list (list Z)) : Prop := {
  ma_align : sp mod 4 = 0;
  ma_ret : load32 u sp = 0xffffffff;
  ma_argc : load32 u (sp + 4) = Z.of_nat (length argv);
  ma_argv : load32 u (sp + 8) = sp + 12;
  ma_arg : forall i a, argv !! i = Some a ->
    let p := load32 u (sp + 12 + 4 * Z.of_nat i) in
    sp < p /\ p + Z.of_nat (length a) + 1 <= b + PGSIZE /\ bytes_at u p (length a + 1) = a ++ [0];
  ma_null : load32 u (sp + 12 + 4 * Z.of_nat (length argv)) = 0;
}.

Lemma make_stack_ok argv s :
  let bottom := arg_bottom argv (b + PGSIZE) in
  let sp := bottom - (4 + Z.of_nat (length argv)) * 4 in
  stack_page (km_mem s) -> b <= sp -> Z.of_nat (length argv) <= MAXARG ->
  exists s', make_stack argv pd (b + PGSIZE) s = Ret s' (Some sp) /\ stack_page (km_mem s') /\
    main_args (in_stack (km_mem s')) sp argv /\ stack_written sp (b + PGSIZE) (km_mem s) (km_mem s').
Proof.
  intros bottom sp Hs Hlo Hmax. set (n := Z.of_nat (length argv)) in *.
  pose proof (arg_bottom_le argv (b + PGSIZE)) as Hbot. fold bottom in Hbot.
  destruct (push_args_ok argv 0 (b + PGSIZE) s Hs ltac:(fold bottom; lia) ltac:(lia) ltac:(lia))
    as (s1 & ptrs & E & Hs1 & Hw & Hp). fold bottom in E, Hw, Hp.
  unfold make_stack. rewrite (bind_ret _ _ _ _ _ E). fold n.
  assert (Hn : length ptrs = length argv) by (by eapply Forall2_length).
  assert (Hu : forall x, b <= x <= b + PGSIZE -> u32 x = x)
    by (intros x Hx; apply u32_small; unfold is_u32, KERNBASE, PGSIZE in *; lia).
  rewrite (Hu (bottom - (n + 1) * 4)) by lia. rewrite (Hu (bottom - (3 + n + 1) * 4)) by lia.
  replace (bottom - (3 + n + 1) * 4) with sp by (unfold sp; lia).
  set (ws := [0xffffffff; n; bottom - (n + 1) * 4] ++ ptrs ++ [0]).
  assert (Hws : Z.of_nat (length ws) = n + 4) by (unfold ws; rewrite !length_app, Hn; cbn; lia).
  assert (Hwl : Z.of_nat (length (concat (map word_bytes ws))) = 4 * (n + 4)) by (rewrite concat_words_length; lia).
  rewrite (bind_ret _ _ _ _ _ (copyout_page s1 sp _ Hs1 ltac:(lia) ltac:(rewrite Hwl; lia))).
  cbn [Z.ltb Z.compare]. set (s2 := with_mem _ s1).
  assert (Hst : forall x, in_stack (km_mem s2) x = if in_range sp (4 * (n + 4)) x then char_at (concat (map word_bytes ws)) (x - sp)
                                             else in_stack (km_mem s1) x).
  { intros x. unfold s2. cbn [km_mem with_mem]. rewrite in_stack_blit, Hwl. done. }
  assert (Hword : forall k x, ws !! k = Some x -> is_u32 x -> load32 (in_stack (km_mem s2)) (sp + 4 * Z.of_nat k) = x).
  { intros k x Hk Hx. apply load_word; [done|]. intros i Hi. apply lookup_lt_Some in Hk as Hlt.
    rewrite Hst. unfold in_range. replace (sp + 4 * Z.of_nat k + i - sp) with (4 * Z.of_nat k + i) by lia.
    destruct (Z.leb_spec sp (sp + 4 * Z.of_nat k + i)), (Z.ltb_spec (sp + 4 * Z.of_nat k + i) (sp + 4 * (n + 4))); try lia.
    by apply char_at_words. }
  exists s2. split_and!; [done | | |].
  - eapply stack_page_write; [exact Hs1|]. intros x Hx. unfold s2. cbn [km_mem with_mem]. rewrite blit_spec, Hwl.
    unfold in_range in *. case_if; [exfalso; lia | done].
  - assert (Hn0 : 0 <= n) by (unfold n; lia).
    assert (Hul : forall x, 0 <= x <= b + PGSIZE -> is_u32 x) by (intros x Hx; unfold is_u32, KERNBASE, PGSIZE in *; lia).
    assert (Hal : bottom mod 4 = 0).
    { apply arg_bottom_align. change PGSIZE with (1024 * 4). rewrite Z.mod_add by done.
      pose proof (Z_div_mod_eq_full b PGSIZE) as Eb. rewrite Hpg in Eb. unfold PGSIZE in Eb.
      replace b with (1024 * (b / 4096) * 4) by lia. by apply Z.mod_mul. }
    split.
    + unfold sp. replace (bottom - (4 + n) * 4) with (bottom + (- (4 + n)) * 4) by lia. by rewrite Z.mod_add.
    + rewrite <- (Hword 0%nat 0xffffffff eq_refl ltac:(done)). f_equal. lia.
    + exact (Hword 1%nat n eq_refl ltac:(apply Hul; unfold MAXARG, PGSIZE in *; lia)).
    + etrans; [exact (Hword 2%nat (bottom - (n + 1) * 4) eq_refl ltac:(apply Hul; lia))|]. unfold sp. lia.
    + intros i a Ha. destruct (Forall2_lookup_r _ _ _ _ _ Hp Ha) as (p & Hpi & H1 & H2 & H3).
      assert (Ep : load32 (in_stack (km_mem s2)) (sp + 12 + 4 * Z.of_nat i) = p).
      { rewrite <- (Hword (3 + i)%nat p); [f_equal; lia | | apply Hul; lia].
        unfold ws. cbn. by apply lookup_app_l_Some. }
      rewrite Ep. split_and!; [lia | lia|]. rewrite <- H3. apply bytes_at_ext. intros x Hx. rewrite Hst.
      unfold in_range. destruct (Z.ltb_spec x (sp + 4 * (n + 4))); [lia|]. by rewrite andb_false_r.
    + rewrite <- (Hword (3 + length argv)%nat 0); [f_equal; lia | | done].
      change ((ptrs ++ [0]) !! length argv = Some 0). rewrite lookup_app_r, Hn, Nat.sub_diag by lia. done.
  - intros x Hx. unfold s2. cbn [km_mem with_mem]. rewrite blit_spec, Hwl. unfold in_range in *.
    case_if; [exfalso; lia|]. apply Hw. unfold in_range. lia.
Qed.

End stack.

(** C17 (functional): The stack that exec builds.  When the argument strings and
    the vector fit in the stack page, the new program starts with a word
    aligned stack pointer, the return address 0xffffffff, argc, and a vector
    argv of argc pointers and a null pointer, and each pointer leads to the
    NUL-terminated text of its argument, all as the program will see them
    through its page table; no memory outside the stack page changes. *)
Theorem exec_stack_spec (pd b e : Z) (argv : list (list Z)) (s : kmem) :
  0 <= b -> b mod PGSIZE = 0 -> b + PGSIZE <= KERNBASE -> stack_page pd b e (km_mem s) ->
  let sp := arg_bottom argv (b + PGSIZE) - (4 + Z.of_nat (length argv)) * 4 in
  b <= sp -> Z.of_nat (length argv) <= MAXARG ->
  exists s', make_stack argv pd (b + PGSIZE) s = Ret s' (Some sp) /\
    main_args b (user_view (km_mem s') pd) sp argv /\
    forall a, in_range (tab e) PGSIZE a = false -> km_mem s' a = km_mem s a.
Proof.
  intros Hb Hpg Hhi Hs sp Hlo Hmax.
  destruct (make_stack_ok pd b e Hb Hpg Hhi argv s Hs Hlo Hmax) as (s' & E & Hs' & Hm & Hw).
  exists s'. fold sp in E, Hm, Hw. split_and!; [done | |].
  - assert (Hbot : arg_bottom argv (b + PGSIZE) <= b + PGSIZE) by apply arg_bottom_le.
    assert (Hv : forall x, b <= x < b + PGSIZE -> user_view (km_mem s') pd x = in_stack b e (km_mem s') x)
      by (intros x Hx; by apply view_in_stack).
    assert (Hl : forall a, b <= a -> a + 4 <= b + PGSIZE ->
      load32 (user_view (km_mem s') pd) a = load32 (in_stack b e (km_mem s')) a)
      by (intros a H1 H2; apply load32_ext; intros x Hx; apply Hv; lia).
    destruct Hm as [M1 M2 M3 M4 M5 M6].
    split; [done | by rewrite Hl by lia | by rewrite Hl by lia | by rewrite Hl by lia | | by rewrite Hl by lia].
    intros i a Ha. apply lookup_lt_Some in Ha as Hi. rewrite Hl by lia.
    destruct (M5 i a Ha) as (H1 & H2 & H3). split_and!; [done | done|]. rewrite <- H3.
    apply bytes_at_ext. intros x Hx. apply Hv. lia.
  - intros a Ha. apply Hw. unfold in_range, PGSIZE in *. lia.
Qed.


(** A stack page at 0x1000 with the tables in the pages pg 0 and pg 1. *)
Definition stack_mem : mem :=
  store32 (store32 (fun _ => 0) (pg 0) (new_pde (pg 1))) (pg 1 + 4) (Z.lor (V2P (pg 2)) 7).
Definition stack_kmem : kmem := mk_kmem false true 0 stack_mem.

Lemma stack_mem_page : stack_page (pg 0) 0x1000 (Z.lor (V2P (pg 2)) 7) stack_mem.
Proof.
  split; [| left; vm_compute; discriminate | vm_compute; reflexivity | vm_compute; reflexivity | vm_compute; discriminate].
  exists (pg 1 + 4). split_and!; [vm_compute; reflexivity | vm_compute; reflexivity | vm_compute; discriminate|].
  left. vm_compute. discriminate.
Qed.

Lemma exec_stack_spec_witness :
  exists s', make_stack [[108; 115]; [45; 108]] (pg 0) 0x2000 stack_kmem = Ret s' (Some 0x1fe0) /\
    main_args 0x1000 (user_view (km_mem s') (pg 0)) 0x1fe0 [[108; 115]; [45; 108]].
Proof.
  destruct (exec_stack_spec (pg 0) 0x1000 (Z.lor (V2P (pg 2)) 7) [[108; 115]; [45; 108]] stack_kmem)
    as (s' & H1 & H2 & _); [done | done | done | exact stack_mem_page | done | done|].
  exists s'. exact (conj H1 H2).
Defined.

(** exec of "/", which is not a program, in the file system of
    FileBalance.v. *)
Definition sample_img : img := mk_img stack_kmem sample_sys.

Local Abbreviation sample_exec := (exec k_end (k_end + 0x1000) (fun _ => 9) 8 no_read [47] []).

Lemma sample_exec_runs : exists s', sample_exec sample_img = Ret s' (-1).
Proof. eexists. vm_compute. reflexivity. Qed.


(** A process of one page, and what is left of it after it shrinks to
    nothing. *)
Definition shrink_img : img :=
  mk_img (mk_kmem false true 0 (store32 stack_mem (pg 1) (Z.lor (V2P (pg 2)) 7)))
    (mk_sys (ks sample_sys)
       (mk_ustate (set_sz PGSIZE (set_pgdir (pg 0) (set_kstack (pg 3) (up (us sample_sys))))) (um (us sample_sys)))).

(** A process that shrinks to size 0 loses its pages but keeps its
    size: deallocuvm returns the new size 0, which growproc takes for a
    failure, so sbrk returns -1 with the memory already freed. *)
Theorem growproc_to_zero :
  has (pte_at (km_mem (i_km shrink_img)) (pg 0) 0) PTE_P = true /\
  match growproc k_end (- PGSIZE) shrink_img with
  | Ret s' r => r = -1 /\ sz (cur s') = PGSIZE /\ pte_at (km_mem (i_km s')) (pg 0) 0 = 0 /\ freelist (i_km s') = pg 2
  | _ => False
  end.
Proof. split; [vm_compute; reflexivity|]. vm_compute. repeat split. Qed.
