(* ===== verification/Boot.v ===== *)
(** The boot loader (bootmain.c).

    It reads the kernel's ELF image from the disk that the firmware started,
    one sector at a time, polling the controller of Ide.v.  Physical memory is
    a function from addresses to bytes. *)

From Stdlib Require Import Sorting.Sorted.
From S2P Require Import Prelude Word Mem Block Ide Fs Exec.

Local Open Scope Z_scope.

(** ** The machine *)

(** The disk controller, the polls until it finishes the command it works on,
    and memory. *)
Record boot := mk_boot { b_ctl : ctl; b_left : nat; b_mem : mem }.

Definition SECTSIZE : Z := 512.

Definition outb (slow : Z -> nat) (port v : Z) : M boot unit :=
  modify (fun s =>
    let c := outb_ctl port (u8 v) (b_ctl s) in
    mk_boot c (if port =? 0x1F7 then slow (lba c) else b_left s) (b_mem s)).

(** inb(0x1F7); the controller may finish its command before it answers. *)
Definition in_status : M boot Z := fun s =>
  let s :=
    if busy (b_ctl s) then
      match b_left s with
      | S n => mk_boot (b_ctl s) n (b_mem s)
      | O => mk_boot (default (b_ctl s) (ctl_done (b_ctl s))) 0 (b_mem s)
      end
    else s in
  Ret s (status (b_ctl s)).

(** ** The loader *)

Section bootmain.
(** The polls that a read of each sector takes; the loops that wait for the disk
    run out of [fuel]. *)
Context (slow : Z -> nat) (fuel : nat).

Fixpoint waitdisk_loop (fuel : nat) : M boot unit :=
  in_status ≫= fun r =>
  if Z.land r 0xC0 =? 0x40 then mret tt
  else match fuel with O => panic "fuel" | S fuel => waitdisk_loop fuel end.

Definition waitdisk : M boot unit := waitdisk_loop fuel.

(** insl(0x1F0, dst, SECTSIZE/4) *)
Definition insl (dst : Z) : M boot unit :=
  modify (fun s =>
    match cjob (b_ctl s) with
    | JRead d =>
        mk_boot (set_job JIdle (b_ctl s)) (b_left s) (fun a => if in_range dst SECTSIZE a then d (a - dst) else b_mem s a)
    | _ => s
    end).

(** The command to read the sector. *)
Definition issue_read (offset : Z) : M boot unit :=
  outb slow 0x1F2 1 ≫= fun _ =>
  outb slow 0x1F3 offset ≫= fun _ =>
  outb slow 0x1F4 (Z.shiftr offset 8) ≫= fun _ =>
  outb slow 0x1F5 (Z.shiftr offset 16) ≫= fun _ =>
  outb slow 0x1F6 (Z.lor (Z.shiftr offset 24) 0xE0) ≫= fun _ =>
  outb slow 0x1F7 0x20.

Definition readsect (dst offset : Z) : M boot unit :=
  waitdisk ≫= fun _ =>
  issue_read offset ≫= fun _ =>
  waitdisk ≫= fun _ =>
  insl dst.

(** [n] bounds the rounds of the loop. *)
Fixpoint readseg_loop (n : nat) (pa epa offset : Z) : M boot unit :=
  if pa <? epa then
    match n with
    | O => panic "fuel"
    | S n => readsect pa offset ≫= fun _ => readseg_loop n (u32 (pa + SECTSIZE)) epa (u32 (offset + 1))
    end
  else mret tt.

Definition readseg (pa count offset : Z) : M boot unit :=
  let epa := u32 (pa + count) in
  let pa := u32 (pa - offset mod SECTSIZE) in
  let offset := offset / SECTSIZE + 1 in
  readseg_loop (Z.to_nat (count / SECTSIZE + 2)) pa epa offset.

Definition scratch : Z := 0x10000.

(** The loop over the program headers, with [n] of them left; they are read from
    memory as the loop goes. *)
Fixpoint load_loop (n : nat) (ph : Z) : M boot unit :=
  match n with
  | O => mret tt
  | S n =>
      get ≫= fun s =>
      let pa := load32 (b_mem s) (ph + 12) in
      let filesz := load32 (b_mem s) (ph + 16) in
      readseg pa filesz (load32 (b_mem s) (ph + 4)) ≫= fun _ =>
      get ≫= fun s =>
      let filesz := load32 (b_mem s) (ph + 16) in
      let memsz := load32 (b_mem s) (ph + 20) in
      (if filesz <? memsz then
         modify (fun s => mk_boot (b_ctl s) (b_left s) (stosb (Z.to_nat (memsz - filesz)) (b_mem s) (u32 (pa + filesz)) 0))
       else mret tt) ≫= fun _ =>
      load_loop n (u32 (ph + PROGHDR_SIZE))
  end.

(** The result is the address that is called, if any. *)
Definition bootmain : M boot (option Z) :=
  readseg scratch 4096 0 ≫= fun _ =>
  get ≫= fun s =>
  if negb (load32 (b_mem s) scratch =? ELF_MAGIC) then mret None
  else
    load_loop (Z.to_nat (load16 (b_mem s) (scratch + 44))) (u32 (scratch + load32 (b_mem s) (scratch + 28))) ≫= fun _ =>
    get ≫= fun s => mret (Some (load32 (b_mem s) (scratch + 24))).

End bootmain.

(** ** One sector *)

Lemma drive_select x : 0 <= x < 16 -> let v := u8 (Z.lor x 0xE0) in Z.land (Z.shiftr v 4) 1 = 0 /\ Z.land v 0x0f = x.
Proof.
  intros H. assert (Hall : forallb (fun x => let v := u8 (Z.lor x 0xE0) in (Z.land (Z.shiftr v 4) 1 =? 0) && (Z.land v 0x0f =? x)) (seqZ 0 16) = true)
    by (vm_compute; reflexivity).
  rewrite forallb_forall in Hall. specialize (Hall x). rewrite andb_true_iff, !Z.eqb_eq in Hall. apply Hall, list_elem_of_In, elem_of_seqZ. lia.
Qed.

Lemma lba_bytes n : 0 <= n < 2 ^ 28 ->
  u8 n + Z.shiftl (u8 (Z.shiftr n 8)) 8 + Z.shiftl (u8 (Z.shiftr n 16)) 16 + Z.shiftl (Z.shiftr n 24) 24 = n.
Proof.
  intros H. unfold u8. rewrite !Z.shiftl_mul_pow2, !Z.shiftr_div_pow2 by lia. change (2 ^ 8) with 256. change (2 ^ 16) with (256 * 256).
  change (2 ^ 24) with (256 * 256 * 256). rewrite <- !Zdiv_Zdiv by lia. Z.div_mod_to_equations. lia.
Qed.

Section loader.
Context (slow : Z -> nat) (fuel : nat) (disk : Z -> block).
Context (Hfuel : forall n, (slow n <= fuel)%nat).

(** Between commands: the disk from which the machine started is selected and
    idle. *)
Definition ready (s : boot) : Prop := busy (b_ctl s) = false /\ drive (b_ctl s) = 0 /\ cdisk (b_ctl s) 0 = disk.

Lemma status_bits c : drive c = 0 -> (Z.land (status c) 0xC0 =? 0x40) = negb (busy c).
Proof. intros H. unfold status. rewrite H. cbn [Z.eqb andb]. by destruct (busy c), (cerr c). Qed.

Lemma waitdisk_ready s : ready s -> waitdisk fuel s = Ret s tt.
Proof.
  intros (Hb & Hd & _). unfold waitdisk. destruct fuel; cbn [waitdisk_loop]; unfold in_status, mbind, M_bind; rewrite Hb, status_bits, Hb; done.
Qed.

(** A controller that reads finishes while waitdisk polls. *)
Lemma waitdisk_reading n s : cjob (b_ctl s) = JReading -> drive (b_ctl s) = 0 -> (b_left s <= n)%nat ->
  waitdisk_loop n s = Ret (mk_boot (default (b_ctl s) (ctl_done (b_ctl s))) 0 (b_mem s)) tt.
Proof.
  intros Hj Hd. revert s Hj Hd. induction n as [|n IH]; intros [c k m] Hj Hd Hn; cbn [b_ctl b_left b_mem] in *.
  - destruct k; [|lia]. cbn [waitdisk_loop]. unfold in_status, mbind, M_bind, busy. cbn [b_ctl b_left b_mem]. rewrite Hj. cbn [b_ctl].
    unfold ctl_done. rewrite Hj. cbn [default from_option]. by rewrite status_bits.
  - cbn [waitdisk_loop]. unfold in_status, mbind at 1, M_bind at 1, busy. cbn [b_ctl b_left b_mem]. rewrite Hj. destruct k; cbn [b_ctl].
    + unfold ctl_done. rewrite Hj. cbn [default from_option]. by rewrite status_bits.
    + rewrite status_bits by done. unfold busy. rewrite Hj. cbn [negb]. rewrite IH; cbn [b_ctl b_left b_mem]; done || lia.
Qed.

Lemma issue_read_ok n s : 0 <= n < 2 ^ 28 ->
  exists c k, issue_read slow n s = Ret (mk_boot c k (b_mem s)) tt /\
    cjob c = JReading /\ drive c = 0 /\ lba c = n /\ cdisk c = cdisk (b_ctl s) /\ (k <= fuel)%nat.
Proof using Hfuel disk.
  intros Hn.
  destruct (drive_select (Z.shiftr n 24)) as [D1 D2]; [rewrite Z.shiftr_div_pow2 by lia; split; [apply Z.div_pos; lia | apply Z.div_lt_upper_bound; lia]|].
  destruct s as [[r j e i d1 cd] k m]. eexists _, _. split; [reflexivity|]. split; [done|]. unfold drive, lba. cbn [regs b_ctl cdisk].
  split_and!; [exact D1 | | done | apply Hfuel].
  transitivity (u8 n + Z.shiftl (u8 (Z.shiftr n 8)) 8 + Z.shiftl (u8 (Z.shiftr n 16)) 16 + Z.shiftl (Z.land (u8 (Z.lor (Z.shiftr n 24) 0xE0)) 0x0f) 24);
    [reflexivity | rewrite D2; by apply lba_bytes].
Qed.

(** Reading a sector puts its bytes in memory and changes nothing else. *)
Lemma readsect_ok dst n s : ready s -> 0 <= n < 2 ^ 28 ->
  exists s', readsect slow fuel dst n s = Ret s' tt /\ ready s' /\
    forall a, b_mem s' a = if in_range dst SECTSIZE a then disk n (a - dst) else b_mem s a.
Proof using Hfuel disk.
  intros Hr Hn. unfold readsect. rewrite (bind_ret _ _ _ _ _ (waitdisk_ready s Hr)). destruct Hr as (_ & _ & Hd).
  destruct (issue_read_ok n s Hn) as (c & k & E & Hj & Hdr & Hl & Hcd & Hk). rewrite (bind_ret _ _ _ _ _ E).
  unfold waitdisk. rewrite (bind_ret _ _ _ _ _ (waitdisk_reading fuel (mk_boot c k (b_mem s)) Hj Hdr Hk)). cbn [b_ctl b_mem].
  unfold ctl_done. rewrite Hj. cbn [default from_option]. eexists. split; [reflexivity|]. cbn [b_ctl b_mem cjob]. split.
  - split_and!; [done | exact Hdr | cbn; congruence].
  - intros a. by rewrite Hdr, Hl, Hcd, Hd.
Qed.
(** ** A segment *)

(** The byte at offset [x] of the kernel image, which starts at sector 1. *)
Definition image (x : Z) : Z := disk (x / SECTSIZE + 1) (x mod SECTSIZE).

Lemma image_sector q r : 0 <= r < SECTSIZE -> image (SECTSIZE * q + r) = disk (q + 1) r.
Proof using.
  intros H. unfold image, SECTSIZE in *. rewrite <- (Zdiv_unique (512 * q + r) 512 q r) by lia. by rewrite <- (Zmod_unique (512 * q + r) 512 q r) by lia.
Qed.

(** What the loop leaves of memory: the sectors it reads are in place, and
    nothing outside of them changes. *)
Lemma readseg_loop_ok n pa epa q s :
  ready s -> 0 <= pa -> epa + SECTSIZE <= 2 ^ 32 -> 0 <= q -> q + Z.of_nat n < 2 ^ 28 - 1 -> epa - pa <= SECTSIZE * Z.of_nat n ->
  exists s', readseg_loop slow fuel n pa epa (q + 1) s = Ret s' tt /\ ready s' /\
    (forall a, pa <= a < epa -> b_mem s' a = image (SECTSIZE * q + (a - pa))) /\
    (forall a, a < pa \/ epa + SECTSIZE <= a -> b_mem s' a = b_mem s a).
Proof using Hfuel.
  revert pa q s. induction n as [|n IH]; intros pa q s Hr Hpa Hepa Hq Hqn Hn; cbn [readseg_loop]; unfold SECTSIZE in *.
  - destruct (Z.ltb_spec pa epa); [lia|]. exists s. split_and!; [done | done | intros; lia | done].
  - destruct (Z.ltb_spec pa epa) as [Hlt|Hge]; [|exists s; split_and!; [done | done | intros; lia | done]].
    destruct (readsect_ok pa (q + 1) s Hr) as (s1 & E1 & Hr1 & Hm1); [lia|]. rewrite (bind_ret _ _ _ _ _ E1).
    rewrite !u32_small by (unfold is_u32; lia).
    destruct (IH (pa + 512) (q + 1) s1) as (s' & E & Hr' & Hin & Hout); try done; try lia. exists s'. split_and!; [done | done | |].
    + intros a Ha. destruct (Z.lt_ge_cases a (pa + 512)).
      * rewrite Hout by lia. rewrite Hm1. unfold in_range, SECTSIZE. rewrite (proj2 (Z.leb_le _ _)), (proj2 (Z.ltb_lt _ _)) by lia. cbn [andb].
        rewrite <- image_sector by (unfold SECTSIZE; lia). done.
      * rewrite Hin by lia. f_equal. lia.
    + intros a Ha. rewrite Hout by lia. rewrite Hm1. unfold in_range, SECTSIZE. case_if; to_prop; [lia | done].
Qed.

Lemma readseg_ok pa count off s :
  ready s -> is_u32 off -> is_u32 count -> off mod SECTSIZE <= pa -> pa + count + SECTSIZE <= 2 ^ 32 ->
  exists s', readseg slow fuel pa count off s = Ret s' tt /\ ready s' /\
    (forall x, 0 <= x < count -> b_mem s' (pa + x) = image (off + x)) /\
    (forall a, a < pa - off mod SECTSIZE \/ pa + count + SECTSIZE <= a -> b_mem s' a = b_mem s a).
Proof using Hfuel.
  intros Hr Hoff Hc Hpa He. unfold readseg. unfold is_u32, SECTSIZE in *. pose proof (Z.mod_pos_bound off 512 eq_refl). pose proof (Z.div_mod off 512).
  pose proof (Z.div_pos count 512). pose proof (Z.div_pos off 512). pose proof (Z.div_mod count 512). pose proof (Z.mod_pos_bound count 512 eq_refl).
  rewrite !u32_small by (unfold is_u32; lia).
  destruct (readseg_loop_ok (Z.to_nat (count / 512 + 2)) (pa - off mod 512) (pa + count) (off / 512) s) as (s' & E & Hr' & Hin & Hout);
    unfold SECTSIZE in *; try done; try lia.
  exists s'. split_and!; [exact E | done | | intros a Ha; apply Hout; lia]. intros x Hx. rewrite Hin by lia. f_equal. lia.
Qed.

(** ** The kernel *)

(** A program header, as load_loop reads it. *)
Record seg := mk_seg { g_off : Z; g_paddr : Z; g_filesz : Z; g_memsz : Z }.

Definition seg_at (m : mem) (ph : Z) : seg :=
  mk_seg (load32 m (ph + 4)) (load32 m (ph + 12)) (load32 m (ph + 16)) (load32 m (ph + 20)).

(** The first address that readseg writes. *)
Definition g_start (g : seg) : Z := g_paddr g - g_off g mod SECTSIZE.

(** A segment lies above the scratch space and ends within memory. *)
Definition seg_ok (g : seg) : Prop :=
  is_u32 (g_off g) /\ 0 <= g_filesz g <= g_memsz g /\ scratch + 4096 <= g_start g /\ g_paddr g + g_memsz g + SECTSIZE <= 2 ^ 32.

(** Segments in increasing order, a sector apart where the file requires it. *)
Definition below (g h : seg) : Prop := g_paddr g + g_memsz g <= g_start h.

Definition loaded (m : mem) (g : seg) : Prop :=
  forall x, 0 <= x < g_memsz g -> m (g_paddr g + x) = if x <? g_filesz g then image (g_off g + x) else 0.

(** The first page of the image is in the scratch space. *)
Definition header_in (m : mem) : Prop := forall x, 0 <= x < 4096 -> m (scratch + x) = image x.

Lemma header_load32 m x : header_in m -> 0 <= x -> x + 4 <= 4096 -> load32 m (scratch + x) = load32 image x.
Proof using. intros H H1 H2. unfold load32. rewrite <- !Z.add_assoc, !H by lia. done. Qed.

Lemma header_load16 m x : header_in m -> 0 <= x -> x + 2 <= 4096 -> load16 m (scratch + x) = load16 image x.
Proof using. intros H H1 H2. unfold load16. rewrite <- !Z.add_assoc, !H by lia. done. Qed.

Lemma header_seg m o : header_in m -> 0 <= o -> o + 32 <= 4096 -> seg_at m (scratch + o) = seg_at image o.
Proof using. intros H H1 H2. unfold seg_at. rewrite <- !Z.add_assoc, !header_load32 by (done || lia). done. Qed.

(** One round of the loop. *)
Lemma load_loop_S n o s g :
  ready s -> header_in (b_mem s) -> 0 <= o -> o + 32 <= 4096 -> seg_at image o = g -> seg_ok g ->
  exists s', load_loop slow fuel (S n) (scratch + o) s = load_loop slow fuel n (scratch + (o + 32)) s' /\ ready s' /\
    loaded (b_mem s') g /\ forall a, a < g_start g -> b_mem s' a = b_mem s a.
Proof using Hfuel.
  intros Hr Hh Ho1 Ho2 Hg (Hoff & Hsz & Hst & Hend). cbn [load_loop]. rewrite (bind_ret get _ _ _ _ eq_refl).
  pose proof (header_seg _ o Hh Ho1 Ho2) as Hs. rewrite Hg in Hs. unfold seg_at in Hs. destruct g as [off pa filesz memsz].
  injection Hs as H1 H2 H3 H4. rewrite H1, H2, H3. unfold g_start in *. cbn [g_off g_paddr g_filesz g_memsz] in *.
  assert (0 <= off mod 512 < 512) as Hm by (apply Z.mod_pos_bound; lia). unfold is_u32, SECTSIZE, scratch in *.
  destruct (readseg_ok pa filesz off s Hr) as (s1 & E & Hr1 & Hin & Hout); [unfold is_u32, SECTSIZE; lia..|]. unfold SECTSIZE in Hout.
  rewrite (bind_ret _ _ _ _ _ E), (bind_ret get _ _ _ _ eq_refl).
  assert (Hh1 : header_in (b_mem s1)) by (intros x Hx; rewrite Hout by (unfold scratch; lia); by apply Hh).
  pose proof (header_seg _ o Hh1 Ho1 Ho2) as Hs. rewrite Hg in Hs. unfold seg_at in Hs. injection Hs as _ _ H5 H6.
  unfold scratch in H5, H6. rewrite H5, H6. unfold PROGHDR_SIZE. rewrite !u32_small by (unfold is_u32; lia).
  replace (0x10000 + o + 32) with (0x10000 + (o + 32)) by lia.
  destruct (Z.ltb_spec filesz memsz) as [Hlt|Hge].
  - rewrite (bind_ret (modify _) _ _ _ _ eq_refl). eexists. split; [reflexivity|]. split; [done|]. cbn [b_mem]. split.
    + intros x Hx. cbn [g_off g_paddr g_filesz g_memsz] in *. rewrite stosb_spec, Z2Nat.id by lia. unfold in_range.
      case_ifs; try lia; try done. apply Hin. lia.
    + intros a Ha. rewrite stosb_spec, Z2Nat.id by lia. unfold in_range. case_ifs; try lia; apply Hout; lia.
  - rewrite (bind_ret (mret tt) _ _ _ _ eq_refl). exists s1. split; [reflexivity|]. split; [done|]. split.
    + intros x Hx. cbn [g_off g_paddr g_filesz g_memsz] in *. case_if; to_prop; [apply Hin; lia | lia].
    + intros a Ha. apply Hout. lia.
Qed.

Lemma load_loop_ok l o s :
  ready s -> header_in (b_mem s) -> 0 <= o -> o + 32 * Z.of_nat (length l) <= 4096 ->
  (forall i g, l !! i = Some g -> seg_at image (o + 32 * Z.of_nat i) = g) -> Forall seg_ok l -> StronglySorted below l ->
  exists s', load_loop slow fuel (length l) (scratch + o) s = Ret s' tt /\ header_in (b_mem s') /\ Forall (loaded (b_mem s')) l /\
    forall a, (forall g, g ∈ l -> a < g_start g) -> b_mem s' a = b_mem s a.
Proof using Hfuel.
  revert o s. induction l as [|g l IH]; intros o s Hr Hh Ho1 Ho2 Hl Hok Hs; [by exists s|].
  apply list.Forall_cons in Hok as [Hg Hok]. apply StronglySorted_inv in Hs as [Hs Hgl]. cbn [length] in *.
  destruct (load_loop_S (length l) o s g) as (s1 & -> & Hr1 & Hg1 & Hlow); [done | done | done | lia | | done|];
    [rewrite <- (Hl 0%nat g eq_refl); f_equal; lia|].
  assert (Hh1 : header_in (b_mem s1)). { intros x Hx. destruct Hg as (_ & _ & Hst & _). rewrite Hlow by lia. by apply Hh. }
  destruct (IH (o + 32) s1) as (s' & E & Hh' & Hl' & Hlow'); [done | done | lia | lia | | done | done|].
  { intros i h Hi. rewrite <- (Hl (S i) h Hi). f_equal. lia. }
  exists s'. split_and!; [done | done | |].
  - constructor; [|done]. intros x Hx. rewrite Hlow'; [by apply Hg1|]. intros h Hh2. rewrite list.Forall_forall in Hgl. specialize (Hgl h Hh2).
    unfold below in Hgl. lia.
  - intros a Ha. rewrite Hlow', Hlow; [done | apply Ha; left | intros h Hh2; apply Ha; by right].
Qed.

End loader.

(** The kernel image on the disk: an ELF file whose program headers are in the
    first page and describe segments in increasing order. *)
Record kernel_on (disk : Z -> block) (l : list seg) : Prop := {
  k_magic : load32 (image disk) 0 = ELF_MAGIC;
  k_phnum : load16 (image disk) 44 = Z.of_nat (length l);
  k_phoff : 0 <= load32 (image disk) 28 /\ load32 (image disk) 28 + 32 * Z.of_nat (length l) <= 4096;
  k_segs : forall i g, l !! i = Some g -> seg_at (image disk) (load32 (image disk) 28 + 32 * Z.of_nat i) = g;
  k_ok : Forall seg_ok l;
  k_sorted : StronglySorted below l;
}.

Lemma bootmain_header slow fuel disk s :
  (forall n, (slow n <= fuel)%nat) -> ready disk s ->
  exists s1, readseg slow fuel scratch 4096 0 s = Ret s1 tt /\ ready disk s1 /\ header_in disk (b_mem s1).
Proof.
  intros Hf Hr. destruct (readseg_ok slow fuel disk Hf scratch 4096 0 s Hr) as (s1 & E & Hr1 & Hin & _);
    [unfold is_u32; lia | unfold is_u32; lia | done | done|]. exists s1. split_and!; [done | done | exact Hin].
Qed.


(** A kernel of one segment: 300 bytes from offset 4096 of the file, loaded at
    1 MB, and 100 bytes of zeros behind them. *)
Definition sample_header : mem :=
  store32 (store32 (store32 (store32 (store16 (store32 (store32 (store32 (fun _ => 0) 0 ELF_MAGIC) 24 0x10000c) 28 52) 44 1)
    (52 + 4) 4096) (52 + 12) 0x100000) (52 + 16) 300) (52 + 20) 400.
Definition sample_disk (n : Z) : block := fun i => if n =? 1 then sample_header i else if n =? 9 then 0x90 else 0.
Definition sample_boot : boot :=
  mk_boot (mk_ctl (fun _ => 0) JIdle false false true (fun dr => if dr =? 0 then sample_disk else fun _ _ => 0)) 0 (fun _ => 0).

Lemma sample_kernel : kernel_on sample_disk [mk_seg 4096 0x100000 300 400].
Proof.
  constructor.
  - vm_compute. reflexivity.
  - vm_compute. reflexivity.
  - split; apply Z.leb_le; vm_compute; reflexivity.
  - intros [|i] g Hi; [|done]. injection Hi as <-. vm_compute. reflexivity.
  - constructor; [|constructor]. unfold seg_ok, is_u32. split_and!; apply Z.leb_le || apply Z.ltb_lt; vm_compute; reflexivity.
  - repeat constructor.
Qed.

