(* ===== verification/Trap.v ===== *)
(** Traps and the clock (trap.c, and the sleep and uptime calls of
    sysproc.c).

    trap is the sequence of calls it makes: [acts] are the calls in order, and
    the process at the end is the one the calls leave.  The calls that can
    change the running process, syscall and yield (other processes run in
    between), are arguments; exit does not return. *)

From S2P Require Import Prelude Word Mem Proc Signal Spinlock.

Local Open Scope Z_scope.

(** ** Trap numbers (traps.h) *)

Definition T_IRQ0 : Z := 32.
Definition IRQ_TIMER : Z := 0.
Definition IRQ_KBD : Z := 1.
Definition IRQ_COM1 : Z := 4.
Definition IRQ_IDE : Z := 14.
Definition IRQ_SPURIOUS : Z := 31.

(** ** The interrupt descriptor table *)

Definition SEG_KCODE : Z := 1.
Definition STS_IG32 : Z := 0xE.
Definition STS_TG32 : Z := 0xF.

(** struct gatedesc and SETGATE (mmu.h) *)
Record gatedesc := mk_gatedesc {
  off_15_0 : Z;
  g_cs : Z;
  g_args : Z;
  g_type : Z;
  g_s : Z;
  g_dpl : Z;
  g_p : Z;
  off_31_16 : Z;
}.

Definition SETGATE (istrap : bool) (sel off d : Z) : gatedesc :=
  mk_gatedesc (Z.land (u32 off) 0xffff) sel 0 (if istrap then STS_TG32 else STS_IG32) 0 d 1 (Z.shiftr (u32 off) 16).

(** tvinit; [vectors] is the table of vectors.S. *)
Definition tvinit (vectors : Z -> Z) : list gatedesc :=
  let idt := map (fun i => SETGATE false (Z.shiftl SEG_KCODE 3) (vectors (Z.of_nat i)) 0) (seq 0 256) in
  <[Z.to_nat T_SYSCALL := SETGATE true (Z.shiftl SEG_KCODE 3) (vectors T_SYSCALL) DPL_USER]> idt.

(** The address that a gate leads to. *)
Definition gate_offset (g : gatedesc) : Z := off_15_0 g + Z.shiftl (off_31_16 g) 16.

(** ** The clock *)

Record clock := mk_clock { tk_lock : bool; ticks : Z; tk_wakeups : nat }.

#[refine, export] Instance clock_lock : HasLock clock := {|
  get_lock := tk_lock;
  set_lock b s := mk_clock b (ticks s) (tk_wakeups s);
|}.
Proof. 1-2: done. by intros []. Defined.

(** The timer interrupt on CPU 0. *)
Definition tick : M clock unit :=
  acquire ≫= fun _ =>
  modify (fun s => mk_clock (tk_lock s) (u32 (ticks s + 1)) (S (tk_wakeups s))) ≫= fun _ =>
  release.

(** sys_uptime; the result is an int. *)
Definition sys_uptime : M clock Z :=
  acquire ≫= fun _ =>
  get ≫= fun s =>
  release ≫= fun _ => mret (s32 (ticks s)).

(** sys_sleep: the first part, and one test of its loop, which runs again
    when the process is woken. *)
Definition sleep_start : M clock Z :=
  acquire ≫= fun _ => get ≫= fun s => mret (ticks s).

(** [None] is a sleep on &ticks, which releases the lock.  The comparison is
    unsigned. *)
Definition sleep_test (killed_ : bool) (ticks0 n : Z) : M clock (option Z) :=
  get ≫= fun s =>
  if u32 (ticks s - ticks0) <? u32 n then
    release ≫= fun _ => mret (if killed_ then Some (-1) else None)
  else release ≫= fun _ => mret (Some 0).

(** sys_sleep, where [wakes] are the times the process is woken: the value of
    ticks and whether it is killed. *)
Fixpoint sleep_loop (ticks0 n : Z) (now : Z) (killed_ : bool) (wakes : list (Z * bool)) : option Z :=
  match sleep_test killed_ ticks0 n (mk_clock true now 0) with
  | Ret _ (Some r) => Some r
  | Ret _ None => match wakes with [] => None | (t, k) :: wakes => sleep_loop ticks0 n t k wakes end
  | _ => None
  end.

Definition sys_sleep (s : ustate) (now : Z) (killed_ : bool) (wakes : list (Z * bool)) : option Z :=
  match argint 0 s with
  | None => Some (-1)
  | Some n => sleep_loop now n now killed_ wakes
  end.

(** ** trap *)

Inductive act :=
| AExit                            (* does not return *)
| ASyscall
| ATick                            (* ticks++ and wakeup(&ticks) *)
| AEoi
| AIde
| AKbd
| AUart
| ASpurious
| AKillMsg
| AYield
| APanic.

#[export] Instance act_eq_dec : EqDecision act.
Proof. solve_decision. Defined.

Section trap.
Context (do_syscall : trapframe -> proc -> proc) (do_yield : proc -> proc).

Definition is_killed (p : option proc) : bool :=
  match p with Some p => negb (killed p =? 0) | None => false end.

(** The switch: the calls made, and the process. *)
Definition trap_switch (cpuid : Z) (tf : trapframe) (p : option proc) : list act * option proc :=
  if trapno tf =? T_IRQ0 + IRQ_TIMER then
    ((if cpuid =? 0 then [ATick] else []) ++ [AEoi], p)
  else if trapno tf =? T_IRQ0 + IRQ_IDE then ([AIde; AEoi], p)
  else if trapno tf =? T_IRQ0 + IRQ_IDE + 1 then ([], p)
  else if trapno tf =? T_IRQ0 + IRQ_KBD then ([AKbd; AEoi], p)
  else if trapno tf =? T_IRQ0 + IRQ_COM1 then ([AUart; AEoi], p)
  else if (trapno tf =? T_IRQ0 + 7) || (trapno tf =? T_IRQ0 + IRQ_SPURIOUS) then ([ASpurious; AEoi], p)
  else
    match p with
    | None => ([APanic], p)
    | Some q =>
        if Z.land (cs tf) 3 =? 0 then ([APanic], p)
        else ([AKillMsg], Some (set_killed 1 q))
    end.

Definition from_user (tf : trapframe) : bool := Z.land (cs tf) 3 =? DPL_USER.

(** The calls, and the process that goes on; [None] for one that exited or a
    machine that stopped. *)
Definition trap (cpuid : Z) (tf : trapframe) (p : option proc) : list act * option (option proc) :=
  if trapno tf =? T_SYSCALL then
    match p with
    | None => ([APanic], None)               (* myproc() is dereferenced *)
    | Some q =>
        if is_killed p then ([AExit], None)
        else
          let q := do_syscall tf (set_tf tf q) in
          if is_killed (Some q) then ([ASyscall; AExit], None) else ([ASyscall], Some (Some q))
    end
  else
    let (l, p) := trap_switch cpuid tf p in
    if bool_decide (APanic ∈ l) then (l, None)
    else if is_killed p && from_user tf then (l ++ [AExit], None)
    else
      let y := match p with
               | Some q => (state q =? RUNNING) && (trapno tf =? T_IRQ0 + IRQ_TIMER)
               | None => false
               end in
      let p := if y then option_map do_yield p else p in
      let l := if y then l ++ [AYield] else l in
      if is_killed p && from_user tf then (l ++ [AExit], None) else (l, Some p).

End trap.

(** ** Properties *)



(** After tvinit software can invoke exactly one gate from user
    mode, the system call gate, which is a trap gate; every gate is present
    and leads to its vector in the kernel's code segment. *)
Theorem tvinit_spec (vectors : Z -> Z) (i : nat) (g : gatedesc) :
  tvinit vectors !! i = Some g ->
  (g_dpl g = DPL_USER <-> Z.of_nat i = T_SYSCALL) /\
  (g_type g = STS_TG32 <-> Z.of_nat i = T_SYSCALL) /\
  g_p g = 1 /\ g_cs g = Z.shiftl SEG_KCODE 3 /\ gate_offset g = u32 (vectors (Z.of_nat i)).
Proof.
  assert (Hoff : forall istrap sel off d, gate_offset (SETGATE istrap sel off d) = u32 off).
  { intros istrap sel off d. unfold gate_offset. cbn. change 0xffff with (Z.ones 16).
    rewrite Z.land_ones, Z.shiftr_div_pow2, Z.shiftl_mul_pow2 by lia.
    pose proof (Z_div_mod_eq_full (u32 off) (2 ^ 16)). lia. }
  unfold tvinit. intros Hg. apply lookup_lt_Some in Hg as Hi. rewrite length_insert, length_map, length_seq in Hi.
  destruct (decide (i = Z.to_nat T_SYSCALL)) as [->|Hne].
  - rewrite list_lookup_insert_eq in Hg by (rewrite length_map, length_seq; unfold T_SYSCALL; lia).
    injection Hg as <-. rewrite Hoff. cbn. split_and!; done.
  - rewrite list_lookup_insert_ne, list_lookup_fmap, lookup_seq_lt in Hg by done. injection Hg as <-. rewrite Hoff.
    assert (Z.of_nat i <> T_SYSCALL) by (unfold T_SYSCALL in *; lia). cbn. split_and!; done.
Qed.

Lemma tvinit_spec_witness :
  exists g, tvinit (fun i => 0x80105000 + 10 * i) !! 64%nat = Some g /\ gate_offset g = 0x80105280.
Proof.
  exists (SETGATE true 8 0x80105280 3). split; [vm_compute; reflexivity|].
  refine (proj2 (proj2 (proj2 (proj2 (tvinit_spec (fun i => 0x80105000 + 10 * i) 64 _ _))))). vm_compute. reflexivity.
Defined.

(** One test of the loop, with the lock held. *)
Lemma sleep_test_eq killed_ ticks0 n now :
  sleep_test killed_ ticks0 n (mk_clock true now 0) =
    Ret (mk_clock false now 0)
      (if u32 (now - ticks0) <? u32 n then if killed_ then Some (-1) else None else Some 0).
Proof. unfold sleep_test, mbind, M_bind, get, release. cbn. by destruct (_ <? _). Qed.

(** A process that is not killed returns from sleep with 0 at
    the first time it is woken when at least n ticks have passed since the
    call, also when the tick counter wraps around in between, and never
    before. *)
Theorem sys_sleep_spec (ticks0 n now : Z) (wakes : list (Z * bool)) :
  Forall (fun w => w.2 = false) wakes ->
  sleep_loop ticks0 n now false wakes =
    if existsb (fun t => u32 n <=? u32 (t - ticks0)) (now :: map fst wakes) then Some 0 else None.
Proof.
  intros Hk. revert now. induction wakes as [|[t k] wakes IH]; intros now; cbn [sleep_loop map existsb];
    rewrite sleep_test_eq; (destruct (Z.ltb_spec (u32 (now - ticks0)) (u32 n)), (Z.leb_spec (u32 n) (u32 (now - ticks0)));
      try lia; cbn [orb]; try done).
  apply Forall_cons_1 in Hk as [Hk1 Hk2]. cbn in Hk1. subst k. cbn [fst]. by rewrite (IH Hk2 t).
Qed.

(** Ticks that pass the wrap-around of the counter. *)
Lemma sys_sleep_spec_witness :
  sleep_loop (2 ^ 32 - 2) 5 (2 ^ 32 - 2) false [(2 ^ 32 - 1, false); (2, false); (3, false)] = Some 0.
Proof.
  rewrite (sys_sleep_spec (2 ^ 32 - 2) 5 (2 ^ 32 - 2) [(2 ^ 32 - 1, false); (2, false); (3, false)]);
    [vm_compute; reflexivity | repeat constructor].
Defined.

(** A negative argument is a huge unsigned one: sleep(-1) is still asleep
    after 2^31 ticks. *)
Lemma sleep_negative : sleep_loop 0 (-1) 0 false [(100, false); (2 ^ 31, false)] = None.
Proof. vm_compute. reflexivity. Qed.
