(* ===== verification/Devices.v ===== *)
(** Interrupt controllers, the real-time clock and the serial port (ioapic.c,
    lapic.c, picirq.c, uart.c).

    Each device is a small machine that the driver's register accesses act on:
    the I/O APIC with its index register, the local APIC with the processors
    that its interprocessor interrupts reach, the clock as the sequence of
    answers to its reads, and the UART as the sequence of its status bytes.
    microdelay does nothing, in the code as here. *)

From S2P Require Import Prelude Word Mem Fs Trap.

Local Open Scope Z_scope.

(** ** I/O APIC (ioapic.c) *)

Definition REG_ID : Z := 0x00.
Definition REG_VER : Z := 0x01.
Definition REG_TABLE : Z := 0x10.
Definition INT_DISABLED : Z := 0x00010000.

(** struct ioapic: the index register, and the registers behind its data
    window. *)
Record ioapic := mk_ioapic { io_reg : Z; io_data : Z -> Z }.

Definition ioapicread (reg : Z) : M ioapic Z := fun s => Ret (mk_ioapic reg (io_data s)) (io_data s reg).

Definition ioapicwrite (reg data : Z) : M ioapic unit := fun s =>
  Ret (mk_ioapic reg (upd (io_data s) reg data)) tt.

(** The loop of ioapicinit over [n] interrupts from [i]. *)
Fixpoint ioapicinit_loop (n : nat) (i : Z) : M ioapic unit :=
  match n with
  | O => mret tt
  | S n =>
      ioapicwrite (REG_TABLE + 2 * i) (Z.lor INT_DISABLED (T_IRQ0 + i)) ≫= fun _ =>
      ioapicwrite (REG_TABLE + 2 * i + 1) 0 ≫= fun _ =>
      ioapicinit_loop n (i + 1)
  end.

Definition max_intr (ver : Z) : Z := Z.land (Z.shiftr ver 16) 0xFF.

(** The result says whether the warning is printed. *)
Definition ioapicinit (ioapicid : Z) : M ioapic bool :=
  ioapicread REG_VER ≫= fun ver =>
  ioapicread REG_ID ≫= fun id =>
  ioapicinit_loop (Z.to_nat (max_intr ver + 1)) 0 ≫= fun _ =>
  mret (negb (Z.shiftr id 24 =? ioapicid)).

Definition ioapicenable (irq cpunum : Z) : M ioapic unit :=
  ioapicwrite (REG_TABLE + 2 * irq) (T_IRQ0 + irq) ≫= fun _ =>
  ioapicwrite (REG_TABLE + 2 * irq + 1) (u32 (Z.shiftl cpunum 24)).

(** ** Local APIC (lapic.c) *)

Definition ID : Z := 0x0020 / 4.
Definition VER : Z := 0x0030 / 4.
Definition TPR : Z := 0x0080 / 4.
Definition EOI : Z := 0x00B0 / 4.
Definition SVR : Z := 0x00F0 / 4.
Definition ENABLE : Z := 0x00000100.
Definition ESR : Z := 0x0280 / 4.
Definition ICRLO : Z := 0x0300 / 4.
Definition INIT : Z := 0x00000500.
Definition STARTUP : Z := 0x00000600.
Definition DELIVS : Z := 0x00001000.
Definition ASSERT : Z := 0x00004000.
Definition LEVEL : Z := 0x00008000.
Definition BCAST : Z := 0x00080000.
Definition ICRHI : Z := 0x0310 / 4.
Definition TIMER : Z := 0x0320 / 4.
Definition X1 : Z := 0x0000000B.
Definition PERIODIC : Z := 0x00020000.
Definition PCINT : Z := 0x0340 / 4.
Definition LINT0 : Z := 0x0350 / 4.
Definition LINT1 : Z := 0x0360 / 4.
Definition ERROR : Z := 0x0370 / 4.
Definition MASKED : Z := 0x00010000.
Definition TICR : Z := 0x0380 / 4.
Definition TDCR : Z := 0x03E0 / 4.
Definition IRQ_ERROR : Z := 19.

(** A processor on the bus: stopped or running something, waiting for a startup
    interrupt after an INIT, or started at an address. *)
Inductive ap := Other | WaitSipi | Started (addr : Z).

(** The registers of this processor's APIC, the polls until an interrupt is
    delivered, the processors by their APIC id, the memory (for the warm reset
    vector), and the bytes written to ports. *)
Record lapic := mk_lapic {
  lregs : Z -> Z;
  busy : nat;
  aps : Z -> ap;
  lmem : mem;
  ports : list (Z * Z);
}.

(** What the command [v] does to the processor it is sent to: INIT with the level
    asserted resets it, a de-assert does nothing to it, and STARTUP starts it
    at the page given if it waits for that. *)
Definition command (v : Z) (a : ap) : ap :=
  if Z.land v 0x700 =? INIT then if Z.land v ASSERT =? 0 then a else WaitSipi
  else if Z.land v 0x700 =? STARTUP then match a with WaitSipi => Started (Z.shiftl (Z.land v 0xff) 12) | _ => a end
  else a.

Definition deliver_ipi (v : Z) (regs : Z -> Z) (f : Z -> ap) : Z -> ap := fun id =>
  if negb (Z.land v BCAST =? 0) || (id =? Z.shiftr (regs ICRHI) 24) then command v (f id) else f id.

(** A store to the register at [index], and the read of ID. *)
Definition lapicw (index value : Z) : M lapic unit :=
  modify (fun s =>
    let regs := upd (lregs s) index value in
    mk_lapic regs (busy s) (if index =? ICRLO then deliver_ipi value regs (aps s) else aps s) (lmem s) (ports s)).

(** while(lapic[ICRLO] & DELIVS) ; *)
Fixpoint wait_delivered (fuel : nat) : M lapic unit := fun s =>
  match busy s with
  | O => Ret s tt
  | S n =>
      match fuel with
      | O => Panic "fuel"
      | S fuel => wait_delivered fuel (mk_lapic (lregs s) n (aps s) (lmem s) (ports s))
      end
  end.

(** [present] is whether the pointer lapic is set. *)
Definition lapicinit (fuel : nat) (present : bool) : M lapic unit :=
  if negb present then mret tt
  else
    lapicw SVR (Z.lor ENABLE (T_IRQ0 + IRQ_SPURIOUS)) ≫= fun _ =>
    lapicw TDCR X1 ≫= fun _ =>
    lapicw TIMER (Z.lor PERIODIC (T_IRQ0 + IRQ_TIMER)) ≫= fun _ =>
    lapicw TICR 10000000 ≫= fun _ =>
    lapicw LINT0 MASKED ≫= fun _ =>
    lapicw LINT1 MASKED ≫= fun _ =>
    get ≫= fun s =>
    (if 4 <=? Z.land (Z.shiftr (lregs s VER) 16) 0xFF then lapicw PCINT MASKED else mret tt) ≫= fun _ =>
    lapicw ERROR (T_IRQ0 + IRQ_ERROR) ≫= fun _ =>
    lapicw ESR 0 ≫= fun _ =>
    lapicw ESR 0 ≫= fun _ =>
    lapicw EOI 0 ≫= fun _ =>
    lapicw ICRHI 0 ≫= fun _ =>
    lapicw ICRLO (Z.lor (Z.lor BCAST INIT) LEVEL) ≫= fun _ =>
    wait_delivered fuel ≫= fun _ =>
    lapicw TPR 0.

Definition lapicid (present : bool) (s : lapic) : Z := if negb present then 0 else Z.shiftr (lregs s ID) 24.

Definition lapiceoi (present : bool) : M lapic unit := if present then lapicw EOI 0 else mret tt.

Definition CMOS_PORT : Z := 0x70.
Definition CMOS_RETURN : Z := 0x71.

Definition outb (port v : Z) : M lapic unit :=
  modify (fun s => mk_lapic (lregs s) (busy s) (aps s) (lmem s) (ports s ++ [(port, u8 v)])).

Definition wrv : Z := P2V (Z.lor (Z.shiftl 0x40 4) 0x67).

Definition lapicstartap (apicid addr : Z) : M lapic unit :=
  outb CMOS_PORT 0xF ≫= fun _ =>
  outb (CMOS_PORT + 1) 0x0A ≫= fun _ =>
  modify (fun s => mk_lapic (lregs s) (busy s) (aps s)
                     (store16 (store16 (lmem s) wrv 0) (wrv + 2) (Z.shiftr addr 4)) (ports s)) ≫= fun _ =>
  lapicw ICRHI (Z.shiftl apicid 24) ≫= fun _ =>
  lapicw ICRLO (Z.lor (Z.lor INIT LEVEL) ASSERT) ≫= fun _ =>
  lapicw ICRLO (Z.lor INIT LEVEL) ≫= fun _ =>
  lapicw ICRHI (Z.shiftl apicid 24) ≫= fun _ =>
  lapicw ICRLO (Z.lor STARTUP (Z.shiftr addr 12)) ≫= fun _ =>
  lapicw ICRHI (Z.shiftl apicid 24) ≫= fun _ =>
  lapicw ICRLO (Z.lor STARTUP (Z.shiftr addr 12)).

(** ** The clock (lapic.c, date.h) *)

Definition CMOS_STATA : Z := 0x0a.
Definition CMOS_STATB : Z := 0x0b.
Definition CMOS_UIP : Z := Z.shiftl 1 7.
Definition SECS : Z := 0x00.
Definition MINS : Z := 0x02.
Definition HOURS : Z := 0x04.
Definition DAY : Z := 0x07.
Definition MONTH : Z := 0x08.
Definition YEAR : Z := 0x09.

Record rtcdate := mk_rtcdate { second : Z; minute : Z; hour : Z; day : Z; month : Z; year : Z }.

#[export] Instance rtcdate_eq_dec : EqDecision rtcdate.
Proof. solve_decision. Defined.

Section cmos.
(** The answer to the n-th read, of register [reg]. *)
Context (rtc : nat -> Z -> Z).

(** The state is the number of reads so far. *)
Definition cmos_read (reg : Z) : M nat Z := fun n => Ret (S n) (rtc n reg).

Definition fill_rtcdate : M nat rtcdate :=
  cmos_read SECS ≫= fun s =>
  cmos_read MINS ≫= fun mi =>
  cmos_read HOURS ≫= fun h =>
  cmos_read DAY ≫= fun d =>
  cmos_read MONTH ≫= fun mo =>
  cmos_read YEAR ≫= fun y =>
  mret (mk_rtcdate s mi h d mo y).

(** The loop that reads the date until two readings agree. *)
Fixpoint read_date (fuel : nat) : M nat rtcdate :=
  match fuel with
  | O => panic "fuel"
  | S fuel =>
      fill_rtcdate ≫= fun t1 =>
      cmos_read CMOS_STATA ≫= fun a =>
      if negb (Z.land a CMOS_UIP =? 0) then read_date fuel
      else
        fill_rtcdate ≫= fun t2 =>
        if bool_decide (t1 = t2) then mret t1 else read_date fuel
  end.

Definition CONV (x : Z) : Z := u32 (Z.shiftr x 4 * 10 + Z.land x 0xf).

Definition conv_date (t : rtcdate) : rtcdate :=
  mk_rtcdate (CONV (second t)) (CONV (minute t)) (CONV (hour t)) (CONV (day t)) (CONV (month t)) (CONV (year t)).

Definition cmostime (fuel : nat) : M nat rtcdate :=
  cmos_read CMOS_STATB ≫= fun sb =>
  let bcd := Z.land sb (Z.shiftl 1 2) =? 0 in
  read_date fuel ≫= fun t1 =>
  let t1 := if bcd then conv_date t1 else t1 in
  mret (mk_rtcdate (second t1) (minute t1) (hour t1) (day t1) (month t1) (u32 (year t1 + 2000))).

End cmos.

(** ** Interrupt controllers that are not used (picirq.c) *)

Definition IO_PIC1 : Z := 0x20.
Definition IO_PIC2 : Z := 0xA0.

(** The writes to ports. *)
Definition picinit : list (Z * Z) := [(IO_PIC1 + 1, 0xFF); (IO_PIC2 + 1, 0xFF)].

(** ** Serial port (uart.c) *)

Definition COM1 : Z := 0x3f8.

(** The static variable, the number of reads of the status port and of the data
    port so far, the bytes sent by uartputc, the writes to the control
    registers, and the calls of ioapicenable. *)
Record uart := mk_uart {
  u_present : bool;
  u_reads : nat;
  u_data : nat;
  u_sent : list Z;
  u_setup : list (Z * Z);
  u_irq : list (Z * Z);
}.

Section uart.
(** The answers of the status port and of the data port. *)
Context (status data : nat -> Z).

Definition in_status : M uart Z := fun s =>
  Ret (mk_uart (u_present s) (S (u_reads s)) (u_data s) (u_sent s) (u_setup s) (u_irq s)) (status (u_reads s)).

Definition in_data : M uart Z := fun s =>
  Ret (mk_uart (u_present s) (u_reads s) (S (u_data s)) (u_sent s) (u_setup s) (u_irq s)) (data (u_data s)).

Definition setup (port v : Z) : M uart unit :=
  modify (fun s => mk_uart (u_present s) (u_reads s) (u_data s) (u_sent s) (u_setup s ++ [(port, v)]) (u_irq s)).

(** for(i = 0; i < 128 && !(inb(COM1+5) & 0x20); i++), with [n] rounds left *)
Fixpoint wait_ready (n : nat) : M uart unit :=
  match n with
  | O => mret tt
  | S n => in_status ≫= fun st => if negb (Z.land st 0x20 =? 0) then mret tt else wait_ready n
  end.

Definition uartputc (c : Z) : M uart unit := fun s =>
  if negb (u_present s) then Ret s tt
  else
    (wait_ready 128 ≫= fun _ =>
     modify (fun s => mk_uart (u_present s) (u_reads s) (u_data s) (u_sent s ++ [u8 c]) (u_setup s) (u_irq s))) s.

Fixpoint uart_puts (l : list Z) : M uart unit :=
  match l with [] => mret tt | c :: l => uartputc c ≫= fun _ => uart_puts l end.

(** "xv6..." and a newline *)
Definition greeting : list Z := [120; 118; 54; 46; 46; 46; 10].

(** The read of the interrupt identification register (COM1+2) has its value
    dropped and is left out. *)
Definition uartinit : M uart unit :=
  setup (COM1 + 2) 0 ≫= fun _ =>
  setup (COM1 + 3) 0x80 ≫= fun _ =>
  setup COM1 (115200 / 9600) ≫= fun _ =>
  setup (COM1 + 1) 0 ≫= fun _ =>
  setup (COM1 + 3) 0x03 ≫= fun _ =>
  setup (COM1 + 4) 0 ≫= fun _ =>
  setup (COM1 + 1) 0x01 ≫= fun _ =>
  in_status ≫= fun st =>
  if st =? 0xFF then mret tt
  else
    modify (fun s => mk_uart true (u_reads s) (u_data s) (u_sent s) (u_setup s) (u_irq s)) ≫= fun _ =>
    in_data ≫= fun _ =>
    modify (fun s => mk_uart (u_present s) (u_reads s) (u_data s) (u_sent s) (u_setup s) (u_irq s ++ [(IRQ_COM1, 0)])) ≫= fun _ =>
    uart_puts greeting.

Definition uartgetc : M uart Z := fun s =>
  if negb (u_present s) then Ret s (-1)
  else (in_status ≫= fun st =>
        if Z.land st 0x01 =? 0 then mret (-1) else in_data) s.

End uart.

(** ** The I/O APIC routes each interrupt to its processor *)

Definition low (s : ioapic) (i : Z) : Z := io_data s (REG_TABLE + 2 * i).
Definition high (s : ioapic) (i : Z) : Z := io_data s (REG_TABLE + 2 * i + 1).

(** What the drivers have asked for: the processor of each interrupt. *)
Definition routing : Type := Z -> option Z.

(** The redirection table says so, for the interrupts up to [top]. *)
Definition routed (top : Z) (r : routing) (s : ioapic) : Prop :=
  forall i, 0 <= i <= top ->
    match r i with
    | None => low s i = Z.lor INT_DISABLED (T_IRQ0 + i) /\ high s i = 0
    | Some cpu => low s i = T_IRQ0 + i /\ high s i = u32 (Z.shiftl cpu 24)
    end.

(** The calls of ioapicenable by the drivers. *)
Fixpoint enable_all (l : list (Z * Z)) : M ioapic unit :=
  match l with [] => mret tt | (irq, cpu) :: l => ioapicenable irq cpu ≫= fun _ => enable_all l end.

Definition enabled (l : list (Z * Z)) (r : routing) : routing :=
  fold_left (fun (r : routing) e i => if i =? e.1 then Some e.2 else r i) l r.

Lemma ioapicwrite_table reg v s : REG_TABLE <= reg -> ioapicwrite reg v s = Ret (mk_ioapic reg (upd (io_data s) reg v)) tt.
Proof.
  intros H. unfold ioapicwrite, REG_TABLE, REG_ID, REG_VER in *. by destruct (Z.eqb_spec reg 0), (Z.eqb_spec reg 1); try lia.
Qed.

(** Two writes set the entry of interrupt [i]. *)
Lemma set_entry i v w s :
  0 <= i -> exists s', (ioapicwrite (REG_TABLE + 2 * i) v ≫= fun _ => ioapicwrite (REG_TABLE + 2 * i + 1) w) s = Ret s' tt /\
    low s' i = v /\ high s' i = w /\ forall j, j <> i -> low s' j = low s j /\ high s' j = high s j.
Proof.
  intros Hi. eexists. unfold mbind, M_bind. rewrite !ioapicwrite_table by (unfold REG_TABLE; lia). split; [done|].
  unfold low, high, upd. cbn [io_data]. split_and!; [case_ifs; lia | case_ifs; lia|]. intros j Hj. split; case_ifs; done || lia.
Qed.

Lemma ioapicinit_loop_ok n i s :
  0 <= i -> exists s', ioapicinit_loop n i s = Ret s' tt /\
    (forall j, i <= j < i + Z.of_nat n -> low s' j = Z.lor INT_DISABLED (T_IRQ0 + j) /\ high s' j = 0) /\
    (forall j, j < i -> low s' j = low s j /\ high s' j = high s j).
Proof.
  revert i s. induction n as [|n IH]; intros i s Hi.
  - exists s. split_and!; [done | lia | done].
  - destruct (set_entry i (Z.lor INT_DISABLED (T_IRQ0 + i)) 0 s Hi) as (s1 & E & Hl & Hh & Ho).
    destruct (IH (i + 1) s1) as (s2 & E2 & Hn & Hf); [lia|]. exists s2. split_and!.
    + cbn [ioapicinit_loop]. rewrite <- bind_assoc. by rewrite (bind_ret _ _ _ _ _ E).
    + intros j Hj. destruct (decide (j = i)) as [->|]; [|apply Hn; lia]. destruct (Hf i) as [-> ->]; [lia | done].
    + intros j Hj. destruct (Hf j) as [-> ->]; [lia|]. apply Ho. lia.
Qed.

Lemma enable_ok top r s irq cpu :
  0 <= irq -> routed top r s ->
  exists s', ioapicenable irq cpu s = Ret s' tt /\ routed top (fun i => if i =? irq then Some cpu else r i) s'.
Proof.
  intros Hi Hr. destruct (set_entry irq (T_IRQ0 + irq) (u32 (Z.shiftl cpu 24)) s Hi) as (s' & E & Hl & Hh & Ho).
  exists s'. split; [exact E|]. intros i Hit. destruct (Z.eqb_spec i irq) as [->|Hne]; [done|].
  destruct (Ho i Hne) as [H1 H2]. specialize (Hr i Hit). by destruct (r i); rewrite H1, H2.
Qed.

(** After ioapicinit every interrupt is masked, and after any
    sequence of ioapicenable calls the redirection table is exactly the
    routing the drivers asked for: each enabled interrupt goes to the vector
    that trap expects, T_IRQ0 + irq, on the processor of its last call, and
    the others stay masked. *)
Theorem ioapic_routing (s : ioapic) (id : Z) (calls : list (Z * Z)) :
  Forall (fun e => 0 <= e.1) calls ->
  exists w s1 s', ioapicinit id s = Ret s1 w /\ enable_all calls s1 = Ret s' tt /\
    routed (max_intr (io_data s REG_VER)) (enabled calls (fun _ => None)) s'.
Proof.
  intros Hc. set (top := max_intr (io_data s REG_VER)).
  assert (Ht : 0 <= top) by (apply Z.land_nonneg; by right).
  destruct (ioapicinit_loop_ok (Z.to_nat (top + 1)) 0 (mk_ioapic REG_ID (io_data s))) as (s1 & E & Hm & _); [lia|].
  eexists _, s1. assert (H1 : routed top (fun _ => None) s1) by (intros i Hi; apply Hm; lia). clear Hm.
  assert (H2 : exists s', enable_all calls s1 = Ret s' tt /\ routed top (enabled calls (fun _ => None)) s').
  { revert H1. generalize (fun _ : Z => @None Z). clear E. revert s1. induction Hc as [|[irq cpu] calls He _ IH]; intros s1 r Hr.
    - by exists s1.
    - destruct (enable_ok top r s1 irq cpu He Hr) as (s2 & E2 & Hr2). destruct (IH s2 _ Hr2) as (s' & E' & Hr').
      exists s'. split; [|exact Hr']. cbn [enable_all]. by rewrite (bind_ret _ _ _ _ _ E2). }
  destruct H2 as (s' & E' & Hr). exists s'. split_and!; [|done | done].
  unfold ioapicinit, ioapicread, mbind, M_bind. cbn [io_data]. fold top. by rewrite E.
Qed.

(** ** lapicstartap *)

Lemma icrhi_dest a : 0 <= a -> Z.shiftr (Z.shiftl a 24) 24 = a.
Proof. intros. by rewrite Z.shiftr_shiftl_l, Z.sub_diag, Z.shiftl_0_r by lia. Qed.

(** A startup command for page [pg]. *)
Lemma startup_bits pg : 0 <= pg < 256 ->
  Z.land (Z.lor STARTUP pg) 0x700 = STARTUP /\ Z.land (Z.lor STARTUP pg) 0xff = pg /\ Z.land (Z.lor STARTUP pg) BCAST = 0.
Proof.
  intros H. assert (Hall : forallb (fun p => (Z.land (Z.lor STARTUP p) 0x700 =? STARTUP) && (Z.land (Z.lor STARTUP p) 0xff =? p) &&
    (Z.land (Z.lor STARTUP p) BCAST =? 0)) (seqZ 0 256) = true) by (vm_compute; reflexivity).
  rewrite forallb_forall in Hall. specialize (Hall pg (proj1 (list_elem_of_In _ _) (proj2 (elem_of_seqZ 0 256 pg) ltac:(lia)))).
  to_prop. by repeat match goal with H : _ /\ _ |- _ => destruct H end.
Qed.

(** The two halves of the warm reset vector. *)
Lemma warm_vector m addr :
  0 <= addr < 2 ^ 20 -> addr mod 2 ^ 12 = 0 ->
  let m' := store16 (store16 m wrv 0) (wrv + 2) (Z.shiftr addr 4) in
  load16 m' wrv + 16 * load16 m' (wrv + 2) = addr /\ forall a, a < wrv \/ wrv + 4 <= a -> m' a = m a.
Proof.
  intros Ha Hp m'. pose proof (Z_div_mod_eq_full addr (2 ^ 12)) as Hdm. set (pg := addr / 2 ^ 12) in *.
  assert (Hq : Z.shiftr addr 4 = pg * 2 ^ 8) by (rewrite Z.shiftr_div_pow2 by lia; symmetry; apply (Z.div_unique _ _ _ 0); lia).
  subst m'. rewrite Hq. generalize wrv. intros w. unfold load16, store16. split.
  - unfold upd. repeat match goal with |- context [?x =? ?y] => destruct (Z.eqb_spec x y); try lia end.
    unfold u8. rewrite !Z.shiftr_div_pow2, Z.div_mul, Z.mod_mul, (Z.mod_small pg) by lia. rewrite !Z.div_0_l, !Z.mod_0_l by lia. lia.
  - intros a Hr. by rewrite !upd_ne by lia.
Qed.

(** The state of the processor [apicid] becomes [x], the others stay; the command
    register is set to address it. *)
Definition only (apicid : Z) (x : ap) (s s' : lapic) : Prop :=
  (forall id, aps s' id = if id =? apicid then x else aps s id) /\ lregs s' ICRHI = Z.shiftl apicid 24 /\ lmem s' = lmem s.

Lemma lapicw_hi apicid s : exists s', lapicw ICRHI (Z.shiftl apicid 24) s = Ret s' tt /\ only apicid (aps s apicid) s s'.
Proof.
  eexists. split; [done|]. split_and!; cbn [aps lregs lmem]; [|by rewrite upd_eq | done].
  intros id. change (ICRHI =? ICRLO) with false. cbv iota. by destruct (Z.eqb_spec id apicid) as [->|].
Qed.

Lemma lapicw_lo apicid v s0 s a :
  0 <= apicid -> only apicid a s0 s -> Z.land v BCAST = 0 ->
  exists s', lapicw ICRLO v s = Ret s' tt /\ only apicid (command v a) s0 s'.
Proof.
  intros Hid (H1 & H2 & H3) Hb. eexists. split; [done|]. split_and!; cbn [aps lregs lmem]; [|by rewrite upd_ne | done].
  intros id. change (ICRLO =? ICRLO) with true. cbv iota. unfold deliver_ipi. rewrite Hb, upd_ne, H2, icrhi_dest by done.
  cbn [Z.eqb negb orb]. rewrite H1. by destruct (Z.eqb_spec id apicid).
Qed.

Lemma only_hi apicid a s0 s : only apicid a s0 s -> exists s', lapicw ICRHI (Z.shiftl apicid 24) s = Ret s' tt /\ only apicid a s0 s'.
Proof.
  intros (H1 & H2 & H3). destruct (lapicw_hi apicid s) as (s' & E & G1 & G2 & G3). exists s'. split; [done|].
  split_and!; [|done | congruence]. intros id. rewrite G1, !H1, Z.eqb_refl. by destruct (id =? apicid).
Qed.

(** Lapicstartap starts the processor it names, whatever that
    processor was doing, at the address it is given, and no other processor:
    the INIT resets it, the de-assert and the second STARTUP find nothing to
    do.  The warm reset vector leads to the same address. *)
Theorem lapicstartap_spec (s : lapic) (apicid addr : Z) :
  0 <= apicid < 256 -> 0 <= addr < 2 ^ 20 -> addr mod 2 ^ 12 = 0 ->
  exists s', lapicstartap apicid addr s = Ret s' tt /\
    (forall id, aps s' id = if id =? apicid then Started addr else aps s id) /\
    load16 (lmem s') wrv + 16 * load16 (lmem s') (wrv + 2) = addr /\
    forall a, a < wrv \/ wrv + 4 <= a -> lmem s' a = lmem s a.
Proof.
  intros Hid Ha Hp. pose proof (Z_div_mod_eq_full addr (2 ^ 12)) as Hdm. set (pg := addr / 2 ^ 12) in *.
  assert (Hpg : 0 <= pg < 256) by lia. assert (Hsh : Z.shiftr addr 12 = pg) by (by rewrite Z.shiftr_div_pow2).
  destruct (startup_bits pg Hpg) as (B1 & B2 & B3). unfold lapicstartap, outb. rewrite Hsh.
  set (s0 := mk_lapic (lregs s) (busy s) (aps s) (store16 (store16 (lmem s) wrv 0) (wrv + 2) (Z.shiftr addr 4))
               (ports s ++ [(CMOS_PORT, u8 0xF)] ++ [(CMOS_PORT + 1, u8 0x0A)])).
  do 3 rewrite (bind_ret (modify _) _ _ _ tt eq_refl). cbn [lregs busy aps lmem ports]. rewrite <- app_assoc. fold s0.
  destruct (lapicw_hi apicid s0) as (s1 & E1 & O1). rewrite (bind_ret _ _ _ _ _ E1).
  destruct (lapicw_lo apicid (Z.lor (Z.lor INIT LEVEL) ASSERT) s0 s1 _ ltac:(lia) O1 eq_refl) as (s2 & E2 & O2). rewrite (bind_ret _ _ _ _ _ E2).
  destruct (lapicw_lo apicid (Z.lor INIT LEVEL) s0 s2 _ ltac:(lia) O2 eq_refl) as (s3 & E3 & O3). rewrite (bind_ret _ _ _ _ _ E3).
  destruct (only_hi _ _ _ _ O3) as (s4 & E4 & O4). rewrite (bind_ret _ _ _ _ _ E4).
  destruct (lapicw_lo apicid (Z.lor STARTUP pg) s0 s4 _ ltac:(lia) O4 B3) as (s5 & E5 & O5). rewrite (bind_ret _ _ _ _ _ E5).
  destruct (only_hi _ _ _ _ O5) as (s6 & E6 & O6). rewrite (bind_ret _ _ _ _ _ E6).
  destruct (lapicw_lo apicid (Z.lor STARTUP pg) s0 s6 _ ltac:(lia) O6 B3) as (s7 & E7 & O7 & _ & Hmem). exists s7.
  split; [done|]. rewrite Hmem. split; [|by apply warm_vector].
  assert (Hc : forall a, command (Z.lor STARTUP pg) (command (Z.lor STARTUP pg) (command (Z.lor INIT LEVEL)
    (command (Z.lor (Z.lor INIT LEVEL) ASSERT) a))) = Started addr).
  { intros a. change (command (Z.lor INIT LEVEL) (command (Z.lor (Z.lor INIT LEVEL) ASSERT) a)) with WaitSipi.
    unfold command. rewrite B1, B2. change (STARTUP =? INIT) with false. change (STARTUP =? STARTUP) with true. cbv iota.
    rewrite Z.shiftl_mul_pow2 by lia. f_equal. lia. }
  intros id. rewrite O7, Hc. done.
Qed.

(** ** lapicinit *)

Lemma wait_delivered_ok fuel s :
  (busy s <= fuel)%nat -> wait_delivered fuel s = Ret (mk_lapic (lregs s) 0 (aps s) (lmem s) (ports s)) tt.
Proof.
  revert s. induction fuel as [|fuel IH]; intros [r [|n] f m p] H; cbn in *; try lia; [done | done|]. rewrite IH by (cbn; lia). done.
Qed.

(** A write to a register other than ICRLO, or of a de-assert to it. *)
Lemma lapicw_quiet i v s :
  i <> ICRLO \/ v = Z.lor (Z.lor BCAST INIT) LEVEL ->
  exists s', lapicw i v s = Ret s' tt /\ lregs s' = upd (lregs s) i v /\ busy s' = busy s /\ lmem s' = lmem s /\
    forall id, aps s' id = aps s id.
Proof.
  intros H. eexists. split; [done|]. cbn [lregs busy lmem aps]. split_and!; try done. intros id.
  destruct (Z.eqb_spec i ICRLO) as [->|]; [|done]. destruct H as [H| ->]; [done|]. unfold deliver_ipi. case_if; [|done]. done.
Qed.

(** Run the next write of lapicinit. *)
Ltac quiet_write :=
  match goal with
  | |- context [(lapicw ?i ?v ≫= _) ?s] =>
      let s' := fresh "s" in let E := fresh "E" in let R := fresh "R" in let B := fresh "B" in let L := fresh "L" in let A := fresh "A" in
      destruct (lapicw_quiet i v s) as (s' & E & R & B & L & A); [first [by left | by right]|]; rewrite (bind_ret _ _ _ _ _ E); clear E
  end.

(** Lapicinit returns once its interrupt is delivered, and leaves
    the APIC enabled: the timer periodic on the vector of the clock interrupt,
    the external lines masked, all priorities accepted.  It resets no other
    processor. *)
Theorem lapicinit_spec (s : lapic) (fuel : nat) :
  (busy s <= fuel)%nat ->
  exists s', lapicinit fuel true s = Ret s' tt /\
    lregs s' TIMER = Z.lor PERIODIC (T_IRQ0 + IRQ_TIMER) /\ lregs s' SVR = Z.lor ENABLE (T_IRQ0 + IRQ_SPURIOUS) /\
    lregs s' LINT0 = MASKED /\ lregs s' LINT1 = MASKED /\ lregs s' ERROR = T_IRQ0 + IRQ_ERROR /\ lregs s' TPR = 0 /\
    lregs s' ID = lregs s ID /\ (forall id, aps s' id = aps s id) /\ lmem s' = lmem s.
Proof.
  intros Hf. unfold lapicinit. cbn [negb]. do 6 quiet_write. rewrite (bind_ret get _ _ _ _ eq_refl).
  assert (Hpc : exists s7, (if 4 <=? Z.land (Z.shiftr (lregs s5 VER) 16) 0xFF then lapicw PCINT MASKED else mret tt) s5 = Ret s7 tt /\
    (lregs s7 = upd (lregs s5) PCINT MASKED \/ lregs s7 = lregs s5) /\ busy s7 = busy s5 /\ lmem s7 = lmem s5 /\ forall id, aps s7 id = aps s5 id).
  { case_if; [|exists s5; auto 10]. destruct (lapicw_quiet PCINT MASKED s5) as (s7 & E & R7 & H7); [by left|]. exists s7. auto. }
  destruct Hpc as (s7 & E & Rp & Bp & Lp & Ap). rewrite (bind_ret _ _ _ _ _ E). do 6 quiet_write.
  assert (Hw : (busy s12 <= fuel)%nat) by congruence. rewrite (bind_ret _ _ _ _ _ (wait_delivered_ok fuel s12 Hw)).
  match goal with |- context [lapicw TPR 0 ?x] => destruct (lapicw_quiet TPR 0 x) as (s' & E' & R' & B' & L' & A'); [by left|] end.
  cbn [lregs lmem aps] in *. exists s'. split; [done|]. rewrite R', R10, R9, R8, R7, R6, R5.
  split_and!; try (destruct Rp as [-> | ->]; rewrite ?R4, ?R3, ?R2, ?R1, ?R0, ?R; reflexivity); [intros id | congruence].
  rewrite A', A10, A9, A8, A7, A6, A5, Ap, A4, A3, A2, A1, A0, A. done.
Qed.

(** ** cmostime *)

Section cmostime.
Context (rtc : nat -> Z -> Z).

(** The date that six reads from the n-th on give. *)
Definition date_at (n : nat) : rtcdate :=
  mk_rtcdate (rtc n SECS) (rtc (n + 1) MINS) (rtc (n + 2) HOURS) (rtc (n + 3) DAY) (rtc (n + 4) MONTH) (rtc (n + 5) YEAR).

Lemma fill_rtcdate_eq n : fill_rtcdate rtc n = Ret (n + 6)%nat (date_at n).
Proof.
  unfold fill_rtcdate, cmos_read, mbind, M_bind, mret, M_ret, date_at.
  by replace (n + 1)%nat with (S n) by lia; replace (n + 2)%nat with (S (S n)) by lia; replace (n + 3)%nat with (S (S (S n))) by lia;
    replace (n + 4)%nat with (S (S (S (S n)))) by lia; replace (n + 5)%nat with (S (S (S (S (S n))))) by lia;
    replace (n + 6)%nat with (S (S (S (S (S (S n)))))) by lia.
Qed.

(** A reading that is accepted: the same twice, with no update in between. *)
Definition settled (n : nat) : Prop := Z.land (rtc (n + 6) CMOS_STATA) CMOS_UIP = 0 /\ date_at n = date_at (n + 7).

(** One round of the loop. *)
Lemma read_date_round fuel n :
  (settled n /\ exists n', read_date rtc (S fuel) n = Ret n' (date_at n)) \/
  (~ settled n /\ exists n', (n + 7 <= n')%nat /\ read_date rtc (S fuel) n = read_date rtc fuel n').
Proof.
  cbn [read_date]. unfold mbind, M_bind. rewrite fill_rtcdate_eq. unfold cmos_read, settled.
  destruct (Z.eqb_spec (Z.land (rtc (n + 6) CMOS_STATA) CMOS_UIP) 0) as [E|E]; cbn [negb].
  - rewrite fill_rtcdate_eq. replace (S (n + 6)) with (n + 7)%nat by lia. case_bool_decide as D.
    + left. split; [done|]. by eexists.
    + right. split; [by intros [_ ?]|]. eexists. split; [|reflexivity]. lia.
  - right. split; [by intros [? _]|]. eexists. split; [|reflexivity]. lia.
Qed.

Lemma read_date_sound fuel n n' t : read_date rtc fuel n = Ret n' t -> exists k, (n <= k)%nat /\ settled k /\ t = date_at k.
Proof.
  revert n. induction fuel as [|fuel IH]; intros n; [done|].
  destruct (read_date_round fuel n) as [(Hs & n1 & ->)|(_ & n1 & Hn & ->)]; [intros [= _ <-]; by exists n|].
  intros (k & Hk & H)%IH. exists k. split; [lia | done].
Qed.

Lemma read_date_total fuel n N : settled N -> (forall k, (N <= k)%nat -> settled k) -> (N - n < fuel)%nat ->
  exists n' t, read_date rtc fuel n = Ret n' t.
Proof.
  intros HN Hs. revert n. induction fuel as [|fuel IH]; intros n Hf.
  - exfalso. lia.
  - destruct (read_date_round fuel n) as [(_ & n1 & ->)|(Hn & n1 & Hle & ->)]; [by eexists _, _|].
    apply IH. destruct (decide (N <= n)%nat); [by destruct Hn; apply Hs | lia].
Qed.

(** Values as the clock holds them: binary coded decimal. *)
Definition bcd (v : Z) : Z := 16 * (v / 10) + v mod 10.

Lemma CONV_bcd v : 0 <= v < 100 -> CONV (bcd v) = v.
Proof.
  intros H. assert (Hall : forallb (fun v => CONV (bcd v) =? v) (seqZ 0 100) = true) by (vm_compute; reflexivity).
  rewrite forallb_forall in Hall. apply Z.eqb_eq, Hall, list_elem_of_In, elem_of_seqZ. lia.
Qed.

Definition bcd_date (t : rtcdate) : rtcdate :=
  mk_rtcdate (bcd (second t)) (bcd (minute t)) (bcd (hour t)) (bcd (day t)) (bcd (month t)) (bcd (year t)).

Definition two_digits (t : rtcdate) : Prop :=
  0 <= second t < 100 /\ 0 <= minute t < 100 /\ 0 <= hour t < 100 /\ 0 <= day t < 100 /\ 0 <= month t < 100 /\ 0 <= year t < 100.

(** What the clock holds for date [t], by its mode. *)
Definition encode (sb : Z) (t : rtcdate) : rtcdate := if Z.land sb (Z.shiftl 1 2) =? 0 then bcd_date t else t.

Lemma decode t sb : two_digits t -> (if Z.land sb (Z.shiftl 1 2) =? 0 then conv_date (encode sb t) else encode sb t) = t.
Proof.
  intros (H1 & H2 & H3 & H4 & H5 & H6). unfold encode. case_if; [|done]. destruct t. unfold conv_date, bcd_date.
  cbn [second minute hour day month year] in *. by rewrite !CONV_bcd.
Qed.

(** Cmostime returns the date of the clock.  When the clock comes to
    rest the loop ends; and a date that cmostime returns was on the clock, in
    binary or in BCD, in two readings without an update in between, with the
    year counted from 2000. *)
Theorem cmostime_spec (n N fuel : nat) :
  (forall k, (N <= k)%nat -> settled k) -> (N - n < fuel)%nat ->
  exists n' t, cmostime rtc fuel n = Ret n' t /\
    exists k, (n < k)%nat /\ settled k /\
      forall d, two_digits d -> date_at k = encode (rtc n CMOS_STATB) d ->
        t = mk_rtcdate (second d) (minute d) (hour d) (day d) (month d) (year d + 2000).
Proof.
  intros Hs Hf. unfold cmostime, cmos_read. unfold mbind at 1, M_bind at 1.
  destruct (read_date_total fuel (S n) N) as (n' & t & E); [by apply Hs | done | lia|].
  destruct (read_date_sound _ _ _ _ E) as (k & Hk & Hset & ->). eexists n', _. rewrite (bind_ret _ _ _ _ _ E). split; [done|].
  exists k. split_and!; [lia | done|]. intros d Hd Hk'. rewrite Hk', decode by done. f_equal.
  destruct Hd as (_ & _ & _ & _ & _ & Hy). apply u32_small. unfold is_u32. lia.
Qed.

End cmostime.

(** ** The serial port *)

Section serial.
Context (status data : nat -> Z).

Lemma wait_ready_ok n s :
  exists s', wait_ready status n s = Ret s' tt /\ (u_reads s <= u_reads s' <= u_reads s + n)%nat /\
    u_present s' = u_present s /\ u_sent s' = u_sent s /\ u_setup s' = u_setup s /\ u_irq s' = u_irq s.
Proof.
  revert s. induction n as [|n IH]; intros s; cbn [wait_ready]; [exists s; split_and!; done || lia|].
  unfold in_status, mbind, M_bind. case_if; [eexists; split; [done|]; cbn; split_and!; done || lia|].
  destruct (IH (mk_uart (u_present s) (S (u_reads s)) (u_data s) (u_sent s) (u_setup s) (u_irq s))) as (s' & -> & Hr & H). exists s'.
  split; [done|]. cbn [u_reads u_present u_sent u_setup u_irq] in *. split; [lia | done].
Qed.

(** However the status port answers, the characters go out once and in order,
    after at most 128 reads of the status each. *)
Lemma uart_puts_spec (l : list Z) (s : uart) :
  exists s', uart_puts status l s = Ret s' tt /\
    u_sent s' = u_sent s ++ (if u_present s then map u8 l else []) /\
    (u_reads s' <= u_reads s + 128 * length l)%nat /\ u_irq s' = u_irq s /\ u_present s' = u_present s.
Proof.
  revert s. induction l as [|c l IH]; intros s; cbn [uart_puts].
  - exists s. split_and!; [done | by destruct (u_present s); rewrite app_nil_r | lia | done | done].
  - unfold uartputc at 1. unfold mbind at 1, M_bind at 1. destruct (u_present s) eqn:Ep; cbn [negb].
    + destruct (wait_ready_ok 128 s) as (s1 & E & Hr & H1 & H2 & H3). unfold mbind, M_bind. rewrite E. unfold modify.
      destruct (IH (mk_uart (u_present s1) (u_reads s1) (u_data s1) (u_sent s1 ++ [u8 c]) (u_setup s1) (u_irq s1))) as (s' & -> & Hs & Hrd & Hi & Hp).
      exists s'. cbn [u_present u_reads u_sent u_irq] in *. destruct H3 as [_ H3]. rewrite H1, Ep in *.
      split_and!; [done | | cbn [length]; lia | congruence | done].
      rewrite Hs, H2, <- app_assoc. done.
    + destruct (IH s) as (s' & -> & Hs & Hrd & Hi & Hp). exists s'. rewrite Ep in *. split_and!; [done | done | cbn [length]; lia | done | done].
Qed.

(** The state in which uartinit starts to send, or gives up. *)
Definition uart_ready (present : bool) (setup0 : list (Z * Z)) : uart :=
  mk_uart present 1 (if present then 1 else 0)%nat []
    (((((((setup0 ++ [(COM1 + 2, 0)]) ++ [(COM1 + 3, 0x80)]) ++ [(COM1, 115200 / 9600)]) ++ [(COM1 + 1, 0)]) ++
        [(COM1 + 3, 0x03)]) ++ [(COM1 + 4, 0)]) ++ [(COM1 + 1, 0x01)])
    (if present then [(IRQ_COM1, 0)] else []).

Lemma setup_eq port v a b c d e f : setup port v (mk_uart a b c d e f) = Ret (mk_uart a b c d (e ++ [(port, v)]) f) tt.
Proof. done. Qed.

Lemma in_status_eq a b c d e f : in_status status (mk_uart a b c d e f) = Ret (mk_uart a (S b) c d e f) (status b).
Proof. done. Qed.

Ltac uart_setup :=
  unfold uartinit; repeat rewrite (bind_ret _ _ _ _ _ (setup_eq _ _ _ _ _ _ _ _)); rewrite (bind_ret _ _ _ _ _ (in_status_eq _ _ _ _ _ _)).

Lemma uartinit_absent setup0 :
  status 0%nat = 0xFF -> uartinit status data (mk_uart false 0 0 [] setup0 []) = Ret (uart_ready false setup0) tt.
Proof. intros H. uart_setup. rewrite H, Z.eqb_refl. reflexivity. Qed.

Lemma uartinit_present setup0 :
  status 0%nat <> 0xFF ->
  uartinit status data (mk_uart false 0 0 [] setup0 []) = uart_puts status greeting (uart_ready true setup0).
Proof.
  intros H. uart_setup. apply Z.eqb_neq in H. rewrite H. do 3 (unfold mbind at 1, M_bind at 1; cbv [modify in_data];
    cbn [u_present u_reads u_data u_sent u_setup u_irq]). reflexivity.
Qed.

(** The serial port cannot hold the kernel up.  However its ports
    answer, uartinit and the characters given to uartputc after it return; the
    port has then received the greeting and the characters, once each and in
    order, after at most 128 reads of the status for each, and its interrupt
    goes to processor 0.  When the first status read says that there is no port,
    nothing is sent and no interrupt enabled. *)
Theorem uart_spec (l : list Z) (setup0 : list (Z * Z)) :
  exists s', (uartinit status data ≫= fun _ => uart_puts status l) (mk_uart false 0 0 [] setup0 []) = Ret s' tt /\
    u_sent s' = (if status 0%nat =? 0xFF then [] else greeting ++ map u8 l) /\
    u_irq s' = (if status 0%nat =? 0xFF then [] else [(IRQ_COM1, 0)]) /\
    (u_reads s' <= 1 + 128 * (7 + length l))%nat.
Proof.
  destruct (Z.eqb_spec (status 0%nat) 0xFF) as [E|E].
  - destruct (uart_puts_spec l (uart_ready false setup0)) as (s' & Hl & Hs & Hr & Hi & _). exists s'.
    rewrite (bind_ret _ _ _ _ _ (uartinit_absent setup0 E)). cbn [uart_ready u_sent u_present u_irq u_reads] in *.
    split_and!; [done | done | done | lia].
  - destruct (uart_puts_spec greeting (uart_ready true setup0)) as (s1 & H1 & Hs1 & Hr1 & Hi1 & Hp1).
    destruct (uart_puts_spec l s1) as (s' & Hl & Hs & Hr & Hi & _). exists s'.
    rewrite (bind_ret _ _ _ _ _ (eq_trans (uartinit_present setup0 E) H1)). cbn [uart_ready u_sent u_present u_irq u_reads] in *.
    rewrite Hs, Hi, Hs1, Hi1, Hp1. change (length greeting) with 7%nat in Hr1. split_and!; [done | done | done | lia].
Qed.

End serial.

(** ** Witnesses *)

(** An I/O APIC with 24 interrupts. *)
Definition sample_ioapic : ioapic := mk_ioapic 0 (fun r => if r =? REG_VER then 0x170011 else 0).

Lemma ioapic_routing_witness :
  exists w s1 s', ioapicinit 0 sample_ioapic = Ret s1 w /\ enable_all [(IRQ_KBD, 0); (IRQ_IDE, 1)] s1 = Ret s' tt /\
    routed 23 (enabled [(IRQ_KBD, 0); (IRQ_IDE, 1)] (fun _ => None)) s'.
Proof. apply (ioapic_routing sample_ioapic 0 [(IRQ_KBD, 0); (IRQ_IDE, 1)]). repeat constructor; vm_compute; discriminate. Defined.

Definition sample_lapic : lapic := mk_lapic (fun _ => 0) 3 (fun _ => Other) (fun _ => 0) [].

Lemma lapicstartap_spec_witness :
  exists s', lapicstartap 1 0x7000 sample_lapic = Ret s' tt /\ aps s' 1 = Started 0x7000 /\ aps s' 0 = Other.
Proof.
  destruct (lapicstartap_spec sample_lapic 1 0x7000) as (s' & H1 & H2 & _); [lia | lia | done|].
  exists s'. split; [exact H1|]. split; [exact (H2 1) | exact (H2 0)].
Defined.

Lemma lapicinit_spec_witness : exists s', lapicinit 3 true sample_lapic = Ret s' tt /\ lregs s' TPR = 0.
Proof. destruct (lapicinit_spec sample_lapic 3) as (s' & H1 & _ & _ & _ & _ & _ & H2 & _); [cbn; lia|]. exists s'. exact (conj H1 H2). Defined.

(** A clock in BCD mode that shows 23:59:58 on the 31st of December 2024. *)
Definition sample_rtc (n : nat) (reg : Z) : Z :=
  if reg =? SECS then 0x58 else if reg =? MINS then 0x59 else if reg =? HOURS then 0x23 else if reg =? DAY then 0x31
  else if reg =? MONTH then 0x12 else if reg =? YEAR then 0x24 else 0.

Lemma cmostime_spec_witness : exists n', cmostime sample_rtc 1 0%nat = Ret n' (mk_rtcdate 58 59 23 31 12 2024).
Proof.
  destruct (cmostime_spec sample_rtc 0%nat 0%nat 1%nat) as (n' & t & H1 & k & _ & _ & Hd); [done | lia|]. exists n'. rewrite H1. f_equal.
  apply (Hd (mk_rtcdate 58 59 23 31 12 24)); [vm_compute; intuition discriminate | reflexivity].
Defined.
