(* ===== verification/Main.v ===== *)
(** Starting the processors (main.c).

    startothers runs on the boot processor while the processors that it has
    started run entryother.S and mpmain: the two sides share the three words
    below the entry code and the started flags.  The model is a step relation
    over both sides, built on the allocator (Kalloc.v) and on the local APIC
    (Devices.v). *)

From S2P Require Import Prelude Word Mem Spinlock Kalloc Vm Devices.

Local Open Scope Z_scope.

(** ** The boot page directory *)

Definition entry_flags : Z := Z.lor (Z.lor (Z.lor 0 PTE_P) PTE_W) PTE_PS.

Definition entrypgdir_entry (i : Z) : Z :=
  if i =? 0 then entry_flags
  else if i =? Z.shiftr KERNBASE PDXSHIFT then entry_flags
  else 0.

(** The translation of an address by a directory of 4 MB pages. *)
Definition translate4M (dir : Z -> Z) (va : Z) : option Z :=
  let e := dir (PDX va) in
  if (Z.land e PTE_P =? 0) || (Z.land e PTE_PS =? 0) then None
  else Some (Z.land e (Z.lnot 0x3FFFFF) + Z.land va 0x3FFFFF).

(** The kernel starts with the first 4 MB mapped twice, where they are and at
    KERNBASE. *)
Lemma entrypgdir_maps va : 0 <= va < 0x400000 ->
  translate4M entrypgdir_entry va = Some va /\ translate4M entrypgdir_entry (KERNBASE + va) = Some va.
Proof.
  intros H. unfold translate4M. rewrite !PDX_eq by (unfold is_u32, KERNBASE; lia). change 0x3FFFFF with (Z.ones 22). rewrite !Z.land_ones by lia.
  rewrite (Z.div_small va) by lia.
  replace ((KERNBASE + va) / 2 ^ 22) with 512 by (unfold KERNBASE; apply (Z.div_unique _ _ _ va); lia).
  replace ((KERNBASE + va) mod 2 ^ 22) with va by (unfold KERNBASE; apply (Z.mod_unique _ _ 512 va); lia).
  rewrite (Z.mod_small va) by lia. done.
Qed.

(** ** startothers *)

(** Where a processor is in entryother.S: the directory is loaded, then the
    stack, then the function is called. *)
Inductive apstate :=
| Cold
| Paging (pgdir : Z)
| Stacked (pgdir esp : Z)
| Entered (pgdir esp entry : Z).

(** Where the boot processor is: before the loop, at the processor of the loop,
    or waiting for it to start. *)
Inductive bpc := Copying | At (i : nat) | Spin (i : nat).

Record mach := mk_mach {
  m_k : kmem;
  m_lapic : lapic;
  m_started : list bool;
  m_ap : list apstate;
  m_pc : bpc;
}.

Definition code : Z := P2V 0x7000.

Lemma code_eq : code = 0x80007000.
Proof. reflexivity. Qed.

Section startothers.
(** The image of entryother.S and the addresses of mpenter and entrypgdir, from
    the linker; the APIC ids in cpus, and the processor that runs this. *)
Context (entryother size mpenter entrypgdir : Z) (ids : list Z) (boot : nat).

Definition set_kmem_mem (m : mem) (k : kmem) : kmem := mk_kmem (km_lock k) (use_lock k) (freelist k) m.
Definition set_lmem (m : mem) (l : lapic) : lapic := mk_lapic (lregs l) (busy l) (aps l) m (ports l).

(** The words that entryother.S reads. *)
Definition set_words (stack : Z) (m : mem) : mem :=
  store32 (store32 (store32 m (code - 4) (u32 (stack + KSTACKSIZE))) (code - 8) mpenter) (code - 12) (V2P entrypgdir).

(** A round of the loop before the wait. *)
Definition start_cpu (id : Z) : M (kmem * lapic) unit := fun '(k, l) =>
  match kalloc k with
  | Ret k stack =>
      match lapicstartap id (V2P code) (set_lmem (set_words stack (km_mem k)) l) with
      | Ret l _ => Ret (set_kmem_mem (lmem l) k, l) tt
      | Panic e => Panic e
      | Wait c l => Wait c (set_kmem_mem (lmem l) k, l)
      end
  | Panic e => Panic e
  | Wait c k => Wait c (k, l)
  end.

Definition next_read (m : mem) (a : apstate) : option apstate :=
  match a with
  | Cold => Some (Paging (load32 m (code - 12)))
  | Paging pd => Some (Stacked pd (load32 m (code - 4)))
  | Stacked pd sp => Some (Entered pd sp (load32 m (code - 8)))
  | Entered _ _ _ => None
  end.

Inductive mstep : mach -> mach -> Prop :=
| MCopy k l st ap :
    mstep (mk_mach k l st ap Copying) (mk_mach (set_kmem_mem (memmove (km_mem k) code entryother size) k) l st ap (At 0))
| MSelf k l st ap :
    (boot < length ids)%nat -> mstep (mk_mach k l st ap (At boot)) (mk_mach k l st ap (At (S boot)))
| MStart k l st ap i id k' l' :
    i <> boot -> ids !! i = Some id -> start_cpu id (k, l) = Ret (k', l') tt ->
    mstep (mk_mach k l st ap (At i)) (mk_mach k' l' st ap (Spin i))
| MGo k l st ap i :
    st !! i = Some true -> mstep (mk_mach k l st ap (Spin i)) (mk_mach k l st ap (At (S i)))
| MRead k l st ap pc i id a a' :
    ids !! i = Some id -> aps l id = Started (V2P code) -> ap !! i = Some a -> next_read (km_mem k) a = Some a' ->
    mstep (mk_mach k l st ap pc) (mk_mach k l st (<[i := a']> ap) pc)
| MUp k l st ap pc i pd sp e :
    ap !! i = Some (Entered pd sp e) -> mstep (mk_mach k l st ap pc) (mk_mach k l (<[i := true]> st) ap pc).

(** ** The invariant *)

(** What a processor with stack page [v] may have read. *)
Definition ap_ok (v : Z) (a : apstate) : Prop :=
  match a with
  | Cold => True
  | Paging pd => pd = V2P entrypgdir
  | Stacked pd sp => pd = V2P entrypgdir /\ sp = v + KSTACKSIZE
  | Entered pd sp e => pd = V2P entrypgdir /\ sp = v + KSTACKSIZE /\ e = mpenter
  end.

Definition entered (a : apstate) : Prop := match a with Entered _ _ _ => True | _ => False end.

Definition words (v : Z) (m : mem) : Prop :=
  load32 m (code - 4) = v + KSTACKSIZE /\ load32 m (code - 8) = mpenter /\ load32 m (code - 12) = V2P entrypgdir.

Context (end_ : Z) (pages : list Z).

(** The state of one processor: not started, or started with a stack. *)
Definition cpu_ok (s : mach) (stack : option Z) (i : nat) (id : Z) : Prop :=
  exists a b, m_ap s !! i = Some a /\ m_started s !! i = Some b /\
    match stack with
    | None => (forall x, aps (m_lapic s) id <> Started x) /\ a = Cold /\ b = false
    | Some v => aps (m_lapic s) id = Started (V2P code) /\ ap_ok v a /\ (b = true -> entered a) /\ (b = false -> m_pc s = Spin i)
    end.

(** Stacks are given to the processors before the current one; there are free
    pages for the others. *)
Definition pc_ok (s : mach) (stacks : nat -> option Z) (free : list Z) : Prop :=
  match m_pc s with
  | Copying => (forall i, stacks i = None) /\ (length ids <= length free)%nat
  | At n =>
      (n <= length ids)%nat /\ (forall i, (n <= i)%nat -> stacks i = None) /\ (length ids <= n + length free)%nat /\
      (forall i, (i < n)%nat -> i <> boot -> is_Some (stacks i))
  | Spin n =>
      (n < length ids)%nat /\ (forall i, (n < i)%nat -> stacks i = None) /\ (length ids <= S n + length free)%nat /\
      (forall i, (i < n)%nat -> i <> boot -> is_Some (stacks i)) /\ exists v, stacks n = Some v /\ words v (km_mem (m_k s))
  end.

Record start_inv (stacks : nat -> option Z) (free : list Z) (s : mach) : Prop := {
  iv_k : kinv end_ (m_k s) free;
  iv_stack : forall i v, stacks i = Some v -> v ∈ pages /\ v ∉ free;
  iv_free : forall v, v ∈ free -> v ∈ pages;
  iv_inj : forall i j v, stacks i = Some v -> stacks j = Some v -> i = j;
  iv_cpu : forall i id, ids !! i = Some id -> cpu_ok s (stacks i) i id;
  iv_pc : pc_ok s stacks free;
  iv_len : length (m_ap s) = length ids;
}.

Context (Hend : code + Z.max 0 size <= end_) (Hids : NoDup ids) (Hrange : Forall (fun id => 0 <= id < 256) ids).
Context (Hmp : is_u32 mpenter).

(** Memory written below the kernel does not change the free list. *)
Lemma kinv_low k l m : kinv end_ k l -> (forall a, end_ <= a -> m a = km_mem k a) -> kinv end_ (set_kmem_mem m k) l.
Proof using.
  intros [Hl Hn Hk] Hm. split; [|done | done]. cbn [set_kmem_mem km_mem freelist]. revert Hl. generalize (freelist k). clear Hn.
  induction l as [|v l IH]; intros h; cbn; [done|]. intros (-> & Hv & Hl). split; [done|]. split; [done|].
  rewrite (load32_ext (km_mem k) m); [by apply IH|]. intros x Hx. apply Hm. destruct Hv as (_ & Hv & _). clear -Hx Hv. lia.
Qed.

Lemma page_end v : page_ok end_ v -> is_u32 (v + KSTACKSIZE).
Proof using Hend.
  intros (_ & He & Hp & Hu). rewrite code_eq in Hend. unfold V2P, PHYSTOP, KSTACKSIZE, KERNBASE, is_u32 in *.
  rewrite u32_small in Hp by (unfold is_u32; lia). lia.
Qed.

Lemma set_words_ok v m : page_ok end_ v -> words v (set_words v m).
Proof using Hend Hmp.
  intros Hv. pose proof (page_end v Hv). unfold words, set_words.
  rewrite (u32_small (v + KSTACKSIZE)) by done. assert (is_u32 (V2P entrypgdir)) by apply u32_range.
  split_and!; repeat first [rewrite load32_store32_eq by done | rewrite load32_store32_ne by lia]; done.
Qed.

Lemma words_ext v m m' : (forall a, code - 12 <= a < code -> m' a = m a) -> words v m -> words v m'.
Proof using. intros H (H1 & H2 & H3). unfold words. by rewrite !(load32_ext m m') by (intros x Hx; apply H; clear -Hx; lia). Qed.

(** A round of the loop, when there is a page. *)
Lemma start_cpu_ok id k l v free :
  0 <= id < 256 -> kinv end_ k (v :: free) ->
  exists k' l', start_cpu id (k, l) = Ret (k', l') tt /\ kinv end_ k' free /\ (v ∉ free) /\ words v (km_mem k') /\
    (forall x, aps l' x = if x =? id then Started (V2P code) else aps l x).
Proof using Hend Hmp.
  intros Hid Hk. pose proof (is_list_pages _ _ _ _ (kinv_list _ _ _ Hk)) as Hp. apply list.Forall_cons in Hp as [Hv _].
  destruct (kalloc_spec end_ ltac:(rewrite code_eq in Hend; unfold KERNBASE; lia) k _ Hk)
    as (k1 & Ek & _ & Hk1 & Hn & Hm).
  destruct (lapicstartap_spec (set_lmem (set_words v (km_mem k1)) l) id (V2P code) Hid ltac:(vm_compute; split; [discriminate | reflexivity]) ltac:(done))
    as (l1 & El & Ha & _ & Hlm).
  exists (set_kmem_mem (lmem l1) k1), l1. unfold start_cpu. rewrite Ek, El. change wrv with 0x80000467 in Hlm. pose proof code_eq as Hc.
  split; [done|]. split; [|split; [done|]; split; [|exact Ha]].
  - apply kinv_low; [done|]. intros a Ha'. rewrite Hlm by lia. cbn [set_lmem lmem]. unfold set_words. by rewrite !store32_out by lia.
  - cbn [set_kmem_mem km_mem]. eapply words_ext; [|by apply (set_words_ok v (km_mem k1))]. intros a Ha'. by rewrite Hlm by lia.
Qed.

(** Each processor's part of the state. *)
Lemma cpu_frame s s' o i id :
  m_ap s' !! i = m_ap s !! i -> m_started s' !! i = m_started s !! i -> aps (m_lapic s') id = aps (m_lapic s) id ->
  (m_pc s = Spin i -> m_pc s' = Spin i) -> cpu_ok s o i id -> cpu_ok s' o i id.
Proof using.
  intros Ha Hs Hl Hp (a & b & H1 & H2 & H). exists a, b. rewrite Ha, Hs, Hl. split_and!; [done | done|].
  destruct o; [|done]. destruct H as (H3 & H4 & H5 & H6). split_and!; auto.
Qed.

Lemma step_copy k l st ap stacks free :
  start_inv stacks free (mk_mach k l st ap Copying) ->
  start_inv stacks free (mk_mach (set_kmem_mem (memmove (km_mem k) code entryother size) k) l st ap (At 0)).
Proof using Hend.
  intros [I1 I2 I3 I4 I5 (I6 & I7) IL]. split; try done.
  - apply kinv_low; [done|]. intros a Ha. rewrite memmove_spec. unfold in_range. case_if; [|done]. to_prop. lia.
  - intros i id Hi. eapply cpu_frame; [..|exact (I5 i id Hi)]; done.
  - cbn. split_and!; [lia | by intros i _ | done | intros i Hi; exfalso; clear -Hi; lia].
Qed.

(** The boot processor goes on to the next processor. *)
Lemma step_next k l st ap n pc stacks free :
  (pc = At n /\ n = boot \/ pc = Spin n /\ st !! n = Some true) -> (n < length ids)%nat ->
  start_inv stacks free (mk_mach k l st ap pc) -> start_inv stacks free (mk_mach k l st ap (At (S n))).
Proof using.
  intros Hpc Hn [I1 I2 I3 I4 I5 I6 IL]. split; try done.
  - intros i id Hi. destruct (I5 i id Hi) as (a & b & H1 & H2 & H). exists a, b. split_and!; [done | done|]. destruct (stacks i) as [v|]; [|done].
    destruct H as (H3 & H4 & H5 & H6). split_and!; [done | done | done|]. intros ->. specialize (H6 eq_refl). cbn in H6, H2.
    destruct Hpc as [[-> _]|[-> Hs]]; [done|]. injection H6 as ->. congruence.
  - destruct Hpc as [[-> Hs]|[-> Hs]]; cbn in I6 |- *.
    + destruct I6 as (G1 & G2 & G3 & G4). split_and!; [clear -Hn; lia | intros i Hi; apply G2; clear -Hi; lia | clear -G3; lia|].
      intros i Hi Hne. apply G4; [clear -Hi Hne Hs; lia | done].
    + destruct I6 as (G1 & G2 & G3 & G4 & v & G5 & _). split_and!; [clear -G1; lia | intros i Hi; apply G2; clear -Hi; lia | clear -G3; lia|].
      intros i Hi Hne. destruct (decide (i = n)) as [->|]; [by eexists|]. apply G4; [clear -Hi n0; lia | done].
Qed.

Lemma ids_inj i j id : ids !! i = Some id -> ids !! j = Some id -> i = j.
Proof using Hids. intros H1 H2. by eapply NoDup_lookup. Qed.

Lemma step_start k l st ap n id k' l' stacks free :
  n <> boot -> ids !! n = Some id -> start_cpu id (k, l) = Ret (k', l') tt -> start_inv stacks free (mk_mach k l st ap (At n)) ->
  exists v free', start_inv (fun i => if decide (i = n) then Some v else stacks i) free' (mk_mach k' l' st ap (Spin n)).
Proof using Hend Hmp Hids Hrange.
  intros Hn Hid Hs [I1 I2 I3 I4 I5 (I6 & I7 & I8 & I9) IL]. assert (Hlt : (n < length ids)%nat) by by eapply lookup_lt_Some.
  destruct free as [|v free]; [cbn in I8; clear -I8 Hlt; lia|]. pose proof (proj1 (Forall_lookup _ _) Hrange n id Hid) as Hid256.
  destruct (start_cpu_ok id k l v free Hid256 I1) as (k1 & l1 & E & Hk1 & Hnv & Hw & Haps). rewrite E in Hs. injection Hs as -> ->.
  exists v, free. split; cbn [m_k m_lapic m_started m_ap m_pc].
  - done.
  - intros i w. case_decide as D; [intros [= <-]; split; [apply I3; left | done]|]. intros Hi. destruct (I2 i w Hi) as [H1 H2]. split; [done|]. set_solver.
  - intros w Hw2. apply I3. by right.
  - intros i j w. destruct (decide (i = n)) as [->|], (decide (j = n)) as [->|]; intros H1 H2; [done | | | by eapply I4].
    + injection H1 as <-. destruct (I2 j v H2) as [_ H]. by destruct H; left.
    + injection H2 as <-. destruct (I2 i v H1) as [_ H]. by destruct H; left.
  - intros i x Hi. destruct (I5 i x Hi) as (a & b & H1 & H2 & H). exists a, b. split_and!; [done | done|]. cbn [m_lapic m_pc] in *. rewrite Haps.
    case_decide as D.
    + subst i. rewrite I7 in H by done. destruct H as (_ & -> & ->). assert (x = id) as -> by congruence. rewrite Z.eqb_refl. done.
    + destruct (Z.eqb_spec x id) as [->|]; [by destruct D; eapply ids_inj|]. destruct (stacks i) as [w|]; [|done].
      destruct H as (H3 & H4 & H5 & H6). split_and!; [done | done | done|]. intros Hb. by specialize (H6 Hb).
  - cbn. split_and!; [done | | cbn in I8; clear -I8; lia | | exists v; by rewrite decide_True].
    + intros i Hi. rewrite decide_False by (clear -Hi; lia). apply I7. clear -Hi. lia.
    + intros i Hi Hne. rewrite decide_False by (clear -Hi; lia). by apply I9.
  - done.
Qed.

Lemma step_read k l st ap pc i id a a' stacks free :
  ids !! i = Some id -> aps l id = Started (V2P code) -> ap !! i = Some a -> next_read (km_mem k) a = Some a' ->
  start_inv stacks free (mk_mach k l st ap pc) -> start_inv stacks free (mk_mach k l st (<[i := a']> ap) pc).
Proof using Hids.
  intros Hi Hst Ha Hr [I1 I2 I3 I4 I5 I6 IL]. split; try done; [|cbn; by rewrite length_insert]. intros j x Hj. destruct (decide (j = i)) as [->|Hne].
  2:{ eapply cpu_frame; [..|exact (I5 j x Hj)]; try done. cbn. by rewrite list_lookup_insert_ne. }
  assert (x = id) as -> by congruence. destruct (I5 i id Hi) as (a0 & b & H1 & H2 & H). cbn [m_ap m_started m_lapic m_pc] in *.
  assert (a0 = a) as -> by congruence. exists a', b. cbn [m_ap m_started m_lapic m_pc]. rewrite list_lookup_insert_eq by by eapply lookup_lt_Some.
  split_and!; [done | done|]. destruct (stacks i) as [v|] eqn:Es; [|by destruct H as (H & _); destruct (H _ Hst)].
  destruct H as (_ & Hok & Hb & Hp). assert (b = false) as -> by (destruct b; [specialize (Hb eq_refl); by destruct a | done]).
  specialize (Hp eq_refl). cbn in Hp. subst pc. destruct I6 as (_ & _ & _ & _ & w & Hw & W1 & W2 & W3). cbn [m_k] in *. assert (w = v) as -> by congruence.
  split_and!; [done | | done | done]. destruct a; cbn in Hr, Hok; simplify_eq; cbn; naive_solver.
Qed.

Lemma step_up k l st ap pc i pd sp e stacks free :
  ap !! i = Some (Entered pd sp e) -> start_inv stacks free (mk_mach k l st ap pc) -> start_inv stacks free (mk_mach k l (<[i := true]> st) ap pc).
Proof using.
  intros Ha [I1 I2 I3 I4 I5 I6 IL]. split; try done. intros j x Hj. destruct (decide (j = i)) as [->|Hne].
  2:{ eapply cpu_frame; [..|exact (I5 j x Hj)]; try done. cbn. by rewrite list_lookup_insert_ne. }
  destruct (I5 i x Hj) as (a & b & H1 & H2 & H). cbn [m_ap m_started m_lapic m_pc] in *. assert (a = Entered pd sp e) as -> by congruence.
  exists (Entered pd sp e), true. cbn [m_ap m_started m_lapic m_pc]. rewrite list_lookup_insert_eq by by eapply lookup_lt_Some.
  split_and!; [done | done|]. destruct (stacks i) as [v|]; [|by destruct H as (_ & ? & _)]. destruct H as (H3 & H4 & _). done.
Qed.

Definition good (s : mach) : Prop := exists stacks free, start_inv stacks free s.

Lemma mstep_good s s' : mstep s s' -> good s -> good s'.
Proof using Hend Hmp Hids Hrange.
  intros Hs (stacks & free & HI). destruct Hs as [k l st ap|k l st ap Hb|k l st ap i id k' l' Hn Hi Hst|k l st ap i Hst|k l st ap pc i id a a' Hi Hl Ha Hr|k l st ap pc i pd sp e Ha].
  - exists stacks, free. by apply step_copy.
  - exists stacks, free. eapply step_next; [by left | done | exact HI].
  - destruct (step_start _ _ _ _ _ _ _ _ _ _ Hn Hi Hst HI) as (v & free' & HI'). by eexists _, _.
  - exists stacks, free. eapply step_next; [by right | | exact HI]. by destruct HI as [_ _ _ _ _ (H & _) _].
  - exists stacks, free. by eapply step_read.
  - exists stacks, free. by eapply step_up.
Qed.

(** Somebody can always go on. *)
Lemma good_progress s : good s -> m_pc s = At (length ids) \/ exists s', mstep s s'.
Proof using Hend Hmp Hids Hrange.
  intros (stacks & free & [I1 I2 I3 I4 I5 I6 IL]). destruct s as [k l st ap pc]. cbn [m_pc m_k] in *. destruct pc as [|n|n]; cbn in I6.
  - right. eexists. constructor.
  - destruct I6 as (H1 & H2 & H3 & _). destruct (decide (n = length ids)) as [->|Hn]; [by left|]. right.
    destruct (decide (n = boot)) as [->|Hb]; [eexists; constructor; clear -H1 Hn; lia|].
    destruct (lookup_lt_is_Some_2 ids n ltac:(clear -H1 Hn; lia)) as [id Hid]. destruct free as [|v free]; [cbn in H3; clear -H1 H3 Hn; lia|].
    pose proof (proj1 (Forall_lookup _ _) Hrange n id Hid) as Hid256.
    destruct (start_cpu_ok id k l v free Hid256 I1) as (k' & l' & E & _). eexists. by eapply MStart.
  - right. destruct I6 as (H1 & _ & _ & _ & v & Hv & _). destruct (lookup_lt_is_Some_2 ids n H1) as [id Hid].
    destruct (I5 n id Hid) as (a & b & Ha & Hb & H). rewrite Hv in H. destruct H as (H3 & _). cbn [m_ap m_started m_lapic] in *.
    destruct b; [eexists; by constructor|].
    destruct a; [eexists; exact (MRead k l st ap (Spin n) n id _ _ Hid H3 Ha eq_refl).. | eexists; by eapply MUp].
Qed.

(** C22 (safety): startothers gives every processor its own stack.  However the
    boot processor and the processors it has started interleave, a processor
    that enters the kernel has loaded entrypgdir, calls mpenter, and runs on a
    page of its own from the allocator, although all of them read the same three
    words; somebody can always go on, and when the loop is over every processor
    has started. *)
Theorem startothers_spec (k : kmem) (l : lapic) (s : mach) :
  kinv end_ k pages -> (length ids <= length pages)%nat -> (forall id, id ∈ ids -> forall x, aps l id <> Started x) ->
  steps mstep (mk_mach k l (replicate (length ids) false) (replicate (length ids) Cold) Copying) s ->
  (forall i pd sp e, m_ap s !! i = Some (Entered pd sp e) ->
     pd = V2P entrypgdir /\ e = mpenter /\ exists v, v ∈ pages /\ sp = v + KSTACKSIZE) /\
  (forall i j pd pd' sp e e', m_ap s !! i = Some (Entered pd sp e) -> m_ap s !! j = Some (Entered pd' sp e') -> i = j) /\
  (m_pc s = At (length ids) \/ exists s', mstep s s') /\
  (m_pc s = At (length ids) -> forall i, (i < length ids)%nat -> i <> boot -> m_started s !! i = Some true).
Proof using Hend Hmp Hids Hrange.
  intros Hk Hlen Hl Hs.
  assert (Hg : good s).
  { apply (steps_invariant mstep good mstep_good _ _ Hs). exists (fun _ => None), pages. split; try done.
    2:{ cbn. by rewrite length_replicate. } intros i id Hi. exists Cold, false. cbn. rewrite !lookup_replicate_2 by by eapply lookup_lt_Some.
    split_and!; [done | done | | done | done]. apply Hl. by eapply list_elem_of_lookup_2. }
  pose proof (good_progress s Hg) as Hprog. destruct Hg as (stacks & free & [I1 I2 I3 I4 I5 I6 IL]).
  assert (He : forall i pd sp e, m_ap s !! i = Some (Entered pd sp e) ->
    exists v, stacks i = Some v /\ pd = V2P entrypgdir /\ sp = v + KSTACKSIZE /\ e = mpenter).
  { intros i pd sp e Hi. destruct (lookup_lt_is_Some_2 ids i) as [id Hid]; [rewrite <- IL; by eapply lookup_lt_Some|].
    destruct (I5 i id Hid) as (a & b & H1 & _ & H). rewrite Hi in H1. injection H1 as <-.
    destruct (stacks i) as [v|]; [|by destruct H as (_ & ? & _)]. exists v. by destruct H as (_ & H & _). }
  split_and!; [| | exact Hprog|].
  - intros i pd sp e Hi. destruct (He _ _ _ _ Hi) as (v & Hv & -> & -> & ->). split_and!; [done | done|]. exists v. split; [by eapply I2 | done].
  - intros i j pd pd' sp e e' Hi Hj. destruct (He _ _ _ _ Hi) as (v & Hv & _ & E1 & _), (He _ _ _ _ Hj) as (w & Hw & _ & E2 & _).
    apply (I4 i j v); [done|]. rewrite Hw. f_equal. clear -E1 E2. lia.
  - intros Hpc i Hi Hne. unfold pc_ok in I6. rewrite Hpc in I6. destruct I6 as (_ & _ & _ & H). destruct (H i Hi Hne) as [v Hv].
    destruct (lookup_lt_is_Some_2 ids i Hi) as [id Hid]. destruct (I5 i id Hid) as (a & b & _ & H2 & H3). rewrite Hv in H3.
    destruct H3 as (_ & _ & _ & H3). destruct b; [done|]. specialize (H3 eq_refl). congruence.
Qed.
End startothers.

(** ** Witness *)

(** Two processors and two free pages. *)
Definition sample_kmem : kmem := mk_kmem false false 0x80200000 (store32 (fun _ => 0) 0x80200000 0x80201000).

Lemma two_pages_kinv : kinv 0x80110000 sample_kmem [0x80200000; 0x80201000].
Proof.
  split; [| | done].
  - cbn [is_list]. unfold page_ok, is_u32. split_and!; try (vm_compute; reflexivity); apply Z.leb_le; vm_compute; reflexivity.
  - repeat constructor; set_solver.
Qed.

Definition sample_mach (pc : bpc) (k : kmem) : mach := mk_mach k sample_lapic [false; false] [Cold; Cold] pc.

Lemma startothers_spec_witness :
  let s := sample_mach (At 1) (set_kmem_mem (memmove (km_mem sample_kmem) code 0x80109000 0x70) sample_kmem) in
  steps (mstep 0x80109000 0x70 0x80103000 0x80108000 [0; 1] 0) (sample_mach Copying sample_kmem) s /\
  exists s', mstep 0x80109000 0x70 0x80103000 0x80108000 [0; 1] 0 s s'.
Proof.
  intros s. assert (Hs : steps (mstep 0x80109000 0x70 0x80103000 0x80108000 [0; 1] 0) (sample_mach Copying sample_kmem) s).
  { eapply steps_cons; [apply MCopy|]. apply steps_one. apply MSelf. cbn. lia. }
  split; [exact Hs|].
  destruct (startothers_spec 0x80109000 0x70 0x80103000 0x80108000 [0; 1] 0 0x80110000 [0x80200000; 0x80201000]
    ltac:(vm_compute; discriminate) ltac:(repeat constructor; set_solver) ltac:(repeat constructor; discriminate)
    ltac:(split; vm_compute; [discriminate | reflexivity]) sample_kmem sample_lapic s two_pages_kinv ltac:(cbn; lia) ltac:(done) Hs)
    as (_ & _ & [H|H] & _); [discriminate H | exact H].
Defined.
