(* ===== verification/Console.v ===== *)
(** The console (console.c): number printing, cprintf, the screen, the input
    line discipline, and the console as a device.

    Output is the list of characters given to consputc.  The input buffer is a
    ring of 128 bytes with three free-running 32-bit indices r, w and e; its
    contract is a line discipline: a queue of characters ready to be read, and
    a line that is still being edited. *)

From S2P Require Import Prelude Word Mem Spinlock Block Log Fs Balance.

Local Open Scope Z_scope.

Definition c_nl : Z := 10.
Definition c_cr : Z := 13.
Definition c_minus : Z := 45.
Definition c_percent : Z := 37.

(** ** Numbers *)

(** digits[], of the kernel ("0123456789abcdef"). *)
Definition digit (d : Z) : Z := if d <? 10 then 48 + d else 97 + (d - 10).

(** The do-while loop of printint: buf, in the order of the assignments.
    The quotient gets smaller, so 32 rounds are enough for a 32-bit number in
    any base from 2 on. *)
Fixpoint printint_loop (fuel : nat) (dig : Z -> Z) (x base : Z) : list Z :=
  match fuel with
  | O => []
  | S fuel => dig (x mod base) :: if x / base =? 0 then [] else printint_loop fuel dig (x / base) base
  end.

(** The characters printed. *)
Definition printint (xx base : Z) (sign : bool) : list Z :=
  let neg := sign && (xx <? 0) in
  let x := if neg then u32 (- xx) else u32 xx in
  rev (printint_loop 32 digit x base ++ if neg then [c_minus] else []).

(** ** cprintf *)

Section cprintf.
(** The words after fmt on the stack, and the strings in memory. *)
Context (arg : nat -> Z) (string_at : Z -> list Z).

Definition null_str : list Z := [40; 110; 117; 108; 108; 41].

(** The loop over the format; [k] arguments have been used. *)
Fixpoint cprintf_loop (fmt : list Z) (k : nat) : list Z :=
  match fmt with
  | [] => []
  | c :: fmt =>
      if negb (c =? c_percent) then c :: cprintf_loop fmt k
      else match fmt with
           | [] => []
           | d :: fmt =>
               if d =? 100 then printint (s32 (arg k)) 10 true ++ cprintf_loop fmt (S k)
               else if (d =? 120) || (d =? 112) then printint (s32 (arg k)) 16 false ++ cprintf_loop fmt (S k)
               else if d =? 115 then
                 (if arg k =? 0 then null_str else string_at (arg k)) ++ cprintf_loop fmt (S k)
               else if d =? c_percent then c_percent :: cprintf_loop fmt k
               else c_percent :: d :: cprintf_loop fmt k
           end
  end.

Definition cprintf (fmt : list Z) : list Z := cprintf_loop fmt 0.

End cprintf.

(** ** The screen *)

Definition BACKSPACE : Z := 0x100.

(** The cells of CGA memory, and the cursor. *)
Record cga := mk_cga { crt : Z -> Z; pos : Z }.

Definition set_cell (f : Z -> Z) (i v : Z) : Z -> Z := fun j => if j =? i then v else f j.

Definition cgaputc (c : Z) : M cga unit := fun s =>
  let '(f, p) :=
    if c =? c_nl then (crt s, pos s + (80 - pos s mod 80))
    else if c =? BACKSPACE then (crt s, if 0 <? pos s then pos s - 1 else pos s)
    else (set_cell (crt s) (pos s) (Z.lor (Z.land c 0xff) 0x0700), pos s + 1) in
  if (p <? 0) || (25 * 80 <? p) then Panic "pos under/overflow"
  else
    let '(f, p) :=
      if 24 <=? p / 80 then
        let f := fun j => if in_range 0 (23 * 80) j then f (j + 80) else f j in
        let p := p - 80 in
        (fun j => if in_range p (24 * 80 - p) j then 0 else f j, p)
      else (f, p) in
    Ret (mk_cga (set_cell f p (Z.lor 32 0x0700)) p) tt.

(** The characters sent to the serial port for one consputc. *)
Definition uart_chars (c : Z) : list Z := if c =? BACKSPACE then [8; 32; 8] else [c].

(** ** Input *)

Definition INPUT_BUF : Z := 128.
Definition C_D : Z := 4.
Definition C_H : Z := 8.
Definition C_P : Z := 16.
Definition C_U : Z := 21.
Definition DEL : Z := 0x7f.

Record input := mk_input { ibuf : list Z; ir : Z; iw : Z; ie : Z }.

Definition slot (i : Z) : nat := Z.to_nat (i mod INPUT_BUF).
Definition ichar (s : input) (i : Z) : Z := nth (slot i) (ibuf s) 0.
Definition set_ie (v : Z) (s : input) : input := mk_input (ibuf s) (ir s) (iw s) v.

(** The loop of control-U: at most e - w rounds. *)
Fixpoint kill_line (fuel : nat) (s : input) : input * list Z :=
  match fuel with
  | O => (s, [])
  | S fuel =>
      if negb (ie s =? iw s) && negb (ichar s (u32 (ie s - 1)) =? c_nl) then
        let (s, out) := kill_line fuel (set_ie (u32 (ie s - 1)) s) in (s, BACKSPACE :: out)
      else (s, [])
  end.

(** One character in consoleintr: the buffer, what is echoed, the number of
    wakeups, and whether to dump the processes. *)
Definition intr_char (c : Z) (s : input) : input * list Z * nat * bool :=
  if c =? C_P then (s, [], O, true)
  else if c =? C_U then
    let (s, out) := kill_line (Z.to_nat (u32 (ie s - iw s))) s in (s, out, O, false)
  else if (c =? C_H) || (c =? DEL) then
    if negb (ie s =? iw s) then (set_ie (u32 (ie s - 1)) s, [BACKSPACE], O, false) else (s, [], O, false)
  else if negb (c =? 0) && (u32 (ie s - ir s) <? INPUT_BUF) then
    let c := if c =? c_cr then c_nl else c in
    let s := mk_input (<[slot (ie s) := c]> (ibuf s)) (ir s) (iw s) (u32 (ie s + 1)) in
    if (c =? c_nl) || (c =? C_D) || (ie s =? u32 (ir s + INPUT_BUF)) then
      (mk_input (ibuf s) (ir s) (ie s) (ie s), [c], 1%nat, false)
    else (s, [c], O, false)
  else (s, [], O, false).

(** consoleintr on the characters that getc returns before -1. *)
Fixpoint consoleintr (cs : list Z) (s : input) : input * list Z * nat * bool :=
  match cs with
  | [] => (s, [], O, false)
  | c :: cs =>
      let '(s, out1, n1, d1) := intr_char c s in
      let '(s, out2, n2, d2) := consoleintr cs s in
      (s, out1 ++ out2, (n1 + n2)%nat, d1 || d2)
  end.

Inductive creset := CDone | CKilled | CSleep.

(** The loop of consoleread with [n] bytes to go, [first] when n == target:
    the bytes stored, the buffer, and how the activation ends.  One that
    sleeps goes on when it is woken. *)
Fixpoint consoleread_loop (killed_ : bool) (n : nat) (first : bool) (s : input) : list Z * input * creset :=
  match n with
  | O => ([], s, CDone)
  | S n =>
      if ir s =? iw s then ([], s, if killed_ then CKilled else CSleep)
      else
        let c := ichar s (ir s) in
        let s' := mk_input (ibuf s) (u32 (ir s + 1)) (iw s) (ie s) in
        if c =? C_D then ([], if first then s' else s, CDone)
        else if c =? c_nl then ([c], s', CDone)
        else let '(bs, s'', r) := consoleread_loop killed_ n false s' in (c :: bs, s'', r)
  end.

(** The result of consoleread when it does not sleep: -1, or the number of
    bytes stored. *)
Definition consoleread (killed_ : bool) (n : Z) (s : input) : option (Z * list Z * input) :=
  match consoleread_loop killed_ (Z.to_nat n) true s with
  | (bs, s, CDone) => Some (Z.of_nat (length bs), bs, s)
  | (bs, s, CKilled) => Some (-1, bs, s)
  | (_, _, CSleep) => None
  end.

(** consolewrite: the characters for consputc, and the result. *)
Definition consolewrite (buf : list Z) (n : Z) : list Z * Z :=
  (map (fun c => Z.land c 0xff) (take (Z.to_nat n) buf), n).

(** The console as entries of the device switch (consoleinit), with input
    state [inp]: the inode is unlocked around the transfer. *)
Definition CONSOLE : Z := 1.

Definition devsw_consoleread (mypid : Z) (lock_addr : nat -> Z) (killed_ : bool) (chan : Z) (inp : input)
    (i : nat) (n : Z) : M fs (Z * list Z) :=
  iunlock mypid i ≫= fun _ =>
  match consoleread killed_ n inp with
  | Some (r, bs, _) => ilock mypid lock_addr i ≫= fun _ => mret (r, bs)
  | None => waiton (On chan)
  end.

Definition devsw_consolewrite (mypid : Z) (lock_addr : nat -> Z) (i : nat) (buf : list Z) (n : Z) : M fs Z :=
  iunlock mypid i ≫= fun _ =>
  ilock mypid lock_addr i ≫= fun _ => mret (consolewrite buf n).2.

(** ** The line discipline *)

Record line := mk_line { ready : list Z; edit : list Z }.

(** A character typed. *)
Definition type_char (c : Z) (l : line) : line :=
  if c =? C_P then l
  else if c =? C_U then mk_line (ready l) []
  else if (c =? C_H) || (c =? DEL) then mk_line (ready l) (removelast (edit l))
  else if negb (c =? 0) && (length (ready l) + length (edit l) <? 128)%nat then
    let c := if c =? c_cr then c_nl else c in
    let e := edit l ++ [c] in
    if (c =? c_nl) || (c =? C_D) || (length (ready l) + length e =? 128)%nat then mk_line (ready l ++ e) []
    else mk_line (ready l) e
  else l.

(** A read of at most [n] characters: it stops after a newline, and at a
    control-D, which it removes only if it is the first character. *)
Fixpoint read_line (n : nat) (first : bool) (q : list Z) : list Z * list Z * bool :=
  match n with
  | O => ([], q, true)
  | S n =>
      match q with
      | [] => ([], [], false)
      | c :: q' =>
          if c =? C_D then ([], if first then q' else q, true)
          else if c =? c_nl then ([c], q', true)
          else let '(bs, q'', d) := read_line n false q' in (c :: bs, q'', d)
      end
  end.

Definition chars (s : input) (i : Z) (n : nat) : list Z := map (fun k => ichar s (i + Z.of_nat k)) (seq 0 n).

Definition n_ready (s : input) : nat := Z.to_nat (u32 (iw s - ir s)).
Definition n_edit (s : input) : nat := Z.to_nat (u32 (ie s - iw s)).

Definition line_of (s : input) : line :=
  mk_line (chars s (ir s) (n_ready s)) (chars s (ir s + Z.of_nat (n_ready s)) (n_edit s)).

Record input_ok (s : input) : Prop := {
  in_len : length (ibuf s) = 128%nat;
  in_r : is_u32 (ir s);
  in_w : is_u32 (iw s);
  in_e : is_u32 (ie s);
  in_room : (n_ready s + n_edit s <= 128)%nat;
  in_edit : Forall (fun c => c <> c_nl) (edit (line_of s));
}.

Lemma slot_u32 i : slot (u32 i) = slot i.
Proof.
  unfold slot. f_equal. change INPUT_BUF with (2 ^ 7). unfold u32. rewrite <- Znumtheory.Zmod_div_mod; try lia.
  exists (2 ^ 25). done.
Qed.

Lemma ichar_u32 s i : ichar s (u32 i) = ichar s i.
Proof. unfold ichar. by rewrite slot_u32. Qed.

Lemma ichar_cong s i j : u32 i = u32 j -> ichar s i = ichar s j.
Proof. intros H. by rewrite <- (ichar_u32 s i), H, ichar_u32. Qed.

Lemma chars_length s i n : length (chars s i n) = n.
Proof. unfold chars. by rewrite length_map, length_seq. Qed.

Lemma chars_S s i n : chars s i (S n) = chars s i n ++ [ichar s (i + Z.of_nat n)].
Proof. unfold chars. by rewrite seq_S, map_app. Qed.

Lemma chars_cons s i n : chars s i (S n) = ichar s i :: chars s (i + 1) n.
Proof.
  unfold chars. cbn [seq map]. f_equal; [f_equal; lia|]. rewrite <- seq_shift, map_map. apply map_ext. intros k.
  f_equal. lia.
Qed.

Lemma chars_app s i n m : chars s i (n + m) = chars s i n ++ chars s (i + Z.of_nat n) m.
Proof.
  revert i. induction n as [|n IH]; intros i; cbn [Nat.add]; [by rewrite Z.add_0_r|].
  rewrite !chars_cons, IH. cbn. do 3 f_equal. lia.
Qed.

Lemma chars_ext s s' i j n :
  ibuf s' = ibuf s -> u32 i = u32 j -> chars s' i n = chars s j n.
Proof.
  intros Hb Hij. unfold chars. apply map_ext. intros k. unfold ichar. rewrite Hb. f_equal.
  rewrite <- (slot_u32 (i + _)), <- (slot_u32 (j + _)). f_equal. unfold u32 in *.
  rewrite <- (Zplus_mod_idemp_l i), Hij, Zplus_mod_idemp_l. done.
Qed.

(** Distances between indices are taken modulo 2^32. *)
Lemma dist_range a b : 0 <= u32 (a - b) < 2 ^ 32.
Proof. apply u32_range. Qed.

Lemma dist_add a b : u32 (b + u32 (a - b)) = u32 a.
Proof. unfold u32. rewrite Zplus_mod_idemp_r. f_equal. lia. Qed.

(** The indices, from the lengths of the two parts. *)
Lemma input_indices s :
  input_ok s -> iw s = u32 (ir s + Z.of_nat (n_ready s)) /\
    ie s = u32 (ir s + Z.of_nat (n_ready s) + Z.of_nat (n_edit s)) /\
    u32 (ie s - ir s) = Z.of_nat (n_ready s + n_edit s).
Proof.
  intros [_ Hr Hw He Hroom _]. pose proof (dist_range (iw s) (ir s)). pose proof (dist_range (ie s) (iw s)).
  unfold n_ready, n_edit in *.
  assert (Ew : iw s = u32 (ir s + Z.of_nat (Z.to_nat (u32 (iw s - ir s))))).
  { rewrite Z2Nat.id by lia. rewrite dist_add. symmetry. by apply u32_small. }
  assert (Ee : ie s = u32 (iw s + Z.of_nat (Z.to_nat (u32 (ie s - iw s))))).
  { rewrite Z2Nat.id by lia. rewrite dist_add. symmetry. by apply u32_small. }
  split_and!; [done | |].
  - rewrite Ee at 1. rewrite Ew at 1. unfold u32. by rewrite Zplus_mod_idemp_l.
  - replace (ie s - ir s) with ((ie s - iw s) + (iw s - ir s)) by lia. unfold u32 in *.
    rewrite Zplus_mod. rewrite Z.mod_small by lia. lia.
Qed.

(** Building a state from the lengths of its parts. *)
Lemma line_of_parts s s' nr ne :
  ir s' = u32 (ir s) -> iw s' = u32 (ir s + Z.of_nat nr) -> ie s' = u32 (ir s + Z.of_nat nr + Z.of_nat ne) ->
  (nr + ne <= 128)%nat ->
  n_ready s' = nr /\ n_edit s' = ne /\
  line_of s' = mk_line (chars s' (ir s) nr) (chars s' (ir s + Z.of_nat nr) ne).
Proof.
  intros Er Ew Ee Hn.
  assert (E1 : n_ready s' = nr).
  { unfold n_ready. rewrite Er, Ew. unfold u32. rewrite <- Zminus_mod.
    replace (ir s + Z.of_nat nr - ir s) with (Z.of_nat nr) by lia. rewrite Z.mod_small by lia. lia. }
  assert (E2 : n_edit s' = ne).
  { unfold n_edit. rewrite Ew, Ee. unfold u32. rewrite <- Zminus_mod.
    replace (ir s + Z.of_nat nr + Z.of_nat ne - (ir s + Z.of_nat nr)) with (Z.of_nat ne) by lia.
    rewrite Z.mod_small by lia. lia. }
  split_and!; [done | done|]. unfold line_of. rewrite E1, E2, Er. f_equal; apply chars_ext; try done; unfold u32.
  - apply Z.mod_mod. lia.
  - apply Zplus_mod_idemp_l.
Qed.

Lemma kill_line_ok ne s :
  is_u32 (iw s) -> ie s = u32 (iw s + Z.of_nat ne) -> (ne <= 128)%nat ->
  Forall (fun c => c <> c_nl) (chars s (iw s) ne) ->
  kill_line ne s = (set_ie (iw s) s, replicate ne BACKSPACE).
Proof.
  revert s. induction ne as [|ne IH]; intros s Hw He Hn Hf; cbn [kill_line replicate].
  { rewrite Z.add_0_r, u32_small in He by done. destruct s. cbn in *. by subst. }
  rewrite chars_S, Forall_app in Hf. destruct Hf as [Hf1 Hf2]. apply Forall_cons_1 in Hf2 as [Hf2 _].
  assert (E1 : u32 (ie s - 1) = u32 (iw s + Z.of_nat ne)).
  { rewrite He. unfold u32. rewrite Zminus_mod_idemp_l. f_equal. lia. }
  assert (E2 : ie s <> iw s).
  { rewrite He. intros E. unfold u32 in E. rewrite <- (Z.mod_small (iw s) (2 ^ 32)) in E at 2 by done.
    assert (H : (iw s + Z.of_nat (S ne) - iw s) mod 2 ^ 32 = 0) by (rewrite Zminus_mod, E, Z.sub_diag; done).
    replace (iw s + Z.of_nat (S ne) - iw s) with (Z.of_nat (S ne)) in H by lia. rewrite Z.mod_small in H by lia. lia. }
  rewrite E1, ichar_u32. destruct (Z.eqb_spec (ie s) (iw s)); [done|].
  destruct (Z.eqb_spec (ichar s (iw s + Z.of_nat ne)) c_nl); [done|]. cbn [negb andb].
  rewrite (IH (set_ie (u32 (iw s + Z.of_nat ne)) s)); [done | done | done | lia | done].
Qed.

(** The line after an insertion at the end. *)
Lemma put_char s c :
  input_ok s -> (n_ready s + n_edit s < 128)%nat ->
  let s' := mk_input (<[slot (ie s) := c]> (ibuf s)) (ir s) (iw s) (u32 (ie s + 1)) in
  forall i n, (exists k, i = ir s + Z.of_nat k /\ (k + n <= n_ready s + n_edit s)%nat) -> chars s' i n = chars s i n.
Proof.
  intros Hs Hlt s' i n (k & -> & Hk). unfold chars. apply map_ext_in. intros j Hj. apply in_seq in Hj.
  unfold ichar, s'. cbn [ibuf]. destruct (input_indices s Hs) as (_ & He & _). rewrite He, slot_u32.
  rewrite !nth_lookup. rewrite list_lookup_insert_ne; [done|]. unfold slot, INPUT_BUF. intros E.
  apply Z2Nat.inj in E; [|apply Z.mod_pos_bound; lia..].
  set (a := ir s + Z.of_nat k + Z.of_nat j) in *.
  replace (ir s + Z.of_nat (n_ready s) + Z.of_nat (n_edit s)) with (a + Z.of_nat (n_ready s + n_edit s - k - j)) in E by lia.
  assert (H : (a + Z.of_nat (n_ready s + n_edit s - k - j) - a) mod 128 = 0) by (rewrite Zminus_mod, E, Z.sub_diag; done).
  replace (a + _ - a) with (Z.of_nat (n_ready s + n_edit s - k - j)) in H by lia. rewrite Z.mod_small in H by lia. lia.
Qed.

Lemma put_char_last s c :
  input_ok s -> ichar (mk_input (<[slot (ie s) := c]> (ibuf s)) (ir s) (iw s) (u32 (ie s + 1))) (ie s) = c.
Proof.
  intros Hs. unfold ichar. cbn [ibuf]. rewrite nth_lookup, list_lookup_insert_eq; [done|].
  rewrite (in_len _ Hs). unfold slot, INPUT_BUF. pose proof (Z.mod_pos_bound (ie s) 128). lia.
Qed.

Lemma removelast_snoc {A} (l : list A) x : removelast (l ++ [x]) = l.
Proof. apply removelast_last. Qed.

Lemma add_char_ok c s :
  input_ok s -> (n_ready s + n_edit s < 128)%nat ->
  let s1 := mk_input (<[slot (ie s) := c]> (ibuf s)) (ir s) (iw s) (u32 (ie s + 1)) in
  let e := edit (line_of s) ++ [c] in
  let '(s', _, _, _) :=
    if (c =? c_nl) || (c =? C_D) || (ie s1 =? u32 (ir s1 + 128))
    then (mk_input (ibuf s1) (ir s1) (ie s1) (ie s1), [c], 1%nat, false) else (s1, [c], O, false) in
  input_ok s' /\
  line_of s' = if (c =? c_nl) || (c =? C_D) || (length (ready (line_of s)) + length e =? 128)%nat
               then mk_line (ready (line_of s) ++ e) [] else mk_line (ready (line_of s)) e.
Proof.
  intros Hs Hlt s1 e. destruct (input_indices s Hs) as (Ew & Ee & Er).
  set (nr := n_ready s) in *. set (ne := n_edit s) in *.
  assert (E1 : ie s1 = u32 (ir s + Z.of_nat nr + Z.of_nat (S ne))).
  { unfold s1. cbn [ie]. rewrite Ee, u32_add_l. f_equal. lia. }
  assert (Hlen : length (ibuf s1) = 128%nat) by (unfold s1; cbn [ibuf]; rewrite length_insert; apply Hs).
  assert (Hr : ir s1 = u32 (ir s)) by (symmetry; apply u32_small, Hs).
  assert (Hready : chars s1 (ir s) nr = ready (line_of s)).
  { apply (put_char s c Hs Hlt). exists 0%nat. lia. }
  assert (Hedit : chars s1 (ir s + Z.of_nat nr) (S ne) = e).
  { rewrite chars_S. unfold e. f_equal; [apply (put_char s c Hs Hlt); exists nr; fold nr ne; lia|].
    f_equal. rewrite <- (put_char_last s c Hs). apply ichar_cong. rewrite Ee, u32_idemp. done. }
  assert (Hfull : (ie s1 =? u32 (ir s1 + 128)) = (length (ready (line_of s)) + length e =? 128)%nat).
  { rewrite <- Hready, <- Hedit, !chars_length, E1, Hr, u32_add_l.
    destruct (Nat.eqb_spec (nr + S ne) 128) as [H|H].
    - apply Z.eqb_eq. f_equal. lia.
    - apply Z.eqb_neq. intros H'. unfold u32 in H'.
      assert (H2 : (ir s + 128 - (ir s + Z.of_nat nr + Z.of_nat (S ne))) mod 2 ^ 32 = 0)
        by (rewrite Zminus_mod, H', Z.sub_diag; done).
      replace (ir s + 128 - (ir s + Z.of_nat nr + Z.of_nat (S ne))) with (Z.of_nat (128 - (nr + S ne))) in H2 by lia.
      rewrite Z.mod_small in H2 by lia. lia. }
  rewrite Hfull. destruct ((c =? c_nl) || (c =? C_D) || _) eqn:Ec.
  - destruct (line_of_parts s (mk_input (ibuf s1) (ir s1) (ie s1) (ie s1)) (nr + S ne) 0) as (P1 & P2 & P3).
    { done. }
    { cbn [iw]. rewrite E1. f_equal. lia. }
    { cbn [ie]. rewrite E1. f_equal. lia. }
    { lia. }
    split; [split; try done|].
    + apply Hs.
    + apply u32_range.
    + apply u32_range.
    + rewrite P1, P2. lia.
    + rewrite P3. constructor.
    + rewrite P3. f_equal. rewrite chars_app. rewrite <- Hready, <- Hedit. done.
  - destruct (line_of_parts s s1 nr (S ne)) as (P1 & P2 & P3); [done | exact Ew | done | lia|].
    rewrite Hready, Hedit in P3. split; [split; try done|].
    + apply Hs.
    + apply Hs.
    + apply u32_range.
    + rewrite P1, P2. lia.
    + rewrite P3. cbn [edit]. unfold e. apply Forall_app. split; [apply Hs|]. constructor; [|constructor].
      to_prop. done.
    + exact P3.
Qed.

Lemma intr_char_ok c s :
  input_ok s ->
  let '(s', _, _, _) := intr_char c s in input_ok s' /\ line_of s' = type_char c (line_of s).
Proof.
  intros Hs. destruct (input_indices s Hs) as (Ew & Ee & Er). pose proof (in_room _ Hs) as Hroom.
  unfold intr_char, type_char. destruct (c =? C_P); [done|]. destruct (c =? C_U).
  { fold (n_edit s). rewrite (kill_line_ok (n_edit s) s).
    - destruct (line_of_parts s (set_ie (iw s) s) (n_ready s) 0) as (E1 & E2 & E3); cbn.
      + symmetry. by apply u32_small, Hs.
      + done.
      + by rewrite Z.add_0_r.
      + lia.
      + split; [split; try apply Hs|].
        * rewrite E1, E2. lia.
        * rewrite E3. constructor.
        * rewrite E3. done.
    - apply Hs.
    - rewrite Ee, Ew. unfold u32. by rewrite Zplus_mod_idemp_l.
    - lia.
    - rewrite (chars_ext s s (iw s) (ir s + Z.of_nat (n_ready s))); [apply (in_edit _ Hs) | done|].
      rewrite Ew. apply u32_idemp. }
  destruct ((c =? C_H) || (c =? DEL)).
  { destruct (n_edit s) as [|ne] eqn:En.
    - assert (E : ie s = iw s) by (rewrite Ee, Ew; f_equal; lia). rewrite E, Z.eqb_refl. cbn [negb].
      split; [done|]. unfold line_of. rewrite En. done.
    - destruct (Z.eqb_spec (ie s) (iw s)) as [E|E].
      { exfalso. unfold n_edit in En. rewrite E, Z.sub_diag in En. discriminate. }
      cbn [negb]. destruct (line_of_parts s (set_ie (u32 (ie s - 1)) s) (n_ready s) ne) as (E1 & E2 & E3); cbn.
      + symmetry. by apply u32_small, Hs.
      + done.
      + rewrite Ee. unfold u32. rewrite Zminus_mod_idemp_l. f_equal. lia.
      + lia.
      + assert (Hed : edit (line_of s) = chars s (ir s + Z.of_nat (n_ready s)) ne ++
                  [ichar s (ir s + Z.of_nat (n_ready s) + Z.of_nat ne)]).
        { unfold line_of. cbn. by rewrite En, chars_S. }
        pose proof (in_edit _ Hs) as Hf. rewrite Hed in Hf. apply Forall_app in Hf as [Hf _].
        split; [split; try apply Hs|].
        * apply u32_range.
        * rewrite E1, E2. lia.
        * rewrite E3. exact Hf.
        * rewrite E3, En, chars_S, removelast_snoc. done. }
  assert (Elen : (length (ready (line_of s)) + length (edit (line_of s)))%nat = (n_ready s + n_edit s)%nat)
    by (unfold line_of; cbn; by rewrite !chars_length).
  rewrite Elen, Er. destruct (negb (c =? 0)); cbn [andb]; [|done].
  destruct (Z.ltb_spec (Z.of_nat (n_ready s + n_edit s)) INPUT_BUF) as [Hlt|Hge];
    destruct (Nat.ltb_spec (n_ready s + n_edit s) 128) as [Hlt'|Hge']; unfold INPUT_BUF in *; try lia; [|done].
  apply (add_char_ok (if c =? c_cr then c_nl else c) s Hs Hlt').
Qed.

(** Taking the first character of the queue. *)
Lemma take_char s :
  input_ok s -> ir s <> iw s ->
  let s' := mk_input (ibuf s) (u32 (ir s + 1)) (iw s) (ie s) in
  input_ok s' /\ line_of s = mk_line (ichar s (ir s) :: ready (line_of s')) (edit (line_of s')).
Proof.
  intros Hs Hne s'. destruct (input_indices s Hs) as (Ew & Ee & _). pose proof (in_room _ Hs) as Hroom.
  destruct (n_ready s) as [|nr] eqn:En.
  { exfalso. apply Hne. rewrite Ew, Z.add_0_r. symmetry. apply u32_small, Hs. }
  destruct (line_of_parts (mk_input (ibuf s) (ir s + 1) (iw s) (ie s)) s' nr (n_edit s)) as (P1 & P2 & P3); cbn [ir].
  - done.
  - unfold s'. cbn [iw]. rewrite Ew. f_equal. lia.
  - unfold s'. cbn [ie]. rewrite Ee. f_equal. lia.
  - lia.
  - assert (Hl : line_of s = mk_line (ichar s (ir s) :: ready (line_of s')) (edit (line_of s'))).
    { rewrite P3. unfold line_of. rewrite En, chars_cons. cbn [ready edit]. f_equal.
      apply chars_ext; [done|]. cbn [ir]. f_equal. lia. }
    split; [|done]. split; try apply Hs.
    + apply u32_range.
    + rewrite P1, P2. lia.
    + pose proof (in_edit _ Hs) as Hf. by rewrite Hl in Hf.
Qed.

Lemma ready_nil s : input_ok s -> ir s = iw s -> ready (line_of s) = [].
Proof. intros Hs E. unfold line_of, n_ready. rewrite <- E, Z.sub_diag. done. Qed.

Lemma consoleread_ok killed_ n first s :
  input_ok s ->
  let '(bs, s', r) := consoleread_loop killed_ n first s in
  let '(bs1, q1, d1) := read_line n first (ready (line_of s)) in
  input_ok s' /\ bs = bs1 /\ line_of s' = mk_line q1 (edit (line_of s)) /\
  r = (if d1 then CDone else if killed_ then CKilled else CSleep).
Proof.
  revert first s. induction n as [|n IH]; intros first s Hs; cbn [consoleread_loop read_line].
  { by split_and!. }
  destruct (Z.eqb_spec (ir s) (iw s)) as [E|E].
  { rewrite (ready_nil s Hs E). split_and!; try done. rewrite <- (ready_nil s Hs E). done. }
  destruct (take_char s Hs E) as [Hs' Hl]. set (s' := mk_input _ _ _ _) in *. rewrite Hl. cbn [ready edit].
  destruct (ichar s (ir s) =? C_D).
  { destruct first; by split_and!. }
  destruct (ichar s (ir s) =? c_nl); [by split_and!|].
  specialize (IH false s' Hs'). destruct (consoleread_loop killed_ n false s') as [[bs s2] r].
  destruct (read_line n false (ready (line_of s'))) as [[bs1 q1] d1].
  destruct IH as (H1 & -> & H3 & H4). split_and!; done.
Qed.

(** The steps of the console: characters typed, and activations of
    consoleread. *)
Inductive console_step : input -> input -> Prop :=
| step_intr c s : console_step s (intr_char c s).1.1.1
| step_read killed_ n first s : console_step s (consoleread_loop killed_ n first s).1.2.

Lemma console_steps_ok s0 s : steps console_step s0 s -> input_ok s0 -> input_ok s.
Proof.
  intros Hr. refine (steps_invariant _ input_ok _ s0 s Hr). intros x y Hxy Hx. destruct Hxy as [c x|k n f x].
  - pose proof (intr_char_ok c x Hx) as H. destruct (intr_char c x) as [[[s' o] w] d]. apply H.
  - pose proof (consoleread_ok k n f x Hx) as H. destruct (consoleread_loop k n f x) as [[bs s'] r].
    destruct (read_line n f (ready (line_of x))) as [[b q] d]. apply H.
Qed.

(** C19 (refinement): The input buffer implements the line discipline.  From a
    state reached from boot by any typing and reading, and whatever the
    wrap-around of its indices, a character typed acts on the edited line
    (backspace, kill, commit by newline, control-D or a full buffer), and a
    read takes the ready characters up to the first newline or control-D and
    sleeps exactly when there are none. *)
Theorem console_refines (s : input) :
  steps console_step (mk_input (replicate 128 0) 0 0 0) s ->
  (forall c, line_of (intr_char c s).1.1.1 = type_char c (line_of s)) /\
  (forall killed_ n,
     let '(bs, s', r) := consoleread_loop killed_ n true s in
     let '(bs1, q1, d1) := read_line n true (ready (line_of s)) in
     bs = bs1 /\ line_of s' = mk_line q1 (edit (line_of s)) /\
     r = if d1 then CDone else if killed_ then CKilled else CSleep) /\
  (length (ready (line_of s)) + length (edit (line_of s)) <= 128)%nat.
Proof.
  intros Hr. assert (Hs : input_ok s).
  { apply (console_steps_ok _ _ Hr). split; try done. vm_compute. lia. }
  split_and!.
  - intros c. pose proof (intr_char_ok c s Hs) as H. destruct (intr_char c s) as [[[s' o] w] d]. apply H.
  - intros k n. pose proof (consoleread_ok k n true s Hs) as H. destruct (consoleread_loop k n true s) as [[bs s'] r].
    destruct (read_line n true (ready (line_of s))) as [[b q] d]. apply H.
  - unfold line_of. cbn. rewrite !chars_length. apply Hs.
Qed.

(** Typing "ax", a backspace, "b" and a newline. *)
Lemma console_refines_witness :
  exists s, steps console_step (mk_input (replicate 128 0) 0 0 0) s /\
    line_of s = mk_line [] [97; 98] /\ line_of (intr_char 10 s).1.1.1 = mk_line [97; 98; 10] [].
Proof.
  set (s0 := mk_input (replicate 128 0) 0 0 0).
  exists ((intr_char 98 (intr_char 8 (intr_char 120 (intr_char 97 s0).1.1.1).1.1.1).1.1.1).1.1.1).
  set (s1 := (intr_char 97 s0).1.1.1). set (s2 := (intr_char 120 s1).1.1.1). set (s3 := (intr_char 8 s2).1.1.1).
  assert (Hr : steps console_step s0 (intr_char 98 s3).1.1.1)
    by exact (steps_cons _ _ _ _ (step_intr 97 s0) (steps_cons _ _ _ _ (step_intr 120 s1)
               (steps_cons _ _ _ _ (step_intr 8 s2) (steps_one _ _ _ (step_intr 98 s3))))).
  split; [exact Hr|]. split; [vm_compute; reflexivity|].
  rewrite (proj1 (console_refines _ Hr) 10). vm_compute. reflexivity.
Defined.

(** ** Numbers *)

(** The value of a string of digits in a base, most significant first. *)
Definition digit_value (c : Z) : Z := if c <? 58 then c - 48 else c - 97 + 10.
Definition number (base : Z) (ds : list Z) : Z := fold_left (fun n c => base * n + digit_value c) ds 0.

Lemma number_snoc base ds c : number base (ds ++ [c]) = base * number base ds + digit_value c.
Proof. unfold number. by rewrite fold_left_app. Qed.

Lemma digit_value_digit d : 0 <= d < 16 -> digit_value (digit d) = d.
Proof.
  intros Hd. unfold digit, digit_value. destruct (Z.ltb_spec d 10).
  - destruct (Z.ltb_spec (48 + d) 58); lia.
  - destruct (Z.ltb_spec (97 + (d - 10)) 58); lia.
Qed.

(** The loop terminates within its fuel and produces the digits, the least
    significant first. *)
Lemma printint_loop_ok fuel x base :
  2 <= base <= 16 -> 0 <= x < 2 ^ Z.of_nat fuel -> (0 < fuel)%nat ->
  let ds := rev (printint_loop fuel digit x base) in
  number base ds = x /\ ds <> [] /\ (x <> 0 -> head ds <> Some 48) /\ Forall (fun c => exists d, 0 <= d < base /\ c = digit d) ds.
Proof.
  intros Hb. revert x. induction fuel as [|fuel IH]; intros x Hx Hf; [lia|]. cbn [printint_loop rev].
  pose proof (Z.mod_pos_bound x base ltac:(lia)) as Hm. pose proof (Z_div_mod_eq_full x base) as Eq.
  destruct (Z.eqb_spec (x / base) 0) as [E|E].
  - cbn. unfold number. cbn. rewrite digit_value_digit by lia. split_and!; [nia | done | |].
    + intros Hx0 [= H48]. assert (H : digit_value (digit (x mod base)) = 0) by (by rewrite H48).
      rewrite digit_value_digit in H by lia. nia.
    + constructor; [by exists (x mod base) | constructor].
  - assert (Hdiv : 0 <= x / base < 2 ^ Z.of_nat fuel).
    { split; [apply Z.div_pos; lia|]. apply Z.div_lt_upper_bound; [lia|].
      rewrite Nat2Z.inj_succ, Z.pow_succ_r in Hx by lia. nia. }
    assert (Hf' : (0 < fuel)%nat).
    { destruct fuel; [|lia]. cbn in Hdiv. lia. }
    destruct (IH (x / base) Hdiv Hf') as (H1 & H2 & H3 & H4). cbn zeta.
    rewrite number_snoc, H1, digit_value_digit by lia. split_and!.
    + nia.
    + by destruct (rev _).
    + intros _. specialize (H3 E). by destruct (rev (printint_loop fuel digit (x / base) base)).
    + apply Forall_app. split; [done|]. constructor; [by exists (x mod base) | constructor].
Qed.

Lemma printint_loop_length fuel dig x base k :
  2 <= base -> 0 <= x < base ^ Z.of_nat k -> (0 < k)%nat -> (length (printint_loop fuel dig x base) <= k)%nat.
Proof.
  intros Hb. revert x k. induction fuel as [|fuel IH]; intros x k Hx Hk; cbn [printint_loop length]; [lia|].
  destruct (Z.eqb_spec (x / base) 0); [cbn; lia|]. destruct k as [|k]; [lia|]. destruct k as [|k].
  { exfalso. change (Z.of_nat 1) with 1 in Hx. rewrite Z.pow_1_r in Hx. rewrite Z.div_small in n by lia. done. }
  apply le_n_S, IH; [|lia]. rewrite (Nat2Z.inj_succ (S k)), Z.pow_succ_r in Hx by lia.
  split; [apply Z.div_pos; lia | apply Z.div_lt_upper_bound; lia].
Qed.

Lemma digit_decimal c d : 0 <= d < 10 -> c = digit d -> 48 <= c <= 57.
Proof. intros Hd ->. unfold digit. destruct (Z.ltb_spec d 10); lia. Qed.

(** (functional): %d prints the decimal numeral of its argument, with a minus
    sign exactly for a negative one and no leading zeros, down to the least
    integer; %x prints the hexadecimal numeral of the unsigned word; the
    characters fit the 16-byte buffer. *)
Theorem printint_spec (xx : Z) :
  - 2 ^ 31 <= xx < 2 ^ 31 ->
  (exists ds, printint xx 10 true = (if xx <? 0 then [c_minus] else []) ++ ds /\
     number 10 ds = Z.abs xx /\ ds <> [] /\ (xx <> 0 -> head ds <> Some 48) /\
     Forall (fun c => 48 <= c <= 57) ds /\ (length (printint xx 10 true) <= 11)%nat) /\
  (number 16 (printint xx 16 false) = u32 xx /\ (length (printint xx 16 false) <= 8)%nat).
Proof.
  intros Hx. split.
  - unfold printint. cbn [andb]. set (x := if xx <? 0 then u32 (- xx) else u32 xx).
    assert (Ex : x = Z.abs xx).
    { unfold x. destruct (Z.ltb_spec xx 0); rewrite u32_small by (unfold is_u32; lia); lia. }
    destruct (printint_loop_ok 32 x 10 ltac:(lia) ltac:(lia) ltac:(lia)) as (H1 & H2 & H3 & H4).
    exists (rev (printint_loop 32 digit x 10)). split_and!.
    + rewrite rev_app_distr. by destruct (xx <? 0).
    + lia.
    + done.
    + intros Hne. apply H3. lia.
    + eapply Forall_impl; [|exact H4]. cbn. intros c (d & Hd & Hc). by eapply digit_decimal.
    + rewrite length_rev, length_app. pose proof (printint_loop_length 32 digit x 10 10 ltac:(lia) ltac:(lia) ltac:(lia)).
      destruct (xx <? 0); cbn [length]; lia.
  - unfold printint. cbn [andb]. rewrite app_nil_r. pose proof (u32_range xx) as Hu. unfold is_u32 in Hu.
    destruct (printint_loop_ok 32 (u32 xx) 16 ltac:(lia) ltac:(lia) ltac:(lia)) as (H1 & _).
    split; [done|]. rewrite length_rev. apply printint_loop_length; lia.
Qed.

Lemma printint_spec_witness :
  exists ds, printint (- 2 ^ 31) 10 true = [c_minus] ++ ds /\ number 10 ds = 2147483648.
Proof.
  destruct (proj1 (printint_spec (- 2 ^ 31) ltac:(lia))) as (ds & H1 & H2 & _). exists ds. split; [exact H1 | exact H2].
Defined.

(** ** The screen *)

Lemma cgaputc_ok c s :
  0 <= pos s < 24 * 80 ->
  exists s', cgaputc c s = Ret s' tt /\ 0 <= pos s' < 24 * 80 /\
    (forall j, j < 0 \/ 24 * 80 < j -> crt s' j = crt s j).
Proof.
  intros Hp. unfold cgaputc.
  set (fp := if c =? c_nl then _ else _). 
  assert (Hfp : 0 <= fp.2 <= 24 * 80 /\ forall j, j < 0 \/ 24 * 80 <= j -> fp.1 j = crt s j).
  { unfold fp. pose proof (Z.mod_pos_bound (pos s) 80 ltac:(lia)). pose proof (Z_div_mod_eq_full (pos s) 80).
    assert (pos s / 80 < 24) by (apply Z.div_lt_upper_bound; lia).
    destruct (c =? c_nl); [split; [cbn; lia | done]|]. destruct (c =? BACKSPACE).
    - split; [cbn; destruct (Z.ltb_spec 0 (pos s)); lia | done].
    - split; [cbn; lia|]. intros j Hj. cbn. unfold set_cell. destruct (Z.eqb_spec j (pos s)); [lia | done]. }
  destruct fp as [f p]. cbn in Hfp. destruct Hfp as [Hp1 Hf].
  destruct (Z.ltb_spec p 0); [lia|]. destruct (Z.ltb_spec (25 * 80) p); [lia|]. cbn [orb].
  destruct (Z.leb_spec 24 (p / 80)) as [Hs|Hs].
  - assert (p = 24 * 80).
    { pose proof (Z_div_mod_eq_full p 80). pose proof (Z.mod_pos_bound p 80 ltac:(lia)). lia. }
    subst p. eexists. split; [reflexivity|]. cbn [pos crt]. split; [lia|]. intros j Hj. unfold set_cell, in_range.
    destruct (Z.eqb_spec j (24 * 80 - 80)); [lia|].
    case_if; [lia|]. case_if; [lia|]. apply Hf. lia.
  - assert (p < 24 * 80).
    { pose proof (Z_div_mod_eq_full p 80). pose proof (Z.mod_pos_bound p 80 ltac:(lia)). lia. }
    eexists. split; [reflexivity|]. cbn [pos crt]. split; [lia|]. intros j Hj. unfold set_cell.
    destruct (Z.eqb_spec j p); [lia|]. apply Hf. lia.
Qed.

Fixpoint cgaputs (cs : list Z) : M cga unit :=
  match cs with [] => mret tt | c :: cs => cgaputc c ≫= fun _ => cgaputs cs end.

(** From a cursor on the screen any output keeps the cursor on the
    24 lines of the screen, never panics, and never writes outside of the
    text memory. *)
Theorem cga_in_bounds (cs : list Z) (s : cga) :
  0 <= pos s < 24 * 80 ->
  exists s', cgaputs cs s = Ret s' tt /\ 0 <= pos s' < 24 * 80 /\
    forall j, j < 0 \/ 24 * 80 < j -> crt s' j = crt s j.
Proof.
  revert s. induction cs as [|c cs IH]; intros s Hp; cbn [cgaputs]; [by eexists|].
  destruct (cgaputc_ok c s Hp) as (s1 & E & Hp1 & Hf1). rewrite (bind_ret _ _ _ _ _ E).
  destruct (IH s1 Hp1) as (s' & E' & Hp' & Hf'). exists s'. split_and!; [done | apply Hp' | apply Hp'|].
  intros j Hj. by rewrite Hf', Hf1.
Qed.

Lemma cga_in_bounds_witness :
  exists s', cgaputs [104; 10; BACKSPACE; 105] (mk_cga (fun _ => 0) 1919) = Ret s' tt /\ 0 <= pos s' < 24 * 80.
Proof.
  destruct (cga_in_bounds [104; 10; BACKSPACE; 105] (mk_cga (fun _ => 0) 1919)) as (s' & H1 & H2 & _); [cbn; lia|].
  exists s'. exact (conj H1 H2).
Defined.

(** ** The console in the device switch *)

(** Unlocking and locking an inode again leaves the counts of Balance.v. *)
Lemma relock_core mypid lock_addr i s s1 s2 u1 u2 :
  iunlock mypid i s = Ret s1 u1 -> ilock mypid lock_addr i s1 = Ret s2 u2 -> core s2 = core s.
Proof.
  intros H1 H2. apply iunlock_inv in H1 as (x & l & Ex & Hx & Hl & ->).
  assert (Ex1 : inodes (on_inode i (set_ilock l) s) !! i = Some (set_ilock l x)) by (cbn; by rewrite list_lookup_alter_eq, Ex).
  unfold ilock, with_inode at 1 in H2. rewrite Ex1 in H2. case_if_in H2; [done|]. inv_bind H2.
  assert (Hc : core s2 = core s0).
  { revert H2. match goal with |- ?m s0 = _ -> _ => enough (keeps core m) as K by (apply K) end.
    apply with_inode_keeps. intros ip. keep.
    - apply keeps_modify. intros y. by apply core_alter.
    - apply with_inode_keeps. intros ip'. keep. }
  rewrite Hc. unfold lift_lock, with_inode in E. rewrite Ex1 in E.
  destruct (acquiresleep _ _ _) as [l2 v| |] eqn:El; [|done|done]. injection E as <- _.
  rewrite acquiresleep_eq in El by (by eapply sleep_inner_free). case_if_in El; [|done]. injection El as <- _.
  unfold core. cbn. f_equal. apply list_eq. intros j. rewrite !list_lookup_fmap.
  destruct (decide (j = i)) as [->|Hne]; [|by rewrite !list_lookup_alter_ne].
  rewrite !list_lookup_alter_eq, Ex. cbn. by destruct (Z.eqb_spec (sl_locked (i_lock x)) 0).
Qed.

(** The console satisfies what the system calls assume of a device. *)
Lemma consoleread_core mypid lock_addr killed_ chan inp i n :
  keeps core (devsw_consoleread mypid lock_addr killed_ chan inp i n).
Proof.
  intros s s' a H. unfold devsw_consoleread in H. inv_bind H. destruct (consoleread killed_ n inp) as [[[r bs] t]|]; [|done].
  inv_bind H. injection H as <- _. by eapply relock_core.
Qed.

Lemma consolewrite_core mypid lock_addr i buf n : keeps core (devsw_consolewrite mypid lock_addr i buf n).
Proof.
  intros s s' a H. unfold devsw_consolewrite in H. inv_bind H. inv_bind H. injection H as <- _. by eapply relock_core.
Qed.
