(* ===== verification/Kbd.v ===== *)
(** The keyboard driver (kbd.c, kbd.h): from scan codes to characters.

    The controller's ports are the input of the model: [None] when the status
    port says that no data is there, and otherwise the byte at the data port.
    The static variable shift of kbdgetc is its state. *)

From S2P Require Import Prelude Word Console.

Local Open Scope Z_scope.

Definition SHIFT : Z := 1.
Definition CTL : Z := 2.
Definition ALT : Z := 4.
Definition CAPSLOCK : Z := 8.
Definition NUMLOCK : Z := 16.
Definition SCROLLLOCK : Z := 32.
Definition E0ESC : Z := 64.

Definition KEY_HOME : Z := 0xE0.
Definition KEY_END : Z := 0xE1.
Definition KEY_UP : Z := 0xE2.
Definition KEY_DN : Z := 0xE3.
Definition KEY_LF : Z := 0xE4.
Definition KEY_RT : Z := 0xE5.
Definition KEY_PGUP : Z := 0xE6.
Definition KEY_PGDN : Z := 0xE7.
Definition KEY_INS : Z := 0xE8.
Definition KEY_DEL : Z := 0xE9.

(** C('A') == Control-A, stored in an unsigned char. *)
Definition C (x : Z) : Z := u8 (x - 64).

(** An array initialiser: the values in order from index 0, those with a
    designated index, and 0 elsewhere. *)
Definition table (init : list Z) (at_ : list (Z * Z)) (i : Z) : Z :=
  match find (fun e => fst e =? i) at_ with
  | Some e => snd e
  | None => nth (Z.to_nat i) init 0
  end.

Definition shiftcode : Z -> Z :=
  table [] [(0x1D, CTL); (0x2A, SHIFT); (0x36, SHIFT); (0x38, ALT); (0x9D, CTL); (0xB8, ALT)].

Definition togglecode : Z -> Z := table [] [(0x3A, CAPSLOCK); (0x45, NUMLOCK); (0x46, SCROLLLOCK)].

Definition specials : list (Z * Z) :=
  [(0xC8, KEY_UP); (0xD0, KEY_DN); (0xC9, KEY_PGUP); (0xD1, KEY_PGDN); (0xCB, KEY_LF); (0xCD, KEY_RT);
   (0x97, KEY_HOME); (0xCF, KEY_END); (0xD2, KEY_INS); (0xD3, KEY_DEL)].

Definition normalmap : Z -> Z := table
  [   0;  27;  49;  50;  51;  52;  53;  54;
     55;  56;  57;  48;  45;  61;   8;   9;
    113; 119; 101; 114; 116; 121; 117; 105;
    111; 112;  91;  93;  10;   0;  97; 115;
    100; 102; 103; 104; 106; 107; 108;  59;
     39;  96;   0;  92; 122; 120;  99; 118;
     98; 110; 109;  44;  46;  47;   0;  42;
      0;  32;   0;   0;   0;   0;   0;   0;
      0;   0;   0;   0;   0;   0;   0;  55;
     56;  57;  45;  52;  53;  54;  43;  49;
     50;  51;  48;  46;   0;   0;   0;   0 ]
  ((0x9C, 10) :: (0xB5, 47) :: specials).

Definition shiftmap : Z -> Z := table
  [   0;  27;  33;  64;  35;  36;  37;  94;
     38;  42;  40;  41;  95;  43;   8;   9;
     81;  87;  69;  82;  84;  89;  85;  73;
     79;  80; 123; 125;  10;   0;  65;  83;
     68;  70;  71;  72;  74;  75;  76;  58;
     34; 126;   0; 124;  90;  88;  67;  86;
     66;  78;  77;  60;  62;  63;   0;  42;
      0;  32;   0;   0;   0;   0;   0;   0;
      0;   0;   0;   0;   0;   0;   0;  55;
     56;  57;  45;  52;  53;  54;  43;  49;
     50;  51;  48;  46;   0;   0;   0;   0 ]
  ((0x9C, 10) :: (0xB5, 47) :: specials).

Definition ctlmap : Z -> Z := table
  [    0;    0;    0;    0;    0;    0;    0;    0;
       0;    0;    0;    0;    0;    0;    0;    0;
    C 81; C 87; C 69; C 82; C 84; C 89; C 85; C 73;
    C 79; C 80;    0;    0;   13;    0; C 65; C 83;
    C 68; C 70; C 71; C 72; C 74; C 75; C 76;    0;
       0;    0;    0; C 92; C 90; C 88; C 67; C 86;
    C 66; C 78; C 77;    0;    0; C 47;    0;    0 ]
  ((0x9C, 13) :: (0xB5, C 47) :: specials).

(** charcode[k][data]. *)
Definition charcode (k data : Z) : Z :=
  if k =? 0 then normalmap data else if k =? 1 then shiftmap data else ctlmap data.

(** ~m on 32-bit words. *)
Definition clear (x m : Z) : Z := Z.ldiff x m.

Definition has (x m : Z) : bool := negb (Z.land x m =? 0).

(** From the line after the escape handling to the end. *)
Definition key_char (shift data : Z) : Z * Z :=
  let shift := Z.lor shift (shiftcode data) in
  let shift := Z.lxor shift (togglecode data) in
  let c := charcode (Z.land shift (Z.lor CTL SHIFT)) data in
  let c :=
    if has shift CAPSLOCK then
      if (97 <=? c) && (c <=? 122) then c + (65 - 97)
      else if (65 <=? c) && (c <=? 90) then c + (97 - 65) else c
    else c in
  (shift, c).

Definition kbdgetc (port : option Z) (shift : Z) : Z * Z :=
  match port with
  | None => (shift, -1)
  | Some data =>
      if data =? 0xE0 then (Z.lor shift E0ESC, 0)
      else if has data 0x80 then
        let data := if has shift E0ESC then data else Z.land data 0x7F in
        (clear shift (Z.lor (shiftcode data) E0ESC), 0)
      else if has shift E0ESC then key_char (clear shift E0ESC) (Z.lor data 0x80)
      else key_char shift data
  end.

(** The calls that consoleintr makes while the controller has bytes: the
    characters returned before -1. *)
Fixpoint kbd_chars (bytes : list Z) (shift : Z) : Z * list Z :=
  match bytes with
  | [] => (shift, [])
  | d :: bytes =>
      let (shift, c) := kbdgetc (Some d) shift in
      let (shift, cs) := kbd_chars bytes shift in (shift, c :: cs)
  end.

(** kbdintr: consoleintr(kbdgetc). *)
Definition kbdintr (bytes : list Z) (shift : Z) (s : input) : Z * (input * list Z * nat * bool) :=
  let (shift, cs) := kbd_chars bytes shift in (shift, consoleintr cs s).

(** ** The events of a keyboard *)

(** A key, plain or with the E0 escape; pressed or released. *)
Record event := mk_event { ext : bool; code : Z; press : bool }.

(** Seven-bit codes; the release of code 60 would be the escape byte. *)
Definition event_ok (e : event) : bool := (1 <=? code e) && (code e <? 0x80) && negb (code e =? 0x60).

Definition scancodes (e : event) : list Z :=
  (if ext e then [0xE0] else []) ++ [if press e then code e else Z.lor (code e) 0x80].

(** The index in the tables. *)
Definition key (e : event) : Z := if ext e then Z.lor (code e) 0x80 else code e.

(** What the modifiers mean, after the events: a SHIFT, CTL or ALT is held when
    the last event of one of its keys was a press; a lock is on after an odd
    number of presses. *)
Definition held_after (m : Z) (h : bool) (e : event) : bool :=
  if shiftcode (key e) =? m then press e else h.

Definition locked_after (m : Z) (h : bool) (e : event) : bool :=
  if (togglecode (key e) =? m) && press e then negb h else h.

Definition flag (b : bool) (m : Z) : Z := if b then m else 0.

Definition modifiers (es : list event) : Z :=
  let held m := flag (fold_left (held_after m) es false) m in
  let lock m := flag (fold_left (locked_after m) es false) m in
  Z.lor (Z.lor (held SHIFT) (Z.lor (held CTL) (held ALT)))
        (Z.lor (lock CAPSLOCK) (Z.lor (lock NUMLOCK) (lock SCROLLLOCK))).

(** ** Properties *)

(** A check over the codes below [n] and the modifiers. *)
Definition codes (n : nat) : list Z := map Z.of_nat (seq 0 n).

Lemma codes_all (n : nat) (P : Z -> bool) :
  forallb P (codes n) = true -> forall z, 0 <= z < Z.of_nat n -> P z = true.
Proof.
  intros H z Hz. rewrite forallb_forall in H. apply H. apply in_map_iff. exists (Z.to_nat z).
  split; [lia|]. apply in_seq. lia.
Qed.

Definition mods (sh ct al ca nu sc : bool) : Z :=
  Z.lor (Z.lor (flag sh SHIFT) (Z.lor (flag ct CTL) (flag al ALT)))
        (Z.lor (flag ca CAPSLOCK) (Z.lor (flag nu NUMLOCK) (flag sc SCROLLLOCK))).

Definition step_check (x p sh ct al ca nu sc : bool) (c : Z) : bool :=
  let e := mk_event x c p in
  negb (event_ok e) ||
  (fst (kbd_chars (scancodes e) (mods sh ct al ca nu sc)) =?
   mods (held_after SHIFT sh e) (held_after CTL ct e) (held_after ALT al e)
        (locked_after CAPSLOCK ca e) (locked_after NUMLOCK nu e) (locked_after SCROLLLOCK sc e)).

Lemma step_checked x p sh ct al ca nu sc c : 0 <= c < 0x80 -> step_check x p sh ct al ca nu sc c = true.
Proof. revert c. destruct x, p, sh, ct, al, ca, nu, sc; apply (codes_all 128); vm_compute; reflexivity. Qed.

Lemma kbd_chars_app l k s :
  kbd_chars (l ++ k) s =
  let (s1, c1) := kbd_chars l s in let (s2, c2) := kbd_chars k s1 in (s2, c1 ++ c2).
Proof.
  revert s. induction l as [|d l IH]; intros s; cbn [kbd_chars app]; [by destruct (kbd_chars k s)|].
  destruct (kbdgetc (Some d) s) as [s1 c]. rewrite IH. destruct (kbd_chars l s1) as [s2 c1]. by destruct (kbd_chars k s2).
Qed.

Lemma kbd_event x p sh ct al ca nu sc c :
  let e := mk_event x c p in
  event_ok e = true ->
  fst (kbd_chars (scancodes e) (mods sh ct al ca nu sc)) =
  mods (held_after SHIFT sh e) (held_after CTL ct e) (held_after ALT al e)
       (locked_after CAPSLOCK ca e) (locked_after NUMLOCK nu e) (locked_after SCROLLLOCK sc e).
Proof.
  intros e He. assert (Hc : 0 <= c < 0x80).
  { unfold event_ok, e in He. cbn [code] in He. rewrite !andb_true_iff in He. lia. }
  pose proof (step_checked x p sh ct al ca nu sc c Hc) as H. unfold step_check in H. fold e in H.
  rewrite He in H. cbn [negb orb] in H. by apply Z.eqb_eq in H.
Qed.

Lemma kbd_events es sh ct al ca nu sc :
  Forall (fun e => event_ok e = true) es ->
  fst (kbd_chars (concat (map scancodes es)) (mods sh ct al ca nu sc)) =
  mods (fold_left (held_after SHIFT) es sh) (fold_left (held_after CTL) es ct) (fold_left (held_after ALT) es al)
       (fold_left (locked_after CAPSLOCK) es ca) (fold_left (locked_after NUMLOCK) es nu) (fold_left (locked_after SCROLLLOCK) es sc).
Proof.
  revert sh ct al ca nu sc. induction es as [|[x c p] es IH]; intros sh ct al ca nu sc He; [done|].
  apply Forall_cons_1 in He as [He Hes]. cbn [map concat fold_left]. rewrite kbd_chars_app.
  pose proof (kbd_event x p sh ct al ca nu sc c He) as H1.
  destruct (kbd_chars (scancodes _) (mods sh ct al ca nu sc)) as [s1 c1]. cbn [fst] in H1. subst s1.
  rewrite <- IH by done. by destruct (kbd_chars (concat _) _).
Qed.

(** After any sequence of keys pressed and released, plain or
    escaped, the driver's shift word is exactly what the modifier keys mean: a
    bit of SHIFT, CTL and ALT for the last event of their keys, a lock bit for
    the parity of its presses, and no escape left over. *)
Theorem kbd_modifiers (es : list event) :
  Forall (fun e => event_ok e = true) es ->
  fst (kbd_chars (concat (map scancodes es)) 0) = modifiers es.
Proof. intros He. exact (kbd_events es false false false false false false He). Qed.

(** Shift down, caps lock pressed and released, shift up. *)
Definition sample_events : list event :=
  [mk_event false 0x2A true; mk_event false 0x3A true; mk_event false 0x3A false; mk_event false 0x2A false].

Lemma kbd_modifiers_witness :
  modifiers sample_events = CAPSLOCK /\
  fst (kbd_chars (concat (map scancodes sample_events)) 0) = modifiers sample_events.
Proof. split; [reflexivity|]. apply (kbd_modifiers sample_events). repeat constructor. Defined.

Definition letter_check (sh ct al ca nu sc : bool) (c : Z) : bool :=
  let l := normalmap c in
  negb ((97 <=? l) && (l <=? 122)) ||
  (snd (kbdgetc (Some c) (mods sh ct al ca nu sc)) =?
   if ct then l - 96 else if xorb sh ca then l - 32 else l).

Lemma letter_checked sh ct al ca nu sc c : 0 <= c < 0x80 -> letter_check sh ct al ca nu sc c = true.
Proof. revert c. destruct sh, ct, al, ca, nu, sc; apply (codes_all 128); vm_compute; reflexivity. Qed.

(** The key of a letter, pressed after any sequence of events,
    types the letter, in upper case when exactly one of shift and caps lock is
    on, and the control character while control is held. *)
Theorem kbd_letters (es : list event) (c l : Z) :
  Forall (fun e => event_ok e = true) es -> 0 <= c < 0x80 -> normalmap c = l -> 97 <= l <= 122 ->
  snd (kbdgetc (Some c) (fst (kbd_chars (concat (map scancodes es)) 0))) =
  if fold_left (held_after CTL) es false then l - 96
  else if xorb (fold_left (held_after SHIFT) es false) (fold_left (locked_after CAPSLOCK) es false) then l - 32 else l.
Proof.
  intros He Hc Hl Hr. rewrite (kbd_events es false false false false false false He : fst (kbd_chars _ 0) = _).
  pose proof (letter_checked (fold_left (held_after SHIFT) es false) (fold_left (held_after CTL) es false)
    (fold_left (held_after ALT) es false) (fold_left (locked_after CAPSLOCK) es false)
    (fold_left (locked_after NUMLOCK) es false) (fold_left (locked_after SCROLLLOCK) es false) c Hc) as H.
  unfold letter_check in H. rewrite Hl in H.
  destruct (Z.leb_spec 97 l), (Z.leb_spec l 122); try lia.
Qed.

Lemma kbd_letters_witness :
  snd (kbdgetc (Some 0x1E) (fst (kbd_chars (concat (map scancodes sample_events)) 0))) = 65.
Proof. apply (kbd_letters sample_events 0x1E 97); [repeat constructor | lia | reflexivity | lia]. Defined.
