(* ===== verification/Printf.v ===== *)
(** printf of the user library (printf.c).

    The output is the list of bytes written by putc, one write each.  The user
    version reads the format with a state variable where the kernel's cprintf
    (Console.v) looks ahead; both are shown to agree. *)

From S2P Require Import Prelude Word Mem Console.

Local Open Scope Z_scope.

(** digits[] of the user library ("0123456789ABCDEF"). *)
Definition DIGIT (d : Z) : Z := if d <? 10 then 48 + d else 65 + (d - 10).

(** printint(fd, xx, base, sgn): the bytes written. *)
Definition uprintint (xx base : Z) (sgn : bool) : list Z :=
  let neg := sgn && (xx <? 0) in
  let x := if neg then u32 (- xx) else u32 xx in
  rev (printint_loop 32 DIGIT x base ++ if neg then [c_minus] else []).

Section printf.
Context (arg : nat -> Z) (string_at : Z -> list Z).

(** The loop over the format; [st] is state == '%', [k] arguments have been
    used. *)
Fixpoint printf_loop (fmt : list Z) (st : bool) (k : nat) : list Z :=
  match fmt with
  | [] => []
  | c :: fmt =>
      if negb st then
        if c =? c_percent then printf_loop fmt true k else c :: printf_loop fmt false k
      else if c =? 100 then uprintint (s32 (arg k)) 10 true ++ printf_loop fmt false (S k)
      else if (c =? 120) || (c =? 112) then uprintint (s32 (arg k)) 16 false ++ printf_loop fmt false (S k)
      else if c =? 115 then
        (if arg k =? 0 then null_str else string_at (arg k)) ++ printf_loop fmt false (S k)
      else if c =? 99 then u8 (arg k) :: printf_loop fmt false (S k)
      else if c =? c_percent then c :: printf_loop fmt false k
      else c_percent :: c :: printf_loop fmt false k
  end.

Definition printf (fmt : list Z) : list Z := printf_loop fmt false 0.

(** A format without the conversions that differ: %c, which the kernel does
    not know, and %x and %p, whose digits are in the other case. *)
Fixpoint common (fmt : list Z) (st : bool) : bool :=
  match fmt with
  | [] => true
  | c :: fmt =>
      if st then negb (existsb (Z.eqb c) [99; 120; 112]) && common fmt false
      else common fmt (c =? c_percent)
  end.

Lemma printint_loop_decimal fuel x : printint_loop fuel DIGIT x 10 = printint_loop fuel digit x 10.
Proof.
  revert x. induction fuel as [|fuel IH]; intros x; cbn [printint_loop]; [done|].
  rewrite IH. f_equal. unfold DIGIT, digit. pose proof (Z.mod_pos_bound x 10 ltac:(lia)).
  destruct (Z.ltb_spec (x mod 10) 10); [done | lia].
Qed.

Lemma uprintint_decimal xx : uprintint xx 10 true = printint xx 10 true.
Proof. unfold uprintint, printint. by rewrite printint_loop_decimal. Qed.

(** The user printf and the kernel cprintf print the same
    characters for the same format and arguments, for every format, ending
    anywhere, that has only the conversions both know. *)
Theorem printf_cprintf (fmt : list Z) :
  common fmt false = true -> printf fmt = cprintf arg string_at fmt.
Proof.
  unfold printf, cprintf. generalize 0%nat. intros k Hc.
  assert (H : forall n fmt k, (length fmt <= n)%nat -> common fmt false = true ->
    printf_loop fmt false k = cprintf_loop arg string_at fmt k).
  { clear. intros n. induction n as [|n IH]; intros fmt k Hn Hc; (destruct fmt as [|c fmt]; [done|]); cbn [length] in Hn; [lia|].
    cbn [printf_loop cprintf_loop negb]. cbn [common] in Hc. destruct (Z.eqb_spec c c_percent) as [->|Hne]; cbn [negb].
    2:{ f_equal. apply IH; [lia | done]. }
    destruct fmt as [|d fmt]; [done|]. cbn [length common] in Hn, Hc. cbn [printf_loop negb].
    apply andb_true_iff in Hc as [Hd Hc]. cbn [existsb] in Hd. rewrite !negb_orb, !andb_true_iff in Hd.
    destruct Hd as (H99 & H120 & H112 & _). rewrite !negb_true_iff in H99, H120, H112. rewrite H99, H120, H112. cbn [orb].
    rewrite !IH by (done || lia). rewrite uprintint_decimal.
    destruct (d =? 100); [done|]. destruct (d =? 115); [done|]. destruct (Z.eqb_spec d c_percent) as [->|]; done. }
  by apply (H (length fmt)).
Qed.

End printf.

(** "n=%d%%" with 7. *)
Lemma printf_cprintf_witness :
  printf (fun _ => 7) (fun _ => []) [110; 61; 37; 100; 37; 37] = [110; 61; 55; 37] /\
  printf (fun _ => 7) (fun _ => []) [110; 61; 37; 100; 37; 37] = cprintf (fun _ => 7) (fun _ => []) [110; 61; 37; 100; 37; 37].
Proof.
  split; [vm_compute; reflexivity|].
  exact (printf_cprintf (fun _ => 7) (fun _ => []) [110; 61; 37; 100; 37; 37] eq_refl).
Defined.

(** The two notions of the value of a numeral. *)
Lemma dec_value_number ds : Forall (fun c => 48 <= c <= 57) ds -> dec_value 0 ds = number 10 ds.
Proof.
  unfold dec_value, number. generalize 0. induction ds as [|c ds IH]; intros n Hd; cbn [fold_left]; [done|].
  apply Forall_cons_1 in Hd as [Hc Hd]. rewrite IH by done. f_equal. unfold digit_value.
  destruct (Z.ltb_spec c 58); lia.
Qed.

(** Atoi reads back the number that %d printed, for every int
    that is not negative. *)
Theorem printint_atoi (n : Z) (m : mem) (s : Z) :
  0 <= n < 2 ^ 31 ->
  let ds := uprintint n 10 true in
  bytes_at m s (length ds + 1) = ds ++ [0] -> atoi 32 m s = Some n.
Proof.
  intros Hn ds Hm. unfold ds in *. rewrite uprintint_decimal in *.
  unfold printint in *. destruct (Z.ltb_spec n 0); [lia|]. cbn [andb] in *. rewrite app_nil_r in *.
  rewrite u32_small in * by (unfold is_u32; lia).
  destruct (printint_loop_ok 32 n 10 ltac:(lia) ltac:(lia) ltac:(lia)) as (H1 & _ & _ & H4).
  pose proof (printint_loop_length 32 digit n 10 10 ltac:(lia) ltac:(lia) ltac:(lia)) as Hlen.
  set (l := rev (printint_loop 32 digit n 10)) in *.
  assert (Hl : (length l <= 10)%nat) by (unfold l; rewrite length_rev; lia).
  assert (Hd : Forall (fun c => 48 <= c <= 57) l)
    by (eapply Forall_impl; [|exact H4]; cbn; intros c (d & Hd & Hc); by eapply digit_decimal).
  assert (Hb : bytes_at m s (length l) = l /\ m (s + Z.of_nat (length l)) = 0).
  { unfold bytes_at in *. rewrite Nat.add_1_r, seq_S, map_app in Hm. cbn [map] in Hm.
    apply app_inj_tail in Hm as [Hm1 Hm2]. split; [done|]. by rewrite Nat.add_0_l in Hm2. }
  destruct Hb as [Hb Hz]. unfold atoi. rewrite (atoi_loop_spec l); [| done | done | lia | lia | lia |].
  - by rewrite dec_value_number, H1.
  - rewrite dec_value_number, H1 by done. lia.
Qed.

Lemma printint_atoi_witness : atoi 32 (char_at [49; 50; 56; 48; 48]) 0 = Some 12800.
Proof. apply (printint_atoi 12800 (char_at [49; 50; 56; 48; 48]) 0); [lia | vm_compute; reflexivity]. Defined.
