(* ===== verification/Umalloc.v ===== *)
(** The memory allocator of the user library (umalloc.c).

    A block starts with a header of 8 bytes: the pointer to the next free block
    and the size in units of 8 bytes, the header included.  The headers live in
    the process's memory, next to the data of the program.  [fl] below is the
    free list in the order of addresses, from the header [base] on; the list in
    memory is circular. *)

From S2P Require Import Prelude Word Mem.

Local Open Scope Z_scope.

(** The memory of the process, freep, and the end of the heap. *)
Record heap := mk_heap { um : mem; freep : Z; brk : Z }.

Definition hptr (m : mem) (p : Z) : Z := load32 m p.            (* p->s.ptr *)
Definition hsize (m : mem) (p : Z) : Z := load32 m (p + 4).     (* p->s.size *)
Definition set_hptr (p v : Z) (m : mem) : mem := store32 m p v.
Definition set_hsize (p v : Z) (m : mem) : mem := store32 m (p + 4) v.

(** Header* arithmetic. *)
Definition hadd (p n : Z) : Z := u32 (p + 8 * n).

(** The test of the loop of free and the break in it. *)
Definition stop_at (m : mem) (bp p : Z) : bool :=
  (p <? bp) && (bp <? hptr m p) || (hptr m p <=? p) && ((p <? bp) || (bp <? hptr m p)).

Fixpoint free_find (fuel : nat) (m : mem) (bp p : Z) : option Z :=
  match fuel with
  | O => None
  | S fuel => if stop_at m bp p then Some p else free_find fuel m bp (hptr m p)
  end.

(** Joining with the block above, and then with the one below. *)
Definition join_up (bp p : Z) (m : mem) : mem :=
  if hadd bp (hsize m bp) =? hptr m p then
    let m := set_hsize bp (u32 (hsize m bp + hsize m (hptr m p))) m in
    set_hptr bp (hptr m (hptr m p)) m
  else set_hptr bp (hptr m p) m.

Definition join_down (bp p : Z) (m : mem) : mem :=
  if hadd p (hsize m p) =? bp then
    let m := set_hsize p (u32 (hsize m p + hsize m bp)) m in
    set_hptr p (hptr m bp) m
  else set_hptr p bp m.

(** free; [fuel] bounds the walk of the list. *)
Definition free (fuel : nat) (ap : Z) (s : heap) : option heap :=
  let bp := hadd ap (-1) in
  match free_find fuel (um s) bp (freep s) with
  | None => None
  | Some p => Some (mk_heap (join_down bp p (join_up bp p (um s))) p (brk s))
  end.

Section malloc.
(** The address of the variable base, and whether the kernel lets the heap
    grow from an end by a number of bytes. *)
Context (base : Z) (grant : Z -> Z -> bool).

Definition sbrk (n : Z) (s : heap) : heap * Z :=
  if grant (brk s) n then (mk_heap (um s) (freep s) (brk s + n), brk s) else (s, u32 (-1)).

Definition morecore (fuel : nat) (nu : Z) (s : heap) : option (heap * Z) :=
  let nu := if nu <? 4096 then 4096 else nu in
  let (s, p) := sbrk (s32 (u32 (nu * 8))) s in
  if p =? u32 (-1) then Some (s, 0)
  else
    match free fuel (hadd p 1) (mk_heap (set_hsize p nu (um s)) (freep s) (brk s)) with
    | None => None
    | Some s => Some (s, freep s)
    end.

(** The block [p] is large enough: all of it, or its tail. *)
Definition take_block (nunits prevp p : Z) (s : heap) : heap * Z :=
  if hsize (um s) p =? nunits then
    (mk_heap (set_hptr prevp (hptr (um s) p) (um s)) prevp (brk s), hadd p 1)
  else
    let m := set_hsize p (u32 (hsize (um s) p - nunits)) (um s) in
    let p := hadd p (hsize m p) in
    let m := set_hsize p nunits m in
    (mk_heap m prevp (brk s), hadd p 1).

Fixpoint malloc_loop (fuel : nat) (nunits prevp p : Z) (s : heap) : option (heap * Z) :=
  match fuel with
  | O => None
  | S fuel' =>
      if nunits <=? hsize (um s) p then Some (take_block nunits prevp p s)
      else if p =? freep s then
        match morecore fuel nunits s with
        | None => None
        | Some (s, p) => if p =? 0 then Some (s, 0) else malloc_loop fuel' nunits p (hptr (um s) p) s
        end
      else malloc_loop fuel' nunits p (hptr (um s) p) s
  end.

Definition malloc (fuel : nat) (nbytes : Z) (s : heap) : option (heap * Z) :=
  let nunits := u32 (u32 (nbytes + 8 - 1) / 8 + 1) in
  let s :=
    if freep s =? 0 then mk_heap (set_hsize base 0 (set_hptr base base (um s))) base (brk s) else s in
  malloc_loop fuel nunits (freep s) (hptr (um s) (freep s)) s.

End malloc.

(** ** The free list *)

(** Blocks: address and size in units.  The header base has size 0 and
    takes 8 bytes. *)
Abbreviation blk := (Z * Z)%type.
Definition stop (x : blk) : Z := x.1 + 8 * Z.max (x.2) 1.
Definition apart (x y : blk) : Prop := stop x <= y.1 \/ stop y <= x.1.

(** [x] comes before [y] in the free list, and could not be joined with it. *)
Definition before (x y : blk) : Prop := stop x <= y.1 /\ x.1 + 8 * x.2 <> y.1.

Fixpoint sorted (l : list blk) : Prop :=
  match l with
  | [] => True
  | x :: l => Forall (before x) l /\ sorted l
  end.

(** The ptr fields of the headers [l] link them, and the last one to [z]. *)
Fixpoint chain (m : mem) (l : list blk) (z : Z) : Prop :=
  match l with
  | [] => True
  | x :: l => hptr m x.1 = hd z l.*1 /\ chain m l z
  end.

Definition circular (m : mem) (l : list blk) : Prop := chain m l (hd 0 l.*1).

Definition size_ok (m : mem) (x : blk) : Prop := hsize m x.1 = x.2.

Fixpoint all_apart (l : list blk) : Prop :=
  match l with
  | [] => True
  | x :: l => Forall (apart x) l /\ all_apart l
  end.

(** The bound for addresses: the kernel's. *)
Definition top : Z := KERNBASE.

(** The heap from [lo] on: the free list [fl] and the blocks [live] that the
    program has. *)
Record heap_ok (base lo : Z) (s : heap) (fl live : list blk) : Prop := {
  h_base : exists rest, fl = (base, 0) :: rest;
  h_low : 0 < base /\ base + 8 <= lo /\ lo <= brk s <= top;
  h_sorted : sorted fl;
  h_circ : circular (um s) fl;
  h_sizes : Forall (size_ok (um s)) (fl ++ live);
  h_range : Forall (fun x => x = (base, 0) \/ lo <= x.1 /\ 0 < x.2 /\ stop x <= brk s) (fl ++ live);
  h_live : all_apart live;
  h_apart : forall x y, x ∈ fl -> y ∈ live -> apart x y;
  h_freep : freep s ∈ fl.*1;
}.

(** ** Lists of blocks *)

Lemma sorted_app l k : sorted (l ++ k) <-> sorted l /\ sorted k /\ forall x y, x ∈ l -> y ∈ k -> before x y.
Proof.
  induction l as [|x l IH]; cbn; [split; [intros H; split_and!; [done | done | by intros ? ? ?%elem_of_nil] | by intros (_ & ? & _)]|].
  rewrite IH, Forall_app, !list.Forall_forall. split.
  - intros ((H1 & H2) & H3 & H4 & H5). split_and!; try done. intros y z [->|Hy]%elem_of_cons Hz; auto.
  - intros ((H1 & H2) & H3 & H4). split_and!; try done; [intros y Hy; apply H4; [left | done] | intros y z Hy Hz; apply H4; [by right | done]].
Qed.

Lemma chain_app m l k z : chain m (l ++ k) z <-> chain m l (hd z k.*1) /\ chain m k z.
Proof.
  induction l as [|x l IH]; cbn; [tauto|]. rewrite IH. destruct l as [|y l]; cbn; tauto.
Qed.

Lemma chain_ext m m' l z : (forall x, x ∈ l -> hptr m' x.1 = hptr m x.1) -> chain m l z -> chain m' l z.
Proof.
  induction l as [|x l IH]; cbn; [done|]. intros He [Hx Hl]. split.
  - rewrite He; [done | left].
  - apply IH; [|done]. intros y Hy. apply He. by right.
Qed.

Lemma circular_rot m l k : circular m (l ++ k) -> circular m (k ++ l).
Proof.
  unfold circular. destruct l as [|x l]; [by rewrite app_nil_r|]. destruct k as [|y k]; [by rewrite app_nil_r|].
  cbn [app fmap list_fmap hd]. rewrite !app_comm_cons, !chain_app. cbn [fmap list_fmap hd]. tauto.
Qed.

Lemma all_apart_app l k : all_apart (l ++ k) <-> all_apart l /\ all_apart k /\ forall x y, x ∈ l -> y ∈ k -> apart x y.
Proof.
  induction l as [|x l IH]; cbn; [split; [intros H; split_and!; [done | done | by intros ? ? ?%elem_of_nil] | by intros (_ & ? & _)]|].
  rewrite IH, Forall_app, !list.Forall_forall. split.
  - intros ((H1 & H2) & H3 & H4 & H5). split_and!; try done. intros y z [->|Hy]%elem_of_cons Hz; auto.
  - intros ((H1 & H2) & H3 & H4). split_and!; try done; [intros y Hy; apply H4; [left | done] | intros y z Hy Hz; apply H4; [by right | done]].
Qed.

(** A free list splits at a block that is apart from all of it. *)
Lemma split_at l bp e :
  sorted l -> Forall (fun x => stop x <= bp \/ e <= x.1) l ->
  exists l1 l2, l = l1 ++ l2 /\ Forall (fun x => stop x <= bp) l1 /\ Forall (fun x => e <= x.1) l2.
Proof.
  induction l as [|x l IH]; intros Hs Ha; [by exists [], []|]. destruct Hs as [Hx Hs].
  apply Forall_cons_1 in Ha as [[Hb|He] Ha].
  - destruct (IH Hs Ha) as (l1 & l2 & -> & H1 & H2). exists (x :: l1), l2. split_and!; [done | by constructor | done].
  - exists [], (x :: l). split_and!; [done | done |]. constructor; [done|].
    eapply Forall_impl; [|exact Hx]. intros y [Hy _]. unfold stop in Hy. lia.
Qed.

Definition units (l : list blk) : Z := fold_right (fun x n => x.2 + n) 0 l.

Lemma units_app l k : units (l ++ k) = units l + units k.
Proof. unfold units. induction l as [|x l IH]; cbn [app fold_right]; [done|]. rewrite IH. lia. Qed.

(** ** Headers in memory *)

(** Outside the headers at [ps], nothing changes. *)
Definition only_headers (ps : list Z) (m m' : mem) : Prop :=
  forall a, (forall p, p ∈ ps -> a < p \/ p + 8 <= a) -> m' a = m a.

Lemma only_headers_ptr ps m m' p : only_headers ps m m' -> (forall q, q ∈ ps -> p + 8 <= q \/ q + 8 <= p) -> hptr m' p = hptr m p.
Proof. intros H Hp. apply load32_ext. intros a Ha. apply H. intros q Hq. specialize (Hp q Hq). lia. Qed.

Lemma only_headers_size ps m m' p : only_headers ps m m' -> (forall q, q ∈ ps -> p + 8 <= q \/ q + 8 <= p) -> hsize m' p = hsize m p.
Proof. intros H Hp. apply load32_ext. intros a Ha. apply H. intros q Hq. specialize (Hp q Hq). lia. Qed.

Lemma set_hptr_spec p v m : is_u32 v ->
  hptr (set_hptr p v m) p = v /\ hsize (set_hptr p v m) p = hsize m p /\ only_headers [p] m (set_hptr p v m).
Proof.
  intros Hv. unfold hptr, hsize, set_hptr. split_and!; [by apply load32_store32_eq | apply load32_store32_ne; lia |].
  intros a Ha. apply store32_out. specialize (Ha p ltac:(left)). lia.
Qed.

Lemma set_hsize_spec p v m : is_u32 v ->
  hsize (set_hsize p v m) p = v /\ hptr (set_hsize p v m) p = hptr m p /\ only_headers [p] m (set_hsize p v m).
Proof.
  intros Hv. unfold hptr, hsize, set_hsize. split_and!; [by apply load32_store32_eq | apply load32_store32_ne; lia |].
  intros a Ha. apply store32_out. specialize (Ha p ltac:(left)). lia.
Qed.

Lemma only_headers_trans ps qs m m' m'' : only_headers ps m m' -> only_headers qs m' m'' -> only_headers (ps ++ qs) m m''.
Proof.
  intros H1 H2 a Ha. rewrite H2, H1; [done | |]; intros p Hp; apply Ha, elem_of_app; auto.
Qed.

Lemma only_headers_weaken ps qs m m' : only_headers ps m m' -> (forall p, p ∈ ps -> p ∈ qs) -> only_headers qs m m'.
Proof. intros H Hs a Ha. apply H. auto. Qed.

Lemma hadd_small p n : 0 <= p + 8 * n <= top -> hadd p n = p + 8 * n.
Proof. unfold top, KERNBASE. intros H. apply u32_small. unfold is_u32. lia. Qed.

(** ** free *)

Lemma successor m base a x b :
  circular m (a ++ x :: b) -> hd 0 (a ++ x :: b).*1 = base -> hptr m x.1 = hd base b.*1.
Proof. unfold circular. intros H <-. apply chain_app in H as [_ [H _]]. exact H. Qed.

Section free_list.
Context (base : Z) (m : mem) (fl l1 l2 : list blk) (q sq bp sz : Z) (Efl : fl = l1 ++ (q, sq) :: l2).
Context (Hhd : hd 0 fl.*1 = base) (Hcirc : circular m fl) (Hsort : sorted fl).
Context (Hsize : Forall (size_ok m) fl).
Context (Hrange : Forall (fun x => base <= x.1 /\ 0 <= x.2 /\ stop x <= top) fl).
Context (Hbelow : Forall (fun x => stop x <= bp) (l1 ++ [(q, sq)])) (Habove : Forall (fun x => bp + 8 * sz <= x.1) l2).
Context (Hbp : 0 < base < bp /\ 0 < sz /\ bp + 8 * sz <= top) (Hbsize : hsize m bp = sz).

Lemma in_range_fl x : x ∈ fl -> base <= x.1 /\ 0 <= x.2 /\ stop x <= top.
Proof. rewrite list.Forall_forall in Hrange. apply Hrange. Qed.

Lemma below_q : stop (q, sq) <= bp.
Proof. rewrite list.Forall_forall in Hbelow. apply Hbelow, elem_of_app. right. left. Qed.

Lemma succ_q : hptr m q = hd base l2.*1.
Proof. apply (successor m base l1 (q, sq) l2); by rewrite <- Efl. Qed.

(** The loop of free stops exactly at the block before [bp]. *)
Lemma stop_at_q x : x ∈ fl -> stop_at m bp x.1 = bool_decide (x.1 = q).
Proof.
  intros Hx. pose proof below_q as Hq. unfold stop in Hq. cbn in Hq.
  assert (Hcase : x ∈ l1 \/ x = (q, sq) \/ x ∈ l2) by (rewrite Efl in Hx; rewrite elem_of_app, elem_of_cons in Hx; tauto).
  unfold stop_at. destruct Hcase as [H1|[->|H2]].
  - apply list_elem_of_split in H1 as (a & b & E).
    assert (Hfl : fl = a ++ x :: (b ++ (q, sq) :: l2)) by (rewrite Efl, E, <- app_assoc; done).
    rewrite (successor m base a x (b ++ (q, sq) :: l2)) by (by rewrite <- Hfl).
    pose proof Hsort as Hs. rewrite Hfl in Hs. apply sorted_app in Hs as (_ & [Hxs _] & _).
    assert (Hn : exists y, hd base (b ++ (q, sq) :: l2).*1 = y.1 /\ before x y /\ y.1 < bp).
    { destruct b as [|y b]; cbn.
      - exists (q, sq). apply Forall_app in Hxs as [_ Hxs]. apply Forall_cons_1 in Hxs as [Hxs _]. cbn. split_and!; [done | done | lia].
      - exists y. apply Forall_cons_1 in Hxs as [Hxs _]. split_and!; [done | done |].
        rewrite list.Forall_forall in Hbelow. assert (Hy : y ∈ l1 ++ [(q, sq)]) by (rewrite E, !elem_of_app, !elem_of_cons; tauto).
        specialize (Hbelow y Hy). unfold stop in Hbelow. lia. }
    destruct Hn as (y & -> & [Hy _] & Hyb). unfold stop in Hy.
    assert (x.1 <> q).
    { apply Forall_app in Hxs as [_ Hxs]. apply Forall_cons_1 in Hxs as [[Hxs _] _]. unfold stop in Hxs. cbn in Hxs. lia. }
    rewrite bool_decide_false by done. lia.
  - cbn [fst]. rewrite succ_q. rewrite bool_decide_true by done.
    pose proof (in_range_fl (q, sq) ltac:(rewrite Efl; apply elem_of_app; right; left)) as (Hb & _). cbn in Hb.
    destruct l2 as [|n l2']; cbn; [lia|]. apply Forall_cons_1 in Habove as [Hn _]. lia.
  - pose proof H2 as Hxa. rewrite list.Forall_forall in Habove. specialize (Habove x Hxa).
    apply list_elem_of_split in H2 as (a & b & E).
    assert (Hfl : fl = (l1 ++ (q, sq) :: a) ++ x :: b) by (rewrite Efl, E, <- app_assoc; done).
    rewrite (successor m base (l1 ++ (q, sq) :: a) x b) by (by rewrite <- Hfl).
    rewrite bool_decide_false by lia. pose proof Hsort as Hs. rewrite Hfl in Hs. apply sorted_app in Hs as (_ & [Hxs _] & _).
    destruct b as [|y b]; cbn; [lia|]. apply Forall_cons_1 in Hxs as [[Hxs _] _]. unfold stop in Hxs. lia.
Qed.

Lemma free_find_q fuel l x z :
  chain m (x :: l) z -> (forall y, y ∈ x :: l -> y ∈ fl) -> (q, sq) ∈ x :: l -> (length l < fuel)%nat ->
  free_find fuel m bp x.1 = Some q.
Proof.
  revert x fuel. induction l as [|y l IH]; intros x fuel [Hx Hc] Hin Hq Hf; (destruct fuel as [|fuel]; [lia|]); cbn [free_find];
    rewrite stop_at_q by (apply Hin; left); destruct (bool_decide_reflect (x.1 = q)) as [->|Hne]; try done.
  - apply list_elem_of_singleton in Hq as <-. done.
  - cbn in Hx. rewrite Hx. apply IH; [done | | | cbn in Hf; lia].
    + intros w Hw. apply Hin. by right.
    + apply elem_of_cons in Hq as [<-|Hq]; [done | exact Hq].
Qed.

Definition joined (p : list blk) (sm : Z) : Prop :=
  p = [] /\ sm = sz \/ exists sn, p = [(bp + 8 * sz, sn)] /\ sm = sz + sn.

(** After joining with the block above: [(bp, sm)] followed by [r]. *)
Lemma join_up_ok :
  exists p r sm, l2 = p ++ r /\ joined p sm /\ 0 < sm /\ bp + 8 * sm <= top /\
    let m1 := join_up bp q m in
    only_headers [bp] m m1 /\ hptr m1 bp = hd base r.*1 /\ hsize m1 bp = sm /\ Forall (before (bp, sm)) r.
Proof.
  pose proof below_q as Hq. unfold stop in Hq. cbn in Hq.
  pose proof succ_q as Hn.
  assert (Hu : is_u32 base) by (unfold is_u32; unfold top, KERNBASE in *; lia).
  unfold join_up. rewrite Hbsize, Hn, hadd_small by lia. destruct l2 as [|[n sn] l2']; cbn [fmap list_fmap hd fst].
  - exists [], [], sz. destruct (Z.eqb_spec (bp + 8 * sz) base); [lia|].
    destruct (set_hptr_spec bp base m Hu) as (H1 & H2 & H3). cbn. split_and!; try done; [by left | lia.. | congruence].
  - pose proof Habove as Ha. apply Forall_cons_1 in Ha as [Hna Ha]. cbn in Hna.
    destruct (in_range_fl (n, sn)) as (Hn1 & Hn2 & Hn3); [rewrite Efl, elem_of_app; right; right; left|]. cbn in Hn1, Hn2. unfold stop in Hn3. cbn in Hn3.
    assert (Hnu : is_u32 n) by (unfold is_u32; unfold top, KERNBASE in *; lia).
    assert (Hs : Forall (before (n, sn)) l2' /\ sorted l2').
    { pose proof Hsort as Hs. rewrite Efl in Hs. apply sorted_app in Hs as (_ & [_ Hs] & _). exact Hs. }
    destruct (Z.eqb_spec (bp + 8 * sz) n) as [Ej|Ej].
    + assert (Hns : hsize m n = sn).
      { rewrite list.Forall_forall in Hsize. apply (Hsize (n, sn)). rewrite Efl, elem_of_app. right. right. left. }
      assert (Hnn : hptr m n = hd base l2'.*1).
      { apply (successor m base (l1 ++ [(q, sq)]) (n, sn) l2'); rewrite <- app_assoc; cbn; by rewrite <- Efl. }
      assert (Hnx : is_u32 (hd base l2'.*1)).
      { destruct l2' as [|y l2'']; [done|]. cbn. destruct (in_range_fl y) as (Hy1 & _ & Hy2); [rewrite Efl, elem_of_app; right; right; right; left|]. unfold stop in Hy2. unfold is_u32, top, KERNBASE in *. lia. }
      assert (Hsu : u32 (sz + sn) = sz + sn) by (apply u32_small; unfold is_u32, top, KERNBASE in *; lia).
      exists [(n, sn)], l2', (sz + sn). rewrite Hns, Hsu.
      destruct (set_hsize_spec bp (sz + sn) m) as (H1 & H2 & H3); [unfold is_u32, top, KERNBASE in *; lia|].
      set (m' := set_hsize bp (sz + sn) m) in *.
      assert (Eq' : hptr m' q = n) by (rewrite (only_headers_ptr [bp] m m' q H3); [done | intros ? ->%list_elem_of_singleton; lia]).
      assert (En' : hptr m' n = hd base l2'.*1) by (rewrite (only_headers_ptr [bp] m m' n H3); [done | intros ? ->%list_elem_of_singleton; lia]).
      rewrite Eq', En'. destruct (set_hptr_spec bp (hd base l2'.*1) m' Hnx) as (H4 & H5 & H6).
      split_and!; try done; [right; exists sn; by rewrite Ej | lia | lia | | congruence |].
      * eapply only_headers_weaken; [eapply only_headers_trans; [exact H3 | exact H6] | intros p; rewrite elem_of_app; tauto].
      * destruct Hs as [Hs _]. eapply Forall_impl; [|exact Hs]. intros y [Hy1 Hy2]. unfold before, stop in *. cbn in *. lia.
    + exists [], ((n, sn) :: l2'), sz. destruct (set_hptr_spec bp n m Hnu) as (H1 & H2 & H3). cbn.
      split_and!; try done; [by left | lia.. | congruence |]. constructor; [unfold before, stop; cbn; lia|].
      destruct Hs as [Hs _]. eapply Forall_impl; [|exact Hs]. intros y [Hy1 Hy2]. unfold before, stop in *. cbn in *. lia.
Qed.

(** After joining with the block below: [w] in place of [(q, sq)]. *)
Lemma join_down_ok m1 sm nx :
  0 < sm -> bp + 8 * sm <= top -> is_u32 nx ->
  only_headers [bp] m m1 -> hptr m1 bp = nx -> hsize m1 bp = sm ->
  exists w, (q + 8 * sq = bp /\ w = [(q, sq + sm)] \/ q + 8 * sq <> bp /\ w = [(q, sq); (bp, sm)]) /\
    only_headers [bp; q] m (join_down bp q m1) /\ chain (join_down bp q m1) w nx /\
    Forall (size_ok (join_down bp q m1)) w.
Proof.
  intros Hsm Ht Hnx Ho Hp1 Hs1. pose proof below_q as Hq. unfold stop in Hq. cbn in Hq.
  destruct (in_range_fl (q, sq)) as (Hq1 & Hq2 & Hq3); [rewrite Efl, elem_of_app; right; left|]. unfold stop in Hq3. cbn in Hq1, Hq2, Hq3.
  assert (Hsq : hsize m1 q = sq).
  { rewrite (only_headers_size [bp] m m1 q Ho) by (intros ? ->%list_elem_of_singleton; lia).
    rewrite list.Forall_forall in Hsize. apply (Hsize (q, sq)). rewrite Efl, elem_of_app. right. left. }
  assert (Hapart : forall p, p ∈ [q] -> bp + 8 <= p \/ p + 8 <= bp) by (intros ? ->%list_elem_of_singleton; lia).
  unfold join_down. rewrite Hsq, Hs1, hadd_small by lia. destruct (Z.eqb_spec (q + 8 * sq) bp) as [Ej|Ej].
  - assert (Hsu : u32 (sq + sm) = sq + sm) by (apply u32_small; unfold is_u32, top, KERNBASE in *; lia). rewrite Hsu.
    destruct (set_hsize_spec q (sq + sm) m1) as (H1 & H2 & H3); [unfold is_u32, top, KERNBASE in *; lia|].
    rewrite (only_headers_ptr [q] m1 _ bp H3 Hapart), Hp1.
    destruct (set_hptr_spec q nx (set_hsize q (sq + sm) m1) Hnx) as (H4 & H5 & H6).
    exists [(q, sq + sm)]. split_and!; [by left | | done | constructor; [unfold size_ok; cbn; congruence | constructor]].
    eapply only_headers_weaken; [eapply only_headers_trans; [exact Ho | eapply only_headers_trans; [exact H3 | exact H6]]|].
    intros p. rewrite !elem_of_app, !elem_of_cons. tauto.
  - assert (Hbu : is_u32 bp) by (unfold is_u32, top, KERNBASE in *; lia).
    destruct (set_hptr_spec q bp m1 Hbu) as (H4 & H5 & H6).
    exists [(q, sq); (bp, sm)]. split_and!; [by right | | cbn; split_and!; [done | | done] |].
    + eapply only_headers_weaken; [eapply only_headers_trans; [exact Ho | exact H6]|].
      intros p. rewrite !elem_of_app, !elem_of_cons. tauto.
    + by rewrite (only_headers_ptr [q] m1 _ bp H6 Hapart).
    + repeat constructor; unfold size_ok; cbn; [congruence|]. by rewrite (only_headers_size [q] m1 _ bp H6 Hapart).
Qed.

(** The free list after free: [l1], [w] for the joined blocks, and the rest
    [r]. *)
Lemma free_list_ok fuel f :
  (length fl <= fuel)%nat -> f ∈ fl.*1 ->
  exists w r sm, free_find fuel m bp f = Some q /\
    let m' := join_down bp q (join_up bp q m) in
    let fl' := l1 ++ w ++ r in
    (exists p, l2 = p ++ r /\ joined p sm) /\
    (q + 8 * sq = bp /\ w = [(q, sq + sm)] \/ q + 8 * sq <> bp /\ w = [(q, sq); (bp, sm)]) /\
    0 < sm /\ bp + 8 * sm <= top /\
    only_headers [bp; q] m m' /\ circular m' fl' /\ Forall (size_ok m') fl' /\ sorted fl'.
Proof.
  intros Hfuel Hf. pose proof below_q as Hq. unfold stop in Hq. cbn in Hq.
  destruct join_up_ok as (p & r & sm & El2 & Esm & Hsm & Hsmt & Ho1 & Hp1 & Hs1 & Hbr).
  assert (Hnx : is_u32 (hd base r.*1)).
  { destruct r as [|y r]; cbn; [unfold is_u32, top, KERNBASE in *; lia|].
    destruct (in_range_fl y) as (Hy1 & _ & Hy2); [rewrite Efl, El2, elem_of_app, elem_of_cons, elem_of_app; right; right; right; left|].
    unfold stop in Hy2. unfold is_u32, top, KERNBASE in *. lia. }
  destruct (join_down_ok (join_up bp q m) sm (hd base r.*1)) as (w & Hw & Ho & Hc & Hsz); [done..|].
  set (m' := join_down bp q (join_up bp q m)) in *.
  assert (Hrest : forall x, x ∈ l1 ++ r -> hptr m' x.1 = hptr m x.1 /\ size_ok m' x).
  { intros x Hx. assert (Hap : forall y, y ∈ [bp; q] -> x.1 + 8 <= y \/ y + 8 <= x.1).
    { pose proof Hsort as Hs. rewrite Efl in Hs. apply sorted_app in Hs as (_ & [Hqs _] & Hs1q).
      apply elem_of_app in Hx as [Hx|Hx].
      - pose proof (Hs1q x (q, sq) Hx ltac:(left)) as [Hxq _]. unfold stop in Hxq. cbn in Hxq.
        intros y [->| ->%list_elem_of_singleton]%elem_of_cons; lia.
      - assert (Hx2 : x ∈ l2) by (rewrite El2, elem_of_app; by right).
        rewrite list.Forall_forall in Hqs, Habove. pose proof (Habove x Hx2). pose proof (Hqs x Hx2) as [Hqx _]. unfold stop in Hqx. cbn in Hqx.
        intros y [->| ->%list_elem_of_singleton]%elem_of_cons; lia. }
    split; [by apply (only_headers_ptr [bp; q])|]. unfold size_ok. rewrite (only_headers_size [bp; q] m m' _ Ho Hap).
    rewrite list.Forall_forall in Hsize. apply (Hsize x). rewrite Efl, El2, !elem_of_app, elem_of_cons, elem_of_app.
    apply elem_of_app in Hx. tauto. }
  assert (Hcm : chain m ((q, sq) :: l2 ++ l1) q).
  { pose proof Hcirc as H. rewrite Efl in H. apply circular_rot in H. exact H. }
  exists w, r, sm. split; [|split_and!; [by exists p | done | done | done | done | | |]].
  - apply list_elem_of_fmap in Hf as (x & -> & Hx). apply list_elem_of_split in Hx as (a & b & E).
    pose proof Hcirc as H. rewrite E in H. apply circular_rot in H. cbn [app] in H.
    eapply (free_find_q fuel (b ++ a) x); [exact H | | |].
    + intros y. rewrite E, elem_of_cons, !elem_of_app, elem_of_cons. tauto.
    + assert (Hin : (q, sq) ∈ fl) by (rewrite Efl, elem_of_app; right; left).
      rewrite E, elem_of_app, elem_of_cons in Hin. rewrite elem_of_cons, elem_of_app. tauto.
    + rewrite E, length_app in Hfuel. cbn in Hfuel. rewrite length_app. lia.
  - apply circular_rot. rewrite <- app_assoc.
    assert (Hhw : forall k, hd 0 (w ++ k).*1 = q) by (intros k; by destruct Hw as [[_ ->]|[_ ->]]).
    unfold circular. rewrite Hhw. apply chain_app. split.
    + assert (E : hd q (r ++ l1).*1 = hd base r.*1); [|by rewrite E].
      destruct r as [|y r]; [|done]. cbn. rewrite Efl in Hhd. by destruct l1.
    + apply (chain_ext m); [intros x Hx; apply Hrest; rewrite elem_of_app in *; tauto|].
      rewrite El2 in Hcm. change (chain m (((q, sq) :: p ++ r) ++ l1) q) in Hcm.
      rewrite app_comm_cons, <- app_assoc in Hcm. by apply chain_app in Hcm as [_ Hcm].
  - rewrite !Forall_app. split_and!; [|done|]; apply list.Forall_forall; intros x Hx; apply Hrest; rewrite elem_of_app; tauto.
  - pose proof Hsort as Hs. rewrite Efl, El2 in Hs. apply sorted_app in Hs as (Hl1 & [Hqs Hl2] & H1q).
    apply sorted_app in Hl2 as (_ & Hr & _). rewrite list.Forall_forall in Hqs, Hbr.
    assert (H1x : forall x, x ∈ l1 -> before x (q, sq)) by (intros x Hx; apply H1q; [done | left]).
    assert (H1r : forall x y, x ∈ l1 -> y ∈ r -> before x y) by (intros x y Hx Hy; apply H1q; [done | right; rewrite elem_of_app; tauto]).
    assert (Hqr : forall y, y ∈ r -> before (q, sq) y) by (intros y Hy; apply Hqs; rewrite elem_of_app; tauto).
    destruct Hw as [[Ej ->]|[Ej ->]]; apply sorted_app; (split_and!; [done | |]).
    + cbn [app sorted]. split; [|done]. apply list.Forall_forall. intros y Hy. specialize (Hbr y Hy) as [Hy1 Hy2].
      unfold before, stop in *. cbn in *. lia.
    + intros x y Hx Hy. cbn [app] in Hy. apply elem_of_cons in Hy as [->|Hy]; [|by apply H1r].
      specialize (H1x x Hx) as [Hx1 Hx2]. unfold before, stop in *. cbn in *. lia.
    + cbn [app sorted]. split_and!; [|by apply list.Forall_forall|done]. constructor; [unfold before, stop; cbn; lia|].
      apply list.Forall_forall. exact Hqr.
    + intros x y Hx Hy. cbn [app] in Hy. apply elem_of_cons in Hy as [->|Hy]; [by apply H1x|].
      apply elem_of_cons in Hy as [->|Hy]; [|by apply H1r].
      specialize (H1x x Hx) as [Hx1 Hx2]. unfold before, stop in *. cbn in *. lia.
Qed.

End free_list.

Section heap.
Context (base lo : Z).

Lemma heap_range s fl live x :
  heap_ok base lo s fl live -> x ∈ fl ++ live -> base <= x.1 /\ 0 <= x.2 /\ stop x <= brk s.
Proof.
  intros H Hx. pose proof (h_range _ _ _ _ _ H) as Hr. rewrite list.Forall_forall in Hr.
  pose proof (h_low _ _ _ _ _ H). destruct (Hr x Hx) as [->|(H1 & H2 & H3)]; unfold stop in *; cbn; lia.
Qed.

Lemma heap_head s fl live : heap_ok base lo s fl live -> hd 0 fl.*1 = base.
Proof. intros H. by destruct (h_base _ _ _ _ _ H) as [rest ->]. Qed.

(** The bytes of the program's blocks are no headers of free blocks. *)
Lemma live_bytes s fl live ps m' y a :
  heap_ok base lo s fl live -> only_headers ps (um s) m' -> y ∈ live ->
  (forall p, p ∈ ps -> exists x, p = x.1 /\ apart x y) ->
  y.1 <= a < y.1 + 8 * y.2 -> m' a = um s a.
Proof.
  intros H Ho Hy Hps Ha. apply Ho. intros p Hp. destruct (Hps p Hp) as (x & -> & Hxy).
  unfold apart, stop in Hxy. lia.
Qed.

Lemma free_heap s fl live bp sz fuel :
  heap_ok base lo s fl live -> lo <= bp -> 0 < sz -> bp + 8 * sz <= brk s ->
  (forall x, x ∈ fl ++ live -> apart (bp, sz) x) -> hsize (um s) bp = sz -> (length fl <= fuel)%nat ->
  exists s' fl', free fuel (bp + 8) s = Some s' /\ heap_ok base lo s' fl' live /\ brk s' = brk s /\
    units fl' = units fl + sz /\ (exists x, x ∈ fl' /\ sz <= x.2) /\ (length fl' <= S (length fl))%nat /\
    only_headers (bp :: fl.*1) (um s) (um s').
Proof.
  intros H Hlo Hsz Hbrk Hap Hhs Hfuel. pose proof (h_low _ _ _ _ _ H) as (Hb0 & Hb1 & Hb2).
  destruct (split_at fl bp (bp + 8 * sz)) as (k & l2 & Ek & Hbelow & Habove); [apply H | |].
  { apply list.Forall_forall. intros x Hx. specialize (Hap x ltac:(rewrite elem_of_app; by left)).
    unfold apart in Hap. unfold stop in Hap at 1. cbn in Hap. lia. }
  destruct (h_base _ _ _ _ _ H) as [rest Erest].
  assert (Hk : k <> []).
  { intros ->. cbn in Ek. rewrite <- Ek, Erest in Habove. apply Forall_cons_1 in Habove as [Habove _]. cbn in Habove. lia. }
  destruct (exists_last Hk) as (l1 & [q sq] & ->). rewrite <- app_assoc in Ek. cbn [app] in Ek.
  assert (Hqfl : (q, sq) ∈ fl) by (rewrite Ek, elem_of_app; right; left).
  destruct (free_list_ok base (um s) fl l1 l2 q sq bp sz Ek (heap_head _ _ _ H)) with (fuel := fuel) (f := freep s)
    as (w & r & sm & Ef & (p & El2 & Esm) & Hw & Hsm & Hsmt & Ho & Hc & Hss & Hsorted); try done; try (apply H).
  { pose proof (h_sizes _ _ _ _ _ H) as Hs. by apply Forall_app in Hs as [Hs _]. }
  { apply list.Forall_forall. intros x Hx. pose proof (heap_range s fl live x H ltac:(rewrite elem_of_app; by left)). lia. }
  { lia. }
  rewrite list.Forall_forall in Hbelow.
  pose proof (Hbelow (q, sq) ltac:(rewrite elem_of_app; right; left)) as Hq. unfold stop in Hq. cbn in Hq.
  set (m' := join_down bp q (join_up bp q (um s))) in *.
  exists (mk_heap m' q (brk s)), (l1 ++ w ++ r).
  assert (Hol : only_headers (bp :: fl.*1) (um s) m').
  { eapply only_headers_weaken; [exact Ho|]. intros a [->| ->%list_elem_of_singleton]%elem_of_cons; [left|].
    right. apply list_elem_of_fmap. by exists (q, sq). }
  assert (Hlive : forall y, y ∈ live -> hsize m' y.1 = hsize (um s) y.1).
  { intros y Hy. apply (only_headers_size (bp :: fl.*1)); [done|].
    intros a [->|Ha]%elem_of_cons.
    - specialize (Hap y ltac:(rewrite elem_of_app; by right)). unfold apart, stop in Hap. cbn in Hap. lia.
    - apply list_elem_of_fmap in Ha as (x & -> & Hx). pose proof (h_apart _ _ _ _ _ H x y Hx Hy) as Hxy. unfold apart, stop in Hxy. lia. }
  assert (Hmid : bp + 8 * sm <= brk s /\ (forall y, y ∈ live -> apart (bp, sm) y) /\ sm = sz + units p /\ sz <= sm).
  { destruct Esm as [[-> ->]|(sn & -> & ->)].
    - split_and!; [done | intros y Hy; apply Hap; rewrite elem_of_app; by right | cbn; lia | done].
    - assert (Hn : (bp + 8 * sz, sn) ∈ fl) by (rewrite Ek, El2, elem_of_app, elem_of_cons, elem_of_app; right; right; left; left).
      pose proof (heap_range s fl live _ H ltac:(rewrite elem_of_app; by left)) as (_ & Hn0 & Hn1).
      unfold stop in Hn1. cbn in Hn0, Hn1. split_and!; [lia | | cbn; lia | lia]. intros y Hy.
      pose proof (Hap y ltac:(rewrite elem_of_app; by right)) as H1. pose proof (h_apart _ _ _ _ _ H _ y Hn Hy) as H2.
      unfold apart, stop in *. cbn in *. lia. }
  destruct Hmid as (Hm1 & Hm2 & Hm3 & Hm4).
  pose proof (h_range _ _ _ _ _ H) as Hrange. rewrite list.Forall_forall in Hrange.
  assert (Hqr : (q, sq) = (base, 0) \/ lo <= q /\ 0 < sq /\ stop (q, sq) <= brk s) by (apply (Hrange (q, sq)); rewrite elem_of_app; by left).
  assert (Hwr : forall x, x ∈ w -> (x = (base, 0) \/ lo <= x.1 /\ 0 < x.2 /\ stop x <= brk s) /\ forall y, y ∈ live -> apart x y).
  { intros x Hx. destruct Hw as [[Ej ->]|[Ej ->]].
    - apply list_elem_of_singleton in Hx as ->. split.
      + right. destruct Hqr as [[= -> ->]|Hqr]; [lia|]. unfold stop. cbn. lia.
      + intros y Hy. pose proof (h_apart _ _ _ _ _ H _ y Hqfl Hy) as H1. specialize (Hm2 y Hy). unfold apart, stop in *. cbn in *. lia.
    - apply elem_of_cons in Hx as [->|Hx]; [|apply list_elem_of_singleton in Hx as ->].
      + split; [done|]. intros y Hy. by apply (h_apart _ _ _ _ _ H).
      + split; [|done]. right. unfold stop. cbn. lia. }
  assert (Hold : forall x, x ∈ l1 ++ w ++ r -> x ∈ w \/ x ∈ fl).
  { intros x. rewrite Ek, El2, !elem_of_app, elem_of_cons, elem_of_app. tauto. }
  split_and!; [| | done | | | |done].
  - unfold free. rewrite hadd_small by lia. replace (bp + 8 + 8 * -1) with bp by lia. by rewrite Ef.
  - split; cbn [um brk freep]; try done.
    + destruct l1 as [|x l1]; cbn in *.
      * rewrite Erest in Ek. injection Ek as <- <- _. destruct Hw as [[Ej ->]|[Ej ->]]; [lia|]. by eexists.
      * rewrite Erest in Ek. injection Ek as <- _. by eexists.
    + rewrite Forall_app. split; [done|]. apply list.Forall_forall. intros y Hy. unfold size_ok. rewrite Hlive by done.
      pose proof (h_sizes _ _ _ _ _ H) as Hs. rewrite list.Forall_forall in Hs. apply Hs. rewrite elem_of_app. by right.
    + apply list.Forall_forall. intros x [Hx|Hx]%elem_of_app; [|apply Hrange; rewrite elem_of_app; by right].
      destruct (Hold x Hx) as [Hxw|Hxf]; [by apply Hwr | apply Hrange; rewrite elem_of_app; by left].
    + apply H.
    + intros x y Hx Hy. destruct (Hold x Hx) as [Hxw|Hxf]; [by apply Hwr | by apply (h_apart _ _ _ _ _ H)].
    + apply list_elem_of_fmap. destruct Hw as [[_ ->]|[_ ->]]; eexists (_, _); (split; [|rewrite elem_of_app, elem_of_app; right; left; left]); done.
  - rewrite Ek, El2, !units_app. cbn. rewrite units_app. destruct Hw as [[_ ->]|[_ ->]]; cbn; lia.
  - destruct Hw as [[_ ->]|[_ ->]]; eexists; (split; [rewrite elem_of_app, elem_of_app; right; left|]).
    + left.
    + cbn. destruct Hqr as [[= -> ->]|Hqr]; lia.
    + right. left.
    + done.
  - rewrite Ek, El2, !length_app. cbn. rewrite length_app. destruct Hw as [[_ ->]|[_ ->]]; cbn; lia.
Qed.

Lemma before_apart x y : before x y -> apart x y.
Proof. intros [H _]. by left. Qed.

Lemma apart_sym x y : apart x y -> apart y x.
Proof. unfold apart. tauto. Qed.

(** The blocks of a free list are apart from each other. *)
Lemma sorted_apart c x d y : sorted (c ++ x :: d) -> y ∈ c ++ d -> apart x y.
Proof.
  intros Hs Hy. apply sorted_app in Hs as (_ & [Hx _] & Hc). rewrite list.Forall_forall in Hx.
  apply elem_of_app in Hy as [Hy|Hy].
  - apply apart_sym, before_apart, Hc; [done | left].
  - by apply before_apart, Hx.
Qed.

(** A block whose header links to [x], an address other than base, comes
    just before it in the list. *)
Lemma predecessor s fl live y x :
  heap_ok base lo s fl live -> y ∈ fl -> x ∈ fl -> hptr (um s) y.1 = x.1 -> x.1 <> base ->
  exists c d, fl = c ++ y :: x :: d.
Proof.
  intros H Hy Hx E Hb. apply list_elem_of_split in Hy as (c & d & Efl).
  pose proof (h_circ _ _ _ _ _ H) as Hc. rewrite Efl in Hc.
  rewrite (successor _ base _ _ _ Hc) in E by (rewrite <- Efl; by apply (heap_head s fl live)).
  destruct d as [|x' d]; cbn in E; [congruence|]. exists c, d. rewrite Efl. repeat f_equal.
  pose proof (h_sorted _ _ _ _ _ H) as Hs. rewrite Efl in Hs, Hx.
  change (c ++ y :: x' :: d) with (c ++ [y] ++ x' :: d) in *. rewrite app_assoc in *.
  apply elem_of_app in Hx as [Hx|Hx]; [|apply elem_of_cons in Hx as [->|Hx]; [done|]].
  - pose proof (sorted_apart _ _ _ x Hs ltac:(rewrite elem_of_app; by left)) as Ha. unfold apart, stop in Ha. lia.
  - pose proof (sorted_apart _ _ _ x Hs ltac:(rewrite elem_of_app; by right)) as Ha. unfold apart, stop in Ha. lia.
Qed.

(** *** Taking a block *)

Section take.
Context (s : heap) (fl live : list blk) (c d : list blk) (y : blk) (xa xs nunits : Z).
Context (H : heap_ok base lo s fl live) (Efl : fl = c ++ y :: (xa, xs) :: d) (Hn : 0 < nunits <= xs).

Lemma x_in : (xa, xs) ∈ fl.
Proof. rewrite Efl, elem_of_app. right. right. left. Qed.

Lemma y_in : y ∈ fl.
Proof. rewrite Efl, elem_of_app. right. left. Qed.

Lemma x_range : lo <= xa /\ xa + 8 * xs <= brk s /\ hsize (um s) xa = xs.
Proof.
  pose proof (h_range _ _ _ _ _ H) as Hr. pose proof (h_sizes _ _ _ _ _ H) as Hs. rewrite list.Forall_forall in Hr, Hs.
  assert (Hx : (xa, xs) ∈ fl ++ live) by (rewrite elem_of_app; left; apply x_in).
  pose proof (Hs _ Hx) as Hsx. destruct (Hr _ Hx) as [[= -> ->]|Hxr]; [lia|]. unfold stop in Hxr. cbn in *. split_and!; [lia | lia | exact Hsx].
Qed.

Lemma fl_sorted : sorted (c ++ y :: (xa, xs) :: d).
Proof. rewrite <- Efl. apply H. Qed.

Lemma y_apart z : z ∈ c ++ (xa, xs) :: d \/ z ∈ live -> apart y z.
Proof.
  intros [Hz|Hz].
  - exact (sorted_apart c y ((xa, xs) :: d) z fl_sorted Hz).
  - apply (h_apart _ _ _ _ _ H); [apply y_in | done].
Qed.

Lemma x_apart z : z ∈ c ++ y :: d \/ z ∈ live -> apart (xa, xs) z.
Proof.
  intros [Hz|Hz].
  - pose proof fl_sorted as Hs. change (c ++ y :: (xa, xs) :: d) with (c ++ [y] ++ (xa, xs) :: d) in Hs. rewrite app_assoc in Hs.
    apply (sorted_apart _ _ _ _ Hs). by rewrite <- app_assoc.
  - apply (h_apart _ _ _ _ _ H); [apply x_in | done].
Qed.

Lemma fl_hd : hd 0 (c ++ y :: (xa, xs) :: d).*1 = base.
Proof. rewrite <- Efl. by apply (heap_head s fl live). Qed.

Lemma x_next : hptr (um s) xa = hd base d.*1 /\ is_u32 (hd base d.*1).
Proof.
  pose proof (h_circ _ _ _ _ _ H) as Hc. rewrite Efl in Hc. split.
  - apply (successor (um s) base (c ++ [y]) (xa, xs) d); rewrite <- app_assoc; [done | apply fl_hd].
  - pose proof (h_low _ _ _ _ _ H) as Hl. destruct d as [|z d']; cbn; [unfold is_u32, top, KERNBASE in *; lia|].
    pose proof (heap_range s fl live z H ltac:(rewrite Efl, !elem_of_app, !elem_of_cons; tauto)) as (Hz1 & _ & Hz2).
    unfold stop in Hz2. unfold is_u32, top, KERNBASE in *. lia.
Qed.

(** The list without the block, or with a shorter one. *)
Lemma base_first k : exists rest, c ++ y :: k = (base, 0) :: rest.
Proof.
  destruct (h_base _ _ _ _ _ H) as [rest E]. rewrite E in Efl. destruct c as [|z c']; injection Efl as <- _; by eexists.
Qed.

Lemma sorted_drop : sorted (c ++ y :: d).
Proof.
  pose proof fl_sorted as Hs. change (c ++ y :: (xa, xs) :: d) with (c ++ [y] ++ [(xa, xs)] ++ d) in Hs.
  apply sorted_app in Hs as (Hs1 & Hs2 & Hs3). apply sorted_app in Hs2 as (Hs4 & Hs5 & Hs6). apply sorted_app in Hs5 as (_ & Hs7 & _).
  apply sorted_app. split_and!; [done | cbn; split; [apply list.Forall_forall; intros z Hz; apply Hs6; [left | right; done] | done] |].
  intros a b Ha Hb. apply Hs3; [done|]. rewrite !elem_of_app, elem_of_cons in *. rewrite list_elem_of_singleton. tauto.
Qed.

Lemma sorted_shrink k : 0 < k < xs -> sorted (c ++ y :: (xa, k) :: d).
Proof.
  intros Hk. pose proof fl_sorted as Hs. change (c ++ y :: (xa, xs) :: d) with (c ++ [y] ++ (xa, xs) :: d) in Hs.
  change (c ++ y :: (xa, k) :: d) with (c ++ [y] ++ (xa, k) :: d). rewrite app_assoc in *.
  apply sorted_app in Hs as (Hs1 & [Hs2 Hs3] & Hs4). apply sorted_app. split_and!; [done | split; [|done] |].
  - eapply Forall_impl; [|exact Hs2]. intros z [Hz1 Hz2]. unfold before, stop in *. cbn in *. lia.
  - intros a b Ha [->|Hb]%elem_of_cons; [|apply Hs4; [done | by right]].
    destruct (Hs4 a (xa, xs) Ha ltac:(left)) as [Hz1 Hz2]. unfold before, stop in *. cbn in *. lia.
Qed.

Lemma in_old z l : z ∈ (c ++ y :: d) ++ (xa, xs) :: live -> l = fl ++ live -> z ∈ l.
Proof. intros Hz ->. rewrite Efl. rewrite !elem_of_app, !elem_of_cons in *. tauto. Qed.

(** The block has the size asked for. *)
Lemma take_all : xs = nunits ->
  exists s', take_block nunits y.1 xa s = (s', xa + 8) /\ heap_ok base lo s' (c ++ y :: d) ((xa, nunits) :: live) /\
    brk s' = brk s /\ only_headers fl.*1 (um s) (um s').
Proof.
  intros E. destruct x_range as (Hx1 & Hx2 & Hx3). destruct x_next as [Hxn Hnu]. pose proof (h_low _ _ _ _ _ H) as Hl.
  pose proof (h_sizes _ _ _ _ _ H) as Hsz. pose proof (h_range _ _ _ _ _ H) as Hrange. rewrite list.Forall_forall in Hsz, Hrange.
  unfold take_block. rewrite Hx3. apply Z.eqb_eq in E as E'. rewrite E', Hxn, hadd_small by lia.
  destruct (set_hptr_spec y.1 (hd base d.*1) (um s) Hnu) as (H1 & H2 & H3).
  set (m' := set_hptr y.1 (hd base d.*1) (um s)) in *.
  assert (Hyap : forall z, z ∈ c ++ (xa, xs) :: d \/ z ∈ live -> forall p, p ∈ [y.1] -> z.1 + 8 <= p \/ p + 8 <= z.1).
  { intros z Hz p ->%list_elem_of_singleton. pose proof (y_apart z Hz) as Ha. unfold apart, stop in Ha. lia. }
  rewrite <- E. eexists. split; [reflexivity|]. split; [|split; [done|]].
  2:{ eapply only_headers_weaken; [exact H3|]. intros p ->%list_elem_of_singleton. apply list_elem_of_fmap. exists y. split; [done | apply y_in]. }
  split; cbn [um brk freep]; try done.
  - apply base_first.
  - apply sorted_drop.
  - apply circular_rot. pose proof (h_circ _ _ _ _ _ H) as Hc. rewrite Efl in Hc. apply circular_rot in Hc.
    unfold circular in *. cbn [app fmap list_fmap hd chain fst] in *. destruct Hc as (_ & Hc1 & Hc2). split.
    + rewrite H1. rewrite Hxn in Hc1. done.
    + eapply chain_ext; [|exact Hc2]. intros z Hz. apply (only_headers_ptr [y.1]); [done|]. apply Hyap.
      left. rewrite elem_of_app in *. rewrite elem_of_cons. tauto.
  - apply list.Forall_forall. intros z Hz. pose proof (in_old z _ Hz eq_refl) as Hz'.
    unfold size_ok. assert (Es : hsize m' z.1 = hsize (um s) z.1); [|rewrite Es; by apply Hsz].
    destruct (decide (z = y)) as [->|Hzy]; [done|]. apply (only_headers_size [y.1]); [done|]. apply Hyap.
    rewrite Efl in Hz'. rewrite !elem_of_app, !elem_of_cons in *. tauto.
  - apply list.Forall_forall. intros z Hz. apply Hrange, (in_old z _ Hz eq_refl).
  - cbn. split; [|apply H]. apply list.Forall_forall. intros z Hz. apply x_apart. by right.
  - intros z w Hz [->|Hw]%elem_of_cons; [apply apart_sym, x_apart; by left|].
    apply (h_apart _ _ _ _ _ H); [|done]. rewrite Efl. rewrite elem_of_app, !elem_of_cons in *. tauto.
  - apply list_elem_of_fmap. exists y. split; [done|]. rewrite elem_of_app. right. left.
Qed.

(** The block is larger: its tail. *)
Lemma take_tail : xs <> nunits ->
  exists s', take_block nunits y.1 xa s = (s', xa + 8 * (xs - nunits) + 8) /\
    heap_ok base lo s' (c ++ y :: (xa, xs - nunits) :: d) ((xa + 8 * (xs - nunits), nunits) :: live) /\
    brk s' = brk s /\ only_headers (xa + 8 * (xs - nunits) :: fl.*1) (um s) (um s').
Proof.
  intros Hne. destruct x_range as (Hx1 & Hx2 & Hx3). pose proof (h_low _ _ _ _ _ H) as Hl.
  pose proof (h_sizes _ _ _ _ _ H) as Hsz. pose proof (h_range _ _ _ _ _ H) as Hrange. rewrite list.Forall_forall in Hsz, Hrange.
  unfold take_block. rewrite Hx3. apply Z.eqb_neq in Hne as E'. rewrite E'. set (k := xs - nunits) in *.
  assert (Hk : 0 < k < xs) by lia. rewrite u32_small by (unfold is_u32, top, KERNBASE in *; lia).
  destruct (set_hsize_spec xa k (um s)) as (H1 & H2 & H3); [unfold is_u32, top, KERNBASE in *; lia|].
  rewrite H1, hadd_small, hadd_small by lia. set (b := xa + 8 * k) in *.
  destruct (set_hsize_spec b nunits (set_hsize xa k (um s))) as (H4 & H5 & H6); [unfold is_u32, top, KERNBASE in *; lia|].
  set (m' := set_hsize b nunits (set_hsize xa k (um s))) in *.
  pose proof (only_headers_trans _ _ _ _ _ H3 H6) as Ho. cbn [app] in Ho.
  assert (Hap : forall z, z ∈ c ++ y :: d \/ z ∈ live -> forall p, p ∈ [xa; b] -> z.1 + 8 <= p \/ p + 8 <= z.1).
  { intros z Hz p Hp. pose proof (x_apart z Hz) as Ha. unfold apart, stop in Ha. cbn in Ha.
    apply elem_of_cons in Hp as [->|Hp]; [|apply list_elem_of_singleton in Hp as ->]; lia. }
  assert (Hxb : forall p, p ∈ [b] -> xa + 8 <= p \/ p + 8 <= xa) by (intros p ->%list_elem_of_singleton; lia).
  assert (Hin : forall z, z ∈ c ++ y :: (xa, k) :: d -> z = (xa, k) \/ z ∈ c ++ y :: d) by (intros z; rewrite !elem_of_app, !elem_of_cons; tauto).
  assert (Hfl : forall z, z ∈ c ++ y :: d -> z ∈ fl) by (intros z; rewrite Efl, !elem_of_app, !elem_of_cons; tauto).
  eexists. split; [reflexivity|]. split; [|split; [done|]].
  2:{ eapply only_headers_weaken; [exact Ho|]. intros p [->|Hp]%elem_of_cons; [right | by apply list_elem_of_singleton in Hp as ->; left].
      apply list_elem_of_fmap. exists (xa, xs). split; [done | apply x_in]. }
  split; cbn [um brk freep]; try done.
  - apply base_first.
  - by apply sorted_shrink.
  - pose proof (h_circ _ _ _ _ _ H) as Hc. rewrite Efl in Hc. unfold circular in *.
    assert (Hhd2 : hd 0 (c ++ y :: (xa, k) :: d).*1 = hd 0 (c ++ y :: (xa, xs) :: d).*1) by (by destruct c).
    rewrite Hhd2. clear Hhd2. revert Hc. generalize (hd 0 (c ++ y :: (xa, xs) :: d).*1). intros z0.
    change (c ++ y :: (xa, k) :: d) with (c ++ [y] ++ (xa, k) :: d). change (c ++ y :: (xa, xs) :: d) with (c ++ [y] ++ (xa, xs) :: d).
    rewrite !chain_app. cbn. intros (Hc1 & (Hc2 & _) & Hc3 & Hc4).
    assert (Hpt : forall z, z ∈ c ++ y :: d -> hptr m' z.1 = hptr (um s) z.1) by (intros z Hz; apply (only_headers_ptr [xa; b]); auto).
    split_and!; [| | done | |].
    + eapply chain_ext; [|exact Hc1]. intros z Hz. apply Hpt. rewrite elem_of_app. by left.
    + rewrite Hpt; [done|]. rewrite elem_of_app. right. left.
    + rewrite (only_headers_ptr [b] _ m' xa H6 Hxb), H2. done.
    + eapply chain_ext; [|exact Hc4]. intros z Hz. apply Hpt. rewrite elem_of_app. right. by right.
  - assert (Hso : forall z, z ∈ c ++ y :: d \/ z ∈ live -> size_ok m' z).
    { intros z Hz. unfold size_ok. rewrite (only_headers_size [xa; b] (um s)); [|done|auto].
      apply Hsz. rewrite elem_of_app. destruct Hz; auto. }
    apply list.Forall_forall. intros z [Hz|[->|Hz]%elem_of_cons]%elem_of_app; [|done|auto].
    destruct (Hin z Hz) as [->|Hz']; [|auto]. unfold size_ok. cbn. by rewrite (only_headers_size [b] _ m' xa H6 Hxb).
  - apply list.Forall_forall. intros z [Hz|[->|Hz]%elem_of_cons]%elem_of_app.
    + destruct (Hin z Hz) as [->|Hz']; [right; unfold stop; cbn; lia|]. apply Hrange. rewrite elem_of_app. auto.
    + right. unfold stop. cbn. lia.
    + apply Hrange. rewrite elem_of_app. auto.
  - cbn. split; [|apply H]. apply list.Forall_forall. intros z Hz. pose proof (x_apart z (or_intror Hz)) as Ha.
    unfold apart, stop in *. cbn in *. lia.
  - intros z w Hz Hw. assert (Hzk : z = (xa, k) \/ z ∈ c ++ y :: d) by auto. apply elem_of_cons in Hw as [->|Hw].
    + destruct Hzk as [->|Hz']; [left; unfold stop; cbn; lia|]. pose proof (x_apart z (or_introl Hz')) as Ha.
      unfold apart, stop in *. cbn in *. lia.
    + destruct Hzk as [->|Hz']; [|apply (h_apart _ _ _ _ _ H); auto].
      pose proof (x_apart w (or_intror Hw)) as Ha. unfold apart, stop in *. cbn in *. lia.
  - apply list_elem_of_fmap. exists y. split; [done|]. rewrite elem_of_app. right. left.
Qed.

Lemma take_ok :
  exists s' b fl', take_block nunits y.1 xa s = (s', b + 8) /\ heap_ok base lo s' fl' ((b, nunits) :: live) /\
    brk s' = brk s /\ units fl' + nunits = units fl /\ only_headers (b :: fl.*1) (um s) (um s').
Proof.
  destruct (decide (xs = nunits)) as [E|E].
  - destruct (take_all E) as (s' & E1 & E2 & E3 & E4). exists s', xa, (c ++ y :: d). split_and!; try done.
    + rewrite Efl, !units_app. cbn. lia.
    + eapply only_headers_weaken; [exact E4|]. intros p Hp. by right.
  - destruct (take_tail E) as (s' & E1 & E2 & E3 & E4). do 3 eexists. split_and!; try done.
    rewrite Efl, !units_app. cbn. lia.
Qed.

End take.

(** *** malloc *)

Context (grant : Z -> Z -> bool).
Context (Hgrant : forall b n, grant b n = true -> 0 < n -> b + n <= top).

(** One round of the list, from the block after [y] to freep: the loop takes
    the first block that is large enough, or asks for more memory. *)
Lemma scan_ok s fl live nunits f l y fuel :
  heap_ok base lo s fl live -> freep s = f.1 -> f ∈ fl -> y ∈ fl ->
  chain (um s) (y :: l) f.1 -> (forall x, x ∈ l -> x ∈ fl /\ x.1 <> f.1) -> (length l < fuel)%nat ->
  (exists y' x, y' ∈ fl /\ x ∈ fl /\ hptr (um s) y'.1 = x.1 /\ nunits <= x.2 /\
     malloc_loop grant fuel nunits y.1 (hptr (um s) y.1) s = Some (take_block nunits y'.1 x.1 s)) \/
  (Forall (fun x => x.2 < nunits) (l ++ [f]) /\
   exists n, (fuel = S n + length l)%nat /\
   malloc_loop grant fuel nunits y.1 (hptr (um s) y.1) s =
     match morecore grant (S n) nunits s with
     | None => None
     | Some (s, p) => if p =? 0 then Some (s, 0) else malloc_loop grant n nunits p (hptr (um s) p) s
     end).
Proof.
  intros H Hf Hfin. revert y fuel.
  assert (Hsz : forall x, x ∈ fl -> hsize (um s) x.1 = x.2).
  { intros x Hx. pose proof (h_sizes _ _ _ _ _ H) as Hs. rewrite list.Forall_forall in Hs. apply (Hs x). rewrite elem_of_app. by left. }
  induction l as [|x l IH]; intros y fuel Hy [Hyx Hc] Hl Hfuel; (destruct fuel as [|fuel]; [lia|]); cbn in Hyx; cbn [malloc_loop length] in *.
  - rewrite Hyx, (Hsz f Hfin). destruct (Z.leb_spec nunits f.2) as [Hle|Hgt].
    + left. exists y, f. done.
    + right. split; [by constructor|]. exists fuel. split; [lia|]. by rewrite Hf, Z.eqb_refl.
  - destruct (Hl x ltac:(left)) as [Hx Hxf]. rewrite Hyx, (Hsz x Hx). destruct (Z.leb_spec nunits x.2) as [Hle|Hgt].
    + left. exists y, x. done.
    + rewrite Hf. destruct (Z.eqb_spec x.1 f.1) as [|_]; [done|].
      destruct (IH x fuel Hx Hc) as [Hfound|(Hnone & n & Hn & E)]; [intros z Hz; apply Hl; by right | lia | |].
      * left. exact Hfound.
      * right. split; [by constructor|]. exists n. split; [lia | done].
Qed.

(** The same from freep, over the whole list. *)
Lemma scan_from_freep s fl live nunits fuel :
  heap_ok base lo s fl live -> (length fl <= fuel)%nat ->
  (exists y x, y ∈ fl /\ x ∈ fl /\ hptr (um s) y.1 = x.1 /\ nunits <= x.2 /\
     malloc_loop grant fuel nunits (freep s) (hptr (um s) (freep s)) s = Some (take_block nunits y.1 x.1 s)) \/
  (Forall (fun x => x.2 < nunits) fl /\
   exists n, (fuel = n + length fl)%nat /\
   malloc_loop grant fuel nunits (freep s) (hptr (um s) (freep s)) s =
     match morecore grant (S n) nunits s with
     | None => None
     | Some (s, p) => if p =? 0 then Some (s, 0) else malloc_loop grant n nunits p (hptr (um s) p) s
     end).
Proof.
  intros H Hfuel. pose proof (h_freep _ _ _ _ _ H) as Hf. apply list_elem_of_fmap in Hf as (f & Ef & Hfin).
  pose proof Hfin as Hsp. apply list_elem_of_split in Hsp as (a & b & E).
  pose proof (h_circ _ _ _ _ _ H) as Hc. rewrite E in Hc. apply circular_rot in Hc. unfold circular in Hc. cbn in Hc.
  pose proof (h_sorted _ _ _ _ _ H) as Hs. rewrite E in Hs. rewrite Ef.
  destruct (scan_ok s fl live nunits f (b ++ a) f fuel H Ef Hfin Hfin Hc) as [Hfound|(Hnone & n & Hn & Hl)].
  - intros x Hx. rewrite E. split; [rewrite !elem_of_app, elem_of_cons in *; tauto|].
    assert (Ha : apart f x) by (apply (sorted_apart a f b); [done | rewrite !elem_of_app in *; tauto]).
    unfold apart, stop in Ha. lia.
  - rewrite E, length_app in Hfuel. cbn in Hfuel. rewrite length_app. lia.
  - by left.
  - right. split.
    + rewrite list.Forall_forall in *. intros x Hx. apply Hnone. rewrite E in Hx. rewrite !elem_of_app, elem_of_cons in *.
      tauto.
    + exists n. split; [|done]. rewrite E, length_app. cbn. rewrite length_app in Hn. lia.
Qed.

Lemma block_found_ok s fl live y x nunits :
  heap_ok base lo s fl live -> y ∈ fl -> x ∈ fl -> hptr (um s) y.1 = x.1 -> 0 < nunits <= x.2 ->
  exists s' b fl', take_block nunits y.1 x.1 s = (s', b + 8) /\ heap_ok base lo s' fl' ((b, nunits) :: live) /\
    brk s' = brk s /\ units fl' + nunits = units fl /\ only_headers (b :: fl.*1) (um s) (um s').
Proof.
  intros H Hy Hx E Hn. destruct (predecessor s fl live y x H Hy Hx E) as (c & d & Efl).
  - intros Eb. pose proof (h_range _ _ _ _ _ H) as Hr. rewrite list.Forall_forall in Hr.
    pose proof (h_low _ _ _ _ _ H). destruct (Hr x ltac:(rewrite elem_of_app; by left)) as [->|Hxr]; cbn in *; lia.
  - destruct x as [xa xs]. by apply (take_ok s fl live c d y xa xs).
Qed.

(** What a step does to the memory of the program's blocks: nothing. *)
Definition keeps_live (live : list blk) (m m' : mem) : Prop :=
  forall y a, y ∈ live -> y.1 <= a < y.1 + 8 * y.2 -> m' a = m a.

Lemma headers_keep_live s fl live ps m' :
  heap_ok base lo s fl live -> only_headers ps (um s) m' ->
  (forall p, p ∈ ps -> p ∈ fl.*1 \/ exists x, p = x.1 /\ forall y, y ∈ live -> apart x y) -> keeps_live live (um s) m'.
Proof.
  intros H Ho Hps y a Hy Ha. apply (live_bytes s fl live ps m' y a H Ho Hy); [|done].
  intros p Hp. destruct (Hps p Hp) as [Hf|(x & -> & Hx)].
  - apply list_elem_of_fmap in Hf as (x & -> & Hx). exists x. split; [done|]. by apply (h_apart _ _ _ _ _ H).
  - exists x. auto.
Qed.

Lemma morecore_ok s fl live nunits fuel :
  heap_ok base lo s fl live -> 0 < nunits -> nunits * 8 < 2 ^ 31 -> (length fl <= fuel)%nat ->
  (exists s', morecore grant fuel nunits s = Some (s', 0) /\ s' = s) \/
  (exists s' fl', morecore grant fuel nunits s = Some (s', freep s') /\ freep s' <> 0 /\ heap_ok base lo s' fl' live /\
     (length fl' <= S (length fl))%nat /\ (exists x, x ∈ fl' /\ nunits <= x.2) /\ keeps_live live (um s) (um s') /\
     units fl' = units fl + Z.max nunits 4096).
Proof.
  intros H Hn0 Hn1 Hfuel. pose proof (h_low _ _ _ _ _ H) as (Hb0 & Hb1 & Hb2). unfold morecore.
  set (nu := if nunits <? 4096 then 4096 else nunits).
  assert (Hnu : nunits <= nu /\ 4096 <= nu /\ nu * 8 < 2 ^ 31 /\ nu = Z.max nunits 4096) by (unfold nu; destruct (Z.ltb_spec nunits 4096); lia).
  rewrite u32_small, s32_small by (unfold is_u32, is_s32; lia). unfold sbrk.
  destruct (grant (brk s) (nu * 8)) eqn:Eg; [|left; eexists; split; [by rewrite Z.eqb_refl | done]].
  specialize (Hgrant _ _ Eg ltac:(lia)). right.
  destruct (Z.eqb_spec (brk s) (u32 (-1))) as [E|_]; [exfalso; change (u32 (-1)) with 0xffffffff in E; unfold top, KERNBASE in *; lia|].
  rewrite hadd_small by lia. rewrite Z.mul_1_r.
  destruct (set_hsize_spec (brk s) nu (um s)) as (H1 & H2 & H3); [unfold is_u32; lia|].
  set (m1 := set_hsize (brk s) nu (um s)) in *. set (s1 := mk_heap m1 (freep s) (brk s + nu * 8)).
  assert (Hfar : forall x, x ∈ fl ++ live -> stop x <= brk s) by (intros x Hx; by apply (heap_range s fl live x H)).
  assert (Hh : forall x, x ∈ fl ++ live -> hptr m1 x.1 = hptr (um s) x.1 /\ hsize m1 x.1 = hsize (um s) x.1).
  { intros x Hx. specialize (Hfar x Hx). unfold stop in Hfar. split; [apply (only_headers_ptr [brk s]) | apply (only_headers_size [brk s])]; try done;
      intros p ->%list_elem_of_singleton; lia. }
  assert (I1 : heap_ok base lo s1 fl live).
  { destruct H as [A1 A2 A3 A4 A5 A6 A7 A8 A9]. split; cbn; try done.
    - lia.
    - eapply chain_ext; [|exact A4]. intros x Hx. apply Hh. rewrite elem_of_app. by left.
    - rewrite list.Forall_forall in *. intros x Hx. unfold size_ok. rewrite (proj2 (Hh x Hx)). by apply A5.
    - eapply Forall_impl; [|exact A6]. cbn. intros x [->|Hx]; [by left | right; lia]. }
  assert (Hnew : forall x, x ∈ fl ++ live -> apart (brk s, nu) x) by (intros x Hx; right; by apply Hfar).
  destruct (free_heap s1 fl live (brk s) nu fuel I1) as (s' & fl' & Ef & I' & _ & Hu & Hx & Hlen & Ho); [cbn; lia.. | done | done | done |].
  fold m1. change (mk_heap _ _ _) with s1. rewrite Ef. exists s', fl'. split_and!; try done.
  - pose proof (h_freep _ _ _ _ _ I') as Hf. apply list_elem_of_fmap in Hf as (x & -> & Hxf).
    pose proof (heap_range s' fl' live x I' ltac:(rewrite elem_of_app; by left)). lia.
  - destruct Hx as (x & Hx & Hxs). exists x. split; [done | lia].
  - intros y a Hy Ha. transitivity (m1 a).
    + eapply (headers_keep_live s1 fl live); [done | exact Ho | | done | done].
      intros p [->|Hp]%elem_of_cons; [right | by left]. exists (brk s, nu). split; [done|]. intros z Hz. apply Hnew. rewrite elem_of_app. by right.
    + apply H3. intros p ->%list_elem_of_singleton. specialize (Hfar y ltac:(rewrite elem_of_app; by right)). unfold stop in Hfar. lia.
  - lia.
Qed.

(** ** The allocator *)

(** Before the first malloc. *)
Definition fresh (s : heap) : Prop := freep s = 0 /\ 0 < base /\ base + 8 <= lo /\ lo <= brk s <= top.

Definition heap_wf (s : heap) (live : list blk) : Prop :=
  fresh s /\ live = [] \/ exists fl, heap_ok base lo s fl live.

(** The units of a block for [n] bytes. *)
Definition units_for (n : Z) : Z := (n + 7) / 8 + 1.

Lemma loop_ok s fl live nunits :
  heap_ok base lo s fl live -> 0 < nunits -> nunits * 8 < 2 ^ 31 ->
  exists n0, forall fuel, (n0 <= fuel)%nat ->
    exists s' r, malloc_loop grant fuel nunits (freep s) (hptr (um s) (freep s)) s = Some (s', r) /\
      keeps_live live (um s) (um s') /\
      (r = 0 /\ heap_wf s' live \/ exists b, r = b + 8 /\ heap_wf s' ((b, nunits) :: live)).
Proof.
  intros H Hn0 Hn1. exists (3 * length fl + 2)%nat. intros fuel Hfuel.
  assert (Htake : forall s fl y x, heap_ok base lo s fl live -> y ∈ fl -> x ∈ fl -> hptr (um s) y.1 = x.1 -> nunits <= x.2 ->
    exists s' r, Some (take_block nunits y.1 x.1 s) = Some (s', r) /\ keeps_live live (um s) (um s') /\
      (r = 0 /\ heap_wf s' live \/ exists b, r = b + 8 /\ heap_wf s' ((b, nunits) :: live))).
  { clear s fl H Hfuel. intros s fl y x H Hy Hx E Hle.
    destruct (block_found_ok s fl live y x nunits H Hy Hx E ltac:(lia)) as (s' & b & fl' & -> & I' & _ & _ & Ho).
    exists s', (b + 8). split_and!; [done | | right; exists b; split; [done | right; by exists fl']].
    eapply headers_keep_live; [exact H | exact Ho |]. intros p [->|Hp]%elem_of_cons; [right | by left].
    exists (b, nunits). split; [done|]. pose proof (h_live _ _ _ _ _ I') as [Ha _]. by rewrite list.Forall_forall in Ha. }
  destruct (scan_from_freep s fl live nunits fuel H ltac:(lia)) as [(y & x & Hy & Hx & E & Hle & ->)|(_ & n & Hn & ->)]; [by eapply Htake|].
  destruct (morecore_ok s fl live nunits (S n) H Hn0 Hn1 ltac:(lia)) as [(s' & -> & ->)|(s1 & fl1 & -> & Hp & I1 & Hlen & (x1 & Hx1 & Hxs) & Hk & _)].
  { exists s, 0. split_and!; [done | done | left; split; [done | right; by exists fl]]. }
  apply Z.eqb_neq in Hp. rewrite Hp.
  destruct (scan_from_freep s1 fl1 live nunits n I1 ltac:(lia)) as [(y & x & Hy & Hx & E & Hle & ->)|(Hnone & _)].
  - destruct (Htake s1 fl1 y x I1 Hy Hx E Hle) as (s' & r & -> & Hk' & Hr). exists s', r. split_and!; [done | | done].
    intros z a Hz Ha. rewrite (Hk' z a Hz Ha). by apply (Hk z a).
  - rewrite list.Forall_forall in Hnone. specialize (Hnone x1 Hx1). lia.
Qed.

Lemma fresh_init s : fresh s ->
  heap_ok base lo (mk_heap (set_hsize base 0 (set_hptr base base (um s))) base (brk s)) [(base, 0)] [].
Proof.
  intros (_ & Hb & Hl & Ht). assert (Hu : is_u32 base) by (unfold is_u32, top, KERNBASE in *; lia).
  destruct (set_hptr_spec base base (um s) Hu) as (H1 & H2 & H3).
  destruct (set_hsize_spec base 0 (set_hptr base base (um s))) as (H4 & H5 & H6); [done|].
  split; cbn; try done.
  - by eexists.
  - unfold circular. cbn. by rewrite H5, H1.
  - constructor; [|constructor]. exact H4.
  - constructor; [by left | constructor].
  - by intros x y _ ?%elem_of_nil.
  - left.
Qed.

Lemma malloc_ok s live nbytes :
  heap_wf s live -> 0 <= nbytes < 2 ^ 31 - 16 ->
  exists n0, forall fuel, (n0 <= fuel)%nat ->
    exists s' r, malloc base grant fuel nbytes s = Some (s', r) /\ keeps_live live (um s) (um s') /\
      (r = 0 /\ heap_wf s' live \/ exists b, r = b + 8 /\ heap_wf s' ((b, units_for nbytes) :: live)).
Proof.
  intros H Hn. unfold malloc. replace (nbytes + 8 - 1) with (nbytes + 7) by lia.
  assert (Hu : 0 < units_for nbytes /\ units_for nbytes * 8 < 2 ^ 31).
  { unfold units_for. pose proof (Z_div_mod_eq_full (nbytes + 7) 8). pose proof (Z.mod_pos_bound (nbytes + 7) 8 ltac:(lia)). lia. }
  rewrite (u32_small (nbytes + 7)) by (unfold is_u32; lia). fold (units_for nbytes). rewrite (u32_small (units_for nbytes)) by (unfold is_u32; lia).
  destruct H as [[Hf ->]|[fl H]].
  - pose proof (fresh_init s Hf) as H0. destruct Hf as (-> & _). cbn [Z.eqb].
    destruct (loop_ok _ _ _ (units_for nbytes) H0) as [n0 Hl]; [lia..|]. exists n0. intros fuel Hfuel.
    destruct (Hl fuel Hfuel) as (s' & r & E & _ & Hr). exists s', r. split_and!; [done | | done]. by intros y a ?%elem_of_nil.
  - assert (Hf : freep s <> 0).
    { pose proof (h_freep _ _ _ _ _ H) as Hf. apply list_elem_of_fmap in Hf as (x & -> & Hxf).
      pose proof (heap_range s fl live x H ltac:(rewrite elem_of_app; by left)). pose proof (h_low _ _ _ _ _ H). lia. }
    apply Z.eqb_neq in Hf. rewrite Hf. apply (loop_ok s fl); [done | lia..].
Qed.

Lemma all_apart_remove l1 x l2 : all_apart (l1 ++ x :: l2) -> all_apart (l1 ++ l2) /\ forall y, y ∈ l1 ++ l2 -> apart x y.
Proof.
  intros H. apply all_apart_app in H as (H1 & [Hx H2] & H3). rewrite list.Forall_forall in Hx. split.
  - apply all_apart_app. split_and!; [done | done |]. intros y z Hy Hz. apply H3; [done | by right].
  - intros y [Hy|Hy]%elem_of_app; [apply apart_sym, H3; [done | left] | by apply Hx].
Qed.

Lemma free_ok s l1 x l2 :
  heap_wf s (l1 ++ x :: l2) ->
  exists n0, forall fuel, (n0 <= fuel)%nat ->
    exists s', free fuel (x.1 + 8) s = Some s' /\ heap_wf s' (l1 ++ l2) /\ keeps_live (l1 ++ l2) (um s) (um s').
Proof.
  intros [[_ E]|[fl H]]; [by destruct l1|]. exists (length fl). intros fuel Hfuel.
  destruct (all_apart_remove l1 x l2 (h_live _ _ _ _ _ H)) as [Ha Hx].
  assert (Hin : forall y, y ∈ fl ++ l1 ++ l2 -> y ∈ fl ++ l1 ++ x :: l2) by (intros y; rewrite !elem_of_app, elem_of_cons; tauto).
  assert (Hxin : x ∈ l1 ++ x :: l2) by (rewrite elem_of_app; right; left).
  assert (H' : heap_ok base lo s fl (l1 ++ l2)).
  { destruct H as [A1 A2 A3 A4 A5 A6 A7 A8 A9]. split; try done.
    - rewrite list.Forall_forall in *. auto.
    - rewrite list.Forall_forall in *. auto.
    - intros y z Hy Hz. apply A8; [done|]. rewrite elem_of_app in *. rewrite elem_of_cons. tauto. }
  destruct x as [bp sz]. pose proof (h_range _ _ _ _ _ H) as Hr. pose proof (h_sizes _ _ _ _ _ H) as Hs. rewrite list.Forall_forall in Hr, Hs.
  assert (Hxr : lo <= bp /\ 0 < sz /\ bp + 8 * sz <= brk s).
  { destruct (Hr (bp, sz) ltac:(rewrite elem_of_app; by right)) as [E|Hx']; [|unfold stop in Hx'; cbn in Hx'; lia].
    destruct (h_base _ _ _ _ _ H) as [rest Efl]. pose proof (h_apart _ _ _ _ _ H (base, 0) (bp, sz) ltac:(rewrite Efl; left) Hxin) as Hab.
    rewrite E in Hab. unfold apart, stop in Hab. cbn in Hab. lia. }
  assert (Hap : forall y, y ∈ fl ++ l1 ++ l2 -> apart (bp, sz) y).
  { intros y [Hy|Hy]%elem_of_app; [|by apply Hx]. apply apart_sym, (h_apart _ _ _ _ _ H); done. }
  destruct (free_heap s fl (l1 ++ l2) bp sz fuel H') as (s' & fl' & E & I' & _ & _ & _ & _ & Ho); [lia.. | done | | done |].
  { apply (Hs (bp, sz)). rewrite elem_of_app. by right. }
  exists s'. split_and!; [done | right; by exists fl' |]. eapply headers_keep_live; [exact H' | exact Ho |].
  intros p [->|Hp]%elem_of_cons; [right | by left]. exists (bp, sz). split; [done|]. intros y Hy. apply Hx, Hy.
Qed.

(** More fuel gives the same result. *)
Lemma free_find_mono m bp p q n k : free_find n m bp p = Some q -> (n <= k)%nat -> free_find k m bp p = Some q.
Proof.
  revert p k. induction n as [|n IH]; intros p k; [done|]. destruct k as [|k]; [lia|]. cbn [free_find].
  destruct (stop_at m bp p); [done|]. intros E Hk. apply IH; [done | lia].
Qed.

Lemma free_mono n k ap s s' : free n ap s = Some s' -> (n <= k)%nat -> free k ap s = Some s'.
Proof.
  unfold free. intros E Hk. destruct (free_find n _ _ _) eqn:Ef; [|done]. by rewrite (free_find_mono _ _ _ _ _ _ Ef Hk).
Qed.

Lemma morecore_mono n k nu s r : morecore grant n nu s = Some r -> (n <= k)%nat -> morecore grant k nu s = Some r.
Proof.
  unfold morecore. destruct (sbrk grant _ s) as [s1 p]. destruct (p =? u32 (-1)); [done|]. intros E Hk.
  destruct (free n _ _) eqn:Ef; [|done]. by rewrite (free_mono _ _ _ _ _ Ef Hk).
Qed.

Lemma malloc_loop_mono n k nu prevp p s r :
  malloc_loop grant n nu prevp p s = Some r -> (n <= k)%nat -> malloc_loop grant k nu prevp p s = Some r.
Proof.
  revert k prevp p s. induction n as [|n IH]; intros k prevp p s; [done|]. destruct k as [|k]; [lia|]. intros E Hk. cbn [malloc_loop] in *.
  destruct (nu <=? hsize (um s) p); [done|]. destruct (p =? freep s); [|apply IH; [done | lia]].
  destruct (morecore grant (S n) nu s) as [[s1 p1]|] eqn:Em; [|done]. rewrite (morecore_mono _ _ _ _ _ Em Hk).
  destruct (p1 =? 0); [done|]. apply IH; [done | lia].
Qed.

End heap.

(** ** Properties *)

(** The program: it allocates, frees blocks it has, and writes to them. *)
Inductive alloc_step (base : Z) (grant : Z -> Z -> bool) : heap * list blk -> heap * list blk -> Prop :=
| al_malloc s live nbytes fuel s' r :
    0 <= nbytes < 2 ^ 31 - 16 -> malloc base grant fuel nbytes s = Some (s', r) ->
    alloc_step base grant (s, live) (s', if r =? 0 then live else (r - 8, units_for nbytes) :: live)
| al_free s l1 x l2 fuel s' :
    free fuel (x.1 + 8) s = Some s' -> alloc_step base grant (s, l1 ++ x :: l2) (s', l1 ++ l2)
| al_write s live x a v :
    x ∈ live -> x.1 + 8 <= a < x.1 + 8 * x.2 ->
    alloc_step base grant (s, live) (mk_heap (upd (um s) a v) (freep s) (brk s), live).

Section allocator.
Context (base lo : Z) (grant : Z -> Z -> bool).

Lemma block_above s live x : heap_wf base lo s live -> x ∈ live -> 0 < base /\ base + 8 <= x.1 /\ 0 < x.2 /\ x.1 + 8 * x.2 <= brk s.
Proof.
  intros [[_ ->]|[fl H]] Hx; [by apply elem_of_nil in Hx|].
  pose proof (h_range _ _ _ _ _ H) as Hr. rewrite list.Forall_forall in Hr. pose proof (h_low _ _ _ _ _ H).
  destruct (h_base _ _ _ _ _ H) as [rest Efl]. pose proof (h_apart _ _ _ _ _ H (base, 0) x ltac:(rewrite Efl; left) Hx) as Hab.
  destruct (Hr x ltac:(rewrite elem_of_app; by right)) as [->|Hx']; unfold apart, stop in *; cbn in *; lia.
Qed.

Lemma write_ok s live x a v :
  heap_wf base lo s live -> x ∈ live -> x.1 + 8 <= a < x.1 + 8 * x.2 ->
  heap_wf base lo (mk_heap (upd (um s) a v) (freep s) (brk s)) live.
Proof.
  intros [[_ ->]|[fl H]] Hx Ha; [by apply elem_of_nil in Hx|]. right. exists fl.
  assert (Hh : forall y, y ∈ fl ++ live -> forall k, 0 <= k <= 4 -> load32 (upd (um s) a v) (y.1 + k) = load32 (um s) (y.1 + k)).
  { intros y Hy k Hk. apply load32_ext. intros z Hz. apply upd_ne. intros ->.
    apply elem_of_app in Hy as [Hy|Hy].
    - pose proof (h_apart _ _ _ _ _ H y x Hy Hx) as Hyx. unfold apart, stop in Hyx. lia.
    - destruct (decide (y = x)) as [->|Hne]; [lia|].
      apply list_elem_of_split in Hx as (l1 & l2 & E). pose proof (h_live _ _ _ _ _ H) as Hl. rewrite E in Hl, Hy.
      apply all_apart_remove in Hl as [_ Hl]. assert (Hyl : y ∈ l1 ++ l2) by (rewrite elem_of_app, elem_of_cons in *; tauto).
      specialize (Hl y Hyl). unfold apart, stop in Hl. lia. }
  destruct H as [A1 A2 A3 A4 A5 A6 A7 A8 A9]. split; cbn; try done.
  - eapply chain_ext; [|exact A4]. intros y Hy. unfold hptr. rewrite <- (Z.add_0_r y.1). apply Hh; [rewrite elem_of_app; by left | lia].
  - rewrite list.Forall_forall in *. intros y Hy. unfold size_ok, hsize. rewrite Hh by (done || lia). by apply A5.
Qed.

(** Malloc returns, with enough rounds of its loops, for every
    heap that the program can have made and every size up to 2 GB: either 0,
    with the program's blocks unchanged, or a new block, apart from all the
    others, with at least the bytes asked for; no byte of the blocks that the
    program already has changes. *)
Theorem malloc_spec (s : heap) (live : list blk) (nbytes : Z) :
  (forall b n, grant b n = true -> 0 < n -> b + n <= top) ->
  heap_wf base lo s live -> 0 <= nbytes < 2 ^ 31 - 16 ->
  exists n0, forall fuel, (n0 <= fuel)%nat ->
    exists s' r, malloc base grant fuel nbytes s = Some (s', r) /\ keeps_live live (um s) (um s') /\
      if r =? 0 then heap_wf base lo s' live
      else heap_wf base lo s' ((r - 8, units_for nbytes) :: live) /\ nbytes <= 8 * units_for nbytes - 8 /\
           Forall (apart (r - 8, units_for nbytes)) live.
Proof.
  intros Hg H Hn. destruct (malloc_ok base lo grant Hg s live nbytes H Hn) as [n0 Hm]. exists n0. intros fuel Hf.
  destruct (Hm fuel Hf) as (s' & r & E & Hk & Hr). exists s', r. split_and!; [done | done|].
  destruct Hr as [[-> Hw]|(b & -> & Hw)]; [done|].
  pose proof (block_above s' _ (b, units_for nbytes) Hw ltac:(left)) as Hb. cbn in Hb.
  destruct (Z.eqb_spec (b + 8) 0); [lia|]. replace (b + 8 - 8) with b by lia. split_and!; [done | |].
  - unfold units_for. pose proof (Z_div_mod_eq_full (nbytes + 7) 8). pose proof (Z.mod_pos_bound (nbytes + 7) 8 ltac:(lia)). lia.
  - destruct Hw as [[_ E']|[fl Hw]]; [done|]. by destruct (h_live _ _ _ _ _ Hw).
Qed.

Lemma alloc_step_ok x y :
  (forall b n, grant b n = true -> 0 < n -> b + n <= top) ->
  alloc_step base grant x y -> heap_wf base lo x.1 x.2 -> heap_wf base lo y.1 y.2.
Proof.
  intros Hg Hst H. destruct Hst as [s live nbytes fuel s' r Hn E | s l1 b l2 fuel s' E | s live b a v Hb Ha]; cbn in *.
  - destruct (malloc_ok base lo grant Hg s live nbytes H Hn) as [n0 Hm].
    destruct (Hm (Nat.max n0 fuel) ltac:(lia)) as (s1 & r1 & E1 & _ & Hr).
    assert (E2 : malloc base grant (Nat.max n0 fuel) nbytes s = Some (s', r)).
    { unfold malloc in *. eapply malloc_loop_mono; [exact E | lia]. }
    rewrite E2 in E1. injection E1 as <- <-. destruct Hr as [[-> Hw]|(b & -> & Hw)]; [done|].
    pose proof (block_above s' _ (b, units_for nbytes) Hw ltac:(left)) as Hb. cbn in Hb.
    destruct (Z.eqb_spec (b + 8) 0); [lia|]. by replace (b + 8 - 8) with b by lia.
  - destruct (free_ok base lo s l1 b l2 H) as [n0 Hm]. destruct (Hm (Nat.max n0 fuel) ltac:(lia)) as (s1 & E1 & Hw & _).
    rewrite (free_mono _ (Nat.max n0 fuel) _ _ _ E) in E1 by lia. by injection E1 as <-.
  - by apply (write_ok s live b).
Qed.


End allocator.

Definition sample_grant (b n : Z) : bool := b + n <=? top.
Definition sample_heap : heap := mk_heap (fun _ => 0) 0 0x2000.

Lemma sample_grant_ok b n : sample_grant b n = true -> 0 < n -> b + n <= top.
Proof. unfold sample_grant. lia. Qed.

Lemma sample_fresh : fresh 0x1000 0x2000 sample_heap.
Proof. unfold fresh, top, KERNBASE. cbn. lia. Qed.

Definition sample_malloc (n : Z) (s : heap) : heap * Z := default (s, 0) (malloc 0x1000 sample_grant 10 n s).

Lemma malloc_spec_witness :
  exists n0, forall fuel, (n0 <= fuel)%nat -> exists s' r, malloc 0x1000 sample_grant fuel 100 sample_heap = Some (s', r).
Proof.
  destruct (malloc_spec 0x1000 0x2000 sample_grant sample_heap [] 100 sample_grant_ok) as [n0 H]; [left; split; [exact sample_fresh | reflexivity] | lia|].
  exists n0. intros fuel Hf. destruct (H fuel Hf) as (s' & r & E & _). exists s', r. exact E.
Defined.

Definition sample_heap1 : heap := (sample_malloc 100 sample_heap).1.

Lemma sample_run : steps (alloc_step 0x1000 sample_grant) (sample_heap, []) (sample_heap1, [(40848, 14)]).
Proof.
  apply steps_one. apply (al_malloc 0x1000 sample_grant sample_heap [] 100 10 sample_heap1 40856); [lia|].
  vm_compute. reflexivity.
Qed.


(** The size computation of malloc wraps.  A request for almost 4 GB
    succeeds with a block of one unit, the header alone: the pointer is the end
    of the heap. *)
Theorem malloc_wraps :
  exists s', malloc 0x1000 sample_grant 10 0xfffffff9 sample_heap = Some (s', 40960) /\ brk s' = 40960.
Proof. eexists. split; vm_compute; reflexivity. Qed.
