(* ===== verification/Text.v ===== *)
(** The text filters grep.c and wc.c.

    Strings are the lists of their characters before the NUL.  The matcher of
    grep is shown to decide the language of its pattern, given by a syntax of
    items.  A file descriptor is the list of what successive reads can
    deliver; an empty list is the end of the file. *)

From S2P Require Import Prelude Word Mem.

Local Open Scope Z_scope.

Definition ch_nl : Z := 10.
Definition ch_dollar : Z := 36.
Definition ch_star : Z := 42.
Definition ch_dot : Z := 46.
Definition ch_caret : Z := 94.

(** ** The matcher *)

(** matchstar(c, re, text), where [here] is matchhere(re, _). *)
Fixpoint matchstar (here : list Z -> bool) (c : Z) (text : list Z) : bool :=
  here text ||
  match text with
  | [] => false
  | t :: text' => if (t =? c) || (c =? ch_dot) then matchstar here c text' else false
  end.

Fixpoint matchhere (re text : list Z) : bool :=
  match re with
  | [] => true
  | c :: re1 =>
      match re1 with
      | s :: re2 =>
          if s =? ch_star then matchstar (matchhere re2) c text
          else match text with
               | t :: text' => if (c =? ch_dot) || (c =? t) then matchhere re1 text' else false
               | [] => false
               end
      | [] =>
          if c =? ch_dollar then match text with [] => true | _ => false end
          else match text with
               | t :: text' => if (c =? ch_dot) || (c =? t) then matchhere re1 text' else false
               | [] => false
               end
      end
  end.

(** The do-while loop of match over the positions of the text. *)
Fixpoint match_loop (re text : list Z) : bool :=
  matchhere re text || match text with [] => false | _ :: text' => match_loop re text' end.

Definition match_ (re text : list Z) : bool :=
  match re with
  | c :: re' => if c =? ch_caret then matchhere re' text else match_loop re text
  | [] => match_loop re text
  end.

(** ** grep *)

(** read(fd, buf, cap): the bytes read and what is left. *)
Definition read (cap : Z) (fd : list (list Z)) : list Z * list (list Z) :=
  match fd with
  | [] => ([], [])
  | c :: fd =>
      if Z.of_nat (length c) <=? cap then (c, fd)
      else (take (Z.to_nat cap) c, drop (Z.to_nat cap) c :: fd)
  end.

(** strchr(p, '\n'): the characters before it and after it. *)
Fixpoint next_line (p : list Z) : option (list Z * list Z) :=
  match p with
  | [] => None
  | c :: p' =>
      if c =? 0 then None
      else if c =? ch_nl then Some ([], p')
      else match next_line p' with Some (l, r) => Some (c :: l, r) | None => None end
  end.

(** The inner loop: what is written to the output, and the final p. *)
Fixpoint grep_lines (fuel : nat) (pattern p : list Z) : list Z * list Z :=
  match fuel with
  | O => ([], p)
  | S fuel =>
      match next_line p with
      | Some (l, r) =>
          let (out, p') := grep_lines fuel pattern r in
          ((if match_ pattern l then l ++ [ch_nl] else []) ++ out, p')
      | None => ([], p)
      end
  end.

Definition GREP_BUF : Z := 1024.

(** The outer loop; [buf] are the m bytes kept from the previous round.  Each
    round takes at least one byte of the input, so its length is enough
    fuel. *)
Fixpoint grep_loop (fuel : nat) (pattern buf : list Z) (fd : list (list Z)) : list Z :=
  match fuel with
  | O => []
  | S fuel =>
      let (data, fd) := read (GREP_BUF - Z.of_nat (length buf) - 1) fd in
      match data with
      | [] => []
      | _ =>
          let buf := buf ++ data in
          let (out, p) := grep_lines (length buf) pattern buf in
          out ++ grep_loop fuel pattern (if (length p =? length buf)%nat then [] else p) fd
      end
  end.

Definition grep (pattern : list Z) (fd : list (list Z)) : list Z :=
  grep_loop (S (length (concat fd))) pattern [] fd.

(** ** wc *)

Record counts := mk_counts { wc_l : Z; wc_w : Z; wc_c : Z; inword : bool }.

(** strchr(space, c) != 0 for space = blank, CR, TAB, NL, VT *)
Definition is_space (c : Z) : bool := existsb (Z.eqb c) [32; 13; 9; 10; 11].

(** The body of the inner loop for the byte [b]. *)
Definition wc_byte (s : counts) (b : Z) : counts :=
  let c := wc_c s + 1 in
  let l := if b =? ch_nl then wc_l s + 1 else wc_l s in
  if is_space b then mk_counts l (wc_w s) c false
  else if negb (inword s) then mk_counts l (wc_w s + 1) c true
  else mk_counts l (wc_w s) c (inword s).

Definition WC_BUF : Z := 512.

Fixpoint wc_loop (fuel : nat) (s : counts) (fd : list (list Z)) : counts :=
  match fuel with
  | O => s
  | S fuel =>
      let (data, fd) := read WC_BUF fd in
      match data with
      | [] => s
      | _ => wc_loop fuel (fold_left wc_byte data s) fd
      end
  end.

Definition wc (fd : list (list Z)) : counts :=
  wc_loop (S (length (concat fd))) (mk_counts 0 0 0 false) fd.

(** ** The language of a pattern *)

(** One character, or any number of them; '.' stands for every character. *)
Inductive item := One (c : Z) | Star (c : Z).

(** The items of a pattern, and whether it ends in '$'. *)
Fixpoint items (re : list Z) : list item * bool :=
  match re with
  | [] => ([], false)
  | c :: re1 =>
      match re1 with
      | s :: re2 =>
          if s =? ch_star then let (l, e) := items re2 in (Star c :: l, e)
          else let (l, e) := items re1 in (One c :: l, e)
      | [] => if c =? ch_dollar then ([], true) else ([One c], false)
      end
  end.

Definition stands_for (c t : Z) : Prop := c = ch_dot \/ t = c.

Inductive in_item : item -> list Z -> Prop :=
| in_one c t : stands_for c t -> in_item (One c) [t]
| in_star c l : Forall (stands_for c) l -> in_item (Star c) l.

Inductive in_items : list item -> list Z -> Prop :=
| in_nil : in_items [] []
| in_cons i its l1 l2 : in_item i l1 -> in_items its l2 -> in_items (i :: its) (l1 ++ l2).

(** The pattern [re] matches a prefix of [text] (all of it if it ends in
    '$'). *)
Definition matches_here (re text : list Z) : Prop :=
  exists l1 l2, text = l1 ++ l2 /\ in_items (items re).1 l1 /\ ((items re).2 = true -> l2 = []).

Definition matches (re text : list Z) : Prop :=
  match re with
  | c :: re' => if c =? ch_caret then matches_here re' text
                else exists l1 l2, text = l1 ++ l2 /\ matches_here re l2
  | [] => exists l1 l2, text = l1 ++ l2 /\ matches_here re l2
  end.

Lemma char_test c t : (c =? ch_dot) || (c =? t) = true <-> stands_for c t.
Proof. unfold stands_for. rewrite orb_true_iff, !Z.eqb_eq. intuition congruence. Qed.

Lemma matchstar_spec here c text :
  matchstar here c text = true <->
  exists l1 l2, text = l1 ++ l2 /\ Forall (stands_for c) l1 /\ here l2 = true.
Proof.
  induction text as [|t text IH]; cbn [matchstar]; rewrite orb_true_iff.
  - split.
    + intros [H|?]; [|done]. by exists [], [].
    + intros (l1 & l2 & E & _ & H). symmetry in E. apply app_eq_nil in E as [-> ->]. by left.
  - assert (Hst : (t =? c) || (c =? ch_dot) = true <-> stands_for c t).
    { unfold stands_for. rewrite orb_true_iff, !Z.eqb_eq. tauto. }
    split.
    + intros [H|H]; [by exists [], (t :: text)|].
      destruct ((t =? c) || (c =? ch_dot)) eqn:E; [|done]. apply IH in H as (l1 & l2 & -> & Hl & H).
      exists (t :: l1), l2. split_and!; [done | constructor; [by apply Hst | done] | done].
    + intros (l1 & l2 & E & Hl & H). destruct l1 as [|x l1]; cbn in E; simplify_eq; [by left|]. right.
      apply Forall_cons_1 in Hl as [Hx Hl]. apply Hst in Hx. rewrite Hx. apply IH. by exists l1, l2.
Qed.

Lemma in_items_cons_inv i its l :
  in_items (i :: its) l <-> exists l1 l2, l = l1 ++ l2 /\ in_item i l1 /\ in_items its l2.
Proof.
  split.
  - inversion 1; subst. eauto.
  - intros (l1 & l2 & -> & H1 & H2). by constructor.
Qed.

Lemma in_one_inv c l : in_item (One c) l <-> exists t, l = [t] /\ stands_for c t.
Proof. split; [inversion 1; subst; eauto | intros (t & -> & H); by constructor]. Qed.

Lemma in_star_inv c l : in_item (Star c) l <-> Forall (stands_for c) l.
Proof. split; [by inversion 1; subst | by constructor]. Qed.

(** A pattern that starts with one character. *)
Lemma matches_one c re1 text :
  (forall re2, re1 <> ch_star :: re2) -> (re1 = [] -> c <> ch_dollar) ->
  (forall text, matchhere re1 text = true <-> matches_here re1 text) ->
  match text with
  | t :: text' => if (c =? ch_dot) || (c =? t) then matchhere re1 text' else false
  | [] => false
  end = true <-> matches_here (c :: re1) text.
Proof.
  intros Hns Hnd IH.
  assert (Hit : items (c :: re1) = (One c :: (items re1).1, (items re1).2)).
  { destruct re1 as [|s re2]; cbn [items].
    - destruct (Z.eqb_spec c ch_dollar) as [->|]; [by destruct Hnd | done].
    - destruct (Z.eqb_spec s ch_star) as [->|]; [by destruct (Hns re2)|].
      by destruct (match re2 with [] => _ | _ => _ end). }
  unfold matches_here. rewrite Hit. cbn [fst snd]. split.
  - destruct text as [|t text]; [done|]. destruct ((c =? ch_dot) || (c =? t)) eqn:E; [|done].
    intros H. apply IH in H as (l1 & l2 & -> & Hi & He). apply char_test in E. exists (t :: l1), l2.
    split_and!; [done | | done]. apply in_items_cons_inv. exists [t], l1. split_and!; [done | by constructor | done].
  - intros (l1 & l2 & -> & Hi & He). apply in_items_cons_inv in Hi as (k1 & k2 & -> & Hk1 & Hk2).
    apply in_one_inv in Hk1 as (t & -> & Ht). cbn. apply char_test in Ht. rewrite Ht. apply IH. by exists k2, l2.
Qed.

Lemma matchhere_spec re text : matchhere re text = true <-> matches_here re text.
Proof.
  remember (length re) as n eqn:En. revert re En text.
  induction (lt_wf n) as [n _ IH]. intros [|c re1] En text.
  { cbn. split; [|done]. intros _. exists [], text. split_and!; [done | constructor | done]. }
  assert (IH1 : forall re, (length re <= length re1)%nat -> forall text, matchhere re text = true <-> matches_here re text).
  { intros re Hre t. eapply IH; [|done]. cbn in En. lia. }
  destruct re1 as [|s re2].
  - cbn [matchhere]. destruct (Z.eqb_spec c ch_dollar) as [->|Hne].
    + unfold matches_here. cbn. split.
      * destruct text; [|done]. intros _. exists [], []. split_and!; [done | constructor | done].
      * intros (l1 & l2 & -> & Hi & ->); [|done]. inversion Hi; subst. done.
    + apply (matches_one c [] text); [done | done|]. apply IH1. done.
  - cbn [matchhere]. fold matchhere. destruct (Z.eqb_spec s ch_star) as [->|Hne].
    + rewrite matchstar_spec. unfold matches_here. cbn [items]. rewrite Z.eqb_refl.
      destruct (items re2) as [l e] eqn:E. cbn [fst snd]. split.
      * intros (l1 & l2 & -> & Hl & H). apply IH1 in H as (k1 & k2 & -> & Hi & He); [|cbn; lia].
        rewrite E in Hi, He. exists (l1 ++ k1), k2. split_and!; [by rewrite app_assoc | | done].
        apply in_items_cons_inv. exists l1, k1. split_and!; [done | by apply in_star_inv | done].
      * intros (l1 & l2 & -> & Hi & He). apply in_items_cons_inv in Hi as (k1 & k2 & -> & Hk1 & Hk2).
        apply in_star_inv in Hk1. exists k1, (k2 ++ l2). split_and!; [by rewrite app_assoc | done|].
        apply IH1; [cbn; lia|]. exists k2, l2. rewrite E. done.
    + apply (matches_one c (s :: re2) text); [congruence | done|]. apply IH1. done.
Qed.

(** C39 (equivalence): match decides the language of its pattern: it finds a match
    exactly when some part of the text (a prefix for a pattern that starts
    with '^', a suffix for one that ends in '$') is a sequence of words of the
    pattern's items. *)
Theorem match_spec (re text : list Z) : match_ re text = true <-> matches re text.
Proof.
  assert (Hloop : forall text, match_loop re text = true <-> exists l1 l2, text = l1 ++ l2 /\ matches_here re l2).
  { clear text. induction text as [|t text IH]; cbn [match_loop]; rewrite orb_true_iff, matchhere_spec.
    - split; [intros [H|?]; [by exists [], [] | done]|]. intros (l1 & l2 & E & H). symmetry in E.
      apply app_eq_nil in E as [-> ->]. by left.
    - rewrite IH. split.
      + intros [H|(l1 & l2 & -> & H)]; [by exists [], (t :: text) | by exists (t :: l1), l2].
      + intros ([|x l1] & l2 & E & H); cbn in E; simplify_eq; [by left | right; by exists l1, l2]. }
  unfold match_, matches. destruct re as [|c re']; [apply Hloop|].
  destruct (c =? ch_caret); [apply matchhere_spec | apply Hloop].
Qed.

(** ** grep on whole lines *)

(** The lines of [p], each with its newline. *)
Fixpoint lines (p : list Z) (cur : list Z) : list (list Z) :=
  match p with
  | [] => []
  | c :: p => if c =? ch_nl then cur :: lines p [] else lines p (cur ++ [c])
  end.

Definition matching (pattern p : list Z) : list Z :=
  concat (map (fun l => l ++ [ch_nl]) (List.filter (match_ pattern) (lines p []))).

Lemma next_line_none p : Forall (fun c => c <> 0) p -> next_line p = None -> ~ In ch_nl p.
Proof.
  induction p as [|c p IH]; intros Hp; [intros _ []|]. apply Forall_cons_1 in Hp as [Hc Hp]. cbn.
  destruct (Z.eqb_spec c 0); [done|]. destruct (Z.eqb_spec c ch_nl) as [->|Hne]; [done|].
  destruct (next_line p) as [[l r]|] eqn:E; [done|]. intros _ [?|Hin]; [done | by apply (IH Hp)].
Qed.

Lemma next_line_some p l r cur :
  next_line p = Some (l, r) ->
  p = l ++ ch_nl :: r /\ ~ In ch_nl l /\ lines p cur = (cur ++ l) :: lines r [].
Proof.
  revert l cur. induction p as [|c p IH]; intros l cur; [done|]. cbn.
  destruct (Z.eqb_spec c 0); [done|]. destruct (Z.eqb_spec c ch_nl) as [->|Hne].
  - intros [= <- <-]. split_and!; [done | intros [] | by rewrite app_nil_r].
  - destruct (next_line p) as [[l' r']|] eqn:E; [|done]. intros [= <- <-].
    destruct (IH l' (cur ++ [c]) eq_refl) as (-> & Hn & Hl). split_and!; [done | |by rewrite Hl, <- app_assoc].
    intros [?|?]; done.
Qed.

Lemma lines_none p cur : ~ In ch_nl p -> lines p cur = [].
Proof.
  revert cur. induction p as [|c p IH]; intros cur Hp; [done|]. cbn. destruct (Z.eqb_spec c ch_nl) as [->|Hne].
  - destruct Hp. by left.
  - apply IH. intros H. apply Hp. by right.
Qed.

Lemma grep_lines_spec fuel pattern p :
  Forall (fun c => c <> 0) p -> (length p <= fuel)%nat ->
  exists r, grep_lines fuel pattern p = (matching pattern p, r) /\ ~ In ch_nl r /\ exists q, p = q ++ r /\ (q = [] \/ exists q', q = q' ++ [ch_nl]).
Proof.
  revert p. induction fuel as [|fuel IH]; intros p Hp Hl.
  { destruct p; [|cbn in Hl; lia]. exists []. split_and!; [done | intros [] |]. exists []. by split; [|left]. }
  cbn [grep_lines]. destruct (next_line p) as [[l r]|] eqn:E.
  - destruct (next_line_some p l r [] E) as (Ep & Hn & Hlines).
    assert (Hr : Forall (fun c => c <> 0) r).
    { rewrite Ep in Hp. apply Forall_app in Hp as [_ Hp]. by apply Forall_cons_1 in Hp as [_ Hp]. }
    destruct (IH r Hr) as (r' & He & Hn' & q & Hq & Hq').
    { rewrite Ep, length_app in Hl. cbn in Hl. lia. }
    rewrite He. exists r'. split_and!; [|done|].
    + unfold matching. rewrite Hlines. cbn [List.filter app].
      by destruct (match_ pattern l).
    + exists (l ++ ch_nl :: q). split; [rewrite Ep, Hq; by rewrite <- app_assoc|]. right.
      destruct Hq' as [->|[q' ->]]; [by exists l|]. exists (l ++ ch_nl :: q'). by rewrite <- app_assoc.
  - exists p. pose proof (next_line_none p Hp E) as Hn. split_and!; [|done | exists []; by split; [|left]].
    unfold matching. by rewrite lines_none.
Qed.

(** A chunk of whole lines that fits the buffer. *)
Definition line_chunk (c : list Z) : Prop :=
  Forall (fun x => x <> 0) c /\ Z.of_nat (length c) < GREP_BUF /\ exists c', c = c' ++ [ch_nl].

Lemma lines_app a b cur : (exists a', a = a' ++ [ch_nl]) -> lines (a ++ b) cur = lines a cur ++ lines b [].
Proof.
  intros [a' ->]. revert cur. induction a' as [|x a' IH]; intros cur; cbn; [done|].
  destruct (x =? ch_nl); [by rewrite IH | apply IH].
Qed.

Lemma ends_nl_rest r q c' : c' ++ [ch_nl] = q ++ r -> ~ In ch_nl r -> r = [].
Proof.
  intros E Hn. destruct (decide (r = [])) as [|Hne]; [done|].
  destruct (exists_last Hne) as (r0 & x & ->). rewrite app_assoc in E. apply app_inj_tail in E as [_ <-].
  destruct Hn. apply in_or_app. right. by left.
Qed.

Lemma grep_loop_spec fuel pattern fd :
  Forall line_chunk fd -> (length (concat fd) < fuel)%nat ->
  grep_loop fuel pattern [] fd = matching pattern (concat fd).
Proof.
  revert fd. induction fuel as [|fuel IH]; intros fd Hfd Hf; [lia|]. cbn [grep_loop read].
  destruct fd as [|c fd]; [done|]. apply Forall_cons_1 in Hfd as [(Hnz & Hlen & c' & Hc) Hfd].
  unfold read. cbn [length]. destruct (Z.leb_spec (Z.of_nat (length c)) (GREP_BUF - Z.of_nat 0 - 1)); [|lia].
  cbn [concat] in *. rewrite length_app in Hf.
  destruct c as [|x c]; [by destruct c'|]. cbn [app].
  destruct (grep_lines_spec (length (x :: c)) pattern (x :: c) Hnz) as (r & He & Hn & q & Hq & _); [done|].
  rewrite He. assert (Hr : r = []) by (eapply ends_nl_rest; [rewrite <- Hc; exact Hq | done]). subst r.
  cbn [length Nat.eqb]. rewrite IH by (done || (cbn in Hf; lia)).
  unfold matching. rewrite app_comm_cons, lines_app by (by exists c'). by rewrite filter_app, map_app, concat_app.
Qed.

(** On input that arrives in whole lines shorter than the buffer,
    grep prints exactly the lines that match, in order. *)
Theorem grep_spec (pattern : list Z) (fd : list (list Z)) :
  Forall line_chunk fd -> grep pattern fd = matching pattern (concat fd).
Proof. intros H. apply grep_loop_spec; [done | lia]. Qed.

(** When a read ends inside a line, the part read so far is thrown
    away: the same input gives different results, depending on how it is cut
    into reads. *)
Theorem grep_drops_partial_line :
  let text := [97; 98; 10] in
  concat [text] = concat [[97]; [98; 10]] /\
  grep [97] [text] = text /\ grep [97] [[97]; [98; 10]] = [].
Proof. done. Qed.

(** ** wc counts independently of the reads *)

Lemma read_concat cap fd :
  0 < cap -> let (d, fd') := read cap fd in concat fd = d ++ concat fd' /\ (d = [] -> fd = [] \/ exists fd2, fd = [] :: fd2).
Proof.
  intros Hc. unfold read. destruct fd as [|c fd]; [by split; [|left]|].
  destruct (Z.leb_spec (Z.of_nat (length c)) cap).
  - split; [done|]. intros ->. right. by exists fd.
  - cbn. split; [by rewrite app_assoc, take_drop|]. intros E. apply (f_equal length) in E.
    rewrite length_take in E. cbn in E. lia.
Qed.

Lemma wc_loop_spec fuel s fd :
  Forall (fun c => c <> []) fd -> (length (concat fd) < fuel)%nat ->
  wc_loop fuel s fd = fold_left wc_byte (concat fd) s.
Proof.
  revert s fd. induction fuel as [|fuel IH]; intros s fd Hfd Hf; [lia|]. cbn [wc_loop].
  pose proof (read_concat WC_BUF fd eq_refl) as Hr. destruct (read WC_BUF fd) as [d fd'] eqn:E.
  destruct Hr as [Hc Hd]. destruct d as [|x d].
  - destruct (Hd eq_refl) as [->|[fd2 ->]]; [done|]. by apply Forall_cons_1 in Hfd as [? _].
  - rewrite IH.
    + by rewrite Hc, fold_left_app.
    + destruct fd as [|c fd0]; [done|]. unfold read in E. apply Forall_cons_1 in Hfd as [Hc0 Hfd0].
      destruct (Z.leb_spec (Z.of_nat (length c)) WC_BUF) as [|Hlt]; simplify_eq; [done|].
      constructor; [|done]. intros E2. apply (f_equal length) in E2. rewrite length_drop in E2. unfold WC_BUF in *. cbn in E2. lia.
    + rewrite Hc in Hf. rewrite length_app in Hf. cbn in Hf. lia.
Qed.

(** The words of a text: maximal runs of characters that are not blank. *)
Fixpoint words (p : list Z) (cur : bool) : Z :=
  match p with
  | [] => 0
  | c :: p => if is_space c then words p false else (if cur then 0 else 1) + words p true
  end.

Lemma wc_fold p s :
  fold_left wc_byte p s =
    mk_counts (wc_l s + Z.of_nat (length (List.filter (Z.eqb ch_nl) p))) (wc_w s + words p (inword s))
      (wc_c s + Z.of_nat (length p)) (inword (fold_left wc_byte p s)).
Proof.
  revert s. induction p as [|c p IH]; intros s; cbn [fold_left].
  { destruct s. cbn. f_equal; lia. }
  rewrite IH. unfold wc_byte at 1 2 3 4 6. cbn [List.filter words length].
  rewrite (Z.eqb_sym ch_nl c). f_equal.
  all: destruct (c =? ch_nl), (is_space c), (inword s); cbn [negb wc_l wc_w wc_c inword length]; lia.
Qed.

(** Wc returns the number of newlines, of words (maximal runs of
    non-blank characters) and of bytes of the input, however the input is
    split into reads. *)
Theorem wc_spec (fd : list (list Z)) :
  Forall (fun c => c <> []) fd ->
  wc_l (wc fd) = Z.of_nat (length (List.filter (Z.eqb ch_nl) (concat fd))) /\
  wc_w (wc fd) = words (concat fd) false /\
  wc_c (wc fd) = Z.of_nat (length (concat fd)).
Proof.
  intros H. unfold wc. rewrite wc_loop_spec, wc_fold by (done || lia). cbn. lia.
Qed.

(** ** Witnesses *)

Lemma grep_spec_witness : grep [94; 97] [[97; 10; 98; 10]; [97; 98; 10]] = [97; 10; 97; 98; 10].
Proof.
  rewrite (grep_spec [94; 97] [[97; 10; 98; 10]; [97; 98; 10]]); [reflexivity|].
  repeat constructor; try (unfold GREP_BUF; cbn; lia); [by exists [97; 10; 98] | by exists [97; 98]].
Defined.

Lemma wc_spec_witness : wc_w (wc [[97; 32]; [98; 10]]) = 2.
Proof.
  destruct (wc_spec [[97; 32]; [98; 10]]) as (_ & H & _); [by repeat constructor | rewrite H; reflexivity].
Defined.
