(* ===== verification/Sh.v ===== *)
(** The shell's parser (sh.c).

    A char pointer into the command line is the suffix of the line it points
    to; the line itself has no NUL before its end, so the suffix [[]] is the
    pointer es.  A word is the pair of pointers (q, eq) that gettoken returns.
    panic() is an error result.  While parseexec runs, ret is the execcmd
    wrapped in the redirections met so far and cmd the execcmd itself, filled
    through the alias; here the arguments and the redirections are collected
    side by side and put together at the end. *)

From S2P Require Import Prelude Word Mem.

Local Open Scope Z_scope.

(** ** Commands *)

Definition MAXARGS : nat := 10.

Local Abbreviation ptr := (list Z) (only parsing).

Record word := mk_word { q : list Z; eq_ : list Z }.

(** file and efile, mode, fd *)
Record redir := mk_redir { file : word; mode : Z; rfd : Z }.

Inductive cmd :=
| EXEC (argv : list word)
| REDIR (c : cmd) (r : redir)
| PIPE (left right : cmd)
| LIST (left right : cmd)
| BACK (c : cmd).

Inductive result (A : Type) :=
| Ok (a : A)
| Err (msg : string).
Arguments Ok {A} a.
Arguments Err {A} msg.

#[export] Instance result_ret : MRet result := @Ok.
#[export] Instance result_bind : MBind result := fun A B f m =>
  match m with Ok a => f a | Err e => Err e end.

(** ** Tokens *)

Definition chr (s : string) : list Z := map (fun a => Z.of_nat (Ascii.nat_of_ascii a)) (String.list_ascii_of_string s).

(** blank, TAB, CR, NL, VT *)
Definition whitespace : list Z := [32; 9; 13; 10; 11].
Definition symbols : list Z := chr "<|>&;()".

(** strchr(set, c) != 0 *)
Definition strchr_in (set : list Z) (c : Z) : bool := existsb (Z.eqb c) set.

Fixpoint skip_ws (s : ptr) : ptr :=
  match s with
  | c :: s' => if strchr_in whitespace c then skip_ws s' else s
  | [] => []
  end.

Fixpoint skip_word (s : ptr) : ptr :=
  match s with
  | c :: s' => if negb (strchr_in whitespace c) && negb (strchr_in symbols c) then skip_word s' else s
  | [] => []
  end.

Definition c_gt : Z := 62.
Definition c_plus : Z := 43.
Definition c_a : Z := 97.

(** ret, (q, eq), and the new *ps. *)
Definition gettoken (s : ptr) : Z * word * ptr :=
  let q := skip_ws s in
  let '(ret, eq) :=
    match q with
    | [] => (0, q)
    | c :: s' =>
        if strchr_in (chr "|();&<") c then (c, s')
        else if c =? c_gt then
          match s' with
          | d :: s'' => if d =? c_gt then (c_plus, s'') else (c, s')
          | [] => (c, s')
          end
        else (c_a, skip_word q)
    end in
  (ret, mk_word q eq, skip_ws eq).

(** The test, and the new *ps. *)
Definition peek (s : ptr) (toks : list Z) : bool * ptr :=
  let s := skip_ws s in
  (match s with [] => false | c :: _ => strchr_in toks c end, s).

(** ** The parser *)

(** The loops take the length of what is left to parse as fuel: every round
    consumes a character. *)
Fixpoint parseredirs (fuel : nat) (s : ptr) : result (list redir * ptr) :=
  let (b, s) := peek s (chr "<>") in
  if b then
    match fuel with
    | O => Err "fuel"
    | S fuel =>
        let '(tok, _, s) := gettoken s in
        let '(t, w, s) := gettoken s in
        if negb (t =? c_a) then Err "missing file for redirection"
        else
          let r := if tok =? 60 then mk_redir w O_RDONLY 0
                   else mk_redir w (Z.lor O_WRONLY O_CREATE) 1 in
          parseredirs fuel s ≫= fun '(rs, s) => mret (r :: rs, s)
    end
  else mret ([], s).

(** The loop of parseexec; [argc] words have been read. *)
Fixpoint parseargs (fuel : nat) (argc : nat) (s : ptr) : result (list word * list redir * ptr) :=
  let (b, s) := peek s (chr "|)&;") in
  if b then mret ([], [], s)
  else
    let '(tok, w, s) := gettoken s in
    if tok =? 0 then mret ([], [], s)
    else if negb (tok =? c_a) then Err "syntax"
    else if (MAXARGS <=? S argc)%nat then Err "too many args"
    else
      match fuel with
      | O => Err "fuel"
      | S fuel =>
          parseredirs (length s) s ≫= fun '(rs1, s) =>
          parseargs fuel (S argc) s ≫= fun '(ws, rs2, s) =>
          mret (w :: ws, rs1 ++ rs2, s)
      end.

Definition redircmds (c : cmd) (rs : list redir) : cmd := fold_left REDIR rs c.

(** while(peek(ps, es, "&")): cmd = backcmd(cmd) *)
Fixpoint parsebacks (fuel : nat) (c : cmd) (s : ptr) : result (cmd * ptr) :=
  let (b, s) := peek s (chr "&") in
  if b then
    match fuel with
    | O => Err "fuel"
    | S fuel => let '(_, _, s) := gettoken s in parsebacks fuel (BACK c) s
    end
  else mret (c, s).

Fixpoint parseline (fuel : nat) (s : ptr) : result (cmd * ptr) :=
  match fuel with
  | O => Err "fuel"
  | S fuel =>
      parsepipe fuel s ≫= fun '(c, s) =>
      parsebacks (length s) c s ≫= fun '(c, s) =>
      let (b, s) := peek s (chr ";") in
      if b then
        let '(_, _, s) := gettoken s in
        parseline fuel s ≫= fun '(d, s) => mret (LIST c d, s)
      else mret (c, s)
  end
with parsepipe (fuel : nat) (s : ptr) : result (cmd * ptr) :=
  match fuel with
  | O => Err "fuel"
  | S fuel =>
      parseexec fuel s ≫= fun '(c, s) =>
      let (b, s) := peek s (chr "|") in
      if b then
        let '(_, _, s) := gettoken s in
        parsepipe fuel s ≫= fun '(d, s) => mret (PIPE c d, s)
      else mret (c, s)
  end
with parseexec (fuel : nat) (s : ptr) : result (cmd * ptr) :=
  match fuel with
  | O => Err "fuel"
  | S fuel =>
      let (b, s) := peek s (chr "(") in
      if b then parseblock fuel s
      else
        parseredirs (length s) s ≫= fun '(rs1, s) =>
        parseargs (length s) 0 s ≫= fun '(ws, rs2, s) =>
        mret (redircmds (EXEC ws) (rs1 ++ rs2), s)
  end
with parseblock (fuel : nat) (s : ptr) : result (cmd * ptr) :=
  match fuel with
  | O => Err "fuel"
  | S fuel =>
      let (b, s) := peek s (chr "(") in
      if negb b then Err "parseblock"
      else
        let '(_, _, s) := gettoken s in
        parseline fuel s ≫= fun '(c, s) =>
        let (b, s) := peek s (chr ")") in
        if negb b then Err "syntax - missing )"
        else
          let '(_, _, s) := gettoken s in
          parseredirs (length s) s ≫= fun '(rs, s) => mret (redircmds c rs, s)
  end.

(** parsecmd up to nulterminate. *)
Definition parse (s : list Z) : result cmd :=
  parseline (4 * S (length s)) s ≫= fun '(c, s) =>
  let (_, s) := peek s [] in
  match s with [] => mret c | _ => Err "syntax" end.

(** Writing 0 through the pointer [p], in the buffer of a line of length
    [n]. *)
Definition cut (n : nat) (p : ptr) (buf : list Z) : list Z := <[(n - length p)%nat := 0]> buf.

Fixpoint nulterminate (n : nat) (c : cmd) (buf : list Z) : list Z :=
  match c with
  | EXEC argv => fold_left (fun buf w => cut n (eq_ w) buf) argv buf
  | REDIR c r => cut n (eq_ (file r)) (nulterminate n c buf)
  | PIPE l r => nulterminate n r (nulterminate n l buf)
  | LIST l r => nulterminate n r (nulterminate n l buf)
  | BACK c => nulterminate n c buf
  end.

(** The command, and the buffer (the line and its terminator) with the
    NULs. *)
Definition parsecmd (s : list Z) : result (cmd * list Z) :=
  parse s ≫= fun c => mret (c, nulterminate (length s) c (s ++ [0])).

(** ** Tokens and suffixes *)

Definition is_word_char (c : Z) : bool := negb (strchr_in whitespace c) && negb (strchr_in symbols c).

Definition boundary (s : ptr) : Prop := match s with [] => True | c :: _ => is_word_char c = false end.

(** A word of the line: some word characters up to a boundary. *)
Definition good_word (line : list Z) (w : word) : Prop :=
  suffix (q w) line /\ boundary (eq_ w) /\
  exists t, t <> [] /\ q w = t ++ eq_ w /\ Forall (fun c => is_word_char c = true) t.

Lemma suffix_length_le (s t : ptr) : suffix s t -> (length s <= length t)%nat.
Proof. intros [k ->]. rewrite length_app. lia. Qed.

Lemma suffix_tail c (s t : ptr) : suffix t s -> suffix t (c :: s).
Proof. intros [k ->]. by exists (c :: k). Qed.

Lemma skip_ws_suffix s : suffix (skip_ws s) s.
Proof.
  induction s as [|c s IH]; cbn [skip_ws]; [reflexivity|]. destruct (strchr_in whitespace c); [by apply suffix_tail | reflexivity].
Qed.

Lemma skip_ws_head s : match skip_ws s with [] => True | c :: _ => strchr_in whitespace c = false end.
Proof.
  induction s as [|c s IH]; cbn [skip_ws]; [done|]. destruct (strchr_in whitespace c) eqn:E; [exact IH | exact E].
Qed.

Lemma skip_word_spec s :
  exists t, s = t ++ skip_word s /\ Forall (fun c => is_word_char c = true) t /\ boundary (skip_word s) /\
    (match s with [] => True | c :: _ => is_word_char c = true -> t <> [] end).
Proof.
  induction s as [|c s IH]; cbn [skip_word]; [exists []; split_and!; done|].
  fold (is_word_char c). destruct (is_word_char c) eqn:E.
  - destruct IH as (t & Hs & Ht & Hb & _). exists (c :: t). split_and!; [by rewrite Hs at 1 | by constructor | done | done].
  - exists []. by split_and!.
Qed.

(** What gettoken returns: suffixes of the input, shorter unless the input is
    used up; 'a' marks a word. *)
Lemma gettoken_spec s tok w s' :
  gettoken s = (tok, w, s') ->
  suffix s' s /\ (tok <> 0 -> (length s' < length s)%nat) /\
  (tok = c_a -> forall line, suffix s line -> good_word line w).
Proof.
  unfold gettoken. pose proof (skip_ws_suffix s) as Hq. pose proof (skip_ws_head s) as Hh.
  destruct (skip_ws s) as [|c s1] eqn:E.
  { intros [= <- <- <-]. split_and!; [apply suffix_nil | done | done]. }
  pose proof (suffix_length_le _ _ Hq) as Hl. cbn [length] in Hl.
  assert (Hsuf : forall e, suffix e (c :: s1) -> suffix (skip_ws e) s).
  { intros e He. etrans; [apply skip_ws_suffix|]. by etrans. }
  assert (Hs1 : suffix s1 (c :: s1)) by (by apply suffix_tail).
  assert (Hlen : forall e, (length (skip_ws e) <= length e)%nat) by (intros; apply suffix_length_le, skip_ws_suffix).
  destruct (strchr_in (chr "|();&<") c) eqn:Esym.
  { intros [= <- <- <-]. split_and!; [by apply Hsuf | pose proof (Hlen s1); lia|].
    intros ->. done. }
  destruct (Z.eqb_spec c c_gt) as [->|Hgt].
  { destruct s1 as [|d s2].
    - intros [= <- <- <-]. split_and!; [apply suffix_nil | cbn in *; lia | done].
    - destruct (d =? c_gt); intros [= <- <- <-].
      + split_and!; [apply (Hsuf s2); by apply suffix_tail, suffix_tail | pose proof (Hlen s2); cbn [length] in *; lia | done].
      + split_and!; [apply (Hsuf (d :: s2)); by apply suffix_tail | | done].
        pose proof (Hlen (d :: s2)) as H. cbn [length] in *. intros _. eapply Nat.le_lt_trans; [exact H|]. lia. }
  intros [= <- <- <-]. destruct (skip_word_spec (c :: s1)) as (t & Ht & Hwc & Hb & Hne).
  assert (Hc : is_word_char c = true).
  { unfold is_word_char. rewrite Hh. cbn [negb andb]. apply negb_true_iff. revert Esym. unfold c_gt in Hgt.
    cbn. rewrite !orb_false_iff, !Z.eqb_neq. intros. split_and!; try lia. done. }
  specialize (Hne Hc). assert (Hsw : suffix (skip_word (c :: s1)) (c :: s1)) by (exists t; done).
  split_and!.
  - apply (Hsuf _ Hsw).
  - intros _. eapply Nat.le_lt_trans; [apply (Hlen (skip_word (c :: s1)))|]. apply (f_equal length) in Ht.
    rewrite length_app in Ht. destruct t; [done|]. cbn [length] in Ht, Hl. lia.
  - intros _ line Hline. split_and!; [by etrans | done | by exists t].
Qed.

Lemma peek_spec s toks b s' :
  peek s toks = (b, s') -> suffix s' s /\ (b = true -> exists c s2, s' = c :: s2 /\ skip_ws s' = s' /\ strchr_in toks c = true).
Proof.
  unfold peek. intros [= <- <-]. split; [apply skip_ws_suffix|]. pose proof (skip_ws_head s) as Hh.
  destruct (skip_ws s) as [|c s2]; [done|]. intros Hc. exists c, s2. split_and!; [done | cbn [skip_ws]; by rewrite Hh | done].
Qed.

(** After a successful peek, gettoken makes progress. *)
Lemma peek_gettoken s toks s' tok w s2 :
  peek s toks = (true, s') -> Forall (fun c => c <> 0) toks -> gettoken s' = (tok, w, s2) -> (length s2 < length s)%nat /\ suffix s2 s.
Proof.
  intros Hp Hz Hg. destruct (peek_spec _ _ _ _ Hp) as [Hs Hb]. destruct (Hb eq_refl) as (c & s3 & -> & Hsk & Hc).
  destruct (gettoken_spec _ _ _ _ Hg) as (Hs2 & Hlt & _). pose proof (suffix_length_le _ _ Hs) as Hl.
  split; [|by etrans]. enough (tok <> 0) by (specialize (Hlt H); lia).
  intros ->. unfold gettoken in Hg. rewrite Hsk in Hg.
  assert (Hc0 : c <> 0).
  { intros ->. unfold strchr_in in Hc. apply existsb_exists in Hc as (x & Hin & Hx). apply Z.eqb_eq in Hx. subst x.
    rewrite Forall_lookup in Hz. apply list_elem_of_In, list_elem_of_lookup in Hin as [i Hi]. by apply (Hz i 0). }
  destruct (strchr_in (chr "|();&<") c); [congruence|]. destruct (c =? c_gt); [|done].
  destruct s3 as [|d s4]; [congruence|]. destruct (d =? c_gt); [done | congruence].
Qed.

(** ** The parser *)

Fixpoint all_words (c : cmd) : list word :=
  match c with
  | EXEC argv => argv
  | REDIR c r => all_words c ++ [file r]
  | PIPE l r => all_words l ++ all_words r
  | LIST l r => all_words l ++ all_words r
  | BACK c => all_words c
  end.

(** The fuel is enough, and the result satisfies [P]. *)
Definition good {A} (P : A -> Prop) (r : result A) : Prop :=
  match r with Ok a => P a | Err m => m <> "fuel"%string end.

Lemma good_bind {A B} (P : A -> Prop) (Q : B -> Prop) (m : result A) (f : A -> result B) :
  good P m -> (forall a, P a -> good Q (f a)) -> good Q (m ≫= f).
Proof. intros Hm Hf. destruct m as [a|e]; cbn in *; [by apply Hf | done]. Qed.

Section line.
Context (line : list Z).

Local Abbreviation words_ok l := (Forall (good_word line) l).

Lemma parseredirs_ok fuel s :
  (length s <= fuel)%nat -> suffix s line ->
  good (fun r => suffix r.2 s /\ words_ok (map file r.1)) (parseredirs fuel s).
Proof.
  revert s. induction fuel as [|fuel IH]; intros s Hl Hs; cbn [parseredirs];
    destruct (peek s (chr "<>")) as [b s1] eqn:Ep; destruct (peek_spec _ _ _ _ Ep) as [Hs1 Hb];
    (destruct b; [|cbn; split; [done | constructor]]).
  - destruct (Hb eq_refl) as (c & s2 & -> & _). apply suffix_length_le in Hs1. cbn in Hs1. lia.
  - destruct (gettoken s1) as [[tok w0] s2] eqn:E1.
    destruct (peek_gettoken _ _ _ _ _ _ Ep ltac:(by repeat constructor) E1) as [Hlt Hs2].
    destruct (gettoken s2) as [[t w] s3] eqn:E2. destruct (gettoken_spec _ _ _ _ E2) as (Hs3 & _ & Hw).
    destruct (Z.eqb_spec t c_a) as [->|]; cbn [negb]; [|done].
    assert (Hsl : suffix s2 line) by (by etrans). pose proof (suffix_length_le _ _ Hs3).
    eapply good_bind; [apply IH; [lia | by etrans]|]. intros [rs s4] [Hs4 Hrs]. cbn in *. split.
    + etrans; [exact Hs4|]. by etrans.
    + constructor; [|done]. destruct (tok =? 60); cbn; by apply Hw.
Qed.

Lemma parseargs_ok fuel argc s :
  (length s <= fuel)%nat -> suffix s line ->
  good (fun r => suffix r.2 s /\ words_ok r.1.1 /\ words_ok (map file r.1.2)) (parseargs fuel argc s).
Proof.
  revert argc s. induction fuel as [|fuel IH]; intros argc s Hl Hs; cbn [parseargs];
    destruct (peek s (chr "|)&;")) as [b s1] eqn:Ep; destruct (peek_spec _ _ _ _ Ep) as [Hs1 _];
    (destruct b; [cbn; split_and!; [done | constructor..]|]);
    destruct (gettoken s1) as [[tok w] s2] eqn:E1; destruct (gettoken_spec _ _ _ _ E1) as (Hs2 & Hlt & Hw);
    pose proof (suffix_length_le _ _ Hs1) as Hl1;
    (destruct (Z.eqb_spec tok 0) as [->|H0]; [cbn; split_and!; [by etrans | constructor..]|]);
    specialize (Hlt H0);
    (destruct (Z.eqb_spec tok c_a) as [->|]; cbn [negb]; [|done]);
    (destruct (MAXARGS <=? S argc)%nat; [done|]).
  - lia.
  - assert (Hsl : suffix s2 line) by (etrans; [exact Hs2|]; by etrans).
    eapply good_bind; [apply (parseredirs_ok (length s2)); done|]. intros [rs1 s3] [Hs3 Hrs1]. cbn in Hs3, Hrs1.
    pose proof (suffix_length_le _ _ Hs3).
    eapply good_bind; [apply IH; [lia | by etrans]|]. intros [[ws rs2] s4] (Hs4 & Hws & Hrs2). cbn in *.
    split_and!.
    + etrans; [exact Hs4|]. etrans; [exact Hs3|]. by transitivity s1.
    + constructor; [apply Hw; [done | by transitivity s] | done].
    + rewrite map_app. by apply Forall_app.
Qed.

Lemma parsebacks_ok fuel c s :
  (length s <= fuel)%nat -> words_ok (all_words c) ->
  good (fun r => suffix r.2 s /\ words_ok (all_words r.1)) (parsebacks fuel c s).
Proof.
  revert c s. induction fuel as [|fuel IH]; intros c s Hl Hc; cbn [parsebacks];
    destruct (peek s (chr "&")) as [b s1] eqn:Ep; destruct (peek_spec _ _ _ _ Ep) as [Hs1 Hb]; (destruct b; [|done]).
  - destruct (Hb eq_refl) as (x & s2 & -> & _). apply suffix_length_le in Hs1. cbn in Hs1. lia.
  - destruct (gettoken s1) as [[tok w] s2] eqn:E1.
    destruct (peek_gettoken _ _ _ _ _ _ Ep ltac:(by repeat constructor) E1) as [Hlt Hs2].
    specialize (IH (BACK c) s2 ltac:(lia) Hc). destruct (parsebacks fuel (BACK c) s2) as [[c' s3]|e]; [|done].
    cbn in *. destruct IH as [Hs3 Hw]. split; [by etrans | done].
Qed.

Lemma redircmds_words c rs : all_words (redircmds c rs) = all_words c ++ map file rs.
Proof.
  unfold redircmds. revert c. induction rs as [|r rs IH]; intros c; cbn [fold_left map]; [by rewrite app_nil_r|].
  rewrite IH. cbn. by rewrite <- app_assoc.
Qed.

Definition parsed (s : ptr) (r : cmd * ptr) : Prop := suffix r.2 s /\ words_ok (all_words r.1).

Lemma parse_ok fuel :
  (forall s, (4 * length s + 4 <= fuel)%nat -> suffix s line -> good (parsed s) (parseline fuel s)) /\
  (forall s, (4 * length s + 3 <= fuel)%nat -> suffix s line -> good (parsed s) (parsepipe fuel s)) /\
  (forall s, (4 * length s + 2 <= fuel)%nat -> suffix s line -> good (parsed s) (parseexec fuel s)) /\
  (forall s, (4 * length s + 1 <= fuel)%nat -> suffix s line -> good (parsed s) (parseblock fuel s)).
Proof.
  induction fuel as [|fuel (IHl & IHp & IHe & IHb)]; [split_and!; intros; lia|].
  split_and!; intros s Hf Hs.
  - cbn [parseline]. eapply good_bind; [apply IHp; [lia | done]|]. intros [c s1] [Hs1 Hc]. cbn in Hs1, Hc.
    pose proof (suffix_length_le _ _ Hs1).
    eapply good_bind; [apply (parsebacks_ok (length s1)); done|]. intros [c2 s2] [Hs2 Hc2]. cbn in Hs2, Hc2.
    assert (Hs2' : suffix s2 s) by (by etrans). pose proof (suffix_length_le _ _ Hs2').
    destruct (peek s2 (chr ";")) as [b s3] eqn:Ep. destruct (peek_spec _ _ _ _ Ep) as [Hs3 _].
    destruct b; [|split; [by etrans | done]].
    destruct (gettoken s3) as [[tok w] s4] eqn:Eg.
    destruct (peek_gettoken _ _ _ _ _ _ Ep ltac:(by repeat constructor) Eg) as [Hlt Hs4].
    assert (Hs4' : suffix s4 s) by (by etrans).
    eapply good_bind; [apply IHl; [lia | by etrans]|]. intros [d s5] [Hs5 Hd]. split; [by etrans|].
    cbn. by apply Forall_app.
  - cbn [parsepipe]. eapply good_bind; [apply IHe; [lia | done]|]. intros [c s1] [Hs1 Hc]. cbn in Hs1, Hc.
    pose proof (suffix_length_le _ _ Hs1).
    destruct (peek s1 (chr "|")) as [b s3] eqn:Ep. destruct (peek_spec _ _ _ _ Ep) as [Hs3 _].
    destruct b; [|split; [by etrans | done]].
    destruct (gettoken s3) as [[tok w] s4] eqn:Eg.
    destruct (peek_gettoken _ _ _ _ _ _ Ep ltac:(by repeat constructor) Eg) as [Hlt Hs4].
    assert (Hs4' : suffix s4 s) by (by etrans).
    eapply good_bind; [apply IHp; [lia | by etrans]|]. intros [d s5] [Hs5 Hd]. split; [by etrans|].
    cbn. by apply Forall_app.
  - cbn [parseexec]. destruct (peek s (chr "(")) as [b s1] eqn:Ep. destruct (peek_spec _ _ _ _ Ep) as [Hs1 _].
    pose proof (suffix_length_le _ _ Hs1). assert (Hsl : suffix s1 line) by (by etrans). destruct b.
    { specialize (IHb s1 ltac:(lia) Hsl). destruct (parseblock fuel s1) as [[c s2]|e]; [|done].
      destruct IHb as [H1 H2]. split; [by etrans | done]. }
    eapply good_bind; [apply (parseredirs_ok (length s1)); done|]. intros [rs1 s2] [Hs2 Hrs1]. cbn in Hs2, Hrs1.
    eapply good_bind; [apply (parseargs_ok (length s2)); [done | by etrans]|]. intros [[ws rs2] s3] (Hs3 & Hws & Hrs2).
    cbn in *. split; cbn.
    + etrans; [exact Hs3|]. by etrans.
    + rewrite redircmds_words, map_app. cbn. by rewrite !Forall_app.
  - cbn [parseblock]. destruct (peek s (chr "(")) as [b s1] eqn:Ep. destruct b; cbn [negb]; [|done].
    destruct (gettoken s1) as [[tok w] s2] eqn:Eg.
    destruct (peek_gettoken _ _ _ _ _ _ Ep ltac:(by repeat constructor) Eg) as [Hlt Hs2].
    assert (Hsl : suffix s2 line) by (by etrans).
    eapply good_bind; [apply IHl; [lia | done]|]. intros [c s3] [Hs3 Hc]. cbn in Hs3, Hc.
    destruct (peek s3 (chr ")")) as [b s4] eqn:Ep2. destruct b; cbn [negb]; [|done].
    destruct (gettoken s4) as [[tok2 w2] s5] eqn:Eg2.
    destruct (peek_gettoken _ _ _ _ _ _ Ep2 ltac:(by repeat constructor) Eg2) as [Hlt2 Hs5].
    assert (Hs5' : suffix s5 s) by (etrans; [exact Hs5|]; by etrans).
    eapply good_bind; [apply (parseredirs_ok (length s5)); [done | by etrans]|]. intros [rs s6] [Hs6 Hrs]. cbn in *.
    split; cbn; [by etrans|]. rewrite redircmds_words. by apply Forall_app.
Qed.

End line.

Lemma parse_words s c : parse s = Ok c -> Forall (good_word s) (all_words c).
Proof.
  unfold parse. destruct (parse_ok s (4 * S (length s))) as (H & _).
  specialize (H s ltac:(lia) (reflexivity s)). destruct (parseline _ s) as [[c' s']|e]; [|done]. cbn.
  destruct H as [_ H]. destruct (skip_ws s'); [|done]. by intros [= <-].
Qed.

(** The parser returns on every line, with a command or with one
    of its own error messages: it never recurses without consuming input. *)
Theorem parsecmd_total (s : list Z) : parsecmd s <> Err "fuel".
Proof.
  unfold parsecmd, parse. destruct (parse_ok s (4 * S (length s))) as (H & _).
  specialize (H s ltac:(lia) (reflexivity s)). destruct (parseline _ s) as [[c' s']|e]; cbn in *; [|congruence].
  by destruct (skip_ws s').
Qed.

(** ** nulterminate *)

(** The text of a word, and the C string that starts at an index of the
    buffer. *)
Definition text (w : word) : list Z := take (length (q w) - length (eq_ w)) (q w).

Fixpoint cstr (l : list Z) : list Z :=
  match l with [] => [] | c :: l => if c =? 0 then [] else c :: cstr l end.

Lemma nulterminate_fold n c buf : nulterminate n c buf = fold_left (fun b w => cut n (eq_ w) b) (all_words c) buf.
Proof.
  revert buf. induction c as [argv|c IH r|l IHl r IHr|l IHl r IHr|c IH]; intros buf; cbn; [done | | | | done].
  - by rewrite fold_left_app, <- IH.
  - by rewrite fold_left_app, <- IHl, <- IHr.
  - by rewrite fold_left_app, <- IHl, <- IHr.
Qed.

Lemma cuts_length n ws buf : length (fold_left (fun b w => cut n (eq_ w) b) ws buf) = length buf.
Proof.
  revert buf. induction ws as [|w ws IH]; intros buf; cbn; [done|]. rewrite IH. apply length_insert.
Qed.

Lemma cuts_lookup n ws buf i :
  (i < length buf)%nat ->
  fold_left (fun b w => cut n (eq_ w) b) ws buf !! i =
  if decide (i ∈ map (fun w => n - length (eq_ w))%nat ws) then Some 0 else buf !! i.
Proof.
  revert buf. induction ws as [|w ws IH]; intros buf Hi; cbn [fold_left map]; [by rewrite decide_False by set_solver|].
  rewrite IH by (unfold cut; by rewrite length_insert). unfold cut.
  destruct (decide (i ∈ map (fun w => n - length (eq_ w))%nat ws)) as [H|H]; [by rewrite decide_True by set_solver|].
  destruct (decide (i = n - length (eq_ w))%nat) as [->|Hne].
  - rewrite decide_True by set_solver. by apply list_lookup_insert_eq.
  - rewrite decide_False by set_solver. by apply list_lookup_insert_ne.
Qed.

Lemma cstr_take l k :
  l !! k = Some 0 -> (forall i c, (i < k)%nat -> l !! i = Some c -> c <> 0) -> cstr l = take k l.
Proof.
  revert k. induction l as [|c l IH]; intros k Hk Hlt; [done|]. destruct k as [|k]; cbn.
  - cbn in Hk. by simplify_eq.
  - rewrite (proj2 (Z.eqb_neq c 0)) by (apply (Hlt 0%nat c); [lia | done]). f_equal.
    apply IH; [done|]. intros i d Hi Hd. apply (Hlt (S i) d); [lia | done].
Qed.

(** Where a good word sits in the line. *)
Lemma good_word_at line w i :
  good_word line w -> (i <= length (text w))%nat ->
  let off := (length line - length (q w))%nat in
  (off + length (text w) = length line - length (eq_ w))%nat /\
  (line ++ [0]) !! (off + i)%nat = (q w ++ [0]) !! i /\
  ((i < length (text w))%nat -> exists c, text w !! i = Some c /\ (q w ++ [0]) !! i = Some c /\ is_word_char c = true).
Proof.
  intros ([k ->] & Hb & t & Hne & Hq & Ht) Hi. cbn zeta.
  assert (Htx : text w = t).
  { unfold text. rewrite Hq, length_app. replace (length t + length (eq_ w) - length (eq_ w))%nat with (length t) by lia.
    by apply take_app_length. }
  rewrite Htx in *. rewrite length_app. replace (length k + length (q w) - length (q w))%nat with (length k) by lia.
  assert (Hlq : length (q w) = (length t + length (eq_ w))%nat) by (by rewrite Hq, length_app). split_and!.
  - lia.
  - rewrite <- app_assoc. rewrite lookup_app_r by lia. f_equal. lia.
  - intros Hlt. destruct (lookup_lt_is_Some_2 t i Hlt) as [c Hc]. exists c. split_and!; [done | |].
    + rewrite Hq. by rewrite <- app_assoc, lookup_app_l.
    + exact (proj1 (Forall_lookup _ t) Ht i c Hc).
Qed.

(** A cut falls on a boundary of the line. *)
Lemma cut_not_word line w c :
  good_word line w -> (line ++ [0]) !! (length line - length (eq_ w))%nat = Some c -> c = 0 \/ is_word_char c = false.
Proof.
  intros ([k ->] & Hb & t & Hne & Hq & Ht). rewrite Hq, !length_app.
  replace (length k + (length t + length (eq_ w)) - length (eq_ w))%nat with (length (k ++ t)) by (rewrite length_app; lia).
  rewrite (app_assoc k t), <- (app_assoc _ (eq_ w)), lookup_app_r, Nat.sub_diag by lia.
  destruct (eq_ w) as [|d e]; cbn; intros [= <-]; [by left | by right].
Qed.

(** After parsecmd every word of the command (argument or file
    name) is, in the line's own buffer, a NUL-terminated string whose text is
    exactly the token that was read: the terminators written for the other words
    never fall inside it. *)
Theorem nulterminate_spec (s : list Z) (c : cmd) (buf : list Z) :
  Forall (fun x => x <> 0) s -> parsecmd s = Ok (c, buf) ->
  length buf = S (length s) /\
  forall w, w ∈ all_words c ->
    text w <> [] /\ Forall (fun x => is_word_char x = true) (text w) /\
    cstr (drop (length s - length (q w)) buf) = text w.
Proof.
  intros Hnz. unfold parsecmd. destruct (parse s) as [c0|] eqn:Ep; [|done].
  intros [= -> <-].
  pose proof (parse_words _ _ Ep) as Hgw. rewrite list.Forall_forall in Hgw. rewrite nulterminate_fold.
  set (b := fold_left _ _ _).
  assert (Hlen : length b = S (length s)).
  { unfold b. rewrite cuts_length, length_app. cbn. lia. }
  split; [done|]. intros w Hw. pose proof (Hgw w Hw) as Hg.
  assert (Hlook : forall i, (i < S (length s))%nat -> b !! i =
    if decide (i ∈ map (fun w => length s - length (eq_ w))%nat (all_words c)) then Some 0 else (s ++ [0]) !! i).
  { intros i Hi. apply cuts_lookup. rewrite length_app. cbn. lia. }
  assert (Htx : text w <> [] /\ Forall (fun x => is_word_char x = true) (text w)).
  { destruct Hg as (_ & _ & t & Hne & Hq & Ht). unfold text. rewrite Hq, length_app.
    replace (length t + length (eq_ w) - length (eq_ w))%nat with (length t) by lia. by rewrite take_app_length. }
  split_and!; [apply Htx | apply Htx|].
  destruct (good_word_at s w (length (text w)) Hg ltac:(lia)) as (Hend & _ & _).
  assert (Hin : forall i, (i < length (text w))%nat ->
    exists x, text w !! i = Some x /\ b !! (length s - length (q w) + i)%nat = Some x /\ x <> 0).
  { intros i Hi. destruct (good_word_at s w i Hg ltac:(lia)) as (_ & Hl & Hx).
    destruct (Hx Hi) as (x & Htxt & Hqx & Hwc). rewrite Hqx in Hl. exists x.
    assert (Hx0 : x <> 0).
    { rewrite lookup_app_l in Hl by lia. exact (proj1 (Forall_lookup _ s) Hnz _ _ Hl). }
    split_and!; [done | | done]. rewrite Hlook by lia. rewrite decide_False; [done|].
    intros (w2 & Heq & Hw2)%list_elem_of_fmap. rewrite Heq in Hl.
    destruct (cut_not_word _ _ _ (Hgw w2 Hw2) Hl) as [?|?]; [done | congruence]. }
  rewrite (cstr_take _ (length (text w))).
  - apply list_eq. intros i. destruct (decide (i < length (text w))%nat) as [Hi|Hi].
    + rewrite lookup_take_lt, lookup_drop by done. destruct (Hin i Hi) as (x & -> & -> & _). done.
    + rewrite lookup_take_ge by lia. symmetry. apply lookup_ge_None_2. lia.
  - rewrite lookup_drop, Hend, Hlook by lia. rewrite decide_True; [done|]. apply list_elem_of_fmap. eauto.
  - intros i x Hi Hx. rewrite lookup_drop in Hx. destruct (Hin i Hi) as (y & _ & Hy & Hy0). congruence.
Qed.

Lemma nulterminate_spec_witness :
  exists s c buf, parsecmd s = Ok (c, buf) /\ map text (all_words c) = [chr "cat"; chr "in"; chr "wc"] /\
    length buf = S (length s).
Proof.
  exists (chr "cat<in|wc &"). eexists _, _. split_and!; [vm_compute; reflexivity | vm_compute; reflexivity|].
  eapply (nulterminate_spec (chr "cat<in|wc &")); [|vm_compute; reflexivity].
  vm_compute. repeat constructor; discriminate.
Defined.
