(* ===== verification/User.v ===== *)
(** User programs (cat.c, echo.c, init.c, kill.c, ln.c, ls.c, mkdir.c, rm.c,
    zombie.c, and the parts of ulib.c and printf.c that make system calls).

    A program is an interaction tree whose events are the system calls of
    user.h; what a call returns is the answer to its event.  Strings are the
    lists of their characters.  A program that does not return has a tree
    without results. *)

From ITree Require Import Core.ITreeDefinition.
From S2P Require Import Prelude Word Mem Proc Fs Dir Printf Text Sh.

Local Open Scope Z_scope.

(** ** System calls (user.h) *)

Abbreviation str := (list Z) (only parsing).

(** pipe fills an array and read and fstat fill a buffer: their answers carry
    the content with the return value. *)
Inductive sysE : Type -> Type :=
| SFork : sysE Z
| SExit : sysE Empty_set
| SWait : sysE Z
| SPipe : sysE (Z * (Z * Z))
| SWrite (fd : Z) (l : list Z) : sysE Z
| SRead (fd n : Z) : sysE (Z * list Z)
| SClose (fd : Z) : sysE Z
| SKill (pid signum : Z) : sysE Z
| SExec (path : str) (argv : list str) : sysE Z
| SOpen (path : str) (omode : Z) : sysE Z
| SMknod (path : str) (major minor : Z) : sysE Z
| SUnlink (path : str) : sysE Z
| SFstat (fd : Z) : sysE (Z * stat)
| SLink (old new : str) : sysE Z
| SMkdir (path : str) : sysE Z
| SChdir (path : str) : sysE Z
| SDup (fd : Z) : sysE Z
| SSleep (n : Z) : sysE Z.

Abbreviation prog := (itree sysE).

#[export] Instance prog_ret : MRet prog := fun A x => go (RetF x).
#[export] Instance prog_bind : MBind prog := fun A B k t => ITree.bind t k.

Definition call {A} (e : sysE A) : prog A := ITree.trigger e.

Definition exit {A} : prog A := call SExit ≫= fun x : Empty_set => match x with end.

(** ** Output (printf.c) *)

Definition putc (fd c : Z) : prog unit := call (SWrite fd [c]) ≫= fun _ => mret tt.

Fixpoint puts (fd : Z) (l : list Z) : prog unit :=
  match l with [] => mret tt | c :: l => putc fd c ≫= fun _ => puts fd l end.

(** The arguments after the format: a string is passed by its address. *)
Inductive parg := Str (s : str) | Num (n : Z).

Definition arg_word (args : list parg) (k : nat) : Z :=
  match args !! k with Some (Num n) => n | _ => Z.of_nat (S k) end.
Definition arg_string (args : list parg) (a : Z) : str :=
  match args !! Z.to_nat (a - 1) with Some (Str s) => s | _ => [] end.

(** printf(fd, fmt, ...), with the formatting of Printf.v. *)
Definition uprintf (fd : Z) (fmt : str) (args : list parg) : prog unit :=
  puts fd (printf (arg_word args) (arg_string args) fmt).

(** A format that ends in a newline. *)
Definition ln (s : string) : str := chr s ++ [10].

(** ** ulib.c *)

(** for(i=0; i+1 < max; ), with [n] rounds left: the characters stored before
    the NUL. *)
Fixpoint ugets (n : nat) : prog str :=
  match n with
  | O => mret []
  | S n =>
      call (SRead 0 1) ≫= fun '(cc, l) =>
      if cc <? 1 then mret []
      else
        let c := hd 0 l in
        if (c =? 10) || (c =? 13) then mret [c] else ugets n ≫= fun r => mret (c :: r)
  end.

Definition ustat (n : str) : prog (Z * stat) :=
  call (SOpen n O_RDONLY) ≫= fun fd =>
  if fd <? 0 then mret (-1, mk_stat 0 0 0 0 0)
  else
    call (SFstat fd) ≫= fun r =>
    call (SClose fd) ≫= fun _ => mret r.

(** ** The programs *)

(** The rounds of the loop from argument i on. *)
Fixpoint echo_loop (args : list str) : prog Empty_set :=
  match args with
  | [] => exit
  | a :: rest =>
      uprintf 1 (chr "%s%s") [Str a; Str match rest with [] => [10] | _ => [32] end] ≫= fun _ => echo_loop rest
  end.

Definition echo (argv : list str) : prog Empty_set := echo_loop (tl argv).

(** atoi on the string (Mem.v). *)
Definition atoi_str (s : str) : Z := default 0 (atoi (S (length s)) (char_at s) 0).

Fixpoint kill_loop (args : list str) : prog Empty_set :=
  match args with
  | [] => exit
  | a :: rest => call (SKill (atoi_str a) SIGKILL) ≫= fun _ => kill_loop rest
  end.

Definition kill_main (argv : list str) : prog Empty_set :=
  if (length argv <? 2)%nat then uprintf 2 (ln "usage: kill pid...") [] ≫= fun _ => exit
  else kill_loop (tl argv).

Definition ln_main (argv : list str) : prog Empty_set :=
  match argv with
  | [_; a; b] =>
      call (SLink a b) ≫= fun r =>
      (if r <? 0 then uprintf 2 (ln "link %s %s: failed") [Str a; Str b] else mret tt) ≫= fun _ => exit
  | _ => uprintf 2 (ln "Usage: ln old new") [] ≫= fun _ => exit
  end.

Fixpoint mkdir_loop (args : list str) : prog Empty_set :=
  match args with
  | [] => exit
  | a :: rest =>
      call (SMkdir a) ≫= fun r =>
      if r <? 0 then uprintf 2 (ln "mkdir: %s failed to create") [Str a] ≫= fun _ => exit else mkdir_loop rest
  end.

Definition mkdir (argv : list str) : prog Empty_set :=
  if (length argv <? 2)%nat then uprintf 2 (ln "Usage: mkdir files...") [] ≫= fun _ => exit
  else mkdir_loop (tl argv).

Fixpoint rm_loop (args : list str) : prog Empty_set :=
  match args with
  | [] => exit
  | a :: rest =>
      call (SUnlink a) ≫= fun r =>
      if r <? 0 then uprintf 2 (ln "rm: %s failed to delete") [Str a] ≫= fun _ => exit else rm_loop rest
  end.

Definition rm (argv : list str) : prog Empty_set :=
  if (length argv <? 2)%nat then uprintf 2 (ln "Usage: rm files...") [] ≫= fun _ => exit
  else rm_loop (tl argv).

Definition zombie : prog Empty_set :=
  call SFork ≫= fun pid =>
  (if 0 <? pid then call (SSleep 5) ≫= fun _ => mret tt else mret tt) ≫= fun _ => exit.

(** *** cat *)

Definition CATBUF : Z := 512.

Definition cat (fd : Z) : prog unit :=
  ITree.iter (fun _ : unit =>
    call (SRead fd CATBUF) ≫= fun '(n, l) =>
    if 0 <? n then
      call (SWrite 1 (take (Z.to_nat n) l)) ≫= fun w =>
      if negb (w =? n) then uprintf 1 (ln "cat: write error") [] ≫= fun _ => exit
      else mret (inl tt)
    else if n <? 0 then uprintf 1 (ln "cat: read error") [] ≫= fun _ => exit
    else mret (inr tt)) tt.

Fixpoint cat_files (args : list str) : prog Empty_set :=
  match args with
  | [] => exit
  | a :: rest =>
      call (SOpen a 0) ≫= fun fd =>
      if fd <? 0 then uprintf 1 (ln "cat: cannot open %s") [Str a] ≫= fun _ => exit
      else cat fd ≫= fun _ => call (SClose fd) ≫= fun _ => cat_files rest
  end.

Definition cat_main (argv : list str) : prog Empty_set :=
  if (length argv <=? 1)%nat then cat 0 ≫= fun _ => exit else cat_files (tl argv).

(** *** init *)

Definition console_path : str := chr "console".

(** while((wpid=wait()) >= 0 && wpid != pid) *)
Definition init_wait (pid : Z) : prog unit :=
  ITree.iter (fun _ : unit =>
    call SWait ≫= fun wpid =>
    if (0 <=? wpid) && negb (wpid =? pid) then uprintf 1 (ln "zombie!") [] ≫= fun _ => mret (inl tt)
    else mret (inr tt)) tt.

(** One round of for(;;). *)
Definition init_round : prog unit :=
  uprintf 1 (ln "init: starting sh") [] ≫= fun _ =>
  call SFork ≫= fun pid =>
  if pid <? 0 then uprintf 1 (ln "init: fork failed") [] ≫= fun _ => exit
  else if pid =? 0 then
    call (SExec (chr "sh") [chr "sh"]) ≫= fun _ =>
    uprintf 1 (ln "init: exec sh failed") [] ≫= fun _ => exit
  else init_wait pid.

Definition init_loop : prog Empty_set := ITree.iter (fun _ : unit => init_round ≫= fun _ => mret (inl tt)) tt.

Definition init_main : prog Empty_set :=
  call (SOpen console_path O_RDWR) ≫= fun fd =>
  (if fd <? 0 then
     call (SMknod console_path 1 1) ≫= fun _ =>
     call (SOpen console_path O_RDWR) ≫= fun _ => mret tt
   else mret tt) ≫= fun _ =>
  call (SDup 0) ≫= fun _ =>
  call (SDup 0) ≫= fun _ =>
  init_loop.

(** *** ls *)

(** for(p=path+strlen(path); p >= path && *p != '/'; p--): [l] is the part of the
    path before p, last character first. *)
Fixpoint after_slash (l p : str) : str :=
  match l with
  | [] => p
  | c :: l => if c =? 47 then p else after_slash l (c :: p)
  end.

Definition fmtname (path : str) : str :=
  let p := after_slash (rev path) [] in
  if DIRSIZ <=? Z.of_nat (length p) then p else p ++ replicate (Z.to_nat DIRSIZ - length p) 32.

Definition ls_line (path : str) (st : stat) : prog unit :=
  uprintf 1 (ln "%s %d %d %d") [Str (fmtname path); Num (st_type st); Num (st_ino st); Num (st_size st)].

(** The entries of the directory open at [fd]. *)
Definition ls_dir (path : str) (fd : Z) : prog unit :=
  ITree.iter (fun _ : unit =>
    call (SRead fd DIRENT_SIZE) ≫= fun '(n, de) =>
    if negb (n =? DIRENT_SIZE) then mret (inr tt)
    else if load16 (char_at de) 0 =? 0 then mret (inl tt)
    else
      let buf := path ++ [47] ++ Sh.cstr (take (Z.to_nat DIRSIZ) (drop 2 de)) in
      ustat buf ≫= fun '(r, st) =>
      (if r <? 0 then uprintf 1 (ln "ls: cannot stat %s") [Str buf] else ls_line buf st) ≫= fun _ =>
      mret (inl tt)) tt.

Definition LSBUF : Z := 512.

Definition ls (path : str) : prog unit :=
  call (SOpen path 0) ≫= fun fd =>
  if fd <? 0 then uprintf 2 (ln "ls: cannot open %s") [Str path]
  else
    call (SFstat fd) ≫= fun '(r, st) =>
    if r <? 0 then
      uprintf 2 (ln "ls: cannot stat %s") [Str path] ≫= fun _ =>
      call (SClose fd) ≫= fun _ => mret tt
    else
      (if st_type st =? T_FILE then ls_line path st
       else if st_type st =? T_DIR then
         if LSBUF <? Z.of_nat (length path) + 1 + DIRSIZ + 1 then uprintf 1 (ln "ls: path too long") []
         else ls_dir path fd
       else mret tt) ≫= fun _ =>
      call (SClose fd) ≫= fun _ => mret tt.

Fixpoint ls_args (args : list str) : prog Empty_set :=
  match args with [] => exit | a :: rest => ls a ≫= fun _ => ls_args rest end.

Definition ls_main (argv : list str) : prog Empty_set :=
  if (length argv <? 2)%nat then ls [46] ≫= fun _ => exit else ls_args (tl argv).

(** ** Running a program

    The kernel, seen from one process, is a function from calls to answers with
    a state of its own; no answer ends the process. *)

Definition kernel (S : Type) : Type := forall X, sysE X -> S -> option (X * S).

Inductive ran (S R : Type) :=
| Returned (r : R) (s : S)
| Ended (s : S)
| Unfinished.
Arguments Returned {S R} r s.
Arguments Ended {S R} s.
Arguments Unfinished {S R}.

Section run.
Context {S : Type} (k : kernel S).

Fixpoint run {R} (fuel : nat) (t : prog R) (s : S) : ran S R :=
  match fuel with
  | O => Unfinished
  | Datatypes.S fuel =>
      match observe t with
      | RetF r => Returned r s
      | TauF t => run fuel t s
      | VisF e f => match k _ e s with Some (x, s) => run fuel (f x) s | None => Ended s end
      end
  end.

(** The program comes to the result, whatever fuel is left over. *)
Definition runs {R} (t : prog R) (s : S) (r : ran S R) : Prop := exists n, forall m, (n <= m)%nat -> run m t s = r.

Lemma runs_observe {R} (t u : prog R) s r : observe t = observe u -> runs u s r -> runs t s r.
Proof. intros H [n Hn]. exists n. intros m Hm. rewrite <- (Hn m Hm). destruct m; cbn; by rewrite ?H. Qed.

Lemma runs_ret {R} (x : R) s : runs (mret x) s (Returned x s).
Proof. exists 1%nat. intros [|m] Hm; [lia | done]. Qed.

Lemma runs_tau {R} (t : prog R) s r : runs t s r -> runs (go (TauF t)) s r.
Proof. intros [n Hn]. exists (Datatypes.S n). intros [|m] Hm; [lia|]. cbn. apply Hn. lia. Qed.

Lemma runs_call {A R} (e : sysE A) (f : A -> prog R) s x s' r :
  k _ e s = Some (x, s') -> runs (f x) s' r -> runs (call e ≫= f) s r.
Proof.
  intros He [n Hn]. exists (Datatypes.S n). intros [|m] Hm; [lia|]. cbn. rewrite He. rewrite <- (Hn m) by lia. destruct m; done.
Qed.

Lemma observe_bind {A R} (t : prog A) (f : A -> prog R) :
  observe (t ≫= f) = match observe t with
                     | RetF x => observe (f x)
                     | TauF t => TauF (t ≫= f)
                     | VisF e h => VisF e (fun x => h x ≫= f)
                     end.
Proof.
  transitivity (observe (match observe t with
                         | RetF x => f x
                         | TauF t => go (TauF (t ≫= f))
                         | VisF e h => go (VisF e (fun x => h x ≫= f))
                         end)); [reflexivity | by destruct (observe t)].
Qed.

Lemma runs_exit {A R} (f : A -> prog R) s : k _ SExit s = None -> runs (exit ≫= f) s (Ended s).
Proof.
  intros He. exists 1%nat. intros [|m] Hm; [lia|]. cbn [run]. rewrite observe_bind. unfold exit. rewrite observe_bind. cbn. by rewrite He.
Qed.

Lemma run_observe {R} (t u : prog R) n s : observe t = observe u -> run n t s = run n u s.
Proof. intros H. destruct n; cbn; by rewrite ?H. Qed.

Lemma run_bind {A R} n (t : prog A) (f : A -> prog R) s x s' :
  run n t s = Returned x s' -> exists j, forall m, run (n + m) (t ≫= f) s = run (j + m) (f x) s'.
Proof.
  revert t s. induction n as [|n IH]; intros t s; [done|]. cbn [run]. destruct (observe t) as [y|u|X e h] eqn:Et.
  - intros [= -> ->]. exists (Datatypes.S n). intros m. apply run_observe. by rewrite observe_bind, Et.
  - intros [j Hj]%IH. exists j. intros m. cbn [run Nat.add]. rewrite observe_bind, Et. apply Hj.
  - destruct (k X e s) as [[y s1]|] eqn:Ek; [|done]. intros [j Hj]%IH. exists j. intros m. cbn [run Nat.add]. rewrite observe_bind, Et, Ek. apply Hj.
Qed.

Lemma runs_bind {A R} (t : prog A) (f : A -> prog R) s x s' r :
  runs t s (Returned x s') -> runs (f x) s' r -> runs (t ≫= f) s r.
Proof.
  intros [n Hn] [n' Hn']. destruct (run_bind n t f s x s' (Hn n ltac:(lia))) as [j Hj]. exists (n + n')%nat. intros m Hm.
  replace m with (n + (m - n))%nat by lia. rewrite Hj. apply Hn'. lia.
Qed.

Lemma runs_ended {A R} (t : prog A) (f : A -> prog R) s s' : runs t s (Ended s') -> runs (t ≫= f) s (Ended s').
Proof.
  intros [n Hn]. exists n. intros m Hm. specialize (Hn m Hm). clear Hm. revert t s Hn. induction m as [|m IH]; intros t s; [done|].
  cbn [run]. rewrite observe_bind. destruct (observe t) as [y|u|X e h]; [done | apply IH|]. destruct (k X e s) as [[y s1]|]; [apply IH | by intros [= ->]].
Qed.

(** What follows a round of a loop. *)
Definition after_round {I R} (body : I -> prog (I + R)) (lr : I + R) : prog R :=
  match lr with inl i => go (TauF (ITree.iter body i)) | inr r => mret r end.

Lemma observe_iter {I R} (body : I -> prog (I + R)) i : observe (ITree.iter body i) = observe (body i ≫= after_round body).
Proof. reflexivity. Qed.

Lemma runs_iter_next {I R} (body : I -> prog (I + R)) i s j s' r :
  runs (body i) s (Returned (inl j) s') -> runs (ITree.iter body j) s' r -> runs (ITree.iter body i) s r.
Proof.
  intros H1 H2. apply (runs_observe _ _ _ _ (observe_iter body i)).
  eapply runs_bind; [exact H1|]. by apply runs_tau.
Qed.

Lemma runs_iter_done {I R} (body : I -> prog (I + R)) i s x s' :
  runs (body i) s (Returned (inr x) s') -> runs (ITree.iter body i) s (Returned x s').
Proof.
  intros H1. apply (runs_observe _ _ _ _ (observe_iter body i)).
  eapply runs_bind; [exact H1|]. apply runs_ret.
Qed.

Lemma runs_iter_ended {I R} (body : I -> prog (I + R)) i s s' : runs (body i) s (Ended s') -> runs (ITree.iter body i) s (Ended s').
Proof.
  intros H1. apply (runs_observe _ _ _ _ (observe_iter body i)).
  by apply runs_ended.
Qed.
End run.

(** ** cat and echo on files

    A kernel with named files, one of which can be open (descriptor 3), standard
    input, and standard output.  What can be read is the list of the pieces that
    successive reads deliver at most (Text.v). *)

Record desk := mk_desk {
  d_files : str -> option (list (list Z));
  d_stdin : list (list Z);
  d_open : list (list Z);
  d_out : list Z;
}.

Definition read_piece (n : Z) (l : list (list Z)) : Z * list Z * list (list Z) :=
  let (b, l) := Text.read n l in (Z.of_nat (length b), b, l).

Definition source (fd : Z) (s : desk) : list (list Z) := if fd =? 0 then d_stdin s else d_open s.
Definition set_source (fd : Z) (l : list (list Z)) (s : desk) : desk :=
  if fd =? 0 then mk_desk (d_files s) l (d_open s) (d_out s) else mk_desk (d_files s) (d_stdin s) l (d_out s).

Definition desk_kernel : kernel desk := fun X e =>
  match e in sysE X return desk -> option (X * desk) with
  | SOpen p _ => fun s =>
      match d_files s p with
      | Some l => Some (3, mk_desk (d_files s) (d_stdin s) l (d_out s))
      | None => Some (-1, s)
      end
  | SRead fd n => fun s =>
      let '(r, l) := read_piece n (source fd s) in Some (r, set_source fd l s)
  | SWrite fd l => fun s =>
      Some (Z.of_nat (length l), if fd =? 1 then mk_desk (d_files s) (d_stdin s) (d_open s) (d_out s ++ l) else s)
  | SClose _ => fun s => Some (0, mk_desk (d_files s) (d_stdin s) [] (d_out s))
  | _ => fun _ => None
  end.

Definition desk_out (l : list Z) (s : desk) : desk := mk_desk (d_files s) (d_stdin s) (d_open s) (d_out s ++ l).

Lemma desk_out_nil s : desk_out [] s = s.
Proof. unfold desk_out. rewrite app_nil_r. by destruct s. Qed.

Lemma desk_out_app a b s : desk_out b (desk_out a s) = desk_out (a ++ b) s.
Proof. unfold desk_out. cbn. by rewrite app_assoc. Qed.

Lemma runs_puts l s : runs desk_kernel (puts 1 l) s (Returned tt (desk_out l s)).
Proof.
  revert s. induction l as [|c l IH]; intros s; cbn [puts]; [rewrite desk_out_nil; apply runs_ret|].
  eapply runs_bind; [eapply runs_call; [reflexivity | apply runs_ret]|]. cbn [Z.eqb Pos.eqb].
  replace (desk_out (c :: l) s) with (desk_out l (desk_out [c] s)) by (by rewrite desk_out_app). apply IH.
Qed.

Lemma runs_print_exit {R} fmt args s :
  runs desk_kernel (uprintf 1 fmt args ≫= fun _ => @exit R) s (Ended (desk_out (printf (arg_word args) (arg_string args) fmt) s)).
Proof.
  eapply runs_bind; [apply runs_puts|]. exists 1%nat. intros [|m] Hm; [lia|]. unfold exit. cbn [run]. by rewrite observe_bind.
Qed.

(** Pieces as read delivers them: none is empty, which would be the end of the
    file. *)
Definition pieces_ok (l : list (list Z)) : Prop := Forall (fun b => b <> []) l.

Lemma read_piece_nil n : read_piece n [] = (0, [], []).
Proof. done. Qed.

Lemma read_piece_cons n b l : 0 < n -> pieces_ok (b :: l) ->
  exists c l', read_piece n (b :: l) = (Z.of_nat (length c), c, l') /\ c <> [] /\ pieces_ok l' /\ c ++ List.concat l' = List.concat (b :: l).
Proof.
  intros Hn [Hb Hl]%list.Forall_cons. unfold read_piece, Text.read. destruct (Z.leb_spec (Z.of_nat (length b)) n) as [H|H].
  - exists b, l. done.
  - exists (take (Z.to_nat n) b), (drop (Z.to_nat n) b :: l). split_and!; [done | | |].
    + destruct b; [done|]. destruct (Z.to_nat n) eqn:E; [lia | done].
    + constructor; [|done]. intros E%(f_equal length). rewrite length_drop in E. cbn in E. lia.
    + cbn [List.concat]. by rewrite app_assoc, take_drop.
Qed.

Lemma set_source_twice fd l l' s : set_source fd l' (set_source fd l s) = set_source fd l' s.
Proof. unfold set_source. by case_if. Qed.

Lemma source_set fd l s : source fd (set_source fd l s) = l.
Proof. unfold source, set_source. by case_if. Qed.

Lemma out_source fd l b s : desk_out b (set_source fd l s) = set_source fd l (desk_out b s).
Proof. unfold desk_out, set_source. by case_if. Qed.

Lemma source_out fd b s : source fd (desk_out b s) = source fd s.
Proof. done. Qed.

(** cat copies what it reads to its output, to the end of the file. *)
Lemma cat_runs fd s : pieces_ok (source fd s) ->
  runs desk_kernel (cat fd) s (Returned tt (set_source fd [] (desk_out (List.concat (source fd s)) s))).
Proof.
  remember (length (List.concat (source fd s))) as n eqn:Hn. assert (Hle : (length (List.concat (source fd s)) <= n)%nat) by lia. clear Hn.
  revert s Hle. induction n as [n IH] using lt_wf_ind. intros s Hle Hp. unfold cat. destruct (source fd s) as [|b l] eqn:Es.
  - rewrite desk_out_nil. apply runs_iter_done. eapply runs_call; [cbn; rewrite Es; reflexivity|]. apply runs_ret.
  - destruct (read_piece_cons CATBUF b l) as (c & l' & Er & Hc & Hl' & Hcat); [done | done|].
    eapply runs_iter_next.
    + eapply runs_call; [cbn [desk_kernel]; rewrite Es, Er; reflexivity|]. cbn [fst snd].
      rewrite (proj2 (Z.ltb_lt _ _)) by (destruct c; [done | cbn; lia]). rewrite Nat2Z.id, take_ge by lia.
      eapply runs_call; [reflexivity|]. rewrite Z.eqb_refl. cbn [negb]. apply runs_ret.
    + cbn [Z.eqb Pos.eqb]. fold (desk_out c (set_source fd l' s)). rewrite <- Hcat, <- desk_out_app. rewrite out_source.
      assert (Hs : source fd (set_source fd l' (desk_out c s)) = l') by apply source_set.
      specialize (IH (length (List.concat l'))). rewrite <- Hcat, length_app in Hle. destruct c; [done|]. cbn [length] in Hle.
      specialize (IH ltac:(lia) (set_source fd l' (desk_out (z :: c) s))). rewrite Hs, out_source, set_source_twice in IH. apply IH; [lia | done].
Qed.

(** What [cat] prints for its arguments. *)
Fixpoint cat_output (files : str -> option (list (list Z))) (args : list str) : list Z :=
  match args with
  | [] => []
  | a :: rest =>
      match files a with
      | Some l => List.concat l ++ cat_output files rest
      | None => chr "cat: cannot open " ++ a ++ [10]
      end
  end.

Definition desk_files_ok (s : desk) : Prop := pieces_ok (d_stdin s) /\ forall a l, d_files s a = Some l -> pieces_ok l.

(** Cat writes the files named by its arguments, one after the
    other and each to its end, however short the pieces are that read delivers;
    at a name that cannot be opened it says so and stops.  Without arguments it
    copies its standard input. *)
Theorem cat_spec (argv : list str) (s : desk) :
  desk_files_ok s -> argv <> [] ->
  exists s', runs desk_kernel (cat_main argv) s (Ended s') /\
    d_out s' = d_out s ++ match tl argv with [] => List.concat (d_stdin s) | args => cat_output (d_files s) args end.
Proof.
  intros [Hin Hf] Hne. destruct argv as [|n args]; [done|]. cbn [tl]. unfold cat_main. destruct args as [|a args].
  - exists (set_source 0 [] (desk_out (List.concat (d_stdin s)) s)). split; [|done]. cbn [length Nat.leb].
    eapply runs_bind; [exact (cat_runs 0 s Hin)|]. exists 1%nat. intros [|m] Hm; [lia | done].
  - cbn [length Nat.leb tl]. clear Hne Hin. generalize (a :: args) as l. clear a args. intros l. revert s Hf.
    induction l as [|a l IH]; intros s Hf; cbn [cat_files cat_output].
    + exists s. rewrite app_nil_r. split; [|done]. exists 1%nat. intros [|m] Hm; [lia | done].
    + destruct (d_files s a) as [ps|] eqn:Ea.
      * set (s1 := mk_desk (d_files s) (d_stdin s) ps (d_out s)).
        destruct (IH (mk_desk (d_files s) (d_stdin s) [] (d_out s ++ List.concat ps)) Hf) as (s' & Hr & Ho). exists s'. split; [|cbn [d_out d_files] in Ho; by rewrite Ho, <- app_assoc].
        eapply runs_call; [cbn [desk_kernel]; rewrite Ea; reflexivity|]. cbn [Z.ltb Z.compare].
        eapply runs_bind; [apply (cat_runs 3 s1); exact (Hf a ps Ea)|]. eapply runs_call; [reflexivity|]. exact Hr.
      * eexists. split; [eapply runs_call; [cbn [desk_kernel]; rewrite Ea; reflexivity|]; cbn [Z.ltb Z.compare]; apply runs_print_exit|].
        unfold desk_out. cbn [d_out]. done.
Qed.

Fixpoint join (args : list str) : list Z :=
  match args with [] => [] | [a] => a ++ [10] | a :: rest => a ++ [32] ++ join rest end.

Lemma print_two a b : printf (arg_word [Str a; Str b]) (arg_string [Str a; Str b]) (chr "%s%s") = a ++ b.
Proof. transitivity (a ++ b ++ []); [done | by rewrite app_nil_r]. Qed.

(** echo writes its arguments, separated by blanks, on one line. *)
Theorem echo_spec (argv : list str) (s : desk) : runs desk_kernel (echo argv) s (Ended (desk_out (join (tl argv)) s)).
Proof.
  unfold echo. generalize (tl argv). clear argv. intros l. revert s. induction l as [|a l IH]; intros s; cbn [echo_loop].
  - rewrite desk_out_nil. exists 1%nat. intros [|m] Hm; [lia | done].
  - eapply runs_bind; [apply runs_puts|].
    replace (desk_out (join (a :: l)) s) with (desk_out (join l) (desk_out (a ++ match l with [] => [10] | _ => [32] end) s)).
    2:{ rewrite desk_out_app. f_equal. cbn [join]. destruct l; [by rewrite app_nil_r | by rewrite <- app_assoc]. }
    rewrite print_two. apply IH.
Qed.

Definition sample_desk : desk :=
  mk_desk (fun p => if decide (p = chr "a") then Some [[1; 2]; [3]] else if decide (p = chr "b") then Some [[4]] else None) [] [] [].

Lemma cat_spec_witness :
  exists s', runs desk_kernel (cat_main [chr "cat"; chr "a"; chr "b"; chr "c"; chr "a"]) sample_desk (Ended s') /\
    d_out s' = [1; 2; 3; 4] ++ chr "cat: cannot open c" ++ [10].
Proof.
  destruct (cat_spec [chr "cat"; chr "a"; chr "b"; chr "c"; chr "a"] sample_desk) as (s' & Hr & Ho); [|done|].
  - split; [constructor|]. intros a l. cbn [sample_desk d_files].
    repeat case_decide; intros Heq; try discriminate Heq; injection Heq as <-; repeat constructor; discriminate.
  - exists s'. split; [exact Hr|]. rewrite Ho. vm_compute. reflexivity.
Defined.

(** ** init

    The kernel as init sees it: the pids that fork returns, those that wait
    returns, and the console. *)

Record nursery := mk_nursery { n_forks : list Z; n_waits : list Z; n_out : list Z }.

Definition nursery_kernel : kernel nursery := fun X e =>
  match e in sysE X return nursery -> option (X * nursery) with
  | SFork => fun s => match n_forks s with [] => Some (-1, s) | p :: l => Some (p, mk_nursery l (n_waits s) (n_out s)) end
  | SWait => fun s => match n_waits s with [] => Some (-1, s) | p :: l => Some (p, mk_nursery (n_forks s) l (n_out s)) end
  | SWrite fd l => fun s => Some (Z.of_nat (length l), mk_nursery (n_forks s) (n_waits s) (n_out s ++ l))
  | _ => fun _ => None
  end.

Lemma runs_puts_nursery fd l f w o : runs nursery_kernel (puts fd l) (mk_nursery f w o) (Returned tt (mk_nursery f w (o ++ l))).
Proof.
  revert o. induction l as [|c l IH]; intros o; cbn [puts]; [rewrite app_nil_r; apply runs_ret|].
  eapply runs_bind; [eapply runs_call; [reflexivity | apply runs_ret]|]. cbn [n_forks n_waits n_out].
  replace (o ++ c :: l) with ((o ++ [c]) ++ l) by (by rewrite <- app_assoc). apply IH.
Qed.

Definition is_zombie (pid z : Z) : Prop := 0 <= z /\ z <> pid.

Lemma init_wait_runs pid zs f w o : 0 < pid -> Forall (is_zombie pid) zs ->
  runs nursery_kernel (init_wait pid) (mk_nursery f (zs ++ pid :: w) o)
    (Returned tt (mk_nursery f w (o ++ List.concat (map (fun _ => ln "zombie!") zs)))).
Proof.
  intros Hp. revert o. induction zs as [|z zs IH]; intros o Hz; cbn [app map List.concat].
  - rewrite app_nil_r. apply runs_iter_done. eapply runs_call; [reflexivity|]. rewrite Z.eqb_refl, andb_false_r. apply runs_ret.
  - apply list.Forall_cons in Hz as [[H1 H2] Hz]. eapply runs_iter_next.
    + eapply runs_call; [reflexivity|]. cbn [n_forks n_waits n_out]. rewrite (proj2 (Z.leb_le _ _)), (proj2 (Z.eqb_neq _ _)) by done. cbn [andb negb].
      eapply runs_bind; [apply runs_puts_nursery | apply runs_ret].
    + rewrite app_assoc. by apply IH.
Qed.

(** A round of init: the pid of the shell, and those of the orphans that end
    before it. *)
Definition round_out (r : Z * list Z) : list Z := ln "init: starting sh" ++ List.concat (map (fun _ => ln "zombie!") r.2).

Lemma init_round_runs pid zs f w o : 0 < pid -> Forall (is_zombie pid) zs ->
  runs nursery_kernel init_round (mk_nursery (pid :: f) (zs ++ pid :: w) o) (Returned tt (mk_nursery f w (o ++ round_out (pid, zs)))).
Proof.
  intros Hp Hz. unfold init_round. eapply runs_bind; [apply runs_puts_nursery|]. eapply runs_call; [reflexivity|]. cbn [n_forks n_waits n_out].
  rewrite (proj2 (Z.ltb_ge _ _)), (proj2 (Z.eqb_neq _ _)) by lia. unfold round_out. cbn [snd]. rewrite app_assoc. by apply init_wait_runs.
Qed.

(** The loop goes on from the state that a round leaves, whatever fuel is left. *)
Lemma init_loop_next {K} (k : kernel K) s s' :
  runs k init_round s (Returned tt s') -> exists a b, forall m, run k (a + m) init_loop s = run k (b + m) init_loop s'.
Proof.
  intros H. assert (Hb : runs k (init_round ≫= fun _ => mret (inl tt : unit + Empty_set)) s (Returned (inl tt) s'))
    by (eapply runs_bind; [exact H | apply runs_ret]).
  destruct Hb as [n Hn].
  destruct (run_bind k n _ (after_round (fun _ : unit => init_round ≫= fun _ => mret (inl tt))) s _ s' (Hn n ltac:(lia))) as [j Hj].
  exists (S n), j. intros m. specialize (Hj (S m)). replace (S n + m)%nat with (n + S m)%nat by lia. rewrite (run_observe k init_loop _ _ _ (observe_iter _ _)), Hj.
  by rewrite Nat.add_succ_r.
Qed.

(** Init keeps a shell running.  As long as forks succeed, it starts a
    shell, waits until that one has ended while it reaps the orphans that end
    before, and then starts the next one, for any number of rounds. *)
Theorem init_restarts (rounds : list (Z * list Z)) (f w o : list Z) :
  Forall (fun r => 0 < r.1 /\ Forall (is_zombie r.1) r.2) rounds ->
  exists a b, forall m,
    run nursery_kernel (a + m) init_loop (mk_nursery (map fst rounds ++ f) (List.concat (map (fun r => r.2 ++ [r.1]) rounds) ++ w) o) =
    run nursery_kernel (b + m) init_loop (mk_nursery f w (o ++ List.concat (map round_out rounds))).
Proof.
  revert o. induction rounds as [|[pid zs] l IH]; intros o Hr; cbn [map List.concat fst snd app]; [exists 0%nat, 0%nat; by rewrite app_nil_r|].
  apply list.Forall_cons in Hr as [[Hp Hz] Hr].
  destruct (init_loop_next _ _ _ (init_round_runs pid zs (map fst l ++ f) (List.concat (map (fun r => r.2 ++ [r.1]) l) ++ w) o Hp Hz)) as (a & b & H).
  destruct (IH (o ++ round_out (pid, zs)) Hr) as (a' & b' & H'). exists (a + a')%nat, (b + b')%nat. intros m.
  replace ((zs ++ [pid]) ++ _) with (zs ++ pid :: List.concat (map (fun r => r.2 ++ [r.1]) l)) by (by rewrite <- app_assoc).
  rewrite <- (app_assoc zs), <- Nat.add_assoc. cbn [app]. rewrite H. rewrite (app_assoc o).
  replace (b + (a' + m))%nat with (a' + (b + m))%nat by lia. rewrite H'. f_equal. lia.
Qed.

Lemma init_restarts_witness :
  exists a b, forall m,
    run nursery_kernel (a + m) init_loop (mk_nursery [5; 8] [6; 5; 8] []) =
    run nursery_kernel (b + m) init_loop (mk_nursery [] [] (round_out (5, [6]) ++ round_out (8, []))).
Proof.
  apply (init_restarts [(5, [6]); (8, [])] [] [] []). repeat constructor; cbn; lia.
Defined.
