(* ===== verification/Filters.v ===== *)
(** wc.c and grep.c as programs: their main functions, and their reading loops
    with the system calls that they make.  What they print is related to the
    functions on texts of Text.v. *)

From ITree Require Import Core.ITreeDefinition.
From S2P Require Import Prelude Word Mem Proc Fs Dir Printf Text Sh User.

Local Open Scope Z_scope.

(** ** The programs *)

(** for(i = ..; i < argc; i++) of both main functions: the rounds from here,
    with the message for a file that cannot be opened. *)
Fixpoint each_file (msg : string) (body : Z -> str -> prog unit) (args : list str) : prog Empty_set :=
  match args with
  | [] => exit
  | a :: rest =>
      call (SOpen a 0) ≫= fun fd =>
      if fd <? 0 then uprintf 1 (User.ln msg) [Str a] ≫= fun _ => exit
      else body fd a ≫= fun _ => call (SClose fd) ≫= fun _ => each_file msg body rest
  end.

Definition wc_prog (fd : Z) (name : str) : prog unit :=
  ITree.iter (fun s : counts =>
    call (SRead fd WC_BUF) ≫= fun '(n, l) =>
    if 0 <? n then mret (inl (fold_left wc_byte (take (Z.to_nat n) l) s))
    else if n <? 0 then uprintf 1 (User.ln "wc: read error") [] ≫= fun _ => exit
    else uprintf 1 (User.ln "%d %d %d %s") [Num (wc_l s); Num (wc_w s); Num (wc_c s); Str name] ≫= fun _ => mret (inr tt))
  (mk_counts 0 0 0 false).

Definition wc_main (argv : list str) : prog Empty_set :=
  if (length argv <=? 1)%nat then wc_prog 0 [] ≫= fun _ => exit
  else each_file "wc: cannot open %s" wc_prog (tl argv).

(** The inner loop of grep: the final p. *)
Fixpoint grep_write (fuel : nat) (pattern p : list Z) : prog (list Z) :=
  match fuel with
  | O => mret p
  | S fuel =>
      match next_line p with
      | Some (l, r) =>
          (if match_ pattern l then call (SWrite 1 (l ++ [ch_nl])) ≫= fun _ => mret tt else mret tt) ≫= fun _ =>
          grep_write fuel pattern r
      | None => mret p
      end
  end.

(** The state of the loop are the m bytes at the start of buf. *)
Definition grep_prog (pattern : list Z) (fd : Z) : prog unit :=
  ITree.iter (fun buf : list Z =>
    call (SRead fd (GREP_BUF - Z.of_nat (length buf) - 1)) ≫= fun '(n, l) =>
    if 0 <? n then
      let buf := buf ++ take (Z.to_nat n) l in
      grep_write (length buf) pattern buf ≫= fun p =>
      mret (inl (if (length p =? length buf)%nat then [] else p))
    else mret (inr tt)) [].

Definition grep_main (argv : list str) : prog Empty_set :=
  match argv with
  | [] | [_] => uprintf 2 (User.ln "usage: grep pattern [file ...]") [] ≫= fun _ => exit
  | [_; pattern] => grep_prog pattern 0 ≫= fun _ => exit
  | _ :: pattern :: files => each_file "grep: cannot open %s" (fun fd _ => grep_prog pattern fd) files
  end.

(** ** Files one after the other *)

(** A body that reads the whole of its descriptor, or a part of it, and prints
    [f] of it. *)
Definition filters (body : Z -> str -> prog unit) (f : str -> list (list Z) -> list Z) : Prop :=
  forall fd a s, pieces_ok (source fd s) ->
    exists l, runs desk_kernel (body fd a) s (Returned tt (set_source fd l (desk_out (f a (source fd s)) s))).

Fixpoint outputs (msg : str -> list Z) (f : str -> list (list Z) -> list Z) (files : str -> option (list (list Z))) (args : list str) : list Z :=
  match args with
  | [] => []
  | a :: rest => match files a with Some l => f a l ++ outputs msg f files rest | None => msg a end
  end.

Lemma runs_exit_desk {A} s : runs desk_kernel (@exit A) s (Ended s).
Proof. exists 1%nat. intros [|m] Hm; [lia | done]. Qed.

Lemma each_file_runs msg body f args s :
  filters body f -> (forall a l, d_files s a = Some l -> pieces_ok l) ->
  exists s', runs desk_kernel (each_file msg body args) s (Ended s') /\
    d_out s' = d_out s ++ outputs (fun a => printf (arg_word [Str a]) (arg_string [Str a]) (User.ln msg)) f (d_files s) args.
Proof.
  intros Hb. revert s. induction args as [|a args IH]; intros s Hf; cbn [each_file outputs].
  - exists s. rewrite app_nil_r. split; [apply runs_exit_desk|done].
  - destruct (d_files s a) as [ps|] eqn:Ea.
    + set (s1 := mk_desk (d_files s) (d_stdin s) ps (d_out s)). destruct (Hb 3 a s1 (Hf a ps Ea)) as [l Hl].
      destruct (IH (mk_desk (d_files s) (d_stdin s) [] (d_out s ++ f a ps)) Hf) as (s' & Hr & Ho).
      exists s'. split; [|cbn [d_out d_files] in Ho; by rewrite Ho, <- app_assoc].
      eapply runs_call; [cbn [desk_kernel]; rewrite Ea; reflexivity|]. cbn [Z.ltb Z.compare].
      eapply runs_bind; [exact Hl|]. eapply runs_call; [reflexivity|]. exact Hr.
    + eexists. split; [eapply runs_call; [cbn [desk_kernel]; rewrite Ea; reflexivity|]; cbn [Z.ltb Z.compare]; apply runs_print_exit|].
      done.
Qed.

(** ** The reading loops *)

Lemma read_length cap fd d fd' : Text.read cap fd = (d, fd') -> length (List.concat fd) = (length d + length (List.concat fd'))%nat.
Proof.
  unfold Text.read. destruct fd as [|c fd]; [by intros [= <- <-]|]. cbn [List.concat].
  case_if; intros [= <- <-]; cbn [List.concat]; rewrite !length_app; [done|].
  rewrite length_take, length_drop. lia.
Qed.

(** What wc prints for a text. *)
Definition wc_line (name : str) (s : counts) : list Z :=
  printf (arg_word [Num (wc_l s); Num (wc_w s); Num (wc_c s); Str name])
    (arg_string [Num (wc_l s); Num (wc_w s); Num (wc_c s); Str name]) (User.ln "%d %d %d %s").

Lemma wc_print name c s :
  runs desk_kernel (uprintf 1 (User.ln "%d %d %d %s") [Num (wc_l c); Num (wc_w c); Num (wc_c c); Str name]) s
    (Returned tt (desk_out (wc_line name c) s)).
Proof. unfold uprintf, wc_line. apply runs_puts. Qed.

Lemma desk_read fd n s d l :
  Text.read n (source fd s) = (d, l) ->
  desk_kernel _ (SRead fd n) s = Some ((Z.of_nat (length d), d), set_source fd l s).
Proof. intros H. cbn [desk_kernel]. unfold read_piece. by rewrite H. Qed.

Lemma wc_iter fuel fd name s c :
  (length (List.concat (source fd s)) < fuel)%nat -> exists l,
  runs desk_kernel (ITree.iter (fun s : counts =>
    call (SRead fd WC_BUF) ≫= fun '(n, l) =>
    if 0 <? n then mret (inl (fold_left wc_byte (take (Z.to_nat n) l) s))
    else if n <? 0 then uprintf 1 (User.ln "wc: read error") [] ≫= fun _ => exit
    else uprintf 1 (User.ln "%d %d %d %s") [Num (wc_l s); Num (wc_w s); Num (wc_c s); Str name] ≫= fun _ => mret (inr tt)) c) s
  (Returned tt (set_source fd l (desk_out (wc_line name (wc_loop fuel c (source fd s))) s))).
Proof.
  revert s c. induction fuel as [|fuel IH]; intros s c Hf; [lia|]. cbn [wc_loop].
  destruct (Text.read WC_BUF (source fd s)) as [d l] eqn:E. pose proof (read_length _ _ _ _ E) as Hlen. destruct d as [|x d].
  - exists l. apply runs_iter_done. eapply runs_call; [exact (desk_read _ _ _ _ _ E)|]. cbn [length Z.of_nat Z.ltb Z.compare].
    rewrite <- out_source. eapply runs_bind; [apply wc_print|]. apply runs_ret.
  - destruct (IH (set_source fd l s) (fold_left wc_byte (x :: d) c)) as [l' Hr]; [rewrite source_set; cbn [length] in Hlen; lia|].
    exists l'. rewrite source_set in Hr. rewrite out_source, set_source_twice in Hr. eapply runs_iter_next; [|exact Hr].
    eapply runs_call; [exact (desk_read _ _ _ _ _ E)|]. cbn [fst snd]. rewrite (proj2 (Z.ltb_lt _ _)) by (cbn; lia).
    rewrite Nat2Z.id, take_ge by lia. apply runs_ret.
Qed.

Lemma wc_filters : filters wc_prog (fun a ps => wc_line a (wc ps)).
Proof. intros fd a s _. unfold wc. apply wc_iter. lia. Qed.

(** The inner loop of grep writes what grep_lines computes. *)
Lemma grep_write_runs fuel pattern p s :
  runs desk_kernel (grep_write fuel pattern p) s
    (Returned (grep_lines fuel pattern p).2 (desk_out (grep_lines fuel pattern p).1 s)).
Proof.
  revert p s. induction fuel as [|fuel IH]; intros p s; cbn [grep_write grep_lines]; [rewrite desk_out_nil; apply runs_ret|].
  destruct (next_line p) as [[l r]|]; [|rewrite desk_out_nil; apply runs_ret].
  specialize (IH r (desk_out (if match_ pattern l then l ++ [ch_nl] else []) s)).
  destruct (grep_lines fuel pattern r) as [out p']. cbn [fst snd] in *. rewrite desk_out_app in IH.
  eapply runs_bind; [|exact IH]. destruct (match_ pattern l); [|rewrite desk_out_nil; apply runs_ret].
  eapply runs_call; [reflexivity|]. apply runs_ret.
Qed.

Lemma grep_iter fuel pattern fd s buf :
  (length (List.concat (source fd s)) < fuel)%nat -> exists l,
  runs desk_kernel (ITree.iter (fun buf : list Z =>
    call (SRead fd (GREP_BUF - Z.of_nat (length buf) - 1)) ≫= fun '(n, l) =>
    if 0 <? n then
      let buf := buf ++ take (Z.to_nat n) l in
      grep_write (length buf) pattern buf ≫= fun p =>
      mret (inl (if (length p =? length buf)%nat then [] else p))
    else mret (inr tt)) buf) s
  (Returned tt (set_source fd l (desk_out (grep_loop fuel pattern buf (source fd s)) s))).
Proof.
  revert s buf. induction fuel as [|fuel IH]; intros s buf Hf; [lia|]. cbn [grep_loop].
  destruct (Text.read _ (source fd s)) as [d l] eqn:E. pose proof (read_length _ _ _ _ E) as Hlen. destruct d as [|x d].
  - exists l. apply runs_iter_done. eapply runs_call; [exact (desk_read _ _ _ _ _ E)|]. cbn [length Z.of_nat Z.ltb Z.compare].
    rewrite desk_out_nil. apply runs_ret.
  - pose proof (grep_write_runs (length (buf ++ x :: d)) pattern (buf ++ x :: d) (set_source fd l s)) as Hw.
    destruct (grep_lines _ pattern (buf ++ x :: d)) as [out p]. cbn [fst snd] in Hw.
    set (next := if (length p =? length (buf ++ x :: d))%nat then [] else p) in *.
    destruct (IH (desk_out out (set_source fd l s)) next) as [l' Hr]; [rewrite source_out, source_set; cbn [length] in Hlen; lia|].
    exists l'. rewrite source_out, source_set, desk_out_app, (out_source _ _ (out ++ _)), set_source_twice in Hr.
    eapply runs_iter_next; [|exact Hr].
    eapply runs_call; [exact (desk_read _ _ _ _ _ E)|]. cbn [fst snd]. rewrite (proj2 (Z.ltb_lt _ _)) by (cbn; lia).
    cbn zeta. rewrite Nat2Z.id, take_ge by lia. eapply runs_bind; [exact Hw|]. apply runs_ret.
Qed.

Lemma grep_filters pattern : filters (fun fd _ => grep_prog pattern fd) (fun _ ps => Text.grep pattern ps).
Proof. intros fd a s _. unfold Text.grep. apply grep_iter. lia. Qed.

(** ** The programs *)

Lemma wc_line_eq a l w c b :
  wc_line a (mk_counts l w c b) =
    uprintint (s32 l) 10 true ++ [32] ++ uprintint (s32 w) 10 true ++ [32] ++ uprintint (s32 c) 10 true ++ [32] ++ a ++ [10].
Proof. done. Qed.

(** The line of a file: its lines, words and bytes in decimal, and its name. *)
Definition wc_report (name : str) (ps : list (list Z)) : list Z :=
  let t := List.concat ps in
  uprintint (s32 (Z.of_nat (length (List.filter (Z.eqb ch_nl) t)))) 10 true ++ [32] ++
  uprintint (s32 (words t false)) 10 true ++ [32] ++ uprintint (s32 (Z.of_nat (length t))) 10 true ++ [32] ++ name ++ [10].

Lemma wc_report_eq name ps : pieces_ok ps -> wc_line name (wc ps) = wc_report name ps.
Proof.
  intros Hp. destruct (wc_spec ps Hp) as (H1 & H2 & H3). destruct (wc ps) as [l w c b]. cbn [wc_l wc_w wc_c] in *.
  rewrite wc_line_eq. unfold wc_report. by rewrite <- H1, <- H2, <- H3.
Qed.

(** Wc prints, for each file that its arguments name, a line with
    the numbers of its lines, words and bytes and its name, however short the
    reads are, and stops with a message at a name that it cannot open; without
    arguments it counts its input. *)
Theorem wc_main_spec (argv : list str) (s : desk) :
  desk_files_ok s ->
  exists s', runs desk_kernel (wc_main argv) s (Ended s') /\
    d_out s' = d_out s ++
      match tl argv with
      | [] => wc_report [] (d_stdin s)
      | args => outputs (fun a => chr "wc: cannot open " ++ a ++ [10]) wc_report (d_files s) args
      end.
Proof.
  intros [Hin Hf]. unfold wc_main.
  assert (Hb : filters wc_prog wc_report).
  { intros fd a s0 Hs0. destruct (wc_filters fd a s0 Hs0) as [l Hl]. exists l. by rewrite <- wc_report_eq. }
  destruct argv as [|n [|a args]]; cbn [length Nat.leb tl].
  1, 2: destruct (Hb 0 [] s Hin) as [l Hl]; eexists; (split; [eapply runs_bind; [exact Hl | apply runs_exit_desk]|done]).
  exact (each_file_runs "wc: cannot open %s" wc_prog wc_report (a :: args) s Hb Hf).
Qed.

(** Grep applies its loop to the input or to the files that its
    arguments name, one after the other; of files that arrive in whole lines
    shorter than its buffer it prints exactly the lines that match the
    pattern. *)
Theorem grep_main_spec (name pattern : str) (files : list str) (s : desk) :
  desk_files_ok s ->
  Forall line_chunk (d_stdin s) -> (forall a l, d_files s a = Some l -> Forall line_chunk l) ->
  exists s', runs desk_kernel (grep_main (name :: pattern :: files)) s (Ended s') /\
    d_out s' = d_out s ++
      match files with
      | [] => matching pattern (List.concat (d_stdin s))
      | _ => outputs (fun a => chr "grep: cannot open " ++ a ++ [10]) (fun _ ps => matching pattern (List.concat ps)) (d_files s) files
      end.
Proof.
  intros [Hin Hf] Hl0 Hlf. unfold grep_main. destruct files as [|a args].
  - destruct (grep_filters pattern 0 [] s Hin) as [l Hl].
    eexists. split; [eapply runs_bind; [exact Hl | apply runs_exit_desk]|].
    cbn. f_equal. by apply grep_spec.
  - destruct (each_file_runs "grep: cannot open %s" _ _ (a :: args) s (grep_filters pattern) Hf) as (s' & Hr & Ho).
    exists s'. split; [exact Hr|]. rewrite Ho. f_equal. clear Hr Ho. generalize (a :: args) as l. intros l.
    induction l as [|b l IH]; [done|]. cbn [outputs]. rewrite IH.
    destruct (d_files s b) as [ps|] eqn:E; [|done]. by rewrite grep_spec by eauto.
Qed.

(** ** Concrete files *)

Definition sample_texts : desk :=
  mk_desk (fun p => if decide (p = chr "a") then Some [ln "one two"; ln "three"] else None) [ln "in"] [] [].

Lemma sample_texts_ok : desk_files_ok sample_texts.
Proof.
  split; [repeat constructor; discriminate|]. intros a l. cbn [sample_texts d_files].
  case_decide; intros Heq; [|discriminate Heq]. injection Heq as <-. repeat constructor; discriminate.
Qed.

Lemma wc_main_spec_witness :
  exists s', runs desk_kernel (wc_main [chr "wc"; chr "a"; chr "b"]) sample_texts (Ended s') /\
    d_out s' = ln "2 3 14 a" ++ ln "wc: cannot open b".
Proof.
  destruct (wc_main_spec [chr "wc"; chr "a"; chr "b"] sample_texts sample_texts_ok) as (s' & Hr & Ho).
  exists s'. split; [exact Hr|]. rewrite Ho. vm_compute. reflexivity.
Defined.

Lemma sample_line l : line_chunk (ln l) <-> Forall (fun x => x <> 0) (chr l) /\ Z.of_nat (length (ln l)) < GREP_BUF.
Proof.
  unfold line_chunk, ln. rewrite Forall_app. split; [tauto|]. intros [H1 H2]. split_and!; [done| |done|by eexists].
  repeat constructor. discriminate.
Qed.

Lemma grep_main_spec_witness :
  exists s', runs desk_kernel (grep_main [chr "grep"; chr "th"; chr "a"]) sample_texts (Ended s') /\ d_out s' = ln "three".
Proof.
  destruct (grep_main_spec (chr "grep") (chr "th") [chr "a"] sample_texts sample_texts_ok) as (s' & Hr & Ho).
  - repeat constructor; try (exists (chr "in"); reflexivity); discriminate.
  - intros a l. cbn [sample_texts d_files]. case_decide; intros Heq; [|discriminate Heq]. injection Heq as <-.
    apply Forall_cons_2; [|apply Forall_cons_2; [|apply Forall_nil_2]]; apply sample_line; split; try (vm_compute; congruence);
      repeat constructor; discriminate.
  - exists s'. split; [exact Hr|]. rewrite Ho. vm_compute. reflexivity.
Defined.
