(* ===== verification/Shell.v ===== *)
(** The shell (sh.c): runcmd, getcmd and main, as programs of User.v.

    Their behaviour is given by the processes they make: a job says, for one
    process, what it writes, which processes it forks and waits for, and which
    program it becomes with which open files.  File descriptors are resolved on
    the way, with the kernel's rule that the lowest free one is taken
    (find_fd of Sysfile.v).  The reference is a function on commands that never
    mentions descriptors: it passes the files for input, output and errors
    down the command. *)

From ITree Require Import Core.ITreeDefinition.
From S2P Require Import Prelude Word Mem Fs Sysfile Printf Sh User.

Local Open Scope Z_scope.

(** ** sh.c *)

Definition shell_panic {A} (s : string) : prog A :=
  uprintf 2 (ln "%s") [Str (chr s)] ≫= fun _ => exit.

Definition fork1 : prog Z :=
  call SFork ≫= fun pid => if pid =? -1 then shell_panic "fork" else mret pid.

(** [str_at] gives the string at a pointer into the command line.  A command is
    never null, and has one of the five types. *)
Fixpoint runcmd (str_at : list Z -> str) (c : cmd) : prog Empty_set :=
  match c with
  | EXEC argv =>
      match argv with
      | [] => exit
      | w :: _ =>
          call (SExec (str_at (q w)) (map (fun w => str_at (q w)) argv)) ≫= fun _ =>
          uprintf 2 (ln "exec %s failed") [Str (str_at (q w))] ≫= fun _ =>
          exit
      end
  | REDIR c r =>
      call (SClose (rfd r)) ≫= fun _ =>
      call (SOpen (str_at (q (file r))) (mode r)) ≫= fun fd =>
      if fd <? 0 then uprintf 2 (ln "open %s failed") [Str (str_at (q (file r)))] ≫= fun _ => exit
      else runcmd str_at c
  | LIST l r =>
      fork1 ≫= fun pid =>
      if pid =? 0 then runcmd str_at l
      else
        call SWait ≫= fun _ =>
        runcmd str_at r
  | PIPE l r =>
      call SPipe ≫= fun '(res, (p0, p1)) =>
      if res <? 0 then shell_panic "pipe"
      else
        fork1 ≫= fun pid =>
        if pid =? 0 then
          call (SClose 1) ≫= fun _ =>
          call (SDup p1) ≫= fun _ =>
          call (SClose p0) ≫= fun _ =>
          call (SClose p1) ≫= fun _ =>
          runcmd str_at l
        else
          fork1 ≫= fun pid =>
          if pid =? 0 then
            call (SClose 0) ≫= fun _ =>
            call (SDup p0) ≫= fun _ =>
            call (SClose p0) ≫= fun _ =>
            call (SClose p1) ≫= fun _ =>
            runcmd str_at r
          else
            call (SClose p0) ≫= fun _ =>
            call (SClose p1) ≫= fun _ =>
            call SWait ≫= fun _ =>
            call SWait ≫= fun _ =>
            exit
  | BACK c =>
      fork1 ≫= fun pid =>
      if pid =? 0 then runcmd str_at c else exit
  end.

(** sizeof(buf) - 1: the characters that gets can store. *)
Definition LINE : nat := 99.

(** The string in buf, or the end of the input. *)
Definition getcmd : prog (option str) :=
  uprintf 2 (chr "$ ") [] ≫= fun _ =>
  ugets LINE ≫= fun l =>
  match Sh.cstr l with [] => mret None | s => mret (Some s) end.

(** What parsecmd prints before it panics. *)
Definition leftovers (s : str) : str :=
  match parseline (4 * S (length s)) s with
  | Ok (_, s) =>
      let (_, s) := peek s [] in
      match s with [] => [] | _ => chr "leftovers: " ++ s ++ [10] end
  | Err _ => []
  end.

(** runcmd(parsecmd(buf)) *)
Definition run_line (s : str) : prog Empty_set :=
  match parsecmd s with
  | Ok (c, buf) => runcmd (fun p => Sh.cstr (drop (length s - length p) buf)) c
  | Err msg => puts 2 (leftovers s) ≫= fun _ => shell_panic msg
  end.

Definition is_cd (buf : str) : bool := bool_decide (take 3 buf = chr "cd ").

(** chdir(buf+3) after the last character is cut off. *)
Definition cd_path (buf : str) : str := drop 3 (removelast buf).

(** while((fd = open("console", O_RDWR)) >= 0) *)
Definition console_round : prog (unit + unit) :=
  call (SOpen console_path O_RDWR) ≫= fun fd =>
  if fd <? 0 then mret (inr tt)
  else if 3 <=? fd then call (SClose fd) ≫= fun _ => mret (inr tt)
  else mret (inl tt).

Definition open_console : prog unit := ITree.iter (fun _ : unit => console_round) tt.

(** A round of the loop that reads and runs commands. *)
Definition sh_round : prog (unit + Empty_set) :=
  getcmd ≫= fun r =>
  match r with
  | None => exit
  | Some buf =>
      if is_cd buf then
        call (SChdir (cd_path buf)) ≫= fun r =>
        (if r <? 0 then uprintf 2 (ln "cannot cd %s") [Str (cd_path buf)] else mret tt) ≫= fun _ =>
        mret (inl tt)
      else
        fork1 ≫= fun pid =>
        if pid =? 0 then run_line buf ≫= fun x : Empty_set => match x with end
        else call SWait ≫= fun _ => mret (inl tt)
  end.

Definition sh_loop : prog Empty_set := ITree.iter (fun _ : unit => sh_round) tt.

Definition sh_main : prog Empty_set := open_console ≫= fun _ => sh_loop.

(** ** Jobs *)

(** What an open file is. *)
Inductive chan :=
| Console
| File (path : str) (omode : Z)
| PipeR (n : nat)
| PipeW (n : nat).

(** The open files made so far, by number; the processes that can still be
    made; the input of the shell; the pipes made so far. *)
Record pool := mk_pool { chans : list chan; slots : nat; input : list Z; pipes : nat }.

Definition add_chans (l : list chan) (g : pool) : pool := mk_pool (chans g ++ l) (slots g) (input g) (pipes g).
Definition add_pipe (g : pool) : pool :=
  mk_pool (chans g ++ [PipeR (pipes g); PipeW (pipes g)]) (slots g) (input g) (S (pipes g)).
Definition set_slots (n : nat) (g : pool) : pool := mk_pool (chans g) n (input g) (pipes g).
Definition set_input (l : list Z) (g : pool) : pool := mk_pool (chans g) (slots g) l (pipes g).

(** The file of each descriptor of a process. *)
Definition table : Type := list (option nat).

(** What a process does: a write goes to an open file, or to none. *)
Inductive job :=
| JExit
| JExec (path : str) (argv : list str) (t : table)
| JWrite (f : option nat) (l : list Z) (rest : job)
| JChdir (path : str) (rest : job)
| JFork (child rest : job)
| JWait (rest : job).

Definition fd_at (t : table) (fd : Z) : option nat := if fd <? 0 then None else default None (t !! Z.to_nat fd).
Definition set_fd_at (t : table) (fd : Z) (f : option nat) : table := <[Z.to_nat fd := f]> t.

Section jobs.
(** Which programs can be executed, files be opened, and directories be entered;
    the pids that fork and wait return. *)
Context (exec_ok : str -> list str -> bool) (open_ok : str -> Z -> bool) (chdir_ok : str -> bool).
Context (newpid : nat -> Z) (waited : nat -> Z).

(** The answer to a call, and the job that it is part of; [rec] gives the job of
    what follows. *)
Definition handle (rec : prog Empty_set -> table -> pool -> option (job * pool)) {X} (e : sysE X) :
  (X -> prog Empty_set) -> table -> pool -> option (job * pool) :=
  match e in sysE X return (X -> prog Empty_set) -> table -> pool -> option (job * pool) with
  | SFork => fun f tb g =>
      match slots g with
      | O => rec (f (-1)) tb g
      | S n =>
          match rec (f 0) tb (set_slots n g) with
          | Some (j1, g) => match rec (f (newpid n)) tb g with Some (j2, g) => Some (JFork j1 j2, g) | None => None end
          | None => None
          end
      end
  | SExit => fun _ _ g => Some (JExit, g)
  | SWait => fun f tb g => match rec (f (waited (slots g))) tb g with Some (j, g) => Some (JWait j, g) | None => None end
  | SPipe => fun f tb g =>
      match find_fd tb 0 with
      | Some p0 =>
          let tb0 := <[p0 := Some (length (chans g))]> tb in
          match find_fd tb0 0 with
          | Some p1 => rec (f (0, (Z.of_nat p0, Z.of_nat p1))) (<[p1 := Some (S (length (chans g)))]> tb0) (add_pipe g)
          | None => rec (f (-1, (0, 0))) tb g
          end
      | None => rec (f (-1, (0, 0))) tb g
      end
  | SWrite fd l => fun f tb g =>
      match rec (f (match fd_at tb fd with Some _ => Z.of_nat (length l) | None => -1 end)) tb g with
      | Some (j, g) => Some (JWrite (fd_at tb fd) l j, g)
      | None => None
      end
  | SRead fd n => fun f tb g =>
      match fd_at tb fd with
      | Some _ =>
          let l := take (Z.to_nat n) (input g) in
          rec (f (Z.of_nat (length l), l)) tb (set_input (drop (Z.to_nat n) (input g)) g)
      | None => rec (f (-1, [])) tb g
      end
  | SClose fd => fun f tb g =>
      match fd_at tb fd with
      | Some _ => rec (f 0) (set_fd_at tb fd None) g
      | None => rec (f (-1)) tb g
      end
  | SExec path argv => fun f tb g => if exec_ok path argv then Some (JExec path argv tb, g) else rec (f (-1)) tb g
  | SOpen path omode => fun f tb g =>
      if open_ok path omode then
        match find_fd tb 0 with
        | Some fd => rec (f (Z.of_nat fd)) (<[fd := Some (length (chans g))]> tb) (add_chans [File path omode] g)
        | None => rec (f (-1)) tb g
        end
      else rec (f (-1)) tb g
  | SDup fd => fun f tb g =>
      match fd_at tb fd, find_fd tb 0 with
      | Some n, Some fd' => rec (f (Z.of_nat fd')) (<[fd' := Some n]> tb) g
      | _, _ => rec (f (-1)) tb g
      end
  | SChdir path => fun f tb g =>
      match rec (f (if chdir_ok path then 0 else -1)) tb g with Some (j, g) => Some (JChdir path j, g) | None => None end
  | _ => fun _ _ _ => None
  end.

Fixpoint jobs (fuel : nat) (t : prog Empty_set) (tb : table) (g : pool) : option (job * pool) :=
  match fuel with
  | O => None
  | S fuel =>
      match observe t with
      | RetF x => match x with end
      | TauF t => jobs fuel t tb g
      | VisF e f => handle (jobs fuel) e f tb g
      end
  end.

End jobs.

(** ** The reference *)

(** The files of descriptors 0, 1 and 2. *)
Record stdio := mk_stdio { in_ : nat; out_ : nat; err_ : nat }.

Definition redirect (fd : Z) (f : nat) (io : stdio) : stdio :=
  if fd =? 0 then mk_stdio f (out_ io) (err_ io) else mk_stdio (in_ io) f (err_ io).

(** A process with these three files open and no other. *)
Definition base (io : stdio) : table := [Some (in_ io); Some (out_ io); Some (err_ io)] ++ replicate (Z.to_nat NOFILE - 3) None.

(** A message, written a character at a time. *)
Definition says (f : nat) (l : list Z) (j : job) : job := foldr (fun c j => JWrite (Some f) [c] j) j l.

Section reference.
Context (exec_ok : str -> list str -> bool) (open_ok : str -> Z -> bool) (chdir_ok : str -> bool).
Context (str_at : list Z -> str).

(** A fork, or the panic of fork1 when there is no process left. *)
Definition forked (io : stdio) (child rest : pool -> job * pool) (g : pool) : job * pool :=
  match slots g with
  | O => (says (err_ io) (chr "fork" ++ [10]) JExit, g)
  | S n =>
      let (j1, g) := child (set_slots n g) in
      let (j2, g) := rest g in
      (JFork j1 j2, g)
  end.

Fixpoint plumb (c : cmd) (io : stdio) (g : pool) : job * pool :=
  match c with
  | EXEC [] => (JExit, g)
  | EXEC ((w :: _) as argv) =>
      let args := map (fun w => str_at (q w)) argv in
      (if exec_ok (str_at (q w)) args then JExec (str_at (q w)) args (base io)
       else says (err_ io) (chr "exec " ++ str_at (q w) ++ chr " failed" ++ [10]) JExit, g)
  | REDIR c r =>
      let path := str_at (q (file r)) in
      if open_ok path (mode r) then
        plumb c (redirect (rfd r) (length (chans g)) io) (add_chans [File path (mode r)] g)
      else (says (err_ io) (chr "open " ++ path ++ chr " failed" ++ [10]) JExit, g)
  | LIST l r => forked io (plumb l io) (fun g => let (j, g) := plumb r io g in (JWait j, g)) g
  | PIPE l r =>
      let n := length (chans g) in
      forked io (plumb l (redirect 1 (S n) io))
        (forked io (plumb r (redirect 0 n io)) (fun g => (JWait (JWait JExit), g))) (add_pipe g)
  | BACK c => forked io (plumb c io) (fun g => (JExit, g)) g
  end.
End reference.

(** ** Running programs to jobs *)

Section runs.
Context (exec_ok : str -> list str -> bool) (open_ok : str -> Z -> bool) (chdir_ok : str -> bool).
Context (newpid : nat -> Z) (waited : nat -> Z).
Local Abbreviation jobs_ := (jobs exec_ok open_ok chdir_ok newpid waited).

Lemma jobs_observe n t u tb g : observe t = observe u -> jobs_ n t tb g = jobs_ n u tb g.
Proof. intros H. destruct n; cbn; by rewrite ?H. Qed.

Lemma handle_ext rec {X} (e : sysE X) f f' tb g :
  (forall x tb g, rec (f x) tb g = rec (f' x) tb g) ->
  handle exec_ok open_ok chdir_ok newpid waited rec e f tb g = handle exec_ok open_ok chdir_ok newpid waited rec e f' tb g.
Proof. intros H. destruct e; cbn [handle]; repeat (rewrite ?H; try done; case_match; simplify_eq). Qed.

(** Sequencing is associative, and nothing follows a program that does not
    return. *)
Lemma jobs_assoc {A B} n (t : prog A) (f : A -> prog B) (h : B -> prog Empty_set) tb g :
  jobs_ n ((t ≫= f) ≫= h) tb g = jobs_ n (t ≫= fun x => f x ≫= h) tb g.
Proof.
  revert t tb g. induction n as [|n IH]; intros t tb g; [done|]. cbn [jobs]. rewrite !observe_bind.
  destruct (observe t) as [x|u|X e k]; [by rewrite observe_bind | apply IH | by apply handle_ext].
Qed.

Lemma jobs_never n (t : prog Empty_set) k tb g : jobs_ n (t ≫= k) tb g = jobs_ n t tb g.
Proof.
  revert t tb g. induction n as [|n IH]; intros t tb g; [done|]. cbn [jobs]. rewrite !observe_bind.
  destruct (observe t) as [[]|u|X e h]; [apply IH | by apply handle_ext].
Qed.

(** The program comes to the job, whatever fuel is left over. *)
Definition does (t : prog Empty_set) (tb : table) (g : pool) (r : job * pool) : Prop :=
  exists n, forall m, (n <= m)%nat -> jobs_ m t tb g = Some r.

Lemma does_observe t u tb g r : observe t = observe u -> does u tb g r -> does t tb g r.
Proof. intros H [n Hn]. exists n. intros m Hm. by rewrite (jobs_observe m t u), Hn. Qed.

Lemma does_assoc {A B} (t : prog A) (f : A -> prog B) h tb g r : does (t ≫= fun x => f x ≫= h) tb g r -> does ((t ≫= f) ≫= h) tb g r.
Proof. intros [n Hn]. exists n. intros m Hm. by rewrite jobs_assoc, Hn. Qed.

Lemma does_never (t : prog Empty_set) k tb g r : does t tb g r -> does (t ≫= k) tb g r.
Proof. intros [n Hn]. exists n. intros m Hm. by rewrite jobs_never, Hn. Qed.

Lemma does_ret {A} (x : A) k tb g r : does (k x) tb g r -> does (mret x ≫= k) tb g r.
Proof. by apply does_observe. Qed.

Lemma does_iter {I} (body : I -> prog (I + Empty_set)) i tb g r : does (body i ≫= after_round body) tb g r -> does (ITree.iter body i) tb g r.
Proof. apply does_observe, observe_iter. Qed.

Lemma does_iter_bind {I A} (body : I -> prog (I + A)) i k tb g r :
  does (body i ≫= fun lr => after_round body lr ≫= k) tb g r -> does (ITree.iter body i ≫= k) tb g r.
Proof. intros H. apply (does_observe _ ((body i ≫= after_round body) ≫= k)); [by rewrite !(observe_bind _ k), observe_iter | by apply does_assoc]. Qed.

Lemma does_tau t tb g r : does t tb g r -> does (go (TauF t)) tb g r.
Proof. intros [n Hn]. exists (S n). intros [|m] Hm; [lia|]. cbn [jobs]. apply Hn. lia. Qed.

Lemma jobs_ret {X} n (x : X) (f : X -> prog Empty_set) tb g : jobs_ n ((mret x : prog X) ≫= f) tb g = jobs_ n (f x) tb g.
Proof. by apply jobs_observe. Qed.

Lemma observe_call {X R} (e : sysE X) (f : X -> prog R) : observe (call e ≫= f) = VisF e (fun x => mret x ≫= f).
Proof. reflexivity. Qed.

(** A call with one continuation: [w] is what it adds to the job. *)
Lemma does_call {X} (e : sysE X) f tb g x tb' g' (w : job -> job) r :
  (forall rec : prog Empty_set -> table -> pool -> option (job * pool),
    forall k, handle exec_ok open_ok chdir_ok newpid waited rec e k tb g =
    match rec (k x) tb' g' with Some (j, g) => Some (w j, g) | None => None end) ->
  does (f x) tb' g' r -> does (call e ≫= f) tb g (w r.1, r.2).
Proof.
  intros He [n Hn]. exists (S n). intros [|m] Hm; [lia|]. cbn [jobs]. rewrite observe_call, He. cbv beta.
  rewrite jobs_ret, Hn by lia. by destruct r.
Qed.

Lemma does_exit {A} (f : A -> prog Empty_set) tb g : does (exit ≫= f) tb g (JExit, g).
Proof. exists 1%nat. intros [|m] Hm; [lia|]. cbn [jobs]. rewrite observe_bind. unfold exit. by rewrite observe_call. Qed.

Lemma does_exit0 tb g : does exit tb g (JExit, g).
Proof. exists 1%nat. intros [|m] Hm; [lia|]. cbn [jobs]. unfold exit. by rewrite observe_call. Qed.

Lemma does_fork f tb g n j1 g1 r :
  slots g = S n -> does (f 0) tb (set_slots n g) (j1, g1) -> does (f (newpid n)) tb g1 r -> does (call SFork ≫= f) tb g (JFork j1 r.1, r.2).
Proof.
  intros Hs [n1 H1] [n2 H2]. exists (S (n1 + n2)). intros [|m] Hm; [lia|]. cbn [jobs]. rewrite observe_call. cbn [handle]. rewrite Hs.
  rewrite jobs_ret, H1 by lia.
  rewrite jobs_ret, H2 by lia. by destruct r.
Qed.

Lemma does_fork_fail f tb g r : slots g = O -> does (f (-1)) tb g r -> does (call SFork ≫= f) tb g r.
Proof.
  intros Hs Hf. replace r with ((fun j : job => j) r.1, r.2) by (by destruct r). eapply (does_call SFork f tb g (-1) tb g (fun j => j)); [|exact Hf].
  intros rec k. cbn [handle]. rewrite Hs. by destruct (rec _ _ _) as [[]|].
Qed.

Lemma does_puts fd f l k tb g r :
  fd_at tb fd = Some f -> does (k tt) tb g r -> does (puts fd l ≫= k) tb g (says f l r.1, r.2).
Proof.
  intros Hfd Hk. induction l as [|c l IH]; cbn [puts].
  - apply does_ret. by destruct r.
  - apply does_assoc. unfold putc. apply does_assoc.
    apply (does_call (SWrite fd [c]) _ tb g 1 tb g (JWrite (Some f) [c]) (says f l r.1, r.2)).
    + intros rec h. cbn [handle]. by rewrite Hfd.
    + by apply does_ret.
Qed.

Lemma does_step {X} (e : sysE X) f tb g x tb' g' r :
  (forall (rec : prog Empty_set -> table -> pool -> option (job * pool)) k,
    handle exec_ok open_ok chdir_ok newpid waited rec e k tb g = rec (k x) tb' g') ->
  does (f x) tb' g' r -> does (call e ≫= f) tb g r.
Proof.
  intros He Hf. replace r with ((fun j : job => j) r.1, r.2) by (by destruct r). eapply (does_call e f tb g x tb' g' (fun j => j)); [|exact Hf].
  intros rec k. rewrite He. by destruct (rec _ _ _) as [[]|].
Qed.

Lemma does_wait f tb g r : (forall pid, does (f pid) tb g r) -> does (call SWait ≫= f) tb g (JWait r.1, r.2).
Proof. intros H. by eapply (does_call SWait f tb g _ tb g JWait). Qed.

Lemma does_panic {A} msg text f tb g k :
  fd_at tb 2 = Some f -> printf (arg_word [Str (chr msg)]) (arg_string [Str (chr msg)]) (ln "%s") = text ->
  does (@shell_panic A msg ≫= k) tb g (says f text JExit, g).
Proof.
  intros H2 <-. unfold shell_panic, uprintf. apply does_assoc. apply (does_puts 2 f _ _ tb g (JExit, g) H2). apply does_exit.
Qed.

Lemma does_print_exit fmt args f tb g :
  fd_at tb 2 = Some f -> does (uprintf 2 fmt args ≫= fun _ => exit) tb g (says f (printf (arg_word args) (arg_string args) fmt) JExit, g).
Proof. intros H2. unfold uprintf. apply (does_puts 2 f _ _ tb g (JExit, g) H2). apply does_exit0. Qed.

Context (Hpid : forall n, 0 < newpid n).

(** fork1, where what follows relies on [P]. *)
Lemma does_fork1_inv (P : pool -> Prop) io f tb g child rest :
  fd_at tb 2 = Some (err_ io) -> P g -> (forall n, P (set_slots n g)) ->
  (forall g, P g -> does (f 0) tb g (child g) /\ P (child g).2) -> (forall pid g, 0 < pid -> P g -> does (f pid) tb g (rest g)) ->
  does (fork1 ≫= f) tb g (forked io child rest g).
Proof using Hpid.
  intros H2 HP HPs Hc Hr. unfold fork1. apply does_assoc. unfold forked. destruct (slots g) as [|n] eqn:Hs.
  - apply does_fork_fail; [done|]. cbn [Z.eqb Pos.eqb]. by apply does_panic.
  - destruct (Hc _ (HPs n)) as [Hc1 Hc2]. destruct (child (set_slots n g)) as [j1 g1]. cbn [snd] in Hc2. specialize (Hpid n).
    specialize (Hr (newpid n) g1 Hpid Hc2). destruct (rest g1) as [j2 g2]. apply (does_fork _ tb g n j1 g1 (j2, g2) Hs).
    + cbn [Z.eqb]. by apply does_ret.
    + rewrite (proj2 (Z.eqb_neq _ _)) by lia. by apply does_ret.
Qed.

Lemma does_fork1 io f tb g child rest :
  fd_at tb 2 = Some (err_ io) -> (forall g, does (f 0) tb g (child g)) -> (forall pid g, 0 < pid -> does (f pid) tb g (rest g)) ->
  does (fork1 ≫= f) tb g (forked io child rest g).
Proof using Hpid. intros H2 Hc Hr. by apply (does_fork1_inv (fun _ => True)); auto. Qed.

(** Redirections as the parser makes them: of the input or the output. *)
Fixpoint standard (c : cmd) : Prop :=
  match c with
  | EXEC _ => True
  | REDIR c r => (rfd r = 0 \/ rfd r = 1) /\ standard c
  | PIPE l r | LIST l r => standard l /\ standard r
  | BACK c => standard c
  end.

Lemma base_close_open io fd n : fd = 0 \/ fd = 1 -> <[Z.to_nat fd := Some n]> (set_fd_at (base io) fd None) = base (redirect fd n io).
Proof using. by intros [-> | ->]. Qed.

Lemma runcmd_does str_at c io g :
  standard c -> does (runcmd str_at c) (base io) g (plumb exec_ok open_ok str_at c io g).
Proof using Hpid.
  revert io g. induction c as [argv|c IH r|l IHl r IHr|l IHl r IHr|c IH]; intros io g Hc; cbn [runcmd plumb].
  - destruct argv as [|w argv]; [apply does_exit0|]. destruct (exec_ok _ _) eqn:Ee.
    + exists 1%nat. intros [|m] Hm; [lia|]. cbn [jobs]. rewrite observe_call. cbn [handle]. by rewrite Ee.
    + apply (does_step _ _ _ _ (-1) (base io) g); [intros; cbn [handle]; by rewrite Ee|]. by apply does_print_exit.
  - destruct Hc as [Hfd Hc].
    apply (does_step _ _ _ _ 0 (set_fd_at (base io) (rfd r) None) g); [intros; cbn [handle]; by destruct Hfd as [-> | ->]|].
    destruct (open_ok _ _) eqn:Eo.
    + apply (does_step _ _ _ _ (rfd r) (base (redirect (rfd r) (length (chans g)) io)) (add_chans [File (str_at (q (file r))) (mode r)] g)).
      * intros rec k. cbn [handle]. rewrite Eo, <- base_close_open by done. by destruct Hfd as [-> | ->].
      * rewrite (proj2 (Z.ltb_ge _ _)) by lia. by apply IH.
    + apply (does_step _ _ _ _ (-1) (set_fd_at (base io) (rfd r) None) g); [intros; cbn [handle]; by rewrite Eo|].
      apply does_print_exit. by destruct Hfd as [-> | ->].
  - destruct Hc as [Hl Hr]. set (n := length (chans g)).
    apply (does_step _ _ _ _ (0, (3, 4)) (<[4%nat := Some (S n)]> (<[3%nat := Some n]> (base io))) (add_pipe g)); [done|]. cbn [Z.ltb Z.compare].
    apply does_fork1; [done | |].
    + intros g1. cbn [Z.eqb].
      do 4 (eapply does_step; [intros rec k; cbn [handle]; reflexivity|]; cbn beta). exact (IHl (redirect 1 (S n) io) g1 Hl).
    + intros pid g1 Hp. rewrite (proj2 (Z.eqb_neq _ _)) by lia. apply does_fork1; [done | |].
      * intros g2. cbn [Z.eqb]. do 4 (eapply does_step; [intros rec k; cbn [handle]; reflexivity|]; cbn beta). exact (IHr (redirect 0 n io) g2 Hr).
      * intros pid2 g2 Hp2. rewrite (proj2 (Z.eqb_neq _ _)) by lia. do 2 (eapply does_step; [intros rec k; cbn [handle]; reflexivity|]).
        apply (does_wait _ _ _ (JWait JExit, g2)). intros _. apply (does_wait _ _ _ (JExit, g2)). intros _. apply does_exit0.
  - destruct Hc as [Hl Hr]. apply does_fork1; [done | intros g1; by apply IHl|]. intros pid g1 Hp. rewrite (proj2 (Z.eqb_neq _ _)) by lia.
    destruct (plumb _ _ _ r io g1) as [j g2] eqn:E. apply (does_wait _ _ _ (j, g2)). intros _. rewrite <- E. by apply IHr.
  - apply does_fork1; [done | intros g1; by apply IH|]. intros pid g1 Hp. rewrite (proj2 (Z.eqb_neq _ _)) by lia. apply does_exit0.
Qed.

End runs.

(** ** The parser makes standard redirections *)

Definition std_redir (r : redir) : Prop := rfd r = 0 \/ rfd r = 1.

Lemma parseredirs_std fuel s rs s' : parseredirs fuel s = Ok (rs, s') -> Forall std_redir rs.
Proof.
  revert s rs s'. induction fuel as [|fuel IH]; intros s rs s'; cbn [parseredirs]; destruct (peek s _) as [b s1]; (destruct b; [|by intros [= <- <-]]); [done|].
  destruct (gettoken s1) as [[tok w1] s2]. destruct (gettoken s2) as [[t w] s3]. case_if; [done|].
  destruct (parseredirs fuel s3) as [[rs1 s4]|] eqn:E; cbn; [|done]. intros [= <- <-]. constructor; [|by eapply IH].
  case_if; [by left | by right].
Qed.

Lemma parseargs_std fuel argc s ws rs s' : parseargs fuel argc s = Ok (ws, rs, s') -> Forall std_redir rs.
Proof.
  revert argc s ws rs s'. induction fuel as [|fuel IH]; intros argc s ws rs s'; cbn [parseargs]; destruct (peek s _) as [b s1];
    (destruct b; [by intros [= <- <- <-]|]); destruct (gettoken s1) as [[tok w] s2]; (case_if; [by intros [= <- <- <-]|]); (case_if; [done|]);
    (case_if; [done|]); [done|].
  destruct (parseredirs (length s2) s2) as [[rs1 s3]|] eqn:E1; cbn; [|done].
  destruct (parseargs fuel (S argc) s3) as [[[ws1 rs2] s4]|] eqn:E2; cbn; [|done]. intros [= <- <- <-].
  apply Forall_app. split; [by eapply parseredirs_std | by eapply IH].
Qed.

Lemma redircmds_std c rs : standard c -> Forall std_redir rs -> standard (redircmds c rs).
Proof.
  unfold redircmds. revert c. induction rs as [|r rs IH]; intros c Hc Hr; cbn [fold_left]; [done|].
  apply list.Forall_cons in Hr as [H1 H2]. apply IH; [|done]. by split.
Qed.

Lemma parsebacks_std fuel c s c' s' : standard c -> parsebacks fuel c s = Ok (c', s') -> standard c'.
Proof.
  revert c s. induction fuel as [|fuel IH]; intros c s Hc; cbn [parsebacks]; destruct (peek s _) as [b s1]; (destruct b; [|by intros [= <- <-]]); [done|].
  destruct (gettoken s1) as [[tok w] s2]. by apply IH.
Qed.

Definition makes_std (f : list Z -> result (cmd * list Z)) : Prop := forall s c s', f s = Ok (c, s') -> standard c.

Lemma parse_std fuel :
  makes_std (parseline fuel) /\ makes_std (parsepipe fuel) /\ makes_std (parseexec fuel) /\ makes_std (parseblock fuel).
Proof.
  induction fuel as [|fuel (IHl & IHp & IHe & IHb)]; [done|]. split_and!; intros s c s'; cbn.
  - destruct (parsepipe fuel s) as [[c1 s1]|] eqn:E1; cbn; [|done]. destruct (parsebacks (length s1) c1 s1) as [[c2 s2]|] eqn:E2; cbn; [|done].
    assert (H2 : standard c2) by (eapply parsebacks_std; [by eapply IHp | done]).
    case_match; [|by intros [= <- <-]]. destruct (gettoken _) as [[tok w] s3].
    destruct (parseline fuel s3) as [[d s4]|] eqn:E3; cbn; [|done]. intros [= <- <-]. split; [done | by eapply IHl].
  - destruct (parseexec fuel s) as [[c1 s1]|] eqn:E1; cbn; [|done]. case_match; [|intros [= <- <-]; by eapply IHe].
    destruct (gettoken _) as [[tok w] s3]. destruct (parsepipe fuel s3) as [[d s4]|] eqn:E3; cbn; [|done]. intros [= <- <-].
    split; [by eapply IHe | by eapply IHp].
  - case_match; [by apply IHb|]. destruct (parseredirs _ _) as [[rs1 s2]|] eqn:E1; cbn; [|done].
    destruct (parseargs _ _ _) as [[[ws rs2] s3]|] eqn:E2; cbn; [|done]. intros [= <- <-]. apply redircmds_std; [done|].
    apply Forall_app. split; [by eapply parseredirs_std | by eapply parseargs_std].
  - destruct (match skip_ws s with [] => false | _ :: _ => _ end); cbn; [|done]. destruct (gettoken _) as [[tok w] s2].
    destruct (parseline fuel s2) as [[c1 s3]|] eqn:E1; cbn; [|done]. destruct (match skip_ws s3 with [] => false | _ :: _ => _ end); cbn; [|done].
    destruct (gettoken _) as [[tok2 w2] s4]. destruct (parseredirs _ _) as [[rs s5]|] eqn:E2; cbn; [|done].
    intros [= <- <-]. apply redircmds_std; [by eapply IHl | by eapply parseredirs_std].
Qed.

Lemma parsecmd_std s c buf : parsecmd s = Ok (c, buf) -> standard c.
Proof.
  unfold parsecmd, parse. destruct (parseline (4 * S (length s)) s) as [[c1 s1]|] eqn:E; cbn; [|done].
  destruct (skip_ws s1); cbn; [|done]. intros [= <- <-]. by eapply (proj1 (parse_std _)).
Qed.

(** ** A session *)

Section session.
Context (exec_ok : str -> list str -> bool) (open_ok : str -> Z -> bool) (chdir_ok : str -> bool).

(** The process that runs a command line. *)
Definition command (io : stdio) (buf : str) (g : pool) : job * pool :=
  match parsecmd buf with
  | Ok (c, b) => plumb exec_ok open_ok (fun p => Sh.cstr (drop (length buf - length p) b)) c io g
  | Err msg => (says (err_ io) (leftovers buf ++ chr msg ++ [10]) JExit, g)
  end.

Definition newline (l : str) : str := l ++ [10].

Definition prompt (io : stdio) (r : job * pool) : job * pool := (says (err_ io) (chr "$ ") r.1, r.2).

(** The job of the shell on the lines of its input: a process for each line, one
    at a time; only cd is done by the shell itself. *)
Fixpoint session (io : stdio) (lines : list str) (g : pool) : job * pool :=
  match lines with
  | [] => prompt io (JExit, g)
  | l :: lines =>
      let buf := newline l in
      let g := set_input (List.concat (map newline lines)) g in
      prompt io
        (if is_cd buf then
           let (j, g) := session io lines g in
           (JChdir (cd_path buf)
              (if chdir_ok (cd_path buf) then j else says (err_ io) (chr "cannot cd " ++ cd_path buf ++ [10]) j), g)
         else forked io (command io buf) (fun g => let (j, g) := session io lines g in (JWait j, g)) g)
  end.

(** The line fits in the buffer, and is one line. *)
Definition line_ok (l : str) : Prop := (length l < LINE)%nat /\ Forall (fun c => c <> 0 /\ c <> 10 /\ c <> 13) l.

Context (newpid : nat -> Z) (waited : nat -> Z) (Hpid : forall n, 0 < newpid n).
Local Abbreviation does_ := (does exec_ok open_ok chdir_ok newpid waited).

Lemma says_app f a b j : says f (a ++ b) j = says f a (says f b j).
Proof using. unfold says. by rewrite foldr_app. Qed.

Lemma forked_input io child rest g :
  (forall g, input (child g).2 = input g) -> (forall g, input (rest g).2 = input g) -> input (forked io child rest g).2 = input g.
Proof using.
  intros Hc Hr. unfold forked. destruct (slots g) as [|n]; [done|]. specialize (Hc (set_slots n g)). destruct (child (set_slots n g)) as [j1 g1].
  specialize (Hr g1). destruct (rest g1) as [j2 g2]. cbn in *. congruence.
Qed.

Lemma plumb_input str_at c io g : input (plumb exec_ok open_ok str_at c io g).2 = input g.
Proof using.
  revert io g. induction c as [argv|c IH r|l IHl r IHr|l IHl r IHr|c IH]; intros io g; cbn [plumb].
  - by destruct argv.
  - case_if; [by rewrite IH | done].
  - rewrite forked_input; [done | intros; apply IHl|]. intros g1. by rewrite forked_input.
  - apply forked_input; [intros; apply IHl|]. intros g1. specialize (IHr io g1). by destruct (plumb _ _ _ r io g1).
  - by apply forked_input.
Qed.

Lemma command_input io buf g : input (command io buf g).2 = input g.
Proof using. unfold command. destruct (parsecmd buf) as [[c b]|]; [apply plumb_input | done]. Qed.

Lemma run_line_does io buf g : does_ (run_line buf) (base io) g (command io buf g).
Proof using Hpid.
  unfold run_line, command. destruct (parsecmd buf) as [[c b]|msg] eqn:E; [apply runcmd_does; [done | by eapply parsecmd_std]|].
  rewrite says_app. apply (does_puts _ _ _ _ _ 2 (err_ io) _ _ (base io) g (says (err_ io) (chr msg ++ [10]) JExit, g)); [done|].
  exact (does_print_exit _ _ _ _ _ (ln "%s") [Str (chr msg)] (err_ io) (base io) g eq_refl).
Qed.

Lemma read_does io c rest f g r :
  input g = c :: rest -> does_ (f (1, [c])) (base io) (set_input rest g) r -> does_ (call (SRead 0 1) ≫= f) (base io) g r.
Proof using. intros Hi Hf. eapply does_step; [|exact Hf]. intros rec h. cbn [handle]. by rewrite Hi. Qed.

Lemma gets_does io l rest n k g r :
  (length l < n)%nat -> Forall (fun c => c <> 0 /\ c <> 10 /\ c <> 13) l -> input g = newline l ++ rest ->
  does_ (k (newline l)) (base io) (set_input rest g) r -> does_ (ugets n ≫= k) (base io) g r.
Proof using.
  revert l k g. induction n as [|n IH]; intros l k g Hn Hl Hi Hk; [lia|]. cbn [ugets]. apply does_assoc. destruct l as [|c l]; cbn in Hi.
  - apply (read_does _ _ _ _ _ _ Hi). by apply does_ret.
  - apply list.Forall_cons in Hl as [(H0 & H10 & H13) Hl]. apply (read_does _ _ _ _ _ _ Hi). cbn [Z.ltb Z.compare Pos.compare Pos.compare_cont hd].
    rewrite (proj2 (Z.eqb_neq c 10)), (proj2 (Z.eqb_neq c 13)) by done. cbn [orb]. apply does_assoc.
    apply (IH l); [cbn in Hn; lia | done | done|]. apply does_ret. exact Hk.
Qed.

Lemma gets_eof io n k g r : input g = [] -> does_ (k []) (base io) g r -> does_ (ugets n ≫= k) (base io) g r.
Proof using.
  intros Hi Hk. destruct n; cbn [ugets]; [by apply does_ret|]. apply does_assoc.
  apply (does_step _ _ _ _ _ _ _ _ _ (0, []) (base io) g); [|by apply does_ret]. destruct g. cbn in Hi. by subst.
Qed.

Lemma cstr_line l : Forall (fun c => c <> 0 /\ c <> 10 /\ c <> 13) l -> Sh.cstr (newline l) = newline l.
Proof using.
  induction 1 as [|c l (H & _) _ IH]; [done|]. cbn. rewrite (proj2 (Z.eqb_neq c 0)) by done. f_equal. exact IH.
Qed.
Lemma getcmd_line io l rest k g r :
  line_ok l -> input g = newline l ++ rest -> does_ (k (Some (newline l))) (base io) (set_input rest g) r ->
  does_ (getcmd ≫= k) (base io) g (prompt io r).
Proof using.
  intros [Hn Hl] Hi Hk. unfold getcmd. apply does_assoc. unfold uprintf. apply (does_puts _ _ _ _ _ 2 (err_ io) _ _ (base io) g r); [done|].
  apply does_assoc. apply (gets_does io l rest); [done | done | done|]. rewrite cstr_line by done.
  replace (newline l) with (hd 0 (newline l) :: tl (newline l)) in * by (by destruct l). by apply does_ret.
Qed.

Lemma getcmd_eof io k g r : input g = [] -> does_ (k None) (base io) g r -> does_ (getcmd ≫= k) (base io) g (prompt io r).
Proof using.
  intros Hi Hk. unfold getcmd. apply does_assoc. unfold uprintf. apply (does_puts _ _ _ _ _ 2 (err_ io) _ _ (base io) g r); [done|].
  apply does_assoc. apply gets_eof; [done|]. by apply does_ret.
Qed.

Lemma sh_loop_does io lines g :
  Forall line_ok lines -> input g = List.concat (map newline lines) -> does_ sh_loop (base io) g (session io lines g).
Proof using Hpid.
  revert g. induction lines as [|l lines IH]; intros g Hok Hi; unfold sh_loop; apply does_iter; unfold sh_round; apply does_assoc; cbn [session].
  - apply getcmd_eof; [done|]. apply does_exit.
  - apply list.Forall_cons in Hok as [Hl Hok]. apply (getcmd_line io l (List.concat (map newline lines))); [done | done|].
    set (g1 := set_input _ g). assert (Hg1 : input g1 = List.concat (map newline lines)) by done. clearbody g1. case_if.
    + pose proof (IH g1 Hok Hg1) as Hs. destruct (session io lines g1) as [j g2]. apply does_assoc.
      assert (Hnext : does_ (mret (inl tt) ≫= after_round (fun _ : unit => sh_round)) (base io) g1 (j, g2)) by (apply does_ret, does_tau, Hs).
      destruct (chdir_ok (cd_path (newline l))) eqn:Ec.
      * apply (does_call _ _ _ _ _ (SChdir (cd_path (newline l))) _ _ _ 0 (base io) g1 (JChdir (cd_path (newline l))) (j, g2)); [intros; cbn [handle]; by rewrite Ec|].
        cbn [Z.ltb Z.compare]. apply does_assoc. by apply does_ret.
      * apply (does_call _ _ _ _ _ (SChdir (cd_path (newline l))) _ _ _ (-1) (base io) g1 (JChdir (cd_path (newline l)))
          (says (err_ io) (chr "cannot cd " ++ cd_path (newline l) ++ [10]) j, g2)); [intros; cbn [handle]; by rewrite Ec|].
        cbn [Z.ltb Z.compare]. apply does_assoc. by apply (does_puts _ _ _ _ _ 2 (err_ io) _ _ (base io) g1 (j, g2)).
    + apply does_assoc. apply (does_fork1_inv _ _ _ _ _ Hpid (fun g => input g = List.concat (map newline lines))); [done | done | done | |].
      * intros g2 Hg2. split; [|by rewrite command_input]. cbn [Z.eqb]. apply does_assoc, does_never, run_line_does.
      * intros pid g2 Hp Hg2. rewrite (proj2 (Z.eqb_neq _ _)) by lia. apply does_assoc. pose proof (IH g2 Hok Hg2) as Hs.
        destruct (session io lines g2) as [j g3]. apply (does_wait _ _ _ _ _ _ _ _ (j, g3)). intros pid2. by apply does_ret, does_tau.
Qed.

End session.

(** C12 (refinement): the shell does what its command lines say.  Started with
    three open files on any input of lines that fit in its buffer, it comes to
    an end, and its job is the one that the reference gives without
    descriptors: for each line a process, which is waited for; that process
    runs each program of the command with exactly three open files, the two ends
    of each pipe going to its two neighbours and a redirected file taking the
    place of the input or the output, and no end of a pipe left open in any
    other process; programs that cannot be executed, files that cannot be
    opened, syntax errors and forks that fail end only their own process, with a
    message. *)
Theorem shell_session (exec_ok : str -> list str -> bool) (open_ok : str -> Z -> bool) (chdir_ok : str -> bool)
  (newpid waited : nat -> Z) (io : stdio) (lines : list str) (g : pool) :
  (forall n, 0 < newpid n) -> Forall line_ok lines -> input g = List.concat (map newline lines) ->
  does exec_ok open_ok chdir_ok newpid waited sh_main (base io) g
    (session exec_ok open_ok chdir_ok io lines (if open_ok console_path O_RDWR then add_chans [File console_path O_RDWR] g else g)).
Proof.
  intros Hpid Hok Hi. unfold sh_main, open_console. apply does_iter_bind. unfold console_round at 1.
  apply does_assoc. destruct (open_ok console_path O_RDWR) eqn:Eo.
  - apply (does_step _ _ _ _ _ _ _ _ _ 3 (<[3%nat := Some (length (chans g))]> (base io)) (add_chans [File console_path O_RDWR] g));
      [intros; cbn [handle]; by rewrite Eo|]. cbn [Z.ltb Z.leb Z.compare Pos.compare Pos.compare_cont]. apply does_assoc.
    apply (does_step _ _ _ _ _ _ _ _ _ 0 (base io) (add_chans [File console_path O_RDWR] g)); [done|]. apply does_ret, does_ret. by apply sh_loop_does.
  - apply (does_step _ _ _ _ _ _ _ _ _ (-1) (base io) g); [intros; cbn [handle]; by rewrite Eo|]. cbn [Z.ltb Z.compare].
    apply does_ret, does_ret. by apply sh_loop_does.
Qed.

(** The programs that a job runs, with their open files. *)
Fixpoint launched (j : job) : list (str * table) :=
  match j with
  | JExit => []
  | JExec path _ t => [(path, t)]
  | JWrite _ _ j | JChdir _ j | JWait j => launched j
  | JFork j1 j2 => launched j1 ++ launched j2
  end.

(** The line "a|b>f": file 3 was the console that main opened and closed, 4 and 5
    are the ends of the pipe, and 6 is f. *)
Lemma shell_session_witness :
  exists j g,
    does (fun _ _ => true) (fun _ _ => true) (fun _ => true) (fun _ => 1) (fun _ => 1) sh_main (base (mk_stdio 0 1 2))
      (mk_pool [Console; Console; Console] 5 (chr "a|b>f" ++ [10]) 0) (j, g) /\
    launched j = [(chr "a", base (mk_stdio 0 5 2)); (chr "b", base (mk_stdio 4 6 2))] /\
    chans g = [Console; Console; Console; File console_path O_RDWR; PipeR 0; PipeW 0; File (chr "f") (Z.lor O_WRONLY O_CREATE)].
Proof.
  pose proof (shell_session (fun _ _ => true) (fun _ _ => true) (fun _ => true) (fun _ => 1) (fun _ => 1) (mk_stdio 0 1 2) [chr "a|b>f"]
    (mk_pool [Console; Console; Console] 5 (chr "a|b>f" ++ [10]) 0)) as H.
  eexists _, _. split.
  - refine (eq_ind _ (does _ _ _ _ _ _ _ _) (H _ _ _) _ _); [done | | done | vm_compute; reflexivity].
    constructor; [|constructor]. split; [vm_compute; lia|]. vm_compute. repeat constructor; discriminate.
  - split; vm_compute; reflexivity.
Defined.
