(* ===== verification/Cpu.v ===== *)
(** What belongs to one processor: its segments and task state (mmu.h, seginit
    and switchuvm of vm.c), its table registers, mycpu and myproc, forkret and
    the process listing procdump (proc.c), and the output of panic
    (console.c).

    A descriptor is packed as C lays out its bit fields, and read back by the
    layout that the processor defines for it. *)

From S2P Require Import Prelude Word Mem Proc Spinlock Console Sh User Mp Devices.

Local Open Scope Z_scope.

(** ** Segments *)

Record segdesc := mk_segdesc {
  lim_15_0 : Z; base_15_0 : Z; base_23_16 : Z; seg_type : Z; seg_s : Z; seg_dpl : Z; seg_p : Z;
  lim_19_16 : Z; seg_avl : Z; seg_rsv1 : Z; seg_db : Z; seg_g : Z; base_31_24 : Z;
}.

(** A value stored in a field of [n] bits. *)
Definition field (n v : Z) : Z := v mod 2 ^ n.

Definition mk_seg16 (l b1 b2 t s dpl p l2 avl rsv db g b3 : Z) : segdesc :=
  mk_segdesc (field 16 l) (field 16 b1) (field 8 b2) (field 4 t) (field 1 s) (field 2 dpl) (field 1 p)
    (field 4 l2) (field 1 avl) (field 1 rsv) (field 1 db) (field 1 g) (field 8 b3).

Definition SEG (type base lim dpl : Z) : segdesc :=
  mk_seg16 (Z.land (Z.shiftr lim 12) 0xffff) (Z.land (u32 base) 0xffff)
    (Z.land (Z.shiftr (u32 base) 16) 0xff) type 1 dpl 1
    (Z.shiftr (u32 lim) 28) 0 0 1 1 (Z.shiftr (u32 base) 24).

Definition SEG16 (type base lim dpl : Z) : segdesc :=
  mk_seg16 (Z.land lim 0xffff) (Z.land (u32 base) 0xffff)
    (Z.land (Z.shiftr (u32 base) 16) 0xff) type 1 dpl 1
    (Z.shiftr (u32 lim) 16) 0 0 1 0 (Z.shiftr (u32 base) 24).

Definition STA_X : Z := 0x8.
Definition STA_W : Z := 0x2.
Definition STA_R : Z := 0x2.
Definition STS_T32A : Z := 0x9.

Definition SEG_KCODE : Z := 1.
Definition SEG_KDATA : Z := 2.
Definition SEG_UCODE : Z := 3.
Definition SEG_UDATA : Z := 4.
Definition SEG_TSS : Z := 5.
Definition NSEGS : Z := 6.
Definition DPL_USER : Z := 3.

Definition gdt : Type := Z -> segdesc.
Definition set_seg (i : Z) (d : segdesc) (g : gdt) : gdt := fun j => if j =? i then d else g j.

Definition seginit (g : gdt) : gdt :=
  let g := set_seg SEG_KCODE (SEG (Z.lor STA_X STA_R) 0 0xffffffff 0) g in
  let g := set_seg SEG_KDATA (SEG STA_W 0 0xffffffff 0) g in
  let g := set_seg SEG_UCODE (SEG (Z.lor STA_X STA_R) 0 0xffffffff DPL_USER) g in
  set_seg SEG_UDATA (SEG STA_W 0 0xffffffff DPL_USER) g.

(** The members of struct taskstate that the kernel sets, and its size. *)
Record taskstate := mk_taskstate { esp0 : Z; ss0 : Z; iomb : Z }.
Definition TASKSTATE_SIZE : Z := 104.

Definition clear_s (d : segdesc) : segdesc :=
  mk_segdesc (lim_15_0 d) (base_15_0 d) (base_23_16 d) (seg_type d) 0 (seg_dpl d) (seg_p d)
    (lim_19_16 d) (seg_avl d) (seg_rsv1 d) (seg_db d) (seg_g d) (base_31_24 d).

(** The part of switchuvm between pushcli and ltr; [ts] is the address of the
    task state of this processor. *)
Definition switch_tss (ts kstack : Z) (g : gdt) : gdt * taskstate :=
  let g := set_seg SEG_TSS (SEG16 STS_T32A ts (TASKSTATE_SIZE - 1) 0) g in
  let g := set_seg SEG_TSS (clear_s (g SEG_TSS)) g in
  (g, mk_taskstate (u32 (kstack + KSTACKSIZE)) (Z.shiftl SEG_KDATA 3) 0xFFFF).

(** The 64 bits of a descriptor. *)
Definition pack (d : segdesc) : Z :=
  lim_15_0 d + 2 ^ 16 * (base_15_0 d + 2 ^ 16 * (base_23_16 d + 2 ^ 8 * (seg_type d + 2 ^ 4 * (seg_s d + 2 ^ 1 * (seg_dpl d +
  2 ^ 2 * (seg_p d + 2 ^ 1 * (lim_19_16 d + 2 ^ 4 * (seg_avl d + 2 ^ 1 * (seg_rsv1 d + 2 ^ 1 * (seg_db d + 2 ^ 1 * (seg_g d +
  2 ^ 1 * base_31_24 d))))))))))).

(** lgdt and lidt (x86.h): the three halfwords in memory, and the limit and base
    that the processor reads from them. *)
Definition pseudo_desc (p size : Z) : list Z := [u16 (size - 1); u16 (u32 p); u16 (Z.shiftr (u32 p) 16)].
Definition table_reg (pd : list Z) : Z * Z := (nth 0 pd 0, nth 1 pd 0 + 2 ^ 16 * nth 2 pd 0).
Definition lgdt (p size : Z) : Z * Z := table_reg (pseudo_desc p size).
Definition lidt (p size : Z) : Z * Z := table_reg (pseudo_desc p size).

(** idtinit (trap.c); a gate has eight bytes. *)
Definition IDT_SIZE : Z := 256 * 8.
Definition idtinit (idt : Z) : Z * Z := lidt idt IDT_SIZE.

(** The table register of seginit. *)
Definition seginit_gdtr (gdt : Z) : Z * Z := lgdt gdt (NSEGS * 8).

(** ** mycpu and myproc (proc.c) *)

Fixpoint find_cpu (ids : list Z) (apicid : Z) (i : nat) : option nat :=
  match ids with
  | [] => None
  | id :: ids => if id =? apicid then Some i else find_cpu ids apicid (S i)
  end.

(** [ids] are the APIC ids in cpus, [apicid] the answer of lapicid. *)
Definition mycpu (ids : list Z) (apicid : Z) : M cpuint nat := fun k =>
  if ifl k then Panic "mycpu called with interrupts enabled"
  else match find_cpu ids apicid 0 with Some i => Ret k i | None => Panic "unknown apicid" end.

(** [procs] are the proc fields of cpus. *)
Definition myproc (ids : list Z) (apicid : Z) (procs : list (option nat)) : M cpuint (option nat) :=
  pushcli ≫= fun _ =>
  mycpu ids apicid ≫= fun c =>
  let p := default None (procs !! c) in
  popcli ≫= fun _ => mret p.

Definition cpuid (ids : list Z) (apicid : Z) : M cpuint nat := mycpu ids apicid.

(** ** forkret *)

(** The initialisation that has to run in a process. *)
Inductive init_call := Iinit | Initlog.

(** The static [first] and the calls that are made. *)
Definition forkret : M (bool * cpuint) (list init_call) := fun '(first, k) =>
  match popcli k with
  | Ret k _ => if first then Ret (false, k) [Iinit; Initlog] else Ret (false, k) []
  | Panic e => Panic e
  | Wait c k => Wait c (first, k)
  end.

(** The first runs of processes, one after the other, each on its CPU. *)
Fixpoint forkrets (first : bool) (ks : list cpuint) : option (list init_call) :=
  match ks with
  | [] => Some []
  | k :: ks =>
      match forkret (first, k) with
      | Ret (first, _) l => match forkrets first ks with Some l' => Some (l ++ l') | None => None end
      | _ => None
      end
  end.

(** ** procdump *)

Definition state_names : list str :=
  [chr "unused"; chr "embryo"; chr "sleep "; chr "runble"; chr "run   "; chr "zombie"].

Definition state_name (st : Z) : str :=
  if (0 <=? st) && (st <? 6) then nth (Z.to_nat st) state_names [] else chr "???".

(** What cprintf prints with the arguments [args]. *)
Definition kprintf (fmt : str) (args : list parg) : list Z := cprintf (arg_word args) (arg_string args) fmt.

(** for(i=0; i<10 && pc[i] != 0; i++) *)
Fixpoint print_pcs (pcs : list Z) : list Z :=
  match pcs with
  | [] => []
  | pc :: pcs => if pc =? 0 then [] else kprintf (chr " %p") [Num pc] ++ print_pcs pcs
  end.

Definition procdump_line (ld : Z -> Z) (p : proc) : list Z :=
  kprintf (chr "%d %s %s") [Num (pid p); Str (state_name (state p)); Str (Sh.cstr (name p))] ++
  (if state p =? SLEEPING then print_pcs (getcallerpcs ld (u32 (c_ebp (kcontext p) + 8))) else []) ++
  kprintf [10] [].

Fixpoint procdump (ld : Z -> Z) (table : list proc) : list Z :=
  match table with
  | [] => []
  | p :: table => if state p =? UNUSED then procdump ld table else procdump_line ld p ++ procdump ld table
  end.

(** panic (console.c) before it stops: the bytes printed; [id] is the answer of
    lapicid and [sp] the address of the argument. *)
Definition panic_output (ld : Z -> Z) (id sp : Z) (s : str) : list Z :=
  kprintf (chr "lapicid %d: panic: ") [Num id] ++ kprintf s [] ++ kprintf [10] [] ++
  List.concat (map (fun pc => kprintf (chr " %p") [Num pc]) (getcallerpcs ld sp)).

(** ** Descriptors read by the processor *)

Definition bits (k n w : Z) : Z := (w / 2 ^ k) mod 2 ^ n.

Record segment := mk_segment {
  s_base : Z; s_limit : Z; s_type : Z; s_app : Z; s_dpl : Z; s_present : Z;
}.

(** The layout of the processor's manual: base in bits 16 to 39 and 56 to 63,
    limit in bits 0 to 15 and 48 to 51, in pages when bit 55 is set. *)
Definition decode (w : Z) : segment :=
  let base := bits 16 16 w + 2 ^ 16 * bits 32 8 w + 2 ^ 24 * bits 56 8 w in
  let raw := bits 0 16 w + 2 ^ 16 * bits 48 4 w in
  mk_segment base (if bits 55 1 w =? 0 then raw else 4096 * raw + 4095) (bits 40 4 w) (bits 44 1 w) (bits 45 2 w) (bits 47 1 w).

Lemma bits_here n a b : 0 <= n -> 0 <= a < 2 ^ n -> bits 0 n (a + 2 ^ n * b) = a.
Proof. intros Hn Ha. unfold bits. rewrite Z.div_1_r, Z.mul_comm, Z_mod_plus_full. by apply Z.mod_small. Qed.

Lemma bits_skip k n m a b : 0 <= n <= k -> 0 <= a < 2 ^ n -> bits k m (a + 2 ^ n * b) = bits (k - n) m b.
Proof.
  intros Hn Ha. unfold bits. f_equal. replace (2 ^ k) with (2 ^ n * 2 ^ (k - n)) by (rewrite <- Z.pow_add_r by lia; f_equal; lia).
  rewrite <- Z.div_div by (apply Z.pow_nonzero || apply Z.pow_pos_nonneg; lia). f_equal.
  rewrite Z.mul_comm, Z.div_add by (apply Z.pow_nonzero; lia). by rewrite Z.div_small.
Qed.

Lemma bits_last n a : 0 <= a < 2 ^ n -> bits 0 n a = a.
Proof. intros Ha. unfold bits. rewrite Z.div_1_r. by apply Z.mod_small. Qed.

Record seg_wf (d : segdesc) : Prop := {
  wf_l1 : 0 <= lim_15_0 d < 2 ^ 16; wf_b1 : 0 <= base_15_0 d < 2 ^ 16; wf_b2 : 0 <= base_23_16 d < 2 ^ 8; wf_t : 0 <= seg_type d < 2 ^ 4;
  wf_s : 0 <= seg_s d < 2 ^ 1; wf_dpl : 0 <= seg_dpl d < 2 ^ 2; wf_p : 0 <= seg_p d < 2 ^ 1; wf_l2 : 0 <= lim_19_16 d < 2 ^ 4;
  wf_avl : 0 <= seg_avl d < 2 ^ 1; wf_rsv : 0 <= seg_rsv1 d < 2 ^ 1; wf_db : 0 <= seg_db d < 2 ^ 1; wf_g : 0 <= seg_g d < 2 ^ 1;
  wf_b3 : 0 <= base_31_24 d < 2 ^ 8;
}.

(** Skip a field that lies below the bits that are read. *)
Ltac skip_field :=
  match goal with
  | |- context [bits ?k ?m (?a + 2 ^ ?n * ?b)] =>
      lazymatch eval compute in (n <=? k) with true => idtac end;
      rewrite (bits_skip k n m a b) by (done || lia); let v := eval compute in (k - n) in change (k - n) with v
  end.

Lemma decode_pack d : seg_wf d ->
  decode (pack d) =
    mk_segment (base_15_0 d + 2 ^ 16 * base_23_16 d + 2 ^ 24 * base_31_24 d)
      (let raw := lim_15_0 d + 2 ^ 16 * lim_19_16 d in if seg_g d =? 0 then raw else 4096 * raw + 4095)
      (seg_type d) (seg_s d) (seg_dpl d) (seg_p d).
Proof.
  intros []. unfold decode, pack. cbv zeta. repeat skip_field. rewrite !bits_here, !bits_last by (done || lia). done.
Qed.

Lemma mk_seg16_wf l b1 b2 t s dpl p l2 avl rsv db g b3 : seg_wf (mk_seg16 l b1 b2 t s dpl p l2 avl rsv db g b3).
Proof. split; cbn -[Z.pow]; apply Z.mod_pos_bound; done. Qed.

(** The three parts of a base address. *)
Lemma base_parts base : is_u32 base ->
  field 16 (Z.land (u32 base) 0xffff) + 2 ^ 16 * field 8 (Z.land (Z.shiftr (u32 base) 16) 0xff) + 2 ^ 24 * field 8 (Z.shiftr (u32 base) 24) = base.
Proof.
  intros H. rewrite u32_small by done. unfold field, is_u32 in *. change 0xffff with (Z.ones 16). change 0xff with (Z.ones 8).
  rewrite !Z.land_ones, !Z.shiftr_div_pow2, !Z.mod_mod by lia. change (2 ^ 24) with (2 ^ 16 * 2 ^ 8). rewrite <- Z.div_div by lia.
  Z.div_mod_to_equations. lia.
Qed.

Lemma field_small n v : 0 <= v < 2 ^ n -> field n v = v.
Proof. apply Z.mod_small. Qed.

Lemma SEG_decode type base lim dpl : is_u32 base -> is_u32 lim -> 0 <= type < 16 -> 0 <= dpl < 4 ->
  decode (pack (SEG type base lim dpl)) = mk_segment base (4096 * (lim / 4096) + 4095) type 1 dpl 1.
Proof.
  intros Hb Hl Ht Hd. rewrite decode_pack by apply mk_seg16_wf. unfold SEG, mk_seg16. cbn -[Z.pow field Z.mul Z.add Z.div]. rewrite base_parts by done.
  rewrite (field_small 4 type), (field_small 2 dpl), (field_small 1 1) by lia. cbn [Z.eqb Pos.eqb].
  f_equal. rewrite u32_small by done. unfold field, is_u32 in *. change 0xffff with (Z.ones 16).
  rewrite !Z.land_ones, !Z.shiftr_div_pow2, !Z.mod_mod by lia. change (2 ^ 28) with (2 ^ 12 * 2 ^ 16). rewrite <- Z.div_div by lia. change (2 ^ 12) with 4096.
  Z.div_mod_to_equations. lia.
Qed.

Lemma SEG16_decode type base lim dpl : is_u32 base -> 0 <= lim < 2 ^ 20 -> 0 <= type < 16 -> 0 <= dpl < 4 ->
  decode (pack (clear_s (SEG16 type base lim dpl))) = mk_segment base lim type 0 dpl 1.
Proof.
  intros Hb Hl Ht Hd. pose proof (mk_seg16_wf (Z.land lim 0xffff) (Z.land (u32 base) 0xffff) (Z.land (Z.shiftr (u32 base) 16) 0xff) type 1 dpl 1
    (Z.shiftr (u32 lim) 16) 0 0 1 0 (Z.shiftr (u32 base) 24)) as [].
  rewrite decode_pack by (split; try done; by split). unfold SEG16, mk_seg16. cbn -[Z.pow field Z.mul Z.add Z.div]. rewrite base_parts by done.
  rewrite (field_small 4 type), (field_small 2 dpl), (field_small 1 1), (field_small 1 0) by lia. cbn [Z.eqb].
  f_equal. rewrite u32_small by (unfold is_u32; lia). unfold field. change 0xffff with (Z.ones 16).
  rewrite !Z.land_ones, !Z.shiftr_div_pow2, !Z.mod_mod by lia. Z.div_mod_to_equations. lia.
Qed.

(** The segments do what seginit means: kernel and user code and
    data cover the whole address space, present, the user's with privilege 3 and
    the kernel's with privilege 0; and after switchuvm the task segment
    describes exactly the processor's task state, whose I/O bitmap lies beyond
    its limit, and whose stack for interrupts is the top of the process's kernel
    stack. *)
Theorem segments_spec (g : gdt) (ts kstack : Z) :
  is_u32 ts -> is_u32 (kstack + KSTACKSIZE) ->
  let '(g', t) := switch_tss ts kstack (seginit g) in
  let seg i := decode (pack (g' i)) in
  seg SEG_KCODE = mk_segment 0 (2 ^ 32 - 1) 0xA 1 0 1 /\ seg SEG_KDATA = mk_segment 0 (2 ^ 32 - 1) 0x2 1 0 1 /\
  seg SEG_UCODE = mk_segment 0 (2 ^ 32 - 1) 0xA 1 3 1 /\ seg SEG_UDATA = mk_segment 0 (2 ^ 32 - 1) 0x2 1 3 1 /\
  seg SEG_TSS = mk_segment ts (TASKSTATE_SIZE - 1) STS_T32A 0 0 1 /\
  s_limit (seg SEG_TSS) < iomb t /\ esp0 t = kstack + KSTACKSIZE /\ ss0 t = 8 * SEG_KDATA.
Proof.
  intros Hts Hk. cbn [switch_tss]. cbv zeta.
  assert (Ht : decode (pack (set_seg SEG_TSS (clear_s (set_seg SEG_TSS (SEG16 STS_T32A ts (TASKSTATE_SIZE - 1) 0) (seginit g) SEG_TSS))
    (set_seg SEG_TSS (SEG16 STS_T32A ts (TASKSTATE_SIZE - 1) 0) (seginit g)) SEG_TSS)) = mk_segment ts (TASKSTATE_SIZE - 1) STS_T32A 0 0 1).
  { by apply (SEG16_decode STS_T32A ts (TASKSTATE_SIZE - 1) 0 Hts). }
  rewrite Ht. assert (H0 : is_u32 0) by done. assert (Hf : is_u32 0xffffffff) by done.
  split_and!; [exact (SEG_decode 0xA 0 0xffffffff 0 H0 Hf ltac:(lia) ltac:(lia)) | exact (SEG_decode 0x2 0 0xffffffff 0 H0 Hf ltac:(lia) ltac:(lia)) |
    exact (SEG_decode 0xA 0 0xffffffff 3 H0 Hf ltac:(lia) ltac:(lia)) | exact (SEG_decode 0x2 0 0xffffffff 3 H0 Hf ltac:(lia) ltac:(lia)) |
    done | done | by apply u32_small | done].
Qed.

Lemma segments_spec_witness :
  s_dpl (decode (pack (fst (switch_tss 0x80112780 0x8dfff000 (seginit (fun _ => SEG 0 0 0 0))) SEG_UCODE))) = 3.
Proof.
  destruct (segments_spec (fun _ => SEG 0 0 0 0) 0x80112780 0x8dfff000) as (_ & _ & H & _);
    [split; [discriminate | reflexivity].. | exact (f_equal s_dpl H)].
Defined.

(** ** mycpu and myproc *)

Lemma find_cpu_spec ids apicid i n : NoDup ids -> ids !! i = Some apicid -> find_cpu ids apicid n = Some (n + i)%nat.
Proof.
  revert i n. induction ids as [|id ids IH]; intros i n Hn Hi; [done|]. apply list.NoDup_cons in Hn as [Hnin Hn]. cbn [find_cpu]. destruct i as [|i].
  - injection Hi as ->. rewrite Z.eqb_refl. f_equal. lia.
  - cbn in Hi. destruct (Z.eqb_spec id apicid) as [->|]; [by destruct Hnin; eapply list_elem_of_lookup_2|].
    rewrite (IH i (S n) Hn Hi). f_equal. lia.
Qed.

(** Myproc returns the process of the processor that it runs on,
    found by its APIC id among those that mpinit stored, and leaves interrupts
    and their nesting as they were. *)
Theorem myproc_spec (ids : list Z) (procs : list (option nat)) (i : nat) (apicid : Z) (k : cpuint) :
  NoDup ids -> ids !! i = Some apicid -> cpuint_wf k ->
  exists k', myproc ids apicid procs k = Ret k' (default None (procs !! i)) /\ ifl k' = ifl k /\ ncli k' = ncli k /\
    (0 < ncli k -> intena k' = intena k).
Proof.
  intros Hn Hi [H1 H2]. unfold myproc, pushcli, mycpu, popcli, mbind, M_bind. cbn [ifl ncli intena].
  rewrite (find_cpu_spec ids apicid i 0 Hn Hi). cbn [Nat.add ifl ncli intena]. replace (ncli k + 1 - 1) with (ncli k) by lia.
  rewrite (proj2 (Z.ltb_ge (ncli k) 0) H1). eexists. split; [reflexivity|]. cbn [ifl ncli intena].
  destruct (Z.eqb_spec (ncli k) 0) as [E|E]; cbn [andb]; (split; [|split; [done|]]).
  - by destruct (ifl k).
  - lia.
  - symmetry. apply H2. lia.
  - done.
Qed.

Lemma myproc_spec_witness : exists k', myproc [4; 7] 7 [Some 1%nat; Some 2%nat] (mk_cpuint true 0 false) = Ret k' (Some 2%nat).
Proof.
  destruct (myproc_spec [4; 7] [Some 1%nat; Some 2%nat] 1 7 (mk_cpuint true 0 false)) as (k' & H & _); [| done | by split |].
  - repeat constructor; set_solver.
  - exists k'. exact H.
Defined.

(** ** procdump *)

(** The listing has a line for every process that is not unused, in the order of
    the table. *)
Lemma procdump_lines ld table :
  procdump ld table = List.concat (map (procdump_line ld) (filter (fun p => state p <> UNUSED) table)).
Proof.
  induction table as [|p table IH]; [done|]. cbn [procdump]. destruct (Z.eqb_spec (state p) UNUSED) as [E|E].
  - rewrite filter_cons_False by (intros H; by apply H). exact IH.
  - rewrite filter_cons_True by done. cbn [map List.concat]. by rewrite IH.
Qed.

(** A process in the middle of a transition has no name for its state. *)
Lemma transition_name st : st < 0 \/ st = PRE_UNUSED -> state_name st = chr "???".
Proof. intros [H| ->]; [|done]. unfold state_name. by rewrite (proj2 (Z.leb_gt _ _)). Qed.

(** The file system and the log are initialised by the first process that runs
    and by no other. *)
Lemma forkrets_once ks l : forkrets true ks = Some l -> ks <> [] -> l = [Iinit; Initlog].
Proof.
  assert (Hf : forall ks l, forkrets false ks = Some l -> l = []).
  { clear. induction ks as [|k ks IH]; intros l; cbn [forkrets]; [by intros [= <-]|]. unfold forkret.
    destruct (popcli k); try done. destruct (forkrets false ks) eqn:E; intros [= <-]. by rewrite (IH _ eq_refl). }
  destruct ks as [|k ks]; [done|]. cbn [forkrets]. unfold forkret. intros H _.
  destruct (popcli k); try done. destruct (forkrets false ks) as [l'|] eqn:E; [|discriminate H].
  rewrite (Hf ks _ E) in H. by injection H.
Qed.

(** The processor finds the table where it is and no entry beyond its end. *)
Lemma table_reg_spec p size : is_u32 p -> 0 < size <= 2 ^ 16 -> table_reg (pseudo_desc p size) = (size - 1, p).
Proof.
  intros Hp Hs. unfold table_reg, pseudo_desc. cbn [nth]. rewrite (u32_small p) by done. unfold u16.
  rewrite Z.shiftr_div_pow2 by lia. pose proof (Z_div_mod_eq_full p (2 ^ 16)).
  rewrite (Z.mod_small (size - 1)) by lia. rewrite (Z.mod_small (p / 2 ^ 16)); [f_equal; lia|].
  destruct Hp. split; [apply Z.div_pos; lia|apply Z.div_lt_upper_bound; lia].
Qed.

(** Every trap number has its gate inside the table, and every selector that
    the kernel uses its segment. *)
Lemma tables_loaded idt gdt n sel :
  is_u32 idt -> is_u32 gdt -> 0 <= n < 256 -> 0 <= sel < NSEGS ->
  snd (idtinit idt) = idt /\ 8 * n + 7 <= fst (idtinit idt) /\
  snd (seginit_gdtr gdt) = gdt /\ 8 * sel + 7 <= fst (seginit_gdtr gdt).
Proof.
  unfold idtinit, lidt, seginit_gdtr, lgdt, IDT_SIZE, NSEGS. intros H1 H2 H3 H4.
  rewrite !table_reg_spec by (done || lia). cbn. lia.
Qed.
