(* ===== verification/Asm.v ===== *)
(** The assembly of the kernel and of the user library that C code relies on:
    swtch.S, trapasm.S, the vectors that vectors.pl generates, usys.S and
    initcode.S, with the stacks that allocproc (proc.c) prepares for them.

    The instructions that these files use are executed on the registers and
    the memory of one processor.  What the hardware does on a trap, on [int]
    and on [iret] follows the processor's manual: the stack of the task state
    is used when the privilege level changes, and the upper half of a pushed
    selector is unspecified ([junk]).  The C functions that are called obey
    the calling convention of the compiler. *)

From S2P Require Import Prelude Word Mem Proc Signal SignalTypes Spinlock Trap Cpu.

Local Open Scope Z_scope.

(** ** The processor *)

Inductive reg := EAX | ECX | EDX | EBX | ESP | EBP | ESI | EDI.
Inductive sreg := CS | SS | DS | ES | FS | GS.

Record gprs := mk_gprs {
  r_eax : Z; r_ecx : Z; r_edx : Z; r_ebx : Z; r_esp : Z; r_ebp : Z; r_esi : Z; r_edi : Z;
}.
Record segs := mk_segs { s_cs : Z; s_ss : Z; s_ds : Z; s_es : Z; s_fs : Z; s_gs : Z }.

Record machine := mk_machine { gr : gprs; sr : segs; m_eip : Z; m_eflags : Z; ram : mem }.

Definition rget (r : reg) (g : gprs) : Z :=
  match r with
  | EAX => r_eax g | ECX => r_ecx g | EDX => r_edx g | EBX => r_ebx g
  | ESP => r_esp g | EBP => r_ebp g | ESI => r_esi g | EDI => r_edi g
  end.

Definition rset (r : reg) (v : Z) (g : gprs) : gprs :=
  let '(mk_gprs a c d b sp bp si di) := g in
  match r with
  | EAX => mk_gprs v c d b sp bp si di | ECX => mk_gprs a v d b sp bp si di
  | EDX => mk_gprs a c v b sp bp si di | EBX => mk_gprs a c d v sp bp si di
  | ESP => mk_gprs a c d b v bp si di | EBP => mk_gprs a c d b sp v si di
  | ESI => mk_gprs a c d b sp bp v di | EDI => mk_gprs a c d b sp bp si v
  end.

Definition sget (r : sreg) (g : segs) : Z :=
  match r with
  | CS => s_cs g | SS => s_ss g | DS => s_ds g | ES => s_es g | FS => s_fs g | GS => s_gs g
  end.

Definition sset (r : sreg) (v : Z) (g : segs) : segs :=
  let '(mk_segs cs ss ds es fs gs) := g in
  match r with
  | CS => mk_segs v ss ds es fs gs | SS => mk_segs cs v ds es fs gs
  | DS => mk_segs cs ss v es fs gs | ES => mk_segs cs ss ds v fs gs
  | FS => mk_segs cs ss ds es v gs | GS => mk_segs cs ss ds es fs v
  end.

Definition on_gr (f : gprs -> gprs) (s : machine) : machine :=
  mk_machine (f (gr s)) (sr s) (m_eip s) (m_eflags s) (ram s).
Definition on_sr (f : segs -> segs) (s : machine) : machine :=
  mk_machine (gr s) (f (sr s)) (m_eip s) (m_eflags s) (ram s).
Definition set_meip (v : Z) (s : machine) : machine :=
  mk_machine (gr s) (sr s) v (m_eflags s) (ram s).
Definition set_meflags (v : Z) (s : machine) : machine :=
  mk_machine (gr s) (sr s) (m_eip s) v (ram s).

(** ** The stack *)

Definition push (v : Z) (s : machine) : machine :=
  let e := u32 (r_esp (gr s) - 4) in
  mk_machine (rset ESP e (gr s)) (sr s) (m_eip s) (m_eflags s) (store32 (ram s) e v).

Definition top (s : machine) : Z := load32 (ram s) (r_esp (gr s)).

(** Move the stack pointer by [n] bytes. *)
Definition drop_bytes (n : Z) (s : machine) : machine :=
  on_gr (rset ESP (u32 (r_esp (gr s) + n))) s.

(** ** Instructions, in the order of operands of the assembler *)

(** The C functions called from assembly. *)
Inductive cfun := c_trap | c_handle_signals | c_forkret.

Inductive instr :=
| MovLoad (off : Z) (base dst : reg)   (* movl off(%base), %dst *)
| MovStore (src base : reg)            (* movl %src, (%base) *)
| MovR (src dst : reg)                 (* movl %src, %dst *)
| MovI (v : Z) (dst : reg)             (* movl $v, %dst *)
| MovWI (v : Z) (dst : reg)            (* movw $v, the lower half of %dst *)
| MovS (src : reg) (dst : sreg)        (* movw the lower half of %src, %dst *)
| PushR (r : reg)
| PushS (r : sreg)
| PushI (v : Z)
| PopR (r : reg)
| PopS (r : sreg)
| Pushal
| Popal
| AddI (v : Z) (dst : reg)
| Call (f : cfun)
| Jmp (a : Z)
| Ret
| Iret
| Int (n here : Z).                    (* int $n at the address here *)

(** ** The source files *)

(** swtch.S *)
Definition swtch : list instr :=
  [MovLoad 4 ESP EAX; MovLoad 8 ESP EDX;
   PushR EBP; PushR EBX; PushR ESI; PushR EDI;
   MovStore ESP EAX; MovR EDX ESP;
   PopR EDI; PopR ESI; PopR EBX; PopR EBP; Ret].

(** trapasm.S *)
Definition pop_frame : list instr := [Popal; PopS GS; PopS FS; PopS ES; PopS DS; AddI 8 ESP; Iret].
Definition trapret : list instr := [PushR ESP; Call c_handle_signals; AddI 4 ESP] ++ pop_frame.

(** Up to the call of trap. *)
Definition build_frame : list instr :=
  [PushS DS; PushS ES; PushS FS; PushS GS; Pushal;
   MovWI (Z.shiftl SEG_KDATA 3) EAX; MovS EAX DS; MovS EAX ES; PushR ESP].

Definition alltraps : list instr := build_frame ++ [Call c_trap; AddI 4 ESP] ++ trapret.

(** vectors.pl: the traps for which the processor pushes an error code. *)
Definition has_err (i : Z) : bool := (i =? 8) || ((10 <=? i) && (i <=? 14)) || (i =? 17).

(** vector$i; [at_alltraps] is the address of alltraps. *)
Definition vector (at_alltraps i : Z) : list instr :=
  (if negb (has_err i) then [PushI 0] else []) ++ [PushI i; Jmp at_alltraps].

(** SYSCALL(name) of usys.S at the address [a], with $SYS_name = [num], up to
    the trap; ret follows. *)
Definition stub (a num : Z) : list instr := [MovI num EAX; Int T_SYSCALL (a + 5)].
Definition stub_ret : list instr := [Ret].

Definition SYS_exec : Z := 7.
Definition SYS_exit : Z := 2.

(** initcode.S: [init] and [argv] are the addresses of the labels, [a] those
    of the two int instructions. *)
Definition start (init argv a : Z) : list instr :=
  [PushI argv; PushI init; PushI 0; MovI SYS_exec EAX; Int T_SYSCALL a].
Definition exit_loop (a : Z) : list instr := [MovI SYS_exit EAX; Int T_SYSCALL a].

(** The data of initcode.S. *)
Definition init_string : list Z := [47; 105; 110; 105; 116; 0; 0].
Definition initcode_data (m : mem) (init argv : Z) : mem :=
  store32 (store32 (store_bytes m init init_string) argv init) (argv + 4) 0.

(** allocproc, lines 121 to 135: the room for the trap frame, the return
    address trapret and the context of a new kernel stack.  The result is
    the memory, p->tf and p->context. *)
Definition CONTEXT_SIZE : Z := 20.
Definition alloc_stack (m : mem) (kstack at_trapret at_forkret : Z) : mem * Z * Z :=
  let sp := u32 (kstack + KSTACKSIZE) in
  let sp := u32 (sp - TF_SIZE) in
  let tf := sp in
  let sp := u32 (sp - 4) in
  let m := store32 m sp at_trapret in
  let sp := u32 (sp - CONTEXT_SIZE) in
  let context := sp in
  let m := memset m context 0 CONTEXT_SIZE in
  let m := store32 m (u32 (context + 16)) at_forkret in
  (m, tf, context).

(** ** Execution *)

Section exec.
(** The upper half written with a pushed selector, by address; the flags left
    by an addition; the C functions; the task state and the descriptor table
    of the processor. *)
Context (junk : Z -> Z) (add_eflags : Z -> Z -> Z -> Z).
Context (call : cfun -> machine -> machine) (ts : taskstate) (idt : list gatedesc).

Definition pushs (r : sreg) (s : machine) : machine :=
  push (pack16 (sget r (sr s)) (junk (u32 (r_esp (gr s) - 4)))) s.

Definition pop (r : reg) (s : machine) : machine :=
  let v := top s in on_gr (rset r v) (drop_bytes 4 s).
Definition pops (r : sreg) (s : machine) : machine :=
  let v := lo16 (top s) in on_sr (sset r v) (drop_bytes 4 s).

Definition pushal (s : machine) : machine :=
  let old := r_esp (gr s) in
  let s := push (r_eax (gr s)) s in let s := push (r_ecx (gr s)) s in
  let s := push (r_edx (gr s)) s in let s := push (r_ebx (gr s)) s in
  let s := push old s in
  let s := push (r_ebp (gr s)) s in let s := push (r_esi (gr s)) s in push (r_edi (gr s)) s.

Definition popal (s : machine) : machine :=
  let s := pop EDI s in let s := pop ESI s in let s := pop EBP s in
  let s := drop_bytes 4 s in
  let s := pop EBX s in let s := pop EDX s in let s := pop ECX s in pop EAX s.

Definition is_user (s : machine) : bool := Z.land (s_cs (sr s)) 3 =? DPL_USER.

(** The flags cleared on entry: TF, NT, RF and VM, and IF by an interrupt
    gate. *)
Definition entry_eflags (g : gatedesc) (f : Z) : Z :=
  Z.land f (Z.lnot (Z.lor 0x34100 (if g_type g =? STS_IG32 then 0x200 else 0))).

(** Trap [n] through its gate: from user mode on the stack of the task
    state, from the kernel on the present one. *)
Definition hw_trap (n err : Z) (s : machine) : machine :=
  match idt !! Z.to_nat n with
  | None => s
  | Some g =>
      let s0 := s in
      let s := if is_user s0
               then let s := on_sr (sset SS (ss0 ts)) (on_gr (rset ESP (esp0 ts)) s) in
                    let s := push (pack16 (s_ss (sr s0)) (junk (u32 (r_esp (gr s) - 4)))) s in
                    push (r_esp (gr s0)) s
               else s in
      let s := push (m_eflags s0) s in
      let s := push (pack16 (s_cs (sr s0)) (junk (u32 (r_esp (gr s) - 4)))) s in
      let s := push (m_eip s0) s in
      let s := if has_err n then push err s else s in
      set_meflags (entry_eflags g (m_eflags s0)) (set_meip (gate_offset g) (on_sr (sset CS (g_cs g)) s))
  end.

(** A gate that user mode may not use gives a general protection fault, with
    the number of the gate in the error code. *)
Definition T_GPFLT : Z := 13.
Definition int_instr (n here : Z) (s : machine) : machine :=
  match idt !! Z.to_nat n with
  | Some g => if is_user s && (g_dpl g <? DPL_USER) then hw_trap T_GPFLT (8 * n + 2) (set_meip here s)
              else hw_trap n 0 (set_meip (here + 2) s)
  | None => s
  end.

(** Return to the privilege level of the popped cs. *)
Definition iret (s : machine) : machine :=
  let from_user := is_user s in
  let s := drop_bytes 4 (set_meip (top s) s) in
  let s := pops CS s in
  let s := drop_bytes 4 (set_meflags (top s) s) in
  if is_user s && negb from_user
  then let e := top s in
       let s := drop_bytes 4 s in
       let s := pops SS s in on_gr (rset ESP e) s
  else s.

Definition exec_instr (i : instr) (s : machine) : machine :=
  match i with
  | MovLoad off b d => on_gr (rset d (load32 (ram s) (u32 (rget b (gr s) + off)))) s
  | MovStore r b => mk_machine (gr s) (sr s) (m_eip s) (m_eflags s) (store32 (ram s) (rget b (gr s)) (rget r (gr s)))
  | MovR r d => on_gr (rset d (rget r (gr s))) s
  | MovI v d => on_gr (rset d v) s
  | MovWI v d => on_gr (rset d (pack16 v (hi16 (rget d (gr s))))) s
  | MovS r d => on_sr (sset d (lo16 (rget r (gr s)))) s
  | PushR r => push (rget r (gr s)) s
  | PushS r => pushs r s
  | PushI v => push v s
  | PopR r => pop r s
  | PopS r => pops r s
  | Pushal => pushal s
  | Popal => popal s
  | AddI v d => set_meflags (add_eflags (m_eflags s) (rget d (gr s)) v)
                  (on_gr (rset d (u32 (rget d (gr s) + v))) s)
  | Call f => call f s
  | Jmp a => set_meip a s
  | Ret => drop_bytes 4 (set_meip (top s) s)
  | Iret => iret s
  | Int n here => int_instr n here s
  end.

Fixpoint run (code : list instr) (s : machine) : machine :=
  match code with
  | [] => s
  | i :: code => run code (exec_instr i s)
  end.

(** [text] is the code that starts at an address, to the instruction that
    leaves it; [go] runs the code that the processor has come to. *)
Context (text : Z -> list instr).
Definition go (s : machine) : machine := run (text (m_eip s)) s.

End exec.

(** ** Words on the stack *)

Fixpoint pushw (m : mem) (e : Z) (ws : list Z) : mem :=
  match ws with
  | [] => m
  | w :: ws => pushw (store32 m (e - 4) w) (e - 4) ws
  end.

Lemma pushw_out ws m e x : x < e - 4 * Z.of_nat (length ws) \/ e <= x -> pushw m e ws x = m x.
Proof.
  revert m e. induction ws as [|w ws IH]; intros m e H; cbn [pushw length] in *; [done|].
  rewrite IH by lia. apply store32_out. lia.
Qed.

Lemma load_words_app m a n k :
  load_words m a (n + k) = load_words m a n ++ load_words m (a + 4 * Z.of_nat n) k.
Proof.
  revert a. induction n as [|n IH]; intros a; cbn [load_words Nat.add app].
  - f_equal. lia.
  - rewrite IH. do 3 f_equal. lia.
Qed.

Lemma load_pushw ws m e :
  Forall is_u32 ws ->
  load_words (pushw m e ws) (e - 4 * Z.of_nat (length ws)) (length ws) = rev ws.
Proof.
  revert m e. induction ws as [|w ws IH]; intros m e H; cbn [pushw length rev]; [done|].
  apply Forall_cons_1 in H as [Hw H]. rewrite <- Nat.add_1_r, load_words_app. f_equal.
  - etransitivity; [|apply (IH (store32 m (e - 4) w) (e - 4) H)]. f_equal. lia.
  - cbn [load_words]. f_equal.
    etransitivity; [|apply (load32_store32_eq m (e - 4) w Hw)].
    replace (e - 4 * Z.of_nat (length ws + 1) + 4 * Z.of_nat (length ws)) with (e - 4) by lia.
    apply load32_ext. intros x Hx. apply pushw_out. lia.
Qed.

(** Computing with machines whose registers are known. *)
Ltac exec_asm :=
  cbv [go run exec_instr swtch pop_frame trapret build_frame alltraps vector stub stub_ret start exit_loop
       push pushs pop pops pushal popal top drop_bytes on_gr on_sr set_meip set_meflags rget rset sget sset iret
       gr sr m_eip m_eflags ram r_eax r_ecx r_edx r_ebx r_esp r_ebp r_esi r_edi s_cs s_ss s_ds s_es s_fs s_gs app negb].

Ltac build_Forall := repeat (apply Forall_cons_2; [done|]); apply Forall_nil_2.

(** Offsets from the same address are one constant. *)
Ltac norm_addr :=
  rewrite <- ?Z.sub_add_distr, <- ?Z.add_assoc;
  repeat match goal with
         | |- context [Z.add (Zpos ?a) (Zpos ?b)] =>
             let c := eval vm_compute in (Z.add (Zpos a) (Zpos b)) in change (Z.add (Zpos a) (Zpos b)) with c
         end.

(** Stack addresses do not wrap around. *)
Ltac no_wrap :=
  repeat match goal with
         | |- context [u32 ?x] =>
             lazymatch x with context [u32 _] => fail | _ => rewrite (u32_small x) by (unfold is_u32; lia) end
         end.

(** ** swtch *)

Definition load_context (m : mem) (a : Z) : context :=
  mk_context (load32 m a) (load32 m (a + 4)) (load32 m (a + 8)) (load32 m (a + 12)) (load32 m (a + 16)).

Lemma load_context_ext m m' a :
  (forall x, a <= x < a + CONTEXT_SIZE -> m' x = m x) -> load_context m' a = load_context m a.
Proof.
  unfold CONTEXT_SIZE, load_context. intros H.
  f_equal; apply load32_ext; intros x Hx; apply H; lia.
Qed.

(** The arguments of swtch(old, new) on the stack, and the registers that the
    calling convention preserves. *)
Definition arg_old (s : machine) : Z := load32 (ram s) (r_esp (gr s) + 4).
Definition arg_new (s : machine) : Z := load32 (ram s) (r_esp (gr s) + 8).
Definition callee_saved (s : machine) : list Z :=
  [r_ebx (gr s); r_ebp (gr s); r_esi (gr s); r_edi (gr s)].

(** A call of swtch: the caller's stack has room, *old is apart from the
    context that is pushed and its return address, and the new context is
    apart from both. *)
Record swtch_call (s : machine) : Prop := {
  sc_saved : Forall is_u32 (callee_saved s);
  sc_esp : 16 <= r_esp (gr s) /\ r_esp (gr s) + 12 <= 2 ^ 32;
  sc_old : arg_old s + 4 <= r_esp (gr s) - 16 \/ r_esp (gr s) + 4 <= arg_old s;
  sc_new : 0 <= arg_new s /\ arg_new s + CONTEXT_SIZE < 2 ^ 32;
  sc_new_stack : arg_new s + CONTEXT_SIZE <= r_esp (gr s) - 16 \/ r_esp (gr s) <= arg_new s;
  sc_new_old : arg_old s + 4 <= arg_new s \/ arg_new s + CONTEXT_SIZE <= arg_old s;
}.

(** What swtch leaves in memory and in the registers. *)
Definition swtch_mem (s : machine) : mem :=
  store32 (pushw (ram s) (r_esp (gr s)) [r_ebp (gr s); r_ebx (gr s); r_esi (gr s); r_edi (gr s)])
    (arg_old s) (r_esp (gr s) - 16).

Section swtch.
Context (junk : Z -> Z) (add_eflags : Z -> Z -> Z -> Z).
Context (call : cfun -> machine -> machine) (ts : taskstate) (idt : list gatedesc).
Notation run := (run junk add_eflags call ts idt).

Lemma swtch_run s :
  swtch_call s ->
  let n := load_context (ram s) (arg_new s) in
  run swtch s =
    mk_machine (mk_gprs (arg_old s) (r_ecx (gr s)) (arg_new s) (c_ebx n) (arg_new s + CONTEXT_SIZE)
                  (c_ebp n) (c_esi n) (c_edi n)) (sr s) (c_eip n) (m_eflags s) (swtch_mem s).
Proof.
  intros [Hs [H1 H2] H3 H4 H5 H6] n.
  assert (Hm : load_context (swtch_mem s) (arg_new s) = n).
  { apply load_context_ext. intros x Hx. unfold swtch_mem, CONTEXT_SIZE in *.
    rewrite store32_out by lia. apply pushw_out. cbn [length]. lia. }
  rewrite <- Hm. clear Hm n Hs. unfold load_context, swtch_mem, CONTEXT_SIZE in *.
  destruct s as [[a c d b e bp si di] seg ip fl m]. unfold arg_old, arg_new in *. cbn [r_esp gr ram r_ecx sr m_eflags] in *.
  exec_asm. cbn [pushw c_edi c_esi c_ebx c_ebp c_eip].
  no_wrap. set (old := load32 m (e + 4)) in *. set (nw := load32 m (e + 8)) in *.
  no_wrap. replace (e - 4 - 4 - 4 - 4) with (e - 16) by lia.
  repeat (f_equal; try lia).
Qed.

(** The caller's context is on its stack, and *old points at it. *)
Lemma swtch_saved s :
  swtch_call s ->
  load_context (swtch_mem s) (r_esp (gr s) - 16) =
    mk_context (r_edi (gr s)) (r_esi (gr s)) (r_ebx (gr s)) (r_ebp (gr s)) (top s) /\
  load32 (swtch_mem s) (arg_old s) = r_esp (gr s) - 16.
Proof.
  intros [Hs [H1 H2] H3 _ _ _]. unfold swtch_mem. split; [|apply load32_store32_eq; unfold is_u32; lia].
  unfold callee_saved in Hs. split_Forall.
  set (e := r_esp (gr s)) in *. set (ws := [r_ebp (gr s); r_ebx (gr s); r_esi (gr s); r_edi (gr s)]).
  assert (Hw : load_words (pushw (ram s) e ws) (e - 16) 4 = rev ws) by (apply (load_pushw ws); unfold ws; build_Forall).
  assert (Ht : load32 (pushw (ram s) e ws) (e - 16 + 16) = top s).
  { unfold top. fold e. replace (e - 16 + 16) with e by lia. apply load32_ext. intros x Hx. apply pushw_out. lia. }
  etransitivity; [apply load_context_ext; intros x Hx; unfold CONTEXT_SIZE in Hx; apply store32_out; lia|].
  revert Hw Ht. generalize (pushw (ram s) e ws) as m1. intros m1 Hw Ht. unfold ws in Hw.
  injection Hw as E1 E2 E3 E4.
  unfold load_context. rewrite Ht, E1, E2. replace (e - 16 + 8) with (e - 16 + 4 + 4) by lia.
  replace (e - 16 + 12) with (e - 16 + 4 + 4 + 4) by lia. by rewrite E3, E4.
Qed.

(** C16 (functional): A call of swtch(&a, b) goes on in the thread
    whose context b is; when any thread later switches to the context that a
    points at, with the stack of the caller as it was left, the call returns:
    to its return address, with the stack pointer after the return and the
    registers that a C function must preserve, whatever the others did. *)
Theorem swtch_resumes (s s' : machine) :
  swtch_call s -> swtch_call s' ->
  (forall x, r_esp (gr s) - 16 <= x < r_esp (gr s) + 4 -> ram s' x = ram (run swtch s) x) ->
  arg_new s' = load32 (ram (run swtch s)) (arg_old s) ->
  m_eip (run swtch s) = c_eip (load_context (ram s) (arg_new s)) /\
  r_esp (gr (run swtch s)) = arg_new s + CONTEXT_SIZE /\
  callee_saved (run swtch s') = callee_saved s /\
  m_eip (run swtch s') = top s /\
  r_esp (gr (run swtch s')) = r_esp (gr s) + 4.
Proof.
  intros H H' Hkeep Harg. rewrite !(swtch_run _ H) in *. rewrite !(swtch_run _ H'). cbn [ram gr m_eip r_esp] in *.
  destruct (swtch_saved s H) as [Hctx Hold]. rewrite Hold in Harg. rewrite Harg.
  rewrite (load_context_ext (swtch_mem s) (ram s')) by (intros x Hx; apply Hkeep; unfold CONTEXT_SIZE in Hx; lia).
  rewrite Hctx. unfold callee_saved, CONTEXT_SIZE. cbn. split_and!; (done || lia).
Qed.
End swtch.

(** ** The trap frame *)

Record machine_wf (s : machine) : Prop := {
  wf_gr : Forall is_u32 [r_eax (gr s); r_ecx (gr s); r_edx (gr s); r_ebx (gr s); r_esp (gr s);
                         r_ebp (gr s); r_esi (gr s); r_edi (gr s)];
  wf_sr : Forall is_u16 [s_cs (sr s); s_ss (sr s); s_ds (sr s); s_es (sr s); s_fs (sr s); s_gs (sr s)];
  wf_eip : is_u32 (m_eip s);
  wf_eflags : is_u32 (m_eflags s);
}.

(** What the assembly relies on in the C functions: they leave the stack
    pointer, the preserved registers and the segments as they were. *)
Class Cdecl (call : cfun -> machine -> machine) : Prop := {
  call_esp : forall f s, r_esp (gr (call f s)) = r_esp (gr s);
  call_saved : forall f s, callee_saved (call f s) = callee_saved s;
  call_sr : forall f s, sr (call f s) = sr s;
}.

(** [f(tf)], called with tf just above its argument, changes the frame by
    [body]. *)
Definition changes_frame (call : cfun -> machine -> machine) (f : cfun) (body : trapframe -> trapframe) : Prop :=
  forall s, top s = r_esp (gr s) + 4 -> load_tf (ram (call f s)) (top s) = body (load_tf (ram s) (top s)).

Definition user_frame (t : trapframe) : bool := Z.land (cs t) 3 =? DPL_USER.

(** A machine goes on from frame [t] at the address [F]. *)
Definition resumed (F : Z) (t : trapframe) (ss' : Z) (m : mem) : machine :=
  mk_machine (mk_gprs (eax t) (ecx t) (edx t) (ebx t) (if user_frame t then esp t else F + 68) (ebp t) (esi t) (edi t))
    (mk_segs (cs t) (if user_frame t then ss t else ss') (ds t) (es t) (fs t) (gs t)) (eip t) (eflags t) m.

Section trap.
Context (junk : Z -> Z) (add_eflags : Z -> Z -> Z -> Z).
Context (call : cfun -> machine -> machine) (ts : taskstate) (vectors : Z -> Z) (at_alltraps : Z).
Context (text : Z -> list instr) (at_trapret at_forkret : Z).
Hypothesis Hjunk : forall a, is_u16 (junk a).
Context `{!Cdecl call}.
Notation idt := (tvinit vectors).
Notation run := (run junk add_eflags call ts idt).
Notation go := (go junk add_eflags call ts idt text).
Notation hw_trap := (hw_trap junk ts idt).

(** The words pushed from the flags on: by the processor, the vector and
    alltraps, with the stack at [e]. *)
Definition pushed (n err e : Z) (s : machine) : list Z :=
  let g := gr s in
  [m_eflags s; pack16 (s_cs (sr s)) (junk (e - 8)); m_eip s; (if has_err n then err else 0); n;
   pack16 (s_ds (sr s)) (junk (e - 24)); pack16 (s_es (sr s)) (junk (e - 28));
   pack16 (s_fs (sr s)) (junk (e - 32)); pack16 (s_gs (sr s)) (junk (e - 36));
   r_eax g; r_ecx g; r_edx g; r_ebx g; e - 36; r_ebp g; r_esi g; r_edi g].

(** The stack before them and the address of the frame. *)
Definition entry_esp (s : machine) : Z := if is_user s then esp0 ts - 8 else r_esp (gr s).
Definition frame_addr (s : machine) : Z := entry_esp s - 68.
Definition entry_mem (s : machine) : mem :=
  if is_user s then pushw (ram s) (esp0 ts) [pack16 (s_ss (sr s)) (junk (esp0 ts - 4)); r_esp (gr s)] else ram s.

Lemma tvinit_lookup n :
  0 <= n < 256 -> exists g, tvinit vectors !! Z.to_nat n = Some g /\ g_cs g = Z.shiftl SEG_KCODE 3 /\
    gate_offset g = u32 (vectors n).
Proof using Type.
  intros Hn. destruct (lookup_lt_is_Some_2 (tvinit vectors) (Z.to_nat n)) as [g Hg].
  { unfold tvinit. rewrite length_insert, length_map, length_seq. lia. }
  exists g. split; [done|]. destruct (tvinit_spec vectors _ _ Hg) as (_ & _ & _ & H1 & H2).
  split; [exact H1|]. by rewrite H2, Z2Nat.id by lia.
Qed.

Lemma run_app c1 c2 s : run (c1 ++ c2) s = run c2 (run c1 s).
Proof using Type. revert s. induction c1 as [|i c1 IH]; intros s; cbn [Asm.run app]; [done|apply IH]. Qed.

(** Room on the stack for the frame, the argument and a return address. *)
Definition stack_room (s : machine) : Prop := 84 <= entry_esp s /\ entry_esp s + 8 < 2 ^ 32.

(** The machine that calls trap. *)
Definition at_trap (n err fl : Z) (s : machine) : machine :=
  let g := gr s in let F := frame_addr s in
  mk_machine (mk_gprs (pack16 (Z.shiftl SEG_KDATA 3) (hi16 (r_eax g))) (r_ecx g) (r_edx g) (r_ebx g) (F - 4)
                (r_ebp g) (r_esi g) (r_edi g))
    (mk_segs (Z.shiftl SEG_KCODE 3) (if is_user s then ss0 ts else s_ss (sr s))
       (lo16 (pack16 (Z.shiftl SEG_KDATA 3) (hi16 (r_eax g)))) (lo16 (pack16 (Z.shiftl SEG_KDATA 3) (hi16 (r_eax g))))
       (s_fs (sr s)) (s_gs (sr s)))
    at_alltraps fl
    (store32 (pushw (entry_mem s) (entry_esp s) (pushed n err (entry_esp s) s)) (F - 4) F).

Lemma frame_built n err s :
  0 <= n < 256 -> stack_room s -> text (u32 (vectors n)) = vector at_alltraps n ->
  exists fl, run build_frame (go (hw_trap n err s)) = at_trap n err fl s.
Proof using Type.
  intros Hn [H1 H2] Htext. destruct (tvinit_lookup n Hn) as (g & Hg & Hcs & Hoff).
  exists (entry_eflags g (m_eflags s)). unfold Asm.hw_trap. rewrite Hg.
  unfold Asm.go, at_trap, frame_addr, entry_mem, entry_esp, pushed in *.
  destruct s as [[a c d b e bp si di] [cs ss ds es fs gs] ip fl m]. cbn [r_esp gr] in H1, H2. cbv zeta.
  change (m_eip (set_meflags ?f (set_meip ?v ?x))) with v. rewrite Hoff, Htext. unfold vector.
  destruct (is_user _), (has_err n); exec_asm; rewrite ?Hcs; cbn [pushw]; no_wrap;
    norm_addr; reflexivity.
Qed.

(** The struct trapframe of an interrupted machine.  From the kernel its last
    two members are whatever lies above. *)
Definition frame (n err : Z) (s : machine) : trapframe :=
  let g := gr s in let F := frame_addr s in
  let above := load32 (ram s) (F + 72) in
  mk_trapframe (r_edi g) (r_esi g) (r_ebp g) (F + 32) (r_ebx g) (r_edx g) (r_ecx g) (r_eax g)
    (s_gs (sr s)) (junk (F + 32)) (s_fs (sr s)) (junk (F + 36)) (s_es (sr s)) (junk (F + 40))
    (s_ds (sr s)) (junk (F + 44)) n (if has_err n then err else 0) (m_eip s) (s_cs (sr s)) (junk (F + 60))
    (m_eflags s) (if is_user s then r_esp g else load32 (ram s) (F + 68))
    (if is_user s then s_ss (sr s) else lo16 above) (if is_user s then junk (F + 72) else hi16 above).

Lemma pushw_app m e ws ws' : pushw m e (ws ++ ws') = pushw (pushw m e ws) (e - 4 * Z.of_nat (length ws)) ws'.
Proof using Type.
  revert m e. induction ws as [|w ws IH]; intros m e; cbn [pushw app length].
  - f_equal. lia.
  - rewrite IH. f_equal. lia.
Qed.

(** The two words above the 17 pushed ones. *)
Definition above (s : machine) : list Z :=
  if is_user s then [r_esp (gr s); pack16 (s_ss (sr s)) (junk (esp0 ts - 4))]
  else [load32 (ram s) (r_esp (gr s)); load32 (ram s) (r_esp (gr s) + 4)].

Lemma pushed_words n err fl s :
  0 <= n < 256 -> is_u32 err -> machine_wf s -> stack_room s ->
  load_words (ram (at_trap n err fl s)) (frame_addr s) 19 = rev (pushed n err (entry_esp s) s) ++ above s.
Proof using Hjunk.
  intros Hn Herr [Hg Hs Hip Hfl] [H1 H2]. cbn [at_trap ram]. unfold frame_addr.
  assert (Hws : Forall is_u32 (pushed n err (entry_esp s) s)).
  { split_Forall. unfold pushed. destruct (has_err n);
      repeat (apply Forall_cons_2; [first [done | by apply pack16_range | unfold is_u32; lia]|]); apply Forall_nil_2. }
  etransitivity; [apply load_words_ext; intros x Hx; apply store32_out; lia|].
  set (ws := pushed n err (entry_esp s) s) in *. change 19%nat with (length ws + 2)%nat.
  rewrite load_words_app. f_equal; [apply (load_pushw ws); exact Hws|].
  etransitivity; [apply load_words_ext; intros x Hx; apply pushw_out; cbn in Hx |- *; lia|].
  unfold above, entry_mem, entry_esp in *.
  replace (4 * Z.of_nat (length ws)) with 68 by done. destruct (is_user s).
  - set (vs := [pack16 (s_ss (sr s)) (junk (esp0 ts - 4)); r_esp (gr s)]).
    replace (esp0 ts - 8 - 68 + 68) with (esp0 ts - 4 * Z.of_nat (length vs)) by (cbn; lia).
    apply (load_pushw vs). split_Forall. unfold vs. apply Forall_cons_2; [by apply pack16_range|build_Forall].
  - cbn [load_words]. by replace (r_esp (gr s) - 68 + 68) with (r_esp (gr s)) by lia.
Qed.

(** trap is called with the address of the frame of the interrupted machine. *)
Lemma frame_loaded n err fl s :
  0 <= n < 256 -> is_u32 err -> machine_wf s -> stack_room s ->
  load_tf (ram (at_trap n err fl s)) (frame_addr s) = frame n err s.
Proof using Hjunk.
  intros Hn Herr Hwf Hroom. unfold load_tf. rewrite pushed_words by done.
  destruct Hwf as [_ Hs _ _]. split_Forall. unfold above, pushed, frame, frame_addr, entry_esp.
  destruct (is_user s); cbn [rev app]; unfold tf_of_words; cbn [nth];
    rewrite !lo16_pack, !hi16_pack by done; f_equal; try done; try (f_equal; lia); do 2 f_equal; lia.
Qed.

(** Popping a frame. *)
Lemma pop_frame_run s :
  let F := r_esp (gr s) in
  is_user s = false -> 0 <= F /\ F + 76 < 2 ^ 32 ->
  run pop_frame s = resumed F (load_tf (ram s) F) (s_ss (sr s)) (ram s).
Proof using Type.
  destruct s as [[a c d b F bp si di] [cs_ ss_ ds_ es_ fs_ gs_] ip fl m]. cbn [r_esp gr ram sr s_ss].
  intros Hk [H1 H2]. unfold resumed, user_frame, load_tf, tf_of_words. cbn [load_words nth].
  unfold is_user in *. exec_asm. unfold is_user in *. cbn [s_cs sr] in *. rewrite Hk. no_wrap.
  cbn [edi esi ebp ebx edx ecx eax gs fs es ds eip cs eflags esp ss].
  clear Hk. norm_addr. destruct (_ =? DPL_USER); reflexivity.
Qed.

(** The stack after pushl %esp; call f; addl $4, %esp. *)
Lemma call_frame f body s :
  let F := r_esp (gr s) + 4 in
  changes_frame call f body -> top s = F -> 0 <= F < 2 ^ 32 ->
  let s' := exec_instr junk add_eflags call ts idt (AddI 4 ESP) (call f s) in
  r_esp (gr s') = F /\ sr s' = sr s /\ load_tf (ram s') F = body (load_tf (ram s) F).
Proof using Cdecl0.
  intros F Hbody Ht HF. pose proof (call_esp f s) as E1. pose proof (call_sr f s) as E2.
  specialize (Hbody s Ht). rewrite Ht in Hbody. cbn [exec_instr rget]. rewrite E1. fold F.
  rewrite (u32_small F) by (unfold is_u32; lia). cbn. split_and!; [by destruct (gr (call f s))|done|done].
Qed.

(** trapret on a frame that lies at the stack pointer. *)
Lemma trapret_run body s :
  let F := r_esp (gr s) in
  changes_frame call c_handle_signals body -> is_user s = false -> 4 <= F /\ F + 76 < 2 ^ 32 ->
  exists m', run trapret s = resumed F (body (load_tf (ram s) F)) (s_ss (sr s)) m'.
Proof using Cdecl0.
  intros F Hbody Hk [H1 H2]. unfold trapret. rewrite run_app. cbn [Asm.run].
  set (s1 := exec_instr _ _ _ _ _ (PushR ESP) s).
  assert (Hs1 : r_esp (gr s1) = F - 4 /\ sr s1 = sr s /\ ram s1 = store32 (ram s) (F - 4) F).
  { unfold s1. cbn [exec_instr push rget gr sr ram]. fold F. rewrite (u32_small (F - 4)) by (unfold is_u32; lia).
    by destruct (gr s). }
  destruct Hs1 as (E1 & E2 & E3).
  destruct (call_frame c_handle_signals body s1 Hbody) as (C1 & C2 & C3).
  { unfold top. rewrite E1, E3. rewrite load32_store32_eq by (unfold is_u32; lia). lia. }
  { lia. }
  revert C1 C2 C3. cbn [exec_instr]. set (s2 := set_meflags _ _). rewrite E1, E2, E3.
  replace (F - 4 + 4) with F by lia. intros C1 C2 C3. exists (ram s2). rewrite pop_frame_run.
  - rewrite C1, C2, C3, (load_tf_ext (ram s)); [done|]. intros x Hx. apply store32_out. lia.
  - unfold is_user in *. by rewrite C2.
  - lia.
Qed.

Lemma vector_jumps n err s :
  0 <= n < 256 -> text (u32 (vectors n)) = vector at_alltraps n -> m_eip (go (hw_trap n err s)) = at_alltraps.
Proof using Type.
  intros Hn Htext. destruct (tvinit_lookup n Hn) as (g & Hg & _ & Hoff). unfold Asm.hw_trap, Asm.go. rewrite Hg.
  change (m_eip (set_meflags ?f (set_meip ?v ?x))) with v. rewrite Hoff, Htext. unfold vector.
  destruct (has_err n); reflexivity.
Qed.

(** alltraps after the vector: trap and handle_signals work on the frame, and
    the machine goes on from what they leave. *)
Lemma alltraps_run n err s kt kh :
  0 <= n < 256 -> is_u32 err -> machine_wf s -> stack_room s ->
  text (u32 (vectors n)) = vector at_alltraps n -> text at_alltraps = alltraps ->
  changes_frame call c_trap kt -> changes_frame call c_handle_signals kh ->
  exists m', go (go (hw_trap n err s)) =
    resumed (frame_addr s) (kh (kt (frame n err s))) (if is_user s then ss0 ts else s_ss (sr s)) m'.
Proof using Hjunk Cdecl0.
  intros Hn Herr Hwf Hroom Hv Ha Hkt Hkh. destruct (frame_built n err s Hn Hroom Hv) as [fl Hb].
  unfold Asm.go at 1. rewrite (vector_jumps n err s Hn Hv), Ha. unfold alltraps. rewrite run_app, Hb, run_app. cbn [Asm.run].
  pose proof (frame_loaded n err fl s Hn Herr Hwf Hroom) as Hf. destruct Hroom as [R1 R2].
  set (s1 := at_trap n err fl s) in *. assert (E1 : r_esp (gr s1) + 4 = frame_addr s) by (cbn; lia).
  destruct (call_frame c_trap kt s1 Hkt) as (C1 & C2 & C3).
  { rewrite E1. unfold top. change (r_esp (gr s1)) with (frame_addr s - 4). cbn [s1 at_trap ram].
    apply load32_store32_eq. unfold frame_addr, is_u32 in *. lia. }
  { rewrite E1. unfold frame_addr. lia. }
  set (s2 := exec_instr _ _ _ _ _ _ _) in *. rewrite E1 in C1, C3.
  destruct (trapret_run kh s2 Hkh) as [m' Hm].
  { unfold is_user. by rewrite C2. }
  { rewrite C1. unfold frame_addr. lia. }
  exists m'. rewrite Hm, C1, C2, C3, Hf. reflexivity.
Qed.

(** A frame in which only eax has changed brings the machine back. *)
Lemma resumed_eax n err s r m' :
  let s' := resumed (frame_addr s) (set_eax r (frame n err s)) (if is_user s then ss0 ts else s_ss (sr s)) m' in
  gr s' = rset EAX r (gr s) /\ sr s' = sr s /\ m_eip s' = m_eip s /\ m_eflags s' = m_eflags s.
Proof using Type.
  intros s'. unfold s', resumed. change (user_frame (set_eax r (frame n err s))) with (is_user s).
  cbn [gr sr m_eip m_eflags]. unfold frame, frame_addr, entry_esp. destruct (is_user s).
  all: destruct s as [[a c d b e bp si di] [cs_ ss_ ds_ es_ fs_ gs_] ip fl m].
  all: cbn [rset gr sr set_eax edi esi ebp ebx edx ecx eax gs fs es ds eip cs eflags esp ss m_eip m_eflags
    r_eax r_ecx r_edx r_ebx r_esp r_ebp r_esi r_edi s_cs s_ss s_ds s_es s_fs s_gs].
  all: split_and!; try done. f_equal. lia.
Qed.

(** C14 (roundtrip): A trap in any machine, with or without an error code
    and in user or kernel mode, calls trap with the address of a struct
    trapframe that holds its registers, its number and its error code; after
    trap and handle_signals the machine goes on from the frame that they
    left, and when they changed nothing but eax it is back in the
    interrupted state with that eax. *)
Theorem trap_roundtrip (n err : Z) (s : machine) (kt kh : trapframe -> trapframe) :
  0 <= n < 256 -> is_u32 err -> machine_wf s -> stack_room s ->
  text (u32 (vectors n)) = vector at_alltraps n -> text at_alltraps = alltraps ->
  changes_frame call c_trap kt -> changes_frame call c_handle_signals kh ->
  let f := frame n err s in
  let s1 := run build_frame (go (hw_trap n err s)) in
  let s' := go (go (hw_trap n err s)) in
  (top s1 = frame_addr s /\ load_tf (ram s1) (top s1) = f /\ is_user s1 = false) /\
  (exists ss' m', s' = resumed (frame_addr s) (kh (kt f)) ss' m') /\
  (forall r, kh (kt f) = set_eax r f ->
     gr s' = rset EAX r (gr s) /\ sr s' = sr s /\ m_eip s' = m_eip s /\ m_eflags s' = m_eflags s).
Proof using Hjunk Cdecl0.
  intros Hn Herr Hwf Hroom Hv Ha Hkt Hkh f s1 s'.
  destruct (alltraps_run n err s kt kh) as [m' Hm]; try done. fold s' f in Hm.
  destruct (frame_built n err s Hn Hroom Hv) as [fl Hb]. fold s1 in Hb.
  assert (Ht : top s1 = frame_addr s).
  { rewrite Hb. unfold top. cbn [at_trap gr r_esp ram]. apply load32_store32_eq. destruct Hroom. unfold frame_addr, is_u32. lia. }
  split_and!.
  - exact Ht.
  - rewrite Ht, Hb. by apply frame_loaded.
  - by rewrite Hb.
  - eauto.
  - intros r Hr. rewrite Hm, Hr. apply resumed_eax.
Qed.

(** ** System call stubs *)

(** The system call gate is open to user mode. *)
Lemma int_syscall here s :
  int_instr junk ts idt T_SYSCALL here s = hw_trap T_SYSCALL 0 (set_meip (here + 2) s).
Proof using Type.
  unfold int_instr. destruct (tvinit_lookup T_SYSCALL) as (g & Hg & _); [unfold T_SYSCALL; lia|]. rewrite Hg.
  destruct (tvinit_spec vectors _ _ Hg) as [[_ Hd] _]. rewrite Hd by done. by rewrite andb_false_r.
Qed.

(** The C function that SYSCALL(name) defines in usys.S
    traps with number 64, its system call number in eax and the stack pointer
    from which the kernel fetches the arguments; when the kernel answers r it
    returns r to its caller with every other register unchanged. *)
Theorem stub_spec (a num : Z) (s : machine) (kt kh : trapframe -> trapframe) (r : Z) :
  let s1 := set_meip (a + 7) (on_gr (rset EAX num) s) in
  machine_wf s1 -> stack_room s1 -> m_eip s = a ->
  text a = stub a num -> text (a + 7) = stub_ret ->
  text (u32 (vectors T_SYSCALL)) = vector at_alltraps T_SYSCALL -> text at_alltraps = alltraps ->
  changes_frame call c_trap kt -> changes_frame call c_handle_signals kh ->
  let f := frame T_SYSCALL 0 s1 in
  kh (kt f) = set_eax r f ->
  let s' := go (go (go (go s))) in
  eax f = num /\ trapno f = T_SYSCALL /\ eip f = a + 7 /\
  (is_user s = true -> esp f = r_esp (gr s)) /\
  gr s' = rset ESP (u32 (r_esp (gr s) + 4)) (rset EAX r (gr s)) /\ sr s' = sr s /\
  m_eflags s' = m_eflags s /\ m_eip s' = load32 (ram s') (r_esp (gr s)).
Proof using Hjunk Cdecl0.
  intros s1 Hwf Hroom Hip Hstub Hret Hv Ha Hkt Hkh f Hr s'.
  assert (E1 : go s = hw_trap T_SYSCALL 0 s1).
  { unfold Asm.go. rewrite Hip, Hstub. cbn [stub Asm.run exec_instr]. rewrite int_syscall.
    replace (a + 5 + 2) with (a + 7) by lia. done. }
  destruct (alltraps_run T_SYSCALL 0 s1 kt kh) as [m' Hm]; try done.
  fold f in Hm. rewrite Hr in Hm. destruct (resumed_eax T_SYSCALL 0 s1 r m') as (G1 & G2 & G3 & G4). fold f in G1, G2, G3, G4.
  unfold s'. rewrite E1, Hm. set (s2 := resumed _ _ _ _) in *. unfold Asm.go. rewrite G3. cbn [s1 m_eip set_meip].
  rewrite Hret. cbn [Asm.run stub_ret exec_instr drop_bytes on_gr set_meip gr sr m_eip m_eflags ram].
  assert (E2 : gr s2 = rset EAX r (gr s)) by (rewrite G1; cbn; by destruct (gr s)).
  assert (E3 : r_esp (gr s2) = r_esp (gr s)) by (rewrite E2; by destruct (gr s)).
  unfold top. rewrite E3. split_and!; try done.
  - cbn. by destruct (gr s).
  - intros Hu. cbn [f frame esp]. unfold is_user in *. cbn [s1 set_meip on_gr sr]. rewrite Hu. cbn. by destruct (gr s).
  - by rewrite E2.
Qed.

(** ** The first run of a process *)

(** forkret leaves what lies above its own frame. *)
Definition keeps_above (f : cfun) : Prop :=
  forall s x, r_esp (gr s) <= x < r_esp (gr s) + 80 -> ram (call f s) x = ram s x.

Lemma alloc_stack_eq m k :
  0 <= k -> k + KSTACKSIZE < 2 ^ 32 -> is_u32 at_trapret -> is_u32 at_forkret ->
  exists m', alloc_stack m k at_trapret at_forkret = (m', k + 4020, k + 3996) /\
    load_context m' (k + 3996) = mk_context 0 0 0 0 at_forkret /\ load32 m' (k + 4016) = at_trapret.
Proof using Type.
  unfold KSTACKSIZE. intros H1 H2 Ht Hf. unfold alloc_stack, TF_SIZE, CONTEXT_SIZE, KSTACKSIZE. cbv zeta. no_wrap.
  replace (k + 4096 - 76) with (k + 4020) by lia. replace (k + 4020 - 4) with (k + 4016) by lia.
  replace (k + 4016 - 20) with (k + 3996) by lia. replace (k + 3996 + 16) with (k + 4012) by lia.
  eexists. split; [reflexivity|].
  assert (Hz : forall d, 0 <= d <= 12 -> load32 (store32 (memset (store32 m (k + 4016) at_trapret) (k + 3996) 0 20) (k + 4012) at_forkret) (k + 3996 + d) = 0).
  { intros d Hd. rewrite load32_store32_ne by lia. apply load32_zero. intros x Hx. rewrite memset_byte by lia. by unfold_range. }
  split.
  - unfold load_context. pose proof (Hz 0) as Hz0. rewrite Z.add_0_r in Hz0.
    rewrite Hz0, (Hz 4), (Hz 8), (Hz 12) by lia. f_equal. replace (k + 3996 + 16) with (k + 4012) by lia. by apply load32_store32_eq.
  - rewrite load32_store32_ne by lia. etransitivity; [|by apply (load32_store32_eq m (k + 4016))].
    apply load32_ext. intros x Hx. rewrite memset_byte by lia. by unfold_range.
Qed.

(** C23 (functional): The first switch to a process that allocproc prepared runs
    forkret, which returns to trapret, which lets the process go on from its
    trap frame, as fork or userinit has filled it in and handle_signals
    leaves it. *)
Theorem new_process_starts (m m1 : mem) (k tf ctx : Z) (s : machine) (kh : trapframe -> trapframe) :
  0 <= k -> k + KSTACKSIZE < 2 ^ 32 -> is_u32 at_trapret -> is_u32 at_forkret ->
  alloc_stack m k at_trapret at_forkret = (m1, tf, ctx) ->
  swtch_call s -> is_user s = false -> arg_new s = ctx ->
  (forall x, ctx <= x < tf -> ram s x = m1 x) ->
  arg_old s + 4 <= k \/ k + KSTACKSIZE <= arg_old s ->
  r_esp (gr s) <= k \/ k + KSTACKSIZE <= r_esp (gr s) - 16 ->
  text at_forkret = [Call c_forkret; Ret] -> text at_trapret = trapret ->
  keeps_above c_forkret -> changes_frame call c_handle_signals kh ->
  m_eip (run swtch s) = at_forkret /\
  exists ss' m', go (go (run swtch s)) = resumed tf (kh (load_tf (ram s) tf)) ss' m'.
Proof using Cdecl0.
  intros H1 H2 Ht Hf Ha Hs Hu Hnew Hkeep Hold Hesp Tf Tt Hfk Hkh.
  destruct (alloc_stack_eq m k H1 H2 Ht Hf) as (m2 & Ea & Hctx & Hret). rewrite Ea in Ha. injection Ha as -> <- <-.
  unfold KSTACKSIZE in *.
  assert (Hc : load_context (ram s) (k + 3996) = mk_context 0 0 0 0 at_forkret).
  { rewrite <- Hctx. apply load_context_ext. intros x Hx. unfold CONTEXT_SIZE in Hx. apply Hkeep. lia. }
  rewrite (swtch_run junk add_eflags call ts idt s Hs), Hnew, Hc. cbn [c_ebx c_ebp c_esi c_edi c_eip m_eip]. split; [done|].
  set (s1 := mk_machine _ _ _ _ _).
  assert (Hm : forall x, k <= x < k + 4096 -> ram s1 x = ram s x).
  { intros x Hx. cbn [s1 ram]. unfold swtch_mem. rewrite store32_out by lia. apply pushw_out. cbn [length]. lia. }
  set (s2 := call c_forkret s1).
  assert (E : r_esp (gr s2) = k + 4016).
  { unfold s2. rewrite call_esp. cbn. unfold CONTEXT_SIZE. lia. }
  assert (Hm2 : forall x, k + 4016 <= x < k + 4096 -> ram s2 x = ram s x).
  { intros x Hx. unfold s2. rewrite Hfk by (cbn; unfold CONTEXT_SIZE; lia). apply Hm. lia. }
  assert (Etop : top s2 = at_trapret).
  { unfold top. rewrite E, <- Hret. apply load32_ext. intros x Hx. rewrite Hm2 by lia. apply Hkeep. lia. }
  assert (Ego : go s1 = drop_bytes 4 (set_meip at_trapret s2)).
  { unfold Asm.go. cbn [s1 m_eip]. rewrite Tf. cbn [Asm.run exec_instr]. fold s1 s2. by rewrite Etop. }
  rewrite Ego. unfold Asm.go. cbn [m_eip drop_bytes on_gr set_meip]. rewrite Tt.
  set (s3 := drop_bytes 4 (set_meip at_trapret s2)).
  assert (E3 : r_esp (gr s3) = k + 4020).
  { cbn [s3 drop_bytes on_gr set_meip gr]. rewrite E, u32_small by (unfold is_u32; lia). destruct (gr s2). cbn. lia. }
  destruct (trapret_run kh s3 Hkh) as [m' Hm'].
  { unfold is_user. cbn [s3 drop_bytes on_gr set_meip sr]. unfold s2. by rewrite call_sr. }
  { rewrite E3. lia. }
  exists (s_ss (sr s3)), m'. rewrite Hm', E3, (load_tf_ext (ram s)); [done|]. intros x Hx. unfold TF_SIZE in Hx.
  apply Hm2. lia.
Qed.

(** ** initcode *)

(** The page of the first program when it traps. *)
Lemma initcode_page m init argv :
  0 <= init -> init + 7 <= argv -> argv + 8 <= 4084 ->
  let M := pushw (initcode_data m init argv) 4096 [argv; init; 0] in
  load32 M 4092 = argv /\ load32 M 4088 = init /\ load32 M argv = init /\ load32 M (argv + 4) = 0 /\
  (forall k, (k < 7)%nat -> M (init + Z.of_nat k) = nth k init_string 0).
Proof using Type.
  intros H1 H2 H3 M.
  assert (Hin : forall x, x < 4084 -> M x = initcode_data m init argv x).
  { intros x Hx. apply pushw_out. cbn [length]. lia. }
  assert (Hw : load_words M 4084 3 = [0; init; argv]).
  { apply (load_pushw [argv; init; 0]). repeat (apply Forall_cons_2; [unfold is_u32; lia|]). apply Forall_nil_2. }
  clearbody M. injection Hw as _ E2 E3. unfold initcode_data in Hin. split_and!; [done|done|..].
  - etransitivity; [apply load32_ext; intros x Hx; apply Hin; lia|]. rewrite load32_store32_ne by lia.
    apply load32_store32_eq. unfold is_u32. lia.
  - etransitivity; [apply load32_ext; intros x Hx; apply Hin; lia|]. by apply load32_store32_eq.
  - intros k Hk. rewrite Hin, !store32_out by lia. rewrite store_bytes_in by exact Hk.
    do 7 (destruct k as [|k]; [done|]). lia.
Qed.

(** What the kernel fetches from it. *)
Lemma initcode_args m init argv u :
  0 <= init -> init + 7 <= argv -> argv + 8 <= 4084 ->
  um u = pushw (initcode_data m init argv) 4096 [argv; init; 0] ->
  sz (up u) = 4096 -> esp (tf (up u)) = 4084 ->
  argstr 0 u = Some (init, 5) /\ bytes_at (um u) init 6 = firstn 6 init_string /\
  argint 1 u = Some argv /\ fetchint argv u = Some init /\ fetchint (argv + 4) u = Some 0.
Proof using Type.
  intros H1 H2 H3 Hu Hsz Hesp. destruct (initcode_page m init argv) as (E1 & E2 & E3 & E4 & E5); try done.
  rewrite <- Hu in *. set (M := um u) in *.
  assert (Hfetch : forall x v, 0 <= x <= 4092 -> 0 <= v < 4096 -> load32 M x = v -> fetchint x u = Some v).
  { intros x v Hx Hv Hl. unfold fetchint. rewrite Hsz. fold M. rewrite Hl, u32_small, s32_small by (unfold is_u32, is_s32; lia).
    case_ifs; [lia|done]. }
  assert (Ha0 : argint 0 u = Some init).
  { unfold argint. rewrite Hesp. apply Hfetch; [|lia|]; rewrite u32_small by (unfold is_u32; lia); [lia|exact E2]. }
  split_and!.
  - unfold argstr. rewrite Ha0. unfold fetchstr. rewrite u32_small by (unfold is_u32; lia). rewrite Hsz. fold M.
    case_if; to_prop; [lia|]. assert (exists j, Z.to_nat (4096 - init) = (6 + j)%nat) as [j ->] by (exists (Z.to_nat (4090 - init)); lia).
    cbn [Nat.add fetchstr_loop].
    pose proof (E5 0%nat ltac:(lia)) as K0. rewrite Z.add_0_r in K0. rewrite K0.
    rewrite (E5 1%nat : _ -> M (init + 1) = _) by lia. norm_addr.
    rewrite (E5 2%nat : _ -> M (init + 2) = _), (E5 3%nat : _ -> M (init + 3) = _), (E5 4%nat : _ -> M (init + 4) = _),
      (E5 5%nat : _ -> M (init + 5) = _) by lia. done.
  - unfold bytes_at. cbn [seq map]. by rewrite !E5 by lia.
  - unfold argint. rewrite Hesp. apply Hfetch; [|lia|]; rewrite u32_small by (unfold is_u32; lia); [lia|exact E1].
  - apply Hfetch; (lia || done).
  - apply Hfetch; (lia || done).
Qed.

(** The first program, with its image in memory and its stack
    at the end of its page, traps for exec, and the kernel's functions for the
    arguments find the string /init, of five characters, and the vector that
    holds it and a zero. *)
Theorem initcode_spec (m : mem) (init argv a : Z) (s : machine) (p : proc) :
  0 <= init -> init + 7 <= argv -> argv + 8 <= PGSIZE - 12 ->
  r_esp (gr s) = PGSIZE -> is_user s = true -> ram s = initcode_data m init argv ->
  text (m_eip s) = start init argv a -> sz p = PGSIZE ->
  exists s1, go s = hw_trap T_SYSCALL 0 s1 /\
    let f := frame T_SYSCALL 0 s1 in
    let u := mk_ustate (set_tf f p) (ram s1) in
    eax f = SYS_exec /\ argstr 0 u = Some (init, 5) /\ bytes_at (ram s1) init 6 = firstn 6 init_string /\
    argint 1 u = Some argv /\ fetchint argv u = Some init /\ fetchint (argv + 4) u = Some 0.
Proof using Type.
  unfold PGSIZE. intros H1 H2 H3 He Hu Hm Ht Hsz. unfold Asm.go. rewrite Ht.
  destruct s as [[a_ c d b e bp si di] sg ip fl m0]. cbn [r_esp gr ram] in *. subst e m0.
  eexists. split; [unfold start; cbn [Asm.run exec_instr]; rewrite int_syscall; exec_asm; no_wrap; reflexivity|].
  cbn zeta. split; [done|]. apply (initcode_args m init argv (mk_ustate _ _)); [done|done|lia|done|done|].
  cbn [up tf set_tf frame esp]. unfold is_user in *. cbn [sr gr r_esp] in *. by rewrite Hu.
Qed.
End trap.

(** ** Concrete machines *)

Section samples.

(** A kernel whose trap answers every system call with 42. *)
Definition sample_call (f : cfun) (s : machine) : machine :=
  match f with
  | c_trap => mk_machine (gr s) (sr s) (m_eip s) (m_eflags s) (store32 (ram s) (top s + 28) 42)
  | _ => s
  end.

Lemma sample_cdecl : Cdecl sample_call.
Proof. split; intros [] s; reflexivity. Qed.

Lemma sample_trap : changes_frame sample_call c_trap (set_eax 42).
Proof.
  intros s _. unfold load_tf. cbn [sample_call ram].
  rewrite (load_words_store32 _ _ 19 7) by (unfold is_u32; lia). reflexivity.
Qed.

Lemma sample_signals : changes_frame sample_call c_handle_signals (fun t => t).
Proof. intros s _. reflexivity. Qed.

Definition sample_vectors (i : Z) : Z := 0x80105000 + 10 * i.
Definition sample_text (a : Z) : list instr :=
  if a =? 0x80104000 then alltraps else if a =? 0x80104100 then trapret
  else if a =? 0x80104200 then [Call c_forkret; Ret]
  else if a =? 0x500 then stub 0x500 11 else if a =? 0x507 then stub_ret
  else if a =? 0 then start 0x1c 0x24 17
  else if (0x80105000 <=? a) && (a <? 0x80105a00) then vector 0x80104000 ((a - 0x80105000) / 10) else [].
Definition sample_ts : taskstate := mk_taskstate 0x8dfff000 16 0xffff.
Definition sample_user (ip sp : Z) (m : mem) : machine :=
  mk_machine (mk_gprs 5 1 2 3 sp 6 7 8) (mk_segs 27 35 35 35 0 0) ip 0x202 m.
Definition sample_kernel (sp : Z) (m : mem) : machine :=
  mk_machine (mk_gprs 5 1 2 3 sp 6 7 8) (mk_segs 8 16 16 16 0 0) 0x80102000 0x202 m.

Local Notation run_sample := (run (fun _ => 0) (fun f _ _ => f) sample_call sample_ts (tvinit sample_vectors)).
Local Notation go_sample := (go (fun _ => 0) (fun f _ _ => f) sample_call sample_ts (tvinit sample_vectors) sample_text).

Lemma junk0 : forall a : Z, is_u16 ((fun _ => 0) a).
Proof. intros a. unfold is_u16. lia. Qed.

Ltac ranges := repeat (apply Forall_cons_2; [unfold is_u32, is_u16; lia|]); apply Forall_nil_2.

Lemma sample_user_wf ip sp m : is_u32 ip -> is_u32 sp -> machine_wf (sample_user ip sp m).
Proof. unfold is_u32. intros H1 H2. split; cbn [gr sr m_eip m_eflags sample_user r_eax r_ecx r_edx r_ebx r_esp r_ebp r_esi r_edi s_cs s_ss s_ds s_es s_fs s_gs]; try ranges; unfold is_u32; lia. Qed.

(** A page fault of a user program. *)
Lemma trap_roundtrip_witness :
  let s := sample_user 0x100 0x2000 (fun _ => 0) in
  r_eax (gr (go_sample (go_sample (hw_trap (fun _ => 0) sample_ts (tvinit sample_vectors) 14 6 s)))) = 42.
Proof.
  intros s.
  destruct (trap_roundtrip (fun _ => 0) (fun f _ _ => f) sample_call sample_ts sample_vectors 0x80104000 sample_text
              junk0 (Cdecl0 := sample_cdecl) 14 6 s (set_eax 42) (fun t => t)) as (_ & _ & H).
  - lia.
  - unfold is_u32. lia.
  - apply sample_user_wf; unfold is_u32; lia.
  - split; vm_compute; congruence.
  - reflexivity.
  - reflexivity.
  - apply sample_trap.
  - apply sample_signals.
  - destruct (H 42 eq_refl) as [-> _]. reflexivity.
Defined.

(** getpid() of a user program that was called from 0x123. *)
Lemma stub_spec_witness :
  let s := sample_user 0x500 0x2000 (store32 (fun _ => 0) 0x2000 0x123) in
  let s' := go_sample (go_sample (go_sample (go_sample s))) in
  gr s' = mk_gprs 42 1 2 3 0x2004 6 7 8 /\ sr s' = sr s.
Proof.
  intros s s'.
  destruct (stub_spec (fun _ => 0) (fun f _ _ => f) sample_call sample_ts sample_vectors 0x80104000 sample_text
              junk0 (Cdecl0 := sample_cdecl) 0x500 11 s (set_eax 42) (fun t => t) 42) as (_ & _ & _ & _ & H1 & H2 & _).
  - split; cbn; try ranges; unfold is_u32; lia.
  - split; vm_compute; congruence.
  - reflexivity.
  - reflexivity.
  - reflexivity.
  - reflexivity.
  - reflexivity.
  - apply sample_trap.
  - apply sample_signals.
  - reflexivity.
  - split; [etransitivity; [exact H1|reflexivity]|exact H2].
Defined.

(** A process switches to the scheduler, which later switches back. *)
Definition sample_out : machine :=
  sample_kernel 0x1000 (store32 (store32 (store32 (fun _ => 0) 0x1000 0x80101111) 0x1004 0x3000) 0x1008 0x2000).
Definition sample_in : machine :=
  sample_kernel 0x2800 (store32 (store32 (swtch_mem sample_out) 0x2804 0x3004) 0x2808 0xff0).

Lemma sample_call_ok sp m old new :
  load32 m (sp + 4) = old -> load32 m (sp + 8) = new -> 16 <= sp /\ sp + 12 <= 2 ^ 32 ->
  old + 4 <= sp - 16 \/ sp + 4 <= old -> 0 <= new /\ new + CONTEXT_SIZE < 2 ^ 32 ->
  new + CONTEXT_SIZE <= sp - 16 \/ sp <= new -> old + 4 <= new \/ new + CONTEXT_SIZE <= old ->
  swtch_call (sample_kernel sp m).
Proof. intros <- <- H1 H2 H3 H4 H5. split; [unfold callee_saved; cbn [gr sample_kernel r_ebx r_ebp r_esi r_edi]; ranges|exact H1|exact H2|exact H3|exact H4|exact H5]. Qed.

Lemma sample_out_call : swtch_call sample_out.
Proof.
  apply (sample_call_ok _ _ 0x3000 0x2000); unfold CONTEXT_SIZE; [vm_compute; reflexivity|vm_compute; reflexivity|lia..].
Qed.
Lemma sample_in_call : swtch_call sample_in.
Proof.
  apply (sample_call_ok _ _ 0x3004 0xff0); unfold CONTEXT_SIZE; [vm_compute; reflexivity|vm_compute; reflexivity|lia..].
Qed.

Lemma swtch_resumes_witness :
  m_eip (run_sample swtch sample_in) = 0x80101111 /\ r_esp (gr (run_sample swtch sample_in)) = 0x1004.
Proof.
  destruct (swtch_resumes (fun _ => 0) (fun f _ _ => f) sample_call sample_ts (tvinit sample_vectors) sample_out sample_in
              sample_out_call sample_in_call) as (_ & _ & _ & H1 & H2).
  - rewrite (swtch_run _ _ _ _ _ _ sample_out_call). cbn [ram]. intros x Hx. cbn [sample_out sample_kernel gr r_esp] in Hx.
    cbn [sample_in sample_kernel ram]. rewrite !store32_out by lia. reflexivity.
  - vm_compute. reflexivity.
  - split; [rewrite H1; vm_compute; reflexivity|exact H2].
Defined.

(** A child whose frame returns to 0x1234 in user mode. *)
Definition sample_frame : trapframe := mk_trapframe 1 2 3 4 5 6 7 0 0 0 0 0 35 0 35 0 64 0 0x1234 27 0 0x202 0x2000 35 0.
Definition sample_child : mem :=
  let '(m, t, _) := alloc_stack (fun _ => 0) 0x5000 0x80104100 0x80104200 in
  store32 (store32 (store_tf m t sample_frame) 0x1004 0x3000) 0x1008 (0x5000 + 3996).

Lemma new_process_starts_witness :
  m_eip (go_sample (go_sample (run_sample swtch (sample_kernel 0x1000 sample_child)))) = 0x1234.
Proof.
  destruct (new_process_starts (fun _ => 0) (fun f _ _ => f) sample_call sample_ts sample_vectors sample_text 0x80104100 0x80104200
              (Cdecl0 := sample_cdecl) (fun _ => 0) (fst (fst (alloc_stack (fun _ => 0) 0x5000 0x80104100 0x80104200)))
              0x5000 (0x5000 + 4020) (0x5000 + 3996) (sample_kernel 0x1000 sample_child) (fun t => t)) as [_ (ss' & m' & H)].
  - lia.
  - unfold KSTACKSIZE. lia.
  - unfold is_u32. lia.
  - unfold is_u32. lia.
  - vm_compute. reflexivity.
  - apply (sample_call_ok _ _ 0x3000 (0x5000 + 3996)); unfold CONTEXT_SIZE; [vm_compute; reflexivity|vm_compute; reflexivity|lia..].
  - reflexivity.
  - vm_compute. reflexivity.
  - intros x Hx. unfold sample_child, sample_kernel. cbn [ram].
    destruct (alloc_stack_eq 0x80104100 0x80104200 (fun _ => 0) 0x5000) as (m2 & -> & _); try (unfold KSTACKSIZE, is_u32; lia).
    cbn [fst]. rewrite !store32_out by lia. apply store_words_out. lia.
  - assert (arg_old (sample_kernel 0x1000 sample_child) = 0x3000) as -> by (vm_compute; reflexivity). left. lia.
  - left. cbn [sample_kernel gr r_esp]. lia.
  - reflexivity.
  - reflexivity.
  - intros s x Hx. reflexivity.
  - apply sample_signals.
  - rewrite H. vm_compute. reflexivity.
Defined.

Lemma initcode_spec_witness :
  exists s1, go_sample (sample_user 0 4096 (initcode_data (fun _ => 0) 0x1c 0x24)) =
    hw_trap (fun _ => 0) sample_ts (tvinit sample_vectors) T_SYSCALL 0 s1 /\ r_eax (gr s1) = SYS_exec.
Proof.
  destruct (initcode_spec (fun _ => 0) (fun f _ _ => f) sample_call sample_ts sample_vectors sample_text
              (fun _ => 0) 0x1c 0x24 17 (sample_user 0 4096 (initcode_data (fun _ => 0) 0x1c 0x24)) (set_sz 4096 proc0))
    as (s1 & H1 & H2 & _).
  - lia.
  - lia.
  - unfold PGSIZE. lia.
  - reflexivity.
  - reflexivity.
  - reflexivity.
  - reflexivity.
  - reflexivity.
  - exists s1. split; [exact H1|exact H2].
Defined.
End samples.
