(* ===== verification/Entry.v ===== *)
(** The assembly that runs before C: the boot sector (bootasm.S), the kernel's
    entry point (entry.S) and the entry of the other processors
    (entryother.S), with the descriptors of asm.h.

    The machine of Asm.v is extended with the control registers, the
    descriptor table register and the ports.  The arithmetic flags, which no
    instruction here depends on outside the wait loop, are not tracked.
    Running is partial: [None] when the keyboard controller stays busy. *)

From S2P Require Import Prelude Word Mem Proc Signal SignalTypes Spinlock Kalloc Vm Devices Trap Main Cpu Asm.

Local Open Scope Z_scope.

(** ** The machine *)

Record bmachine := mk_bmachine {
  core : machine;
  cr0 : Z; cr3 : Z; cr4 : Z;
  gdtr : Z * Z;                 (* limit and base *)
  status : list Z;              (* what port 0x64 will answer *)
  writes : list (Z * Z);        (* port and byte written *)
}.

Inductive creg := CR0 | CR3 | CR4.

Inductive binstr :=
| I (i : instr)
| Cli
| XorW (r : reg)                (* xorw of a register with itself *)
| WaitReady                     (* inb $0x64,%al; testb $0x2,%al; jnz back *)
| MovB (v : Z)                  (* movb $v, %al *)
| OutB (port : Z)               (* outb %al, $port *)
| Lgdt (limit base : Z)
| MovFromCR (c : creg) (r : reg)
| MovToCR (r : reg) (c : creg)
| OrI (v : Z) (r : reg)
| Ljmp (sel a : Z)
| LoadAbs (a : Z) (r : reg)     (* movl (a), %r *)
| CallI (a next : Z)            (* call a; the next instruction is at next *)
| CallAbs (a next : Z)          (* call *(a) *)
| JmpR (r : reg).               (* jmp *%r *)

Definition on_core (f : machine -> machine) (b : bmachine) : bmachine :=
  mk_bmachine (f (core b)) (cr0 b) (cr3 b) (cr4 b) (gdtr b) (status b) (writes b).

Definition get_cr (c : creg) (b : bmachine) : Z := match c with CR0 => cr0 b | CR3 => cr3 b | CR4 => cr4 b end.
Definition set_cr (c : creg) (v : Z) (b : bmachine) : bmachine :=
  match c with
  | CR0 => mk_bmachine (core b) v (cr3 b) (cr4 b) (gdtr b) (status b) (writes b)
  | CR3 => mk_bmachine (core b) (cr0 b) v (cr4 b) (gdtr b) (status b) (writes b)
  | CR4 => mk_bmachine (core b) (cr0 b) (cr3 b) v (gdtr b) (status b) (writes b)
  end.

(** The lowest byte of eax. *)
Definition set_al (v : Z) (g : gprs) : gprs := rset EAX (Z.lor (Z.land (r_eax g) 0xffffff00) v) g.

(** seta20.1 and seta20.2: read the status until bit 1 is clear. *)
Fixpoint kbc_ready (st : list Z) : option (Z * list Z) :=
  match st with
  | [] => None
  | b :: st => if Z.land b 0x2 =? 0 then Some (b, st) else kbc_ready st
  end.

Definition IF_FLAG : Z := 0x200.

Definition rget_core (r : reg) (b : bmachine) : Z := rget r (gr (core b)).

Definition bexec (i : binstr) (b : bmachine) : option bmachine :=
  match i with
  | I i => Some (on_core (exec_instr (fun _ => 0) (fun f _ _ => f) (fun _ s => s) (mk_taskstate 0 0 0) [] i) b)
  | Cli => Some (on_core (fun s => set_meflags (Z.land (m_eflags s) (Z.lnot IF_FLAG)) s) b)
  | XorW r => Some (on_core (on_gr (rset r (pack16 0 (hi16 (rget_core r b))))) b)
  | WaitReady =>
      match kbc_ready (status b) with
      | None => None
      | Some (v, st) =>
          let b := on_core (on_gr (set_al v)) b in
          Some (mk_bmachine (core b) (cr0 b) (cr3 b) (cr4 b) (gdtr b) st (writes b))
      end
  | MovB v => Some (on_core (on_gr (set_al v)) b)
  | OutB port =>
      Some (mk_bmachine (core b) (cr0 b) (cr3 b) (cr4 b) (gdtr b) (status b)
              (writes b ++ [(port, Z.land (rget_core EAX b) 0xff)]))
  | Lgdt lim base => Some (mk_bmachine (core b) (cr0 b) (cr3 b) (cr4 b) (lim, base) (status b) (writes b))
  | MovFromCR c r => Some (on_core (on_gr (rset r (get_cr c b))) b)
  | MovToCR r c => Some (set_cr c (rget_core r b) b)
  | OrI v r => Some (on_core (on_gr (rset r (Z.lor (rget_core r b) v))) b)
  | Ljmp sel a => Some (on_core (fun s => set_meip a (on_sr (sset CS sel) s)) b)
  | LoadAbs a r => Some (on_core (on_gr (rset r (load32 (ram (core b)) a))) b)
  | CallI a next => Some (on_core (fun s => set_meip a (push next s)) b)
  | CallAbs a next => Some (on_core (fun s => set_meip (load32 (ram s) a) (push next s)) b)
  | JmpR r => Some (on_core (set_meip (rget_core r b)) b)
  end.

Fixpoint brun (code : list binstr) (b : bmachine) : option bmachine :=
  match code with
  | [] => Some b
  | i :: code => match bexec i b with Some b => brun code b | None => None end
  end.

(** ** asm.h *)

Definition word16 (v : Z) : list Z := [Z.land v 0xff; Z.land (Z.shiftr v 8) 0xff].

Definition SEG_NULLASM : list Z := word16 0 ++ word16 0 ++ [0; 0; 0; 0].

Definition SEG_ASM (type base lim : Z) : list Z :=
  word16 (Z.land (Z.shiftr lim 12) 0xffff) ++ word16 (Z.land base 0xffff) ++
  [Z.land (Z.shiftr base 16) 0xff; Z.lor 0x90 type; Z.lor 0xC0 (Z.land (Z.shiftr lim 28) 0xf); Z.land (Z.shiftr base 24) 0xff].

(** gdt of bootasm.S and entryother.S *)
Definition boot_gdt : list Z :=
  SEG_NULLASM ++ SEG_ASM (Z.lor STA_X STA_R) 0 0xffffffff ++ SEG_ASM STA_W 0 0xffffffff.

(** gdtdesc: .word gdtdesc - gdt - 1, with gdtdesc right behind gdt *)
Definition boot_limit : Z := Z.of_nat (length boot_gdt) - 1.

(** ** The source files *)

Definition CR0_PE : Z := 0x1.
Definition CR0_WP : Z := 0x10000.
Definition CR0_PG : Z := 0x80000000.
Definition CR4_PSE : Z := 0x10.

(** start of bootasm.S and entryother.S: real mode data segments *)
Definition zero_segments : list binstr := [Cli; XorW EAX; I (MovS EAX DS); I (MovS EAX ES); I (MovS EAX SS)].

Definition seta20 : list binstr := [WaitReady; MovB 0xd1; OutB 0x64; WaitReady; MovB 0xdf; OutB 0x60].

Definition protect (gdt start32 : Z) : list binstr :=
  [Lgdt boot_limit gdt; MovFromCR CR0 EAX; OrI CR0_PE EAX; MovToCR EAX CR0; Ljmp (Z.shiftl SEG_KCODE 3) start32].

Definition set_segments : list binstr :=
  [I (MovWI (Z.shiftl SEG_KDATA 3) EAX); I (MovS EAX DS); I (MovS EAX ES); I (MovS EAX SS);
   I (MovWI 0 EAX); I (MovS EAX FS); I (MovS EAX GS)].

Definition page_size : list binstr := [MovFromCR CR4 EAX; OrI CR4_PSE EAX; MovToCR EAX CR4].

(** bootasm.S to the call of bootmain *)
Definition bootasm (start gdt start32 bootmain next : Z) : list binstr :=
  zero_segments ++ seta20 ++ protect gdt start32 ++ set_segments ++ [I (MovI start ESP); CallI bootmain next].

(** entry.S *)
Definition entry (entrypgdir stack main : Z) : list binstr :=
  page_size ++
  [I (MovI (V2P entrypgdir) EAX); MovToCR EAX CR3;
   MovFromCR CR0 EAX; OrI (Z.lor CR0_PG CR0_WP) EAX; MovToCR EAX CR0;
   I (MovI (u32 (stack + KSTACKSIZE)) ESP); I (MovI main EAX); JmpR EAX].

(** entryother.S to the call of mpenter *)
Definition entryother (start gdt start32 next : Z) : list binstr :=
  zero_segments ++ protect gdt start32 ++ set_segments ++ page_size ++
  [LoadAbs (start - 12) EAX; MovToCR EAX CR3;
   MovFromCR CR0 EAX; OrI (Z.lor (Z.lor CR0_PE CR0_PG) CR0_WP) EAX; MovToCR EAX CR0;
   LoadAbs (start - 4) ESP; CallAbs (start - 8) next].

(** The multiboot header of entry.S. *)
Definition multiboot_header : list Z := [0x1badb002; 0; u32 (- 0x1badb002 - 0)].

(** ** Descriptors *)

(** The eight bytes of descriptor [k] as the processor reads them. *)
Fixpoint le (bs : list Z) : Z := match bs with [] => 0 | b :: bs => b + 2 ^ 8 * le bs end.
Definition descriptor (k : nat) (gdt : list Z) : segment := decode (le (firstn 8 (skipn (8 * k) gdt))).

Lemma boot_gdt_flat :
  descriptor 1 boot_gdt = mk_segment 0 0xffffffff (Z.lor STA_X STA_R) 1 0 1 /\
  descriptor 2 boot_gdt = mk_segment 0 0xffffffff STA_W 1 0 1 /\ le (firstn 8 boot_gdt) = 0 /\ boot_limit = 23.
Proof. vm_compute. done. Qed.

(** ** Running *)

Ltac brun_asm :=
  cbv [brun bexec bootasm entry entryother zero_segments protect set_segments page_size on_core get_cr set_cr set_al rget_core
       exec_instr push on_gr on_sr set_meip set_meflags rget rset sget sset top
       core cr0 cr3 cr4 gdtr status writes
       gr sr m_eip m_eflags ram r_eax r_ecx r_edx r_ebx r_esp r_ebp r_esi r_edi s_cs s_ss s_ds s_es s_fs s_gs app].

Lemma brun_app c1 c2 b : brun (c1 ++ c2) b = match brun c1 b with Some b => brun c2 b | None => None end.
Proof.
  revert b. induction c1 as [|i c1 IH]; intros b; cbn [brun app]; [done|].
  destruct (bexec i b); [apply IH|done].
Qed.

Definition busy_status (b : Z) : Prop := Z.land b 0x2 <> 0.

Lemma kbc_ready_busy w r st :
  Forall busy_status w -> ~ busy_status r -> kbc_ready (w ++ r :: st) = Some (r, st).
Proof.
  intros Hw Hr. induction Hw as [|b w Hb Hw IH]; cbn [kbc_ready app].
  - unfold busy_status in Hr. destruct (Z.eqb_spec (Z.land r 0x2) 0); [done|contradiction].
  - unfold busy_status in Hb. by destruct (Z.eqb_spec (Z.land b 0x2) 0).
Qed.

(** The value of al after [movb]. *)
Lemma al_set v g : 0 <= v < 256 -> Z.land (r_eax (set_al v g)) 0xff = v.
Proof.
  intros Hv. destruct g as [a c d b sp bp si di]. cbn [set_al rset r_eax]. rewrite Z.land_lor_distr_l, <- Z.land_assoc.
  change (Z.land 0xffffff00 0xff) with 0. rewrite Z.land_0_r, Z.lor_0_l. change 0xff with (Z.ones 8).
  rewrite Z.land_ones by lia. by apply Z.mod_small.
Qed.

(** Each byte goes to the controller when it is ready. *)
Lemma seta20_run w1 w2 r1 r2 st b :
  Forall busy_status w1 -> Forall busy_status w2 -> ~ busy_status r1 -> ~ busy_status r2 ->
  status b = w1 ++ r1 :: w2 ++ r2 :: st ->
  exists a, brun seta20 b =
    Some (mk_bmachine (on_gr (rset EAX a) (core b)) (cr0 b) (cr3 b) (cr4 b) (gdtr b) st
            (writes b ++ [(0x64, 0xd1); (0x60, 0xdf)])).
Proof.
  intros Hw1 Hw2 Hr1 Hr2 Hst. destruct b as [[g sg ip fl m] c0 c3 c4 gd st0 ws]. cbn [status] in Hst. subst st0.
  cbn [brun seta20 bexec status]. rewrite kbc_ready_busy by done. cbn [status on_core]. cbn [brun bexec status].
  rewrite kbc_ready_busy by done. unfold rget_core. cbn [core writes on_core on_gr gr sr rget m_eip m_eflags ram cr0 cr3 cr4 gdtr status].
  rewrite !al_set by lia. exists (r_eax (set_al 0xdf (set_al r2 (set_al 0xd1 (set_al r1 g))))). rewrite <- app_assoc.
  destruct g as [a c d b sp bp si di]. reflexivity.
Qed.

Lemma cli_clear f : Z.land (Z.land f (Z.lnot IF_FLAG)) IF_FLAG = 0.
Proof.
  rewrite <- Z.land_assoc, (Z.land_comm (Z.lnot IF_FLAG)), Z.land_lnot_diag. apply Z.land_0_r.
Qed.

Definition flat_kernel : segs := mk_segs (Z.shiftl SEG_KCODE 3) (Z.shiftl SEG_KDATA 3) (Z.shiftl SEG_KDATA 3) (Z.shiftl SEG_KDATA 3) 0 0.

(** The boot sector reaches bootmain in protected mode without
    paging: interrupts are off, both bytes that open address line 20 were
    written when the keyboard controller was ready, the segments are the flat
    ones of its descriptor table, and the stack grows down from the boot
    sector. *)
Theorem bootasm_spec (start gdt start32 bootmain next : Z) (b : bmachine) (w1 w2 : list Z) (r1 r2 : Z) (st : list Z) :
  4 <= start < 2 ^ 32 ->
  Forall busy_status w1 -> Forall busy_status w2 -> ~ busy_status r1 -> ~ busy_status r2 ->
  status b = w1 ++ r1 :: w2 ++ r2 :: st ->
  exists b', brun (bootasm start gdt start32 bootmain next) b = Some b' /\
    m_eip (core b') = bootmain /\ cr0 b' = Z.lor (cr0 b) CR0_PE /\ cr3 b' = cr3 b /\
    Z.land (m_eflags (core b')) IF_FLAG = 0 /\ sr (core b') = flat_kernel /\
    r_esp (gr (core b')) = start - 4 /\ gdtr b' = (boot_limit, gdt) /\
    descriptor (Z.to_nat (Z.shiftr (s_cs (sr (core b'))) 3)) boot_gdt = mk_segment 0 0xffffffff (Z.lor STA_X STA_R) 1 0 1 /\
    descriptor (Z.to_nat (Z.shiftr (s_ss (sr (core b'))) 3)) boot_gdt = mk_segment 0 0xffffffff STA_W 1 0 1 /\
    writes b' = writes b ++ [(0x64, 0xd1); (0x60, 0xdf)].
Proof.
  intros Hs Hw1 Hw2 Hr1 Hr2 Hst. unfold bootasm. rewrite brun_app.
  destruct b as [[[a c d b sp bp si di] [cs_ ss_ ds_ es_ fs_ gs_] ip fl m] c0 c3 c4 gd st0 ws].
  cbn [status] in Hst. subst st0. destruct (brun zero_segments _) as [b1|] eqn:E1; [|discriminate]. revert E1. brun_asm. intros [= <-].
  rewrite brun_app. edestruct (seta20_run w1 w2 r1 r2 st) as [al ->]; [done..|].
  brun_asm. eexists. split; [reflexivity|]. rewrite !lo16_pack by (vm_compute; split; congruence).
  rewrite u32_small by (unfold is_u32; lia).
  split_and!; try reflexivity. apply cli_clear.
Qed.

(** The kernel's entry point turns on paging with 4 MB pages
    through entrypgdir, which maps the code that it is running where it is and
    main where it was linked, and jumps to main on the boot stack. *)
Theorem entry_spec (entrypgdir stack main pc : Z) (b : bmachine) :
  is_u32 (stack + KSTACKSIZE) -> 0 <= pc < 0x400000 -> KERNBASE <= main < KERNBASE + 0x400000 ->
  exists b', brun (entry entrypgdir stack main) b = Some b' /\
    m_eip (core b') = main /\ r_esp (gr (core b')) = stack + KSTACKSIZE /\ sr (core b') = sr (core b) /\
    cr3 b' = V2P entrypgdir /\ cr4 b' = Z.lor (cr4 b) CR4_PSE /\
    cr0 b' = Z.lor (cr0 b) (Z.lor CR0_PG CR0_WP) /\
    translate4M entrypgdir_entry pc = Some pc /\ translate4M entrypgdir_entry main = Some (V2P main).
Proof.
  intros Hst Hpc Hmain. destruct b as [[[a c d b sp bp si di] sg ip fl m] c0 c3 c4 gd st ws].
  brun_asm. eexists. split; [reflexivity|]. rewrite u32_small by done.
  assert (Hv : V2P main = main - KERNBASE) by (unfold V2P; apply u32_small; unfold is_u32, KERNBASE in *; lia).
  destruct (entrypgdir_maps pc Hpc) as [H1 _]. destruct (entrypgdir_maps (main - KERNBASE)) as [_ H2]; [lia|].
  replace (KERNBASE + (main - KERNBASE)) with main in H2 by lia. rewrite Hv. by split_and!.
Qed.

(** Entryother.S, on a processor that starts with interrupts in
    any state, reaches the function of the word start-8 in protected mode with
    paging, with the directory of start-12 and the stack of start-4: the three
    reads that startothers counts on. *)
Theorem entryother_spec (gdt start32 next : Z) (m : mem) (b : bmachine) (pd sp e : Z) :
  let start := V2P code in
  (forall x, 0 <= x < 0x400000 -> ram (core b) x = m (P2V x)) -> 4 <= sp < 2 ^ 32 ->
  mbind (next_read m) (mbind (next_read m) (next_read m Cold)) = Some (Entered pd sp e) ->
  exists b', brun (entryother start gdt start32 next) b = Some b' /\
    cr3 b' = pd /\ r_esp (gr (core b')) = sp - 4 /\ m_eip (core b') = e /\
    Z.land (m_eflags (core b')) IF_FLAG = 0 /\ sr (core b') = flat_kernel /\ gdtr b' = (boot_limit, gdt) /\
    cr4 b' = Z.lor (cr4 b) CR4_PSE /\
    cr0 b' = Z.lor (Z.lor (cr0 b) CR0_PE) (Z.lor (Z.lor CR0_PE CR0_PG) CR0_WP).
Proof.
  intros start Hm Hsp Hr. injection Hr as Hpd Hsp' He.
  assert (Hl : forall d, 4 <= d <= 12 -> load32 (ram (core b)) (start - d) = load32 m (Main.code - d)).
  { intros d Hd. change start with 0x7000. rewrite code_eq. unfold load32. rewrite !Hm by lia. unfold P2V, KERNBASE.
    rewrite !u32_small by (unfold is_u32; lia).
    rewrite !(Z.add_shuffle0 (0x7000 - d) _ 0x80000000). by replace (0x80007000 - d) with (0x7000 - d + 0x80000000) by lia. }
  rewrite <- !Hl in Hpd, Hsp', He by lia. clear Hl Hm. clearbody start.
  destruct b as [[[a c d b sp_ bp si di] [cs_ ss_ ds_ es_ fs_ gs_] ip fl m0] c0 c3 c4 gd st ws]. cbn [core ram] in *.
  brun_asm. eexists. split; [reflexivity|]. rewrite !lo16_pack by (vm_compute; split; congruence).
  rewrite Hsp', u32_small by (unfold is_u32; lia).
  split_and!; try reflexivity; [exact Hpd|exact He|apply cli_clear].
Qed.

(** The sum of the words of a multiboot header is zero. *)
Lemma multiboot_checksum : u32 (foldr Z.add 0 multiboot_header) = 0.
Proof. reflexivity. Qed.

(** ** Concrete machines *)

(** After the BIOS: interrupts on, real mode; the controller is busy twice. *)
Definition sample_bios (m : mem) : bmachine :=
  mk_bmachine (mk_machine (mk_gprs 0xaa55 1 2 3 0x6f00 6 7 8) (mk_segs 0 0 0 0 0 0) 0x7c00 0x202 m) 0x10 0 0 (0, 0) [0x1e; 0x1c; 0x1e; 0x14] [].

Lemma bootasm_spec_witness :
  exists b', brun (bootasm 0x7c00 0x7c60 0x7c31 0x7d3b 0x7c4d) (sample_bios (fun _ => 0)) = Some b' /\
    m_eip (core b') = 0x7d3b /\ cr0 b' = 0x11 /\ r_esp (gr (core b')) = 0x7bfc.
Proof.
  destruct (bootasm_spec 0x7c00 0x7c60 0x7c31 0x7d3b 0x7c4d (sample_bios (fun _ => 0)) [0x1e] [0x1e] 0x1c 0x14 [])
    as (b' & H1 & H2 & H3 & _ & _ & _ & H4 & _).
  - lia.
  - apply Forall_cons_2; [vm_compute; discriminate|apply Forall_nil_2].
  - apply Forall_cons_2; [vm_compute; discriminate|apply Forall_nil_2].
  - intros H. apply H. reflexivity.
  - intros H. apply H. reflexivity.
  - reflexivity.
  - exists b'. split_and!; [exact H1|exact H2|exact H3|exact H4].
Defined.

Lemma entry_spec_witness :
  exists b', brun (entry 0x80109000 0x8010b5c0 0x80102ea0) (sample_bios (fun _ => 0)) = Some b' /\
    m_eip (core b') = 0x80102ea0 /\ cr3 b' = 0x109000.
Proof.
  destruct (entry_spec 0x80109000 0x8010b5c0 0x80102ea0 0x10000c (sample_bios (fun _ => 0))) as (b' & H1 & H2 & _ & _ & H3 & _).
  - unfold is_u32, KSTACKSIZE. lia.
  - lia.
  - unfold KERNBASE. lia.
  - exists b'. split_and!; [exact H1|exact H2|exact H3].
Defined.

Definition sample_words : mem := set_words 0x80102f00 0x80109000 0x8dffe000 (fun _ => 0).

Lemma entryother_spec_witness :
  exists b', brun (entryother 0x7000 0x7060 0x7021 0x7059) (sample_bios (fun x => sample_words (P2V x))) = Some b' /\
    m_eip (core b') = 0x80102f00 /\ cr3 b' = 0x109000 /\ r_esp (gr (core b')) = 0x8dffeffc.
Proof.
  destruct (entryother_spec 0x7060 0x7021 0x7059 sample_words (sample_bios (fun x => sample_words (P2V x)))
              0x109000 0x8dfff000 0x80102f00) as (b' & H1 & H2 & H3 & H4 & _).
  - intros x _. reflexivity.
  - lia.
  - vm_compute. reflexivity.
  - exists b'. split_and!; [exact H1|exact H4|exact H2|exact H3].
Defined.
